(* ===== verification/_CoqProject ===== *)
-Q . S2P
Prelude.v
Unicode.v
RustStr.v
IpAddr.v
Target.v
Policy.v
PolicyFile.v
RuleText.v
PolicyEdit.v
PolicyRecord.v
Packet.v
Reset.v
Dns.v
Procinfo.v
Abi.v
ProcstatSys.v
ProcstatTypes.v
BindgenBits.v
Descriptors.v
ProcScan.v
KernAttr.v
Handles.v
Identity.v
Seen.v
Daemon.v
DaemonSpec.v
DaemonIo.v
DaemonLoop.v
DaemonScenario.v
KernModule.v
KernLabels.v
ModuleSpec.v
ModuleLink.v
ModuleDaemon.v
ModuleFollows.v
KernSleep.v
ModuleSystem.v
Threads.v
ThreadsLive.v
ModuleScenario.v
ThreadScenario.v
Cli.v
Watchdog.v
Prompts.v
PromptBackends.v
Service.v
UnitTests.v
