(* ===== verification/Prelude.v ===== *)
(** pfsnitch: a verification development

    pfsnitch is a per-application outbound firewall for FreeBSD.  pf diverts outbound
    packets to a daemon, which finds the process behind each flow, decides it against a
    policy file, and reinjects, rejects or holds the packet; a held packet raises a prompt
    whose answer becomes a rule.  A kernel module can answer for whole connections from a
    cache the daemon fills, and asks the daemon about what it does not know ("upcalls").  A
    command line edits the same policy file.  This library models the Rust sources under
    src/src/ and the module, src/kmod/mac_pfsnitch.c, as executable functions and proves
    what they promise, separately and together.

    The files.

    - Prelude.v (this file): the result type with panics, bytes and integers, sets,
      shared tactics and the hint database [pfs].
    - Unicode.v, RustStr.v, IpAddr.v: the parts of the Rust standard library the program
      relies on - [char::is_whitespace] and [to_lowercase], [str] methods, [lines],
      [trim], UTF-8, integers in decimal, parsing and printing [IpAddr] - with their
      round trips.  Strings are lists of code points.
    - Target.v, Policy.v (policy.rs): [split_target] and its relatives; the policy record,
      [Policy::load] line by line ([line_change], [apply_change]) and [Policy::decide].
    - PolicyFile.v (policy.rs): a file system whose calls fail as the class [Io] says, and
      every operation on the policy file.  RuleText.v relates lines to the rules they
      stand for; PolicyEdit.v proves the operations; PolicyRecord.v models and proves
      [record], [record_id], [forget_id].
    - Packet.v, Reset.v (divert.rs): parsing IPv4 and IPv6 packets; checksum and RST.
    - Dns.v (dns.rs): reading responses and the name cache.
    - Procinfo.v (procinfo.rs): the three attribution tiers, the snapshot of the process
      table, the resolver.
    - Abi.v, KernAttr.v (kernattr.rs, kmod/pfsnitch_ioctl.h): C structure layout, and the
      protocol with the module.
    - ProcstatSys.v, ProcstatTypes.v (procstat_sys.rs): the structures the code reads, and
      then every other type and constant of the bindings, with the size, alignment and
      offset assertions.  BindgenBits.v, Descriptors.v (the same file): bit fields, by
      reference and through raw pointers, and the descriptors made of them.  ProcScan.v (procinfo.rs, [snapshot] and
      [daemon_running]): the calls to libprocstat and the walk over the memory they hand
      over, related to the snapshot of Procinfo.v.
    - Handles.v (divert.rs, [Divert]; kernattr.rs, both handles): code that makes system
      calls, in a monad whose state is the history of the calls and errno.
    - Identity.v (identity.rs), Seen.v (seen.rs): the hash cache and the contact table.
    - Daemon.v (main.rs, [run]): the variables of [run] as the record [Daemon] and one
      definition per part of its loop; what it does to the outside is a list of [effect]s.
      [handle_answer], [handle_upcall], [handle_tick] (= [flush_seen], [forget_logged],
      [reconnect], [reload], [reconcile]), [handle_packet] (= [judge], [settle],
      [deliver]), [handle_shutdown], [start], and [run_pass], which composes them in the
      loop's order.  DaemonSpec.v proves the handlers; DaemonLoop.v gives the transition
      system, its invariants, and that passes are steps of it; DaemonIo.v carries the
      receive turn down to the system calls on the divert socket; DaemonScenario.v applies
      the theorems to a concrete run and shows behaviours the comments do not lead one to
      expect.
    - KernModule.v (mac_pfsnitch.c): the verdict cache, the request queue, the connect
      hook and the device, one definition per C function over the record [Module_];
      [mod_step] is the module as a machine.  ModuleSpec.v gives its invariant [module_ok]
      and the map the cache refines; ModuleLink.v puts the client of KernAttr.v and the
      module face to face; ModuleDaemon.v runs the effects of the daemon's handlers on the
      module; ModuleFollows.v reads off a handler's effects, one by one, what they do to
      the switch and to the diversion of UDP; ModuleSystem.v interleaves handlers,
      connects, reads and the ioctls of other tools in one transition system, whose
      projection is that of DaemonLoop.v; ModuleScenario.v is to these what
      DaemonScenario.v is to the daemon.  KernLabels.v: the labels of sockets as
      allocations of kernel memory, from [socket_create] to [destroy_label] or unloading.
      KernSleep.v: any number of threads in [pfsn_read], asleep, woken, copying out or
      interrupted, beside everything else that happens to the module ([readers_step]).
    - Threads.v (main.rs, [run] with its threads): the main thread step by step
      ([main_step]: a turn of a drain, a handler, or one effect), the prompt threads, the
      reader threads, the two channels, SIGTERM and sudden death, interleaved with the
      module and with programs that connect; [threads_reachable] and its invariant [tinv].
      ThreadsLive.v follows the main thread when it runs, ThreadScenario.v applies the
      theorems.
    - Cli.v (main.rs): the commands, their output and exit status.
    - Watchdog.v (libexec/pfsnitch-watchdog): the loop that looks for the daemon, over the
      anchor and the module it resets.
    - Prompts.v (libexec/pfsnitch-prompt-common, bin/pfsnitch-answer): prompts and answering
      frontends over the files they share, one file operation at a time ([prompts_step]).
      PromptBackends.v (pfsnitch-prompt, -tty, -deny): choosing a backend, the terminal.
    - Service.v (rc.d/pfsnitch, bin/pfsnitch-panic): each operation of the service and the
      panic as the commands they run, in a monad whose state is the history of commands.
    - UnitTests.v: the repository's unit tests, evaluated by the kernel.

    How state and failure are represented.

    Stateful code passes its state explicitly.  Fallible parsing of bytes is in [res],
    where [Panic] is an index out of range, so that "never panics" is a theorem.  System
    calls and other programs are parameters: [Io] (the file system), [Device] (the ioctls
    of the module), [Os] (sockets and descriptors: an answer to each call, given all the
    calls before it), libprocstat (the same, in ProcScan.v), [Pcbs] (the stack's table of
    sockets), [Machine] (what a command of a script answers, given all before it), [Build]
    (the target's bit order and whether debug assertions are compiled in), and [Env] (everything a handler of the daemon sees: the clock, the process
    table, stat(2), sha256(1), whether a device opens).  A theorem that needs one of them
    to behave says so.  Instants are nanoseconds, times of day seconds.  Machine
    integers are [Z] with their width written out: [add32] wraps, ports are 16 bits,
    [checked_add] is [usize].

    What is proved.

    - Decisions: [decide] is exactly deny over allow over default, over the rules' meaning
      ([Policy.decide_spec]); no change re-opens what is denied; a scoped rule leaves
      other programs and ports alone.
    - The file: each operation has the effect it is for on the policy that the next load
      reads, leaves the rest as it was, and a crash at any point leaves either the old or
      the new text (PolicyEdit.v); answers settle the connection they answer, now and after
      a restart, under conditions that are stated and shown to matter (PolicyRecord.v).
    - Packets: parsers never read out of bounds, read back what was encoded, and the
      checksum is the Internet checksum; the reset reads as the answer to its segment.
    - DNS: termination and safety on any input, including pointer cycles; reading back
      well-formed responses; the cache.
    - Attribution: no tier names a process unless every claimant of the key is that
      process; what the resolver caches; the walk over libprocstat's lists computes the
      snapshot and gives everything back, whatever fails.
    - Descriptors: each failure of [bind] is reported with the errno of the call that
      failed and leaves nothing open; no handle leaks or is used after it was closed.
    - The module: sizes, offsets and ioctl numbers against the C header; requests decode
      to what was meant; a dead handle stays silent.  The cache is a finite map with its
      bound, the queue asks each question once and never runs past its own; counters do
      not wrap; a verdict pushed by the client decides the next connect, and a question
      travels through the reader to an answer that lets the retry through or refuses it.
    - Daemon and module: in every state they reach together, with programs connecting in
      between, both agree on the switch, and UDP is diverted or asked about
      ([ModuleSystem.udp_governed]); a change of policy empties both sides' verdicts in one tick;
      the switch to visibility and shutdown leave a module that, at that moment, refuses and
      delays nothing - an upcall read before the switch and handled after it can still put a
      deny in the cache ([ModuleScenario.late_upcall_blocks]).
    - Threads: under every interleaving the daemon's world is one the loop reaches
      (Threads.v refines DaemonLoop.v), each question asked is one in flight, and no moment
      leaves UDP to nobody but the one before a pending divert; the process may die at any
      step and the module then asks no more.  The main thread always has a next step, and a
      pass handles every message it finds, in order, and carries out every effect; a
      question of the kernel's is settled, or put to the user, within a pass, and the user's
      verdict reaches the program that retries (ThreadsLive.v).
    - Labels: kernel memory is never used after it is freed, freed twice or leaked, and
      reads see what a table of values would hold (KernLabels.v).
    - Readers: no thread sleeps in the module's device while there is something for it, no
      two are handed one question, and unloading brings every one of them out before the
      device and its mutex go (KernSleep.v).
    - The bindings: C's layout of every structure and union is the one asserted
      ([ProcstatTypes.structures_hold], an evaluation); a bit field
      reads back what was written, cut to its width, and nothing else changes, on either
      endianness and also through raw pointers.
    - The service: rules that divert go in only with a daemon found; a start is refused
      with the anchor as it was, or flushes, runs the daemon, and ends diverting to a daemon it
      found or in the configured failsafe - unless daemon(8) itself fails, which leaves the
      anchor empty; stop takes the rules out first, then kills watchdog, supervisor and
      daemon, each unless it is known to be gone, in the order that lets nothing respawn; the
      panic puts nothing in place and leaves pf off (Service.v).
    - The watchdog: it acts only on three turns that agree; with the daemon gone it replaces
      divert rules by the fail-open ones, or empties the anchor, as the administrator chose,
      and resets the module once, which then refuses nothing if the device answered.
    - Prompts: a prompt ends whatever the shared files hold, with a word the daemon knows;
      what it prints was written by a frontend that read its nonce after it was raised,
      though the press may be older; the prompt that published last can be answered.  The
      dispatcher runs the backend that was asked for or fits, if it is installed.  On a
      terminal only six replies allow.
    - The loop: visibility never blocks, down to the bytes and the address of the one
      send; in any mode only the packet or its reset leaves; in enforcement each verdict
      has its exact outcome; a replaced binary is held; an approval ends the question; the daemon has the
      module ask only in enforcement, and pf divert UDP when it does not; questions
      being asked and open prompts agree; a changed policy file replaces everything
      derived from the old one; shutdown restores both.
    - The command line: JSON reads back, the grouping loses nothing, [--from] never
      widens.

    Bounds and fuel.

    [fold_fuel] = 3 rounds fold any 32-bit sum ([Reset.fold16_reduce]).  [name_fuel] is
    (hops + 1) * (length + 1), more than the measure [todo] that every turn of
    [read_name] decreases.  [max_ext] = 8 is the code's own bound.  [walk_files] follows
    links in memory with a fuel its caller gives; [ProcScan.scan_reads] shows that the
    length of the longest list is enough.  [read_words] stops at the code's own eighth
    word.  No other definition takes fuel.

    What is not modelled.

    In the module: the declarations that register it (the policy's table of hooks, the
    device switch, the sysctl) and the locks, since each critical section is one step.
    Between threads: a handler computes in one step (its inputs are its own and the files;
    its effects are interleaved one by one), sends on a socket succeed or fail unseen, and
    pfctl is taken to succeed; a read that finds nothing changes nothing there and is tried
    again, where KernSleep.v puts the thread to sleep and wakes it.  The joint systems leave
    out unloading the module and other tools that throw its switch: kernel-reset runs
    in Watchdog.v, where no daemon is left.  What pf does with its rules, and what happens
    on the machine between two commands of a script beyond the answers it gets.  The windows
    of the eww prompt with their configuration, and the installation script, which copies
    files; log lines and standard error.  In the bindings, the functions they declare are
    libprocstat, and the pointer casts of [__IncompleteArrayField], which nothing calls, are
    left out.  Where a Rust hash
    map is iterated, its order is a parameter or the result does not depend on it, except
    for rows of [probe] that compare equal. *)
From stdpp Require Export prelude gmap strings.
From Stdlib Require Export ZArith.

#[export] Set Default Proof Using "Type".
Global Open Scope Z_scope.

(** ** Automation shared by every file *)

Create HintDb pfs.
#[export] Hint Constants Opaque : pfs.

(** Split every boolean connective and comparison in sight into propositions. *)
Ltac bool_to_prop :=
  repeat match goal with
  | H : (_ && _) = true |- _ => apply andb_true_iff in H; destruct H
  | H : (_ || _) = false |- _ => apply orb_false_iff in H; destruct H
  | H : (_ || _) = true |- _ => apply orb_true_iff in H
  | H : (_ && _) = false |- _ => apply andb_false_iff in H
  | H : negb _ = true |- _ => apply negb_true_iff in H
  | H : negb _ = false |- _ => apply negb_false_iff in H
  | H : (_ =? _) = true |- _ => apply Z.eqb_eq in H
  | H : (_ =? _) = false |- _ => apply Z.eqb_neq in H
  | H : (_ <? _) = true |- _ => apply Z.ltb_lt in H
  | H : (_ <? _) = false |- _ => apply Z.ltb_ge in H
  | H : (_ <=? _) = true |- _ => apply Z.leb_le in H
  | H : (_ <=? _) = false |- _ => apply Z.leb_gt in H
  | H : (_ <? _)%nat = true |- _ => apply Nat.ltb_lt in H
  | H : (_ <? _)%nat = false |- _ => apply Nat.ltb_ge in H
  | H : (_ <=? _)%nat = true |- _ => apply Nat.leb_le in H
  | H : (_ <=? _)%nat = false |- _ => apply Nat.leb_gt in H
  | H : (_ =? _)%nat = true |- _ => apply Nat.eqb_eq in H
  | H : (_ =? _)%nat = false |- _ => apply Nat.eqb_neq in H
  | H : bool_decide _ = true |- _ => apply bool_decide_eq_true in H
  | H : bool_decide _ = false |- _ => apply bool_decide_eq_false in H
  end.

(** Case on the scrutinee of a [match]/[if] of the goal, remembering it. *)
Ltac case_goal :=
  match goal with
  | |- context [match ?x with _ => _ end] => destruct x eqn:?
  end.

(** ** Outcomes of code that indexes slices

    A Rust function returning [Option<T>] has three outcomes: it returns [Some v]
    ([Ok v]), it returns [None] ([Nope], also what [?] propagates), or an index or
    slice expression is out of range and the program aborts ([Panic]; the release
    profile sets [panic = "abort"]). *)

Inductive res (A : Type) : Type :=
| Ok (a : A)
| Nope
| Panic.
Arguments Ok {A} _.
Arguments Nope {A}.
Arguments Panic {A}.

#[export] Instance res_ret : MRet res := fun A a => Ok a.
#[export] Instance res_bind : MBind res := fun A B f m =>
  match m with Ok a => f a | Nope => Nope | Panic => Panic end.
#[export] Instance res_fmap : FMap res := fun A B f m =>
  match m with Ok a => Ok (f a) | Nope => Nope | Panic => Panic end.

Definition of_option {A} (o : option A) : res A :=
  match o with Some a => Ok a | None => Nope end.

(** What the caller of the Rust function sees when no panic happened. *)
Definition to_option {A} (m : res A) : option A :=
  match m with Ok a => Some a | _ => None end.

Lemma res_bind_ok {A B} (f : A -> res B) (m : res A) (b : B) :
  (m ≫= f) = Ok b <-> exists a, m = Ok a /\ f a = Ok b.
Proof.
  destruct m as [a| |]; cbn; split; try (intros; by exists a); try done;
    by intros (? & [=] & ?); simplify_eq.
Qed.

Lemma res_bind_panic {A B} (f : A -> res B) (m : res A) :
  (m ≫= f) = Panic <-> m = Panic \/ exists a, m = Ok a /\ f a = Panic.
Proof.
  destruct m as [a| |]; cbn; split; try (intros; right; by exists a);
    try (by left); intros [|(? & [=] & ?)]; simplify_eq; done.
Qed.

(** Does not abort. *)
Definition safe {A} (m : res A) : Prop := m <> Panic.

Lemma safe_ok {A} (a : A) : safe (Ok a).
Proof. done. Qed.
Lemma safe_nope {A} : safe (@Nope A).
Proof. done. Qed.
Lemma safe_bind {A B} (f : A -> res B) (m : res A) :
  safe m -> (forall a, m = Ok a -> safe (f a)) -> safe (m ≫= f).
Proof. destruct m as [a| |]; unfold safe; cbn; auto. Qed.
Lemma safe_of_option {A} (o : option A) : safe (of_option o).
Proof. by destruct o. Qed.
#[export] Hint Resolve safe_ok safe_nope safe_of_option : pfs.

(** ** Bytes, indices and slices *)

Definition byte_ok (b : Z) : Prop := 0 <= b < 256.
Abbreviation bytes_ok := (Forall byte_ok).

(** [b[i]]: aborts out of range. *)
Definition idx (b : list Z) (i : nat) : res Z :=
  match b !! i with Some v => Ok v | None => Panic end.

(** [b.get(i)?] *)
Definition get_ (b : list Z) (i : nat) : res Z := of_option (b !! i).

(** [&b[i..j]]: aborts when [i > j] or [j > b.len()]. *)
Definition slice (b : list Z) (i j : nat) : res (list Z) :=
  if (i <=? j)%nat && (j <=? length b)%nat then Ok (take (j - i) (drop i b)) else Panic.

Lemma idx_ok b i : (i < length b)%nat -> exists v, idx b i = Ok v /\ b !! i = Some v.
Proof.
  intros Hi. destruct (lookup_lt_is_Some_2 b i Hi) as [v Hv].
  exists v. unfold idx. by rewrite Hv.
Qed.

Lemma idx_inv b i v : idx b i = Ok v -> b !! i = Some v.
Proof. unfold idx. destruct (b !! i); congruence. Qed.

Lemma idx_safe b i : (i < length b)%nat -> safe (idx b i).
Proof. intros Hi. destruct (idx_ok b i Hi) as (v & -> & _). done. Qed.

Lemma slice_safe b i j : (i <= j)%nat -> (j <= length b)%nat -> safe (slice b i j).
Proof.
  intros. unfold slice. rewrite (proj2 (Nat.leb_le _ _)), (proj2 (Nat.leb_le _ _)) by lia.
  done.
Qed.

Lemma get_safe b i : safe (get_ b i).
Proof. apply safe_of_option. Qed.
#[export] Hint Resolve get_safe : pfs.

Lemma slice_inv b i j s :
  slice b i j = Ok s -> (i <= j <= length b)%nat /\ s = take (j - i) (drop i b).
Proof. unfold slice. case_goal; [|done]. intros [= <-]. bool_to_prop. split; [lia|done]. Qed.

Lemma bytes_ok_lookup b i v : bytes_ok b -> b !! i = Some v -> byte_ok v.
Proof. intros Hb Hi. by eapply Forall_lookup_1. Qed.

(** ** Big-endian digits in base [2^k]

    Addresses are stored as one integer; octets, 16-bit groups and header fields
    are its big-endian digits. *)

Fixpoint be_join (k : Z) (l : list Z) : Z :=
  match l with
  | [] => 0
  | d :: l' => d * 2 ^ (k * Z.of_nat (length l')) + be_join k l'
  end.

Fixpoint be_split (k : Z) (n : nat) (z : Z) : list Z :=
  match n with
  | O => []
  | S m => (z / 2 ^ (k * Z.of_nat m)) mod 2 ^ k :: be_split k m z
  end.

Definition digits_ok (k : Z) (l : list Z) : Prop := Forall (fun d => 0 <= d < 2 ^ k) l.

Lemma be_split_length k n z : length (be_split k n z) = n.
Proof. induction n as [|n IH]; cbn; [done | by rewrite IH]. Qed.

Lemma be_split_ok k n z : 0 <= k -> digits_ok k (be_split k n z).
Proof.
  intros Hk. induction n as [|n IH]; cbn; constructor; [|done].
  apply Z.mod_pos_bound. apply Z.pow_pos_nonneg; lia.
Qed.

Lemma be_join_bound k l : 0 <= k -> digits_ok k l -> 0 <= be_join k l < 2 ^ (k * Z.of_nat (length l)).
Proof.
  intros Hk. induction 1 as [|d l Hd Hl IH]; cbn [be_join length].
  - rewrite Z.mul_0_r, Z.pow_0_r. lia.
  - replace (k * Z.of_nat (S (length l))) with (k * Z.of_nat (length l) + k) by lia.
    rewrite Z.pow_add_r by lia. nia.
Qed.

Lemma be_join_split_mod k n z :
  0 <= k -> be_join k (be_split k n z) = z mod 2 ^ (k * Z.of_nat n).
Proof.
  intros Hk. induction n as [|n IH]; cbn [be_join be_split].
  - by rewrite Z.mul_0_r, Z.pow_0_r, Z.mod_1_r.
  - rewrite be_split_length, IH.
    replace (k * Z.of_nat (S n)) with (k * Z.of_nat n + k) by lia.
    rewrite Z.pow_add_r, Z.rem_mul_r by (try apply Z.pow_nonzero; lia). lia.
Qed.

Lemma be_join_split k n z :
  0 <= k -> 0 <= z < 2 ^ (k * Z.of_nat n) -> be_join k (be_split k n z) = z.
Proof. intros Hk Hz. rewrite be_join_split_mod by done. by apply Z.mod_small. Qed.

Lemma be_split_add k n z y :
  0 <= k -> be_split k n (y * 2 ^ (k * Z.of_nat n) + z) = be_split k n z.
Proof.
  intros Hk. revert y. induction n as [|n IH]; intros y; cbn [be_split]; [done|].
  assert (E : y * 2 ^ (k * Z.of_nat (S n)) + z = (y * 2 ^ k) * 2 ^ (k * Z.of_nat n) + z).
  { replace (k * Z.of_nat (S n)) with (k * Z.of_nat n + k) by lia.
    rewrite Z.pow_add_r by lia. lia. }
  rewrite E, IH. f_equal.
  rewrite Z.div_add_l by (apply Z.pow_nonzero; lia).
  rewrite Z.add_comm, Z.mod_add by (apply Z.pow_nonzero; lia). done.
Qed.

Lemma be_split_join k l : 0 <= k -> digits_ok k l -> be_split k (length l) (be_join k l) = l.
Proof.
  intros Hk. induction 1 as [|d l Hd Hl IH]; cbn [be_join be_split length]; [done|].
  rewrite be_split_add, IH by done. f_equal.
  rewrite Z.div_add_l by (apply Z.pow_nonzero; lia).
  rewrite Z.div_small, Z.add_0_r by (by apply be_join_bound).
  by apply Z.mod_small.
Qed.

(** [u16::from_be_bytes] and [u16::to_be_bytes] (and the 32-bit forms). *)
Definition be16 (a b : Z) : Z := be_join 8 [a; b].
Definition to_be16 (z : Z) : list Z := be_split 8 2 z.
Definition to_be32 (z : Z) : list Z := be_split 8 4 z.

Lemma be16_eq a b : be16 a b = a * 256 + b.
Proof. unfold be16. cbn. lia. Qed.

Lemma be16_bound a b : byte_ok a -> byte_ok b -> 0 <= be16 a b < 65536.
Proof. rewrite be16_eq. unfold byte_ok. lia. Qed.

Lemma to_be16_split p : 0 <= p < 65536 -> exists a b, to_be16 p = [a; b] /\ be16 a b = p.
Proof.
  intros Hp. exists ((p / 2 ^ 8) mod 2 ^ 8), ((p / 2 ^ 0) mod 2 ^ 8).
  split; [done|]. exact (be_join_split 8 2 p ltac:(lia) Hp).
Qed.

(** ** Lists *)

Lemma take_drop_lookup {A} (l : list A) i n j :
  (j < n)%nat -> take n (drop i l) !! j = l !! (i + j)%nat.
Proof. intros Hj. by rewrite lookup_take_lt, lookup_drop by done. Qed.

Lemma existsb_exists_in {A} (f : A -> bool) (l : list A) :
  existsb f l = true <-> exists x, x ∈ l /\ f x = true.
Proof. rewrite existsb_exists. by setoid_rewrite <- list_elem_of_In. Qed.

(** [iter().any(...)] over a finite set. *)
Definition set_any `{Countable A} (f : A -> bool) (s : gset A) : bool := existsb f (elements s).

Lemma set_any_spec `{Countable A} (f : A -> bool) (s : gset A) :
  set_any f s = true <-> exists x, x ∈ s /\ f x = true.
Proof. unfold set_any. rewrite existsb_exists_in. by setoid_rewrite elem_of_elements. Qed.

Lemma set_any_false `{Countable A} (f : A -> bool) (s : gset A) :
  set_any f s = false <-> forall x, x ∈ s -> f x = false.
Proof.
  rewrite <- not_true_iff_false, set_any_spec. split.
  - intros Hn x Hx. apply not_true_iff_false. naive_solver.
  - intros Hn (x & Hx & Hf). rewrite Hn in Hf; done.
Qed.

Lemma set_any_union `{Countable A} (f : A -> bool) (s t : gset A) :
  set_any f (s ∪ t) = set_any f s || set_any f t.
Proof.
  apply eq_true_iff_eq. rewrite orb_true_iff, !set_any_spec.
  setoid_rewrite elem_of_union. naive_solver.
Qed.

Lemma set_any_singleton `{Countable A} (f : A -> bool) (x : A) : set_any f {[x]} = f x.
Proof.
  apply eq_true_iff_eq. rewrite set_any_spec. setoid_rewrite elem_of_singleton. naive_solver.
Qed.
