(* ===== verification/Unicode.v ===== *)
(** Characters, strings, Unicode white space and [str::to_lowercase].

    A Rust [char] is a Unicode scalar value and a Rust [String] is its UTF-8
    encoding; here a string is the list of its scalar values.  The code trims and
    splits on [char::is_whitespace] and folds host names with [to_lowercase], both of
    which are defined by the Unicode Character Database.  The tables below are those
    of Unicode 14.0 (a repository that pins no toolchain pins no later version). *)
From S2P Require Import Prelude.

Abbreviation char := Z.
Abbreviation str := (list Z).

(** ASCII literals: [$"allow-host"]. *)
Definition lit (s : string) : str :=
  map (fun a => Z.of_N (Ascii.N_of_ascii a)) (String.list_ascii_of_string s).
Declare Scope str_scope.
Delimit Scope str_scope with str.
Notation "$ s" := (lit s%string) (at level 1, s at level 0, format "$ s") : str_scope.
Global Open Scope str_scope.

(** ** White space: the characters with the property White_Space *)

Definition is_ws (c : char) : bool :=
  ((9 <=? c) && (c <=? 13)) || (c =? 32) || (c =? 133) || (c =? 160) || (c =? 5760)
  || ((8192 <=? c) && (c <=? 8202)) || (c =? 8232) || (c =? 8233) || (c =? 8239)
  || (c =? 8287) || (c =? 12288).

(** ** Lower-case mapping

    Rows [(first, last, stride, delta)]: every [c] of the arithmetic progression maps
    to [c + delta].  The only character with a two-character image is U+0130. *)

Definition lower_rows : list (Z * Z * Z * Z) :=
  [
   (65,90,1,32); (192,214,1,32); (216,222,1,32); (256,302,2,1);
   (306,310,2,1); (313,327,2,1); (330,374,2,1); (376,376,1,-121);
   (377,381,2,1); (385,385,1,210); (386,388,2,1); (390,390,1,206);
   (391,391,1,1); (393,394,1,205); (395,395,1,1); (398,398,1,79);
   (399,399,1,202); (400,400,1,203); (401,401,1,1); (403,403,1,205);
   (404,404,1,207); (406,406,1,211); (407,407,1,209); (408,408,1,1);
   (412,412,1,211); (413,413,1,213); (415,415,1,214); (416,420,2,1);
   (422,422,1,218); (423,423,1,1); (425,425,1,218); (428,428,1,1);
   (430,430,1,218); (431,431,1,1); (433,434,1,217); (435,437,2,1);
   (439,439,1,219); (440,440,1,1); (444,444,1,1); (452,452,1,2);
   (453,453,1,1); (455,455,1,2); (456,456,1,1); (458,458,1,2);
   (459,475,2,1); (478,494,2,1); (497,497,1,2); (498,500,2,1);
   (502,502,1,-97); (503,503,1,-56); (504,542,2,1); (544,544,1,-130);
   (546,562,2,1); (570,570,1,10795); (571,571,1,1); (573,573,1,-163);
   (574,574,1,10792); (577,577,1,1); (579,579,1,-195); (580,580,1,69);
   (581,581,1,71); (582,590,2,1); (880,882,2,1); (886,886,1,1);
   (895,895,1,116); (902,902,1,38); (904,906,1,37); (908,908,1,64);
   (910,911,1,63); (913,929,1,32); (931,939,1,32); (975,975,1,8);
   (984,1006,2,1); (1012,1012,1,-60); (1015,1015,1,1); (1017,1017,1,-7);
   (1018,1018,1,1); (1021,1023,1,-130); (1024,1039,1,80); (1040,1071,1,32);
   (1120,1152,2,1); (1162,1214,2,1); (1216,1216,1,15); (1217,1229,2,1);
   (1232,1326,2,1); (1329,1366,1,48); (4256,4293,1,7264); (4295,4295,1,7264);
   (4301,4301,1,7264); (5024,5103,1,38864); (5104,5109,1,8); (7312,7354,1,-3008);
   (7357,7359,1,-3008); (7680,7828,2,1); (7838,7838,1,-7615); (7840,7934,2,1);
   (7944,7951,1,-8); (7960,7965,1,-8); (7976,7983,1,-8); (7992,7999,1,-8);
   (8008,8013,1,-8); (8025,8031,2,-8); (8040,8047,1,-8); (8072,8079,1,-8);
   (8088,8095,1,-8); (8104,8111,1,-8); (8120,8121,1,-8); (8122,8123,1,-74);
   (8124,8124,1,-9); (8136,8139,1,-86); (8140,8140,1,-9); (8152,8153,1,-8);
   (8154,8155,1,-100); (8168,8169,1,-8); (8170,8171,1,-112); (8172,8172,1,-7);
   (8184,8185,1,-128); (8186,8187,1,-126); (8188,8188,1,-9); (8486,8486,1,-7517);
   (8490,8490,1,-8383); (8491,8491,1,-8262); (8498,8498,1,28); (8544,8559,1,16);
   (8579,8579,1,1); (9398,9423,1,26); (11264,11311,1,48); (11360,11360,1,1);
   (11362,11362,1,-10743); (11363,11363,1,-3814); (11364,11364,1,-10727); (11367,11371,2,1);
   (11373,11373,1,-10780); (11374,11374,1,-10749); (11375,11375,1,-10783); (11376,11376,1,-10782);
   (11378,11378,1,1); (11381,11381,1,1); (11390,11391,1,-10815); (11392,11490,2,1);
   (11499,11501,2,1); (11506,11506,1,1); (42560,42604,2,1); (42624,42650,2,1);
   (42786,42798,2,1); (42802,42862,2,1); (42873,42875,2,1); (42877,42877,1,-35332);
   (42878,42886,2,1); (42891,42891,1,1); (42893,42893,1,-42280); (42896,42898,2,1);
   (42902,42920,2,1); (42922,42922,1,-42308); (42923,42923,1,-42319); (42924,42924,1,-42315);
   (42925,42925,1,-42305); (42926,42926,1,-42308); (42928,42928,1,-42258); (42929,42929,1,-42282);
   (42930,42930,1,-42261); (42931,42931,1,928); (42932,42946,2,1); (42948,42948,1,-48);
   (42949,42949,1,-42307); (42950,42950,1,-35384); (42951,42953,2,1); (42960,42960,1,1);
   (42966,42968,2,1); (42997,42997,1,1); (65313,65338,1,32); (66560,66599,1,40);
   (66736,66771,1,40); (66928,66938,1,39); (66940,66954,1,39); (66956,66962,1,39);
   (66964,66965,1,39); (68736,68786,1,64); (71840,71871,1,32); (93760,93791,1,32);
   (125184,125217,1,34)
  ].

(** Case_Ignorable, as ranges: skipped when the context of a capital sigma is inspected. *)
Definition ignorable_rows : list (Z * Z) :=
  [
   (39,39); (46,46); (58,58); (94,94); (96,96); (168,168);
   (173,173); (175,175); (180,180); (183,184); (688,879); (884,885);
   (890,890); (900,901); (903,903); (1155,1161); (1369,1369); (1375,1375);
   (1425,1469); (1471,1471); (1473,1474); (1476,1477); (1479,1479); (1524,1524);
   (1536,1541); (1552,1562); (1564,1564); (1600,1600); (1611,1631); (1648,1648);
   (1750,1757); (1759,1768); (1770,1773); (1807,1807); (1809,1809); (1840,1866);
   (1958,1968); (2027,2037); (2042,2042); (2045,2045); (2070,2093); (2137,2139);
   (2184,2184); (2192,2193); (2200,2207); (2249,2306); (2362,2362); (2364,2364);
   (2369,2376); (2381,2381); (2385,2391); (2402,2403); (2417,2417); (2433,2433);
   (2492,2492); (2497,2500); (2509,2509); (2530,2531); (2558,2558); (2561,2562);
   (2620,2620); (2625,2626); (2631,2632); (2635,2637); (2641,2641); (2672,2673);
   (2677,2677); (2689,2690); (2748,2748); (2753,2757); (2759,2760); (2765,2765);
   (2786,2787); (2810,2815); (2817,2817); (2876,2876); (2879,2879); (2881,2884);
   (2893,2893); (2901,2902); (2914,2915); (2946,2946); (3008,3008); (3021,3021);
   (3072,3072); (3076,3076); (3132,3132); (3134,3136); (3142,3144); (3146,3149);
   (3157,3158); (3170,3171); (3201,3201); (3260,3260); (3263,3263); (3270,3270);
   (3276,3277); (3298,3299); (3328,3329); (3387,3388); (3393,3396); (3405,3405);
   (3426,3427); (3457,3457); (3530,3530); (3538,3540); (3542,3542); (3633,3633);
   (3636,3642); (3654,3662); (3761,3761); (3764,3772); (3782,3782); (3784,3789);
   (3864,3865); (3893,3893); (3895,3895); (3897,3897); (3953,3966); (3968,3972);
   (3974,3975); (3981,3991); (3993,4028); (4038,4038); (4141,4144); (4146,4151);
   (4153,4154); (4157,4158); (4184,4185); (4190,4192); (4209,4212); (4226,4226);
   (4229,4230); (4237,4237); (4253,4253); (4348,4348); (4957,4959); (5906,5908);
   (5938,5939); (5970,5971); (6002,6003); (6068,6069); (6071,6077); (6086,6086);
   (6089,6099); (6103,6103); (6109,6109); (6155,6159); (6211,6211); (6277,6278);
   (6313,6313); (6432,6434); (6439,6440); (6450,6450); (6457,6459); (6679,6680);
   (6683,6683); (6742,6742); (6744,6750); (6752,6752); (6754,6754); (6757,6764);
   (6771,6780); (6783,6783); (6823,6823); (6832,6862); (6912,6915); (6964,6964);
   (6966,6970); (6972,6972); (6978,6978); (7019,7027); (7040,7041); (7074,7077);
   (7080,7081); (7083,7085); (7142,7142); (7144,7145); (7149,7149); (7151,7153);
   (7212,7219); (7222,7223); (7288,7293); (7376,7378); (7380,7392); (7394,7400);
   (7405,7405); (7412,7412); (7416,7417); (7468,7530); (7544,7544); (7579,7679);
   (8125,8125); (8127,8129); (8141,8143); (8157,8159); (8173,8175); (8189,8190);
   (8203,8207); (8216,8217); (8228,8228); (8231,8231); (8234,8238); (8288,8292);
   (8294,8303); (8305,8305); (8319,8319); (8336,8348); (8400,8432); (11388,11389);
   (11503,11505); (11631,11631); (11647,11647); (11744,11775); (11823,11823); (12293,12293);
   (12330,12333); (12337,12341); (12347,12347); (12441,12446); (12540,12542); (40981,40981);
   (42232,42237); (42508,42508); (42607,42610); (42612,42621); (42623,42623); (42652,42655);
   (42736,42737); (42752,42785); (42864,42864); (42888,42890); (42994,42996); (43000,43001);
   (43010,43010); (43014,43014); (43019,43019); (43045,43046); (43052,43052); (43204,43205);
   (43232,43249); (43263,43263); (43302,43309); (43335,43345); (43392,43394); (43443,43443);
   (43446,43449); (43452,43453); (43471,43471); (43493,43494); (43561,43566); (43569,43570);
   (43573,43574); (43587,43587); (43596,43596); (43632,43632); (43644,43644); (43696,43696);
   (43698,43700); (43703,43704); (43710,43711); (43713,43713); (43741,43741); (43756,43757);
   (43763,43764); (43766,43766); (43867,43871); (43881,43883); (44005,44005); (44008,44008);
   (44013,44013); (64286,64286); (64434,64450); (65024,65039); (65043,65043); (65056,65071);
   (65106,65106); (65109,65109); (65279,65279); (65287,65287); (65294,65294); (65306,65306);
   (65342,65342); (65344,65344); (65392,65392); (65438,65439); (65507,65507); (65529,65531);
   (66045,66045); (66272,66272); (66422,66426); (67456,67461); (67463,67504); (67506,67514);
   (68097,68099); (68101,68102); (68108,68111); (68152,68154); (68159,68159); (68325,68326);
   (68900,68903); (69291,69292); (69446,69456); (69506,69509); (69633,69633); (69688,69702);
   (69744,69744); (69747,69748); (69759,69761); (69811,69814); (69817,69818); (69821,69821);
   (69826,69826); (69837,69837); (69888,69890); (69927,69931); (69933,69940); (70003,70003);
   (70016,70017); (70070,70078); (70089,70092); (70095,70095); (70191,70193); (70196,70196);
   (70198,70199); (70206,70206); (70367,70367); (70371,70378); (70400,70401); (70459,70460);
   (70464,70464); (70502,70508); (70512,70516); (70712,70719); (70722,70724); (70726,70726);
   (70750,70750); (70835,70840); (70842,70842); (70847,70848); (70850,70851); (71090,71093);
   (71100,71101); (71103,71104); (71132,71133); (71219,71226); (71229,71229); (71231,71232);
   (71339,71339); (71341,71341); (71344,71349); (71351,71351); (71453,71455); (71458,71461);
   (71463,71467); (71727,71735); (71737,71738); (71995,71996); (71998,71998); (72003,72003);
   (72148,72151); (72154,72155); (72160,72160); (72193,72202); (72243,72248); (72251,72254);
   (72263,72263); (72273,72278); (72281,72283); (72330,72342); (72344,72345); (72752,72758);
   (72760,72765); (72767,72767); (72850,72871); (72874,72880); (72882,72883); (72885,72886);
   (73009,73014); (73018,73018); (73020,73021); (73023,73029); (73031,73031); (73104,73105);
   (73109,73109); (73111,73111); (73459,73460); (78896,78904); (92912,92916); (92976,92982);
   (92992,92995); (94031,94031); (94095,94111); (94176,94177); (94179,94180); (110576,110579);
   (110581,110587); (110589,110590); (113821,113822); (113824,113827); (118528,118573); (118576,118598);
   (119143,119145); (119155,119170); (119173,119179); (119210,119213); (119362,119364); (121344,121398);
   (121403,121452); (121461,121461); (121476,121476); (121499,121503); (121505,121519); (122880,122886);
   (122888,122904); (122907,122913); (122915,122916); (122918,122922); (123184,123197); (123566,123566);
   (123628,123631); (125136,125142); (125252,125259); (127995,127999); (917505,917505); (917536,917631);
   (917760,917999)
  ].

(** Cased characters that are not Case_Ignorable, as ranges. *)
Definition cased_rows : list (Z * Z) :=
  [
   (65,90); (97,122); (170,170); (181,181); (186,186); (192,214);
   (216,246); (248,442); (444,447); (452,659); (661,687); (880,883);
   (886,887); (891,893); (895,895); (902,902); (904,906); (908,908);
   (910,929); (931,1013); (1015,1153); (1162,1327); (1329,1366); (1376,1416);
   (4256,4293); (4295,4295); (4301,4301); (4304,4346); (4349,4351); (5024,5109);
   (5112,5117); (7296,7304); (7312,7354); (7357,7359); (7424,7467); (7531,7543);
   (7545,7578); (7680,7957); (7960,7965); (7968,8005); (8008,8013); (8016,8023);
   (8025,8025); (8027,8027); (8029,8029); (8031,8061); (8064,8116); (8118,8124);
   (8126,8126); (8130,8132); (8134,8140); (8144,8147); (8150,8155); (8160,8172);
   (8178,8180); (8182,8188); (8450,8450); (8455,8455); (8458,8467); (8469,8469);
   (8473,8477); (8484,8484); (8486,8486); (8488,8488); (8490,8493); (8495,8500);
   (8505,8505); (8508,8511); (8517,8521); (8526,8526); (8544,8575); (8579,8580);
   (9398,9449); (11264,11387); (11390,11492); (11499,11502); (11506,11507); (11520,11557);
   (11559,11559); (11565,11565); (42560,42605); (42624,42651); (42786,42863); (42865,42887);
   (42891,42894); (42896,42954); (42960,42961); (42963,42963); (42965,42969); (42997,42998);
   (43002,43002); (43824,43866); (43872,43880); (43888,43967); (64256,64262); (64275,64279);
   (65313,65338); (65345,65370); (66560,66639); (66736,66771); (66776,66811); (66928,66938);
   (66940,66954); (66956,66962); (66964,66965); (66967,66977); (66979,66993); (66995,67001);
   (67003,67004); (68736,68786); (68800,68850); (71840,71903); (93760,93823); (119808,119892);
   (119894,119964); (119966,119967); (119970,119970); (119973,119974); (119977,119980); (119982,119993);
   (119995,119995); (119997,120003); (120005,120069); (120071,120074); (120077,120084); (120086,120092);
   (120094,120121); (120123,120126); (120128,120132); (120134,120134); (120138,120144); (120146,120485);
   (120488,120512); (120514,120538); (120540,120570); (120572,120596); (120598,120628); (120630,120654);
   (120656,120686); (120688,120712); (120714,120744); (120746,120770); (120772,120779); (122624,122633);
   (122635,122654); (125184,125251); (127280,127305); (127312,127337); (127344,127369)
  ].

Definition in_rows (rows : list (Z * Z)) (c : char) : bool :=
  existsb (fun r => (r.1 <=? c) && (c <=? r.2)) rows.

Definition row_hit (c : char) (r : Z * Z * Z * Z) : bool :=
  let '(first, last, stride, _) := r in
  (first <=? c) && (c <=? last) && ((c - first) mod stride =? 0).

(** [conversions::to_lower]: ASCII directly, then the table. *)
Definition char_lower (c : char) : list char :=
  if c <? 128 then (if (65 <=? c) && (c <=? 90) then [c + 32] else [c])
  else if c =? 304 then [105; 775]
  else match find (row_hit c) lower_rows with
       | Some (_, _, _, delta) => [c + delta]
       | None => [c]
       end.

(** [case_ignorable_then_cased]: the first character that is not Case_Ignorable is Cased. *)
Fixpoint ignorable_then_cased (s : str) : bool :=
  match s with
  | [] => false
  | c :: s' => if in_rows ignorable_rows c then ignorable_then_cased s' else in_rows cased_rows c
  end.

(** A capital sigma is final when a cased letter precedes it and none follows. *)
Definition map_sigma (before_rev after : str) : char :=
  if ignorable_then_cased before_rev && negb (ignorable_then_cased after) then 962 else 963.

Fixpoint lower_from (before_rev : str) (s : str) : str :=
  match s with
  | [] => []
  | c :: s' =>
      (if c =? 931 then [map_sigma before_rev s'] else char_lower c)
      ++ lower_from (c :: before_rev) s'
  end.

(** [str::to_lowercase]. *)
Definition to_lowercase (s : str) : str := lower_from [] s.

(** ** Facts read off the tables *)

(** Every character a table row covers, with its image. *)
Definition row_pairs (r : Z * Z * Z * Z) : list (Z * Z) :=
  let '(first, last, stride, delta) := r in
  map (fun k => (first + stride * Z.of_nat k, first + stride * Z.of_nat k + delta))
      (seq 0 (S (Z.to_nat ((last - first) / stride)))).

Definition table_pairs : list (Z * Z) := concat (map row_pairs lower_rows).

Lemma char_lower_fixed_b :
  forallb (fun p => bool_decide (char_lower p.2 = [p.2]) && negb (is_ws p.2)
                    && negb (p.2 =? 931) && ((128 <=? p.2) || ((97 <=? p.2) && (p.2 <=? 122))))
          table_pairs = true.
Proof. vm_compute. reflexivity. Qed.

Lemma row_strides : forallb (fun r => 0 <? r.1.2) lower_rows = true.
Proof. vm_compute. reflexivity. Qed.

Lemma row_hit_pair c first last stride delta :
  0 < stride -> row_hit c (first, last, stride, delta) = true ->
  (c, c + delta) ∈ row_pairs (first, last, stride, delta).
Proof.
  intros Hs. unfold row_hit, row_pairs. intros H. bool_to_prop.
  set (k := (c - first) / stride).
  assert (Hk : c - first = stride * k).
  { unfold k. apply Z.div_exact; lia. }
  assert (0 <= k) by (unfold k; apply Z.div_pos; lia).
  assert (k <= (last - first) / stride) by (apply Z.div_le_mono; lia).
  apply list_elem_of_In, in_map_iff. exists (Z.to_nat k). rewrite in_seq, Z2Nat.id by lia.
  split; [f_equal; lia | lia].
Qed.

(** The image of a character is the character, an ASCII case fold, U+0130's pair, or a
    pair of the table. *)
Lemma char_lower_cases c :
  char_lower c = [c] \/ (65 <= c <= 90 /\ char_lower c = [c + 32])
  \/ (c = 304 /\ char_lower c = [105; 775])
  \/ exists d, char_lower c = [d] /\ (c, d) ∈ table_pairs.
Proof.
  unfold char_lower. destruct (c <? 128) eqn:?.
  { destruct ((65 <=? c) && (c <=? 90)) eqn:?; bool_to_prop; [right; left|by left]. done. }
  destruct (c =? 304) eqn:?; bool_to_prop; [by right; right; left|].
  destruct (find (row_hit c) lower_rows) as [[[[f l] s] d]|] eqn:E; [|by left].
  right; right; right. exists (c + d). split; [done|].
  apply find_some in E as [Hin Hhit].
  pose proof (proj1 (forallb_forall _ _) row_strides _ Hin) as Hs. cbn in Hs. bool_to_prop.
  apply list_elem_of_In. unfold table_pairs. apply in_concat.
  exists (row_pairs (f, l, s, d)). split; [by apply in_map|].
  apply list_elem_of_In. by apply row_hit_pair.
Qed.

Lemma table_pair_facts c d :
  (c, d) ∈ table_pairs ->
  char_lower d = [d] /\ is_ws d = false /\ d <> 931 /\ (128 <= d \/ 97 <= d <= 122).
Proof.
  intros Hin%list_elem_of_In.
  pose proof (proj1 (forallb_forall _ _) char_lower_fixed_b _ Hin) as H. cbn [snd] in H.
  apply andb_true_iff in H as [H H4]. apply andb_true_iff in H as [H H3].
  apply andb_true_iff in H as [H1 H2].
  apply bool_decide_eq_true in H1. apply negb_true_iff in H2. apply negb_true_iff in H3.
  apply orb_true_iff in H4. repeat split; [done|done|lia|].
  destruct H4; [left; lia | right; lia].
Qed.

(** Folding a folded character changes nothing. *)
Lemma char_lower_fixed c d : d ∈ char_lower c -> char_lower d = [d].
Proof.
  destruct (char_lower_cases c) as [E|[(Hc & E)|[(Hc & E)|(x & E & Hx)]]]; rewrite E.
  - intros ->%list_elem_of_singleton. done.
  - intros ->%list_elem_of_singleton. unfold char_lower.
    rewrite (proj2 (Z.ltb_lt _ _)) by lia.
    by rewrite (proj2 (Z.leb_gt _ 90)), andb_false_r by lia.
  - intros [->|[->|[]%not_elem_of_nil]%elem_of_cons]%elem_of_cons; reflexivity.
  - intros ->%list_elem_of_singleton. by apply (table_pair_facts c).
Qed.

Lemma char_lower_no_sigma c d : d ∈ char_lower c -> d <> 931.
Proof.
  intros Hd ->. pose proof (char_lower_fixed c 931 Hd) as E. by vm_compute in E.
Qed.

(** An image is not white space unless the character was. *)
Lemma char_lower_ws c d : is_ws c = false -> d ∈ char_lower c -> is_ws d = false.
Proof.
  intros Hc.
  destruct (char_lower_cases c) as [E|[(Hr & E)|[(_ & E)|(x & E & Hx)]]]; rewrite E.
  - intros ->%list_elem_of_singleton. done.
  - intros ->%list_elem_of_singleton. unfold is_ws.
    repeat match goal with |- context [?a <=? ?b] => destruct (Z.leb_spec a b); [try lia|try lia] end;
    repeat match goal with |- context [?a =? ?b] => destruct (Z.eqb_spec a b); [try lia|try lia] end; done.
  - intros [->|[->|[]%not_elem_of_nil]%elem_of_cons]%elem_of_cons; reflexivity.
  - intros ->%list_elem_of_singleton. by apply (table_pair_facts c).
Qed.

(** An ASCII image is the character itself or a lower-case letter. *)
Lemma char_lower_ascii c d : d ∈ char_lower c -> d < 128 -> d = c \/ 97 <= d <= 122.
Proof.
  destruct (char_lower_cases c) as [E|[(Hr & E)|[(_ & E)|(x & E & Hx)]]]; rewrite E.
  - intros ->%list_elem_of_singleton. by left.
  - intros ->%list_elem_of_singleton. right. lia.
  - intros [->|[->|[]%not_elem_of_nil]%elem_of_cons]%elem_of_cons; [right; lia | lia].
  - intros ->%list_elem_of_singleton ?. destruct (table_pair_facts c x Hx) as (_ & _ & _ & [|]); lia.
Qed.

Lemma char_lower_nonempty c : char_lower c <> [].
Proof. destruct (char_lower_cases c) as [E|[(_ & E)|[(_ & E)|(x & E & _)]]]; by rewrite E. Qed.

Lemma lower_from_elem before s d :
  d ∈ lower_from before s ->
  d = 962 \/ d = 963 \/ exists c, c ∈ s /\ c <> 931 /\ d ∈ char_lower c.
Proof.
  revert before. induction s as [|c s IH]; intros before; cbn; [by intros ?%not_elem_of_nil|].
  rewrite elem_of_app. intros [Hd|Hd].
  - destruct (c =? 931) eqn:E.
    + apply list_elem_of_singleton in Hd as ->. unfold map_sigma. case_goal; auto.
    + right; right. exists c. bool_to_prop. rewrite elem_of_cons. auto.
  - destruct (IH _ Hd) as [?|[?|(x & ? & ?)]]; [auto|auto|].
    right; right. exists x. rewrite elem_of_cons. auto.
Qed.

Lemma lower_from_fixed before s :
  (forall c, c ∈ s -> char_lower c = [c] /\ c <> 931) -> lower_from before s = s.
Proof.
  revert before. induction s as [|c s IH]; intros before Hs; cbn; [done|].
  destruct (Hs c) as [Hc Hn]; [by left|].
  rewrite (proj2 (Z.eqb_neq c 931)) by done. rewrite Hc, IH; [done|].
  intros x Hx. apply Hs. by right.
Qed.

(** [to_lowercase] is idempotent: a name folded when a rule is written is unchanged
    when the rule is read back. *)
Lemma to_lowercase_idem s : to_lowercase (to_lowercase s) = to_lowercase s.
Proof.
  apply lower_from_fixed. intros d Hd.
  destruct (lower_from_elem _ _ _ Hd) as [->|[->|(c & _ & _ & Hc)]];
    [by split|by split|]. split; [by eapply char_lower_fixed|by eapply char_lower_no_sigma].
Qed.

(** A property of characters that folding preserves holds of the folded string. *)
Lemma to_lowercase_forall (P : char -> Prop) s :
  P 962 -> P 963 -> (forall c d, P c -> d ∈ char_lower c -> P d) ->
  Forall P s -> Forall P (to_lowercase s).
Proof.
  intros H1 H2 H3 Hs. apply Forall_forall. intros d Hd.
  destruct (lower_from_elem _ _ _ Hd) as [->|[->|(c & Hin & _ & Hc)]]; [done|done|].
  apply (H3 c); [|done]. by eapply Forall_forall in Hin.
Qed.

Lemma to_lowercase_nil_iff s : to_lowercase s = [] <-> s = [].
Proof.
  split; [|by intros ->]. destruct s as [|c s]; [done|]. unfold to_lowercase. cbn.
  intros [H _]%app_eq_nil. destruct (c =? 931); [done|]. by apply char_lower_nonempty in H.
Qed.
