(* ===== verification/RustStr.v ===== *)
(** The operations of [str], [String] and the integer parsers and formatters of the
    Rust standard library that pfsnitch uses, on strings as lists of characters. *)
From S2P Require Import Prelude Unicode.

(** ** Searching and splitting *)

(** The part before the first character satisfying [p], and what follows it. *)
Fixpoint break_on (p : char -> bool) (s : str) : str * option str :=
  match s with
  | [] => ([], None)
  | c :: s' => if p c then ([], Some s') else let '(a, b) := break_on p s' in (c :: a, b)
  end.

(** Around the last character satisfying [p] ([rfind]). *)
Definition rbreak_on (p : char -> bool) (s : str) : option (str * str) :=
  match break_on p (rev s) with
  | (a, Some b) => Some (rev b, rev a)
  | (_, None) => None
  end.

Definition is_char (c d : char) : bool := d =? c.

(** [s.contains(c)] *)
Definition has_char (c : char) (s : str) : bool := existsb (is_char c) s.

(** [s.splitn(2, char::is_whitespace)]: the first piece and, if there is one, the second. *)
Definition split_ws (s : str) : str * option str := break_on is_ws s.

Fixpoint strip_prefix (p s : str) : option str :=
  match p, s with
  | [], _ => Some s
  | c :: p', d :: s' => if c =? d then strip_prefix p' s' else None
  | _ :: _, [] => None
  end.

Definition starts_with (p s : str) : bool := bool_decide (is_Some (strip_prefix p s)).
Definition ends_with (q s : str) : bool := bool_decide (is_Some (strip_prefix (rev q) (rev s))).
Definition str_eqb (s t : str) : bool := bool_decide (s = t).

(** [a.rsplit('/').next().unwrap_or(a)]: what follows the last slash. *)
Definition basename (s : str) : str :=
  match rbreak_on (is_char 47) s with Some (_, b) => b | None => s end.

(** ** Trimming *)

Fixpoint trim_start (s : str) : str :=
  match s with
  | [] => []
  | c :: s' => if is_ws c then trim_start s' else s
  end.
Definition trim_end (s : str) : str := rev (trim_start (rev s)).
Definition trim (s : str) : str := trim_end (trim_start s).

(** ** Lines: pieces end at a line feed, which is dropped together with a carriage
    return before it; a final piece without line feed is kept as it is, unless empty. *)

Fixpoint segments_nl (s : str) : list str :=
  match s with
  | [] => [[]]
  | c :: s' =>
      if c =? 10 then [] :: segments_nl s'
      else match segments_nl s' with
           | l :: ls => (c :: l) :: ls
           | [] => [[c]]
           end
  end.

Definition strip_cr (l : str) : str :=
  match rev l with
  | c :: l' => if c =? 13 then rev l' else l
  | [] => l
  end.

Fixpoint lines_of (segs : list str) : list str :=
  match segs with
  | [] => []
  | [l] => match l with [] => [] | _ => [l] end
  | l :: ls => strip_cr l :: lines_of ls
  end.

Definition lines (s : str) : list str := lines_of (segments_nl s).

(** ** Numbers *)

(** [char::to_digit(radix)], radix at most 36. *)
Definition to_digit (radix : Z) (c : char) : option Z :=
  let d := if (48 <=? c) && (c <=? 57) then c - 48
           else if (97 <=? c) && (c <=? 122) then c - 87
           else if (65 <=? c) && (c <=? 90) then c - 55
           else radix in
  if d <? radix then Some d else None.

(** The digit loop of [from_str_radix(s, 10)] with its checked arithmetic. *)
Fixpoint digits_val (max acc : Z) (s : str) : option Z :=
  match s with
  | [] => Some acc
  | c :: s' =>
      match to_digit 10 c with
      | None => None
      | Some d => if acc * 10 + d <=? max then digits_val max (acc * 10 + d) s' else None
      end
  end.

(** [s.parse::<u16>()] and the like: a leading plus sign is accepted, a lone sign or an
    empty string is not, a value beyond [max] is an error. *)
Definition parse_uint (max : Z) (s : str) : option Z :=
  match s with
  | [] => None
  | c :: s' =>
      if (c =? 43) || (c =? 45) then
        match s' with
        | [] => None
        | _ => if c =? 43 then digits_val max 0 s' else digits_val max 0 s
        end
      else digits_val max 0 s
  end.

Definition u16_max : Z := 65535.
Definition u64_max : Z := 2 ^ 64 - 1.
Definition parse_u16 : str -> option Z := parse_uint u16_max.
Definition parse_u64 : str -> option Z := parse_uint u64_max.

(** Digits of a number, most significant first, without leading zeros. *)
Fixpoint digs (r : Z) (fuel : nat) (n : Z) : list Z :=
  match fuel with
  | O => []
  | S f => (if n / r =? 0 then [] else digs r f (n / r)) ++ [n mod r]
  end.

Definition num_digits (r n : Z) : list Z := digs r (S (Z.to_nat (Z.log2 n))) n.
Definition digit_char (d : Z) : char := if d <? 10 then 48 + d else 87 + d.

(** [n.to_string()] and [format!("{n:x}")]. *)
Definition show_dec (n : Z) : str := map digit_char (num_digits 10 n).
Definition show_hex (n : Z) : str := map digit_char (num_digits 16 n).

(** ** UTF-8 *)

Definition utf8_char (c : char) : list Z :=
  if c <? 128 then [c]
  else if c <? 2048 then [192 + c / 64; 128 + c mod 64]
  else if c <? 65536 then [224 + c / 4096; 128 + c / 64 mod 64; 128 + c mod 64]
  else [240 + c / 262144; 128 + c / 4096 mod 64; 128 + c / 64 mod 64; 128 + c mod 64].

(** [s.as_bytes()] *)
Definition utf8 (s : str) : list Z := concat (map utf8_char s).

Definition in_rng (lo hi b : Z) : bool := (lo <=? b) && (b <=? hi).
Definition cont (b : Z) : bool := in_rng 128 191 b.

(** The second byte allowed after each lead byte of a three- or four-byte sequence. *)
Definition second_ok (b0 b1 : Z) : bool :=
  if b0 =? 224 then in_rng 160 191 b1
  else if b0 =? 237 then in_rng 128 159 b1
  else if b0 =? 240 then in_rng 144 191 b1
  else if b0 =? 244 then in_rng 128 143 b1
  else cont b1.

(** [String::from_utf8_lossy]: each maximal invalid prefix of a sequence becomes one
    replacement character. *)
Fixpoint utf8_lossy (b : list Z) : str :=
  match b with
  | [] => []
  | b0 :: r0 =>
      if b0 <? 128 then b0 :: utf8_lossy r0
      else if in_rng 194 223 b0 then
        match r0 with
        | b1 :: r1 =>
            if cont b1 then (b0 - 192) * 64 + (b1 - 128) :: utf8_lossy r1
            else 65533 :: utf8_lossy r0
        | [] => [65533]
        end
      else if in_rng 224 239 b0 then
        match r0 with
        | b1 :: r1 =>
            if second_ok b0 b1 then
              match r1 with
              | b2 :: r2 =>
                  if cont b2
                  then (b0 - 224) * 4096 + (b1 - 128) * 64 + (b2 - 128) :: utf8_lossy r2
                  else 65533 :: utf8_lossy r1
              | [] => [65533]
              end
            else 65533 :: utf8_lossy r0
        | [] => [65533]
        end
      else if in_rng 240 244 b0 then
        match r0 with
        | b1 :: r1 =>
            if second_ok b0 b1 then
              match r1 with
              | b2 :: r2 =>
                  if cont b2 then
                    match r2 with
                    | b3 :: r3 =>
                        if cont b3
                        then (b0 - 240) * 262144 + (b1 - 128) * 4096 + (b2 - 128) * 64 + (b3 - 128)
                             :: utf8_lossy r3
                        else 65533 :: utf8_lossy r2
                    | [] => [65533]
                    end
                  else 65533 :: utf8_lossy r1
              | [] => [65533]
              end
            else 65533 :: utf8_lossy r0
        | [] => [65533]
        end
      else 65533 :: utf8_lossy r0
  end.

(** The text of a NUL-terminated byte field ([cstr] of kernattr.rs). *)
Definition until_nul (b : list Z) : list Z := (break_on (is_char 0) b).1.

(** ** Lemmas: splitting *)

Abbreviation no_ws := (Forall (fun c : char => is_ws c = false)).
Abbreviation lacks c := (Forall (fun d : char => d <> c)).

Lemma break_on_app p a c b :
  Forall (fun d => p d = false) a -> p c = true -> break_on p (a ++ c :: b) = (a, Some b).
Proof.
  induction 1 as [|d a Hd Ha IH]; intros Hc; cbn; [by rewrite Hc|].
  by rewrite Hd, (IH Hc).
Qed.

Lemma break_on_none p a : Forall (fun d => p d = false) a -> break_on p a = (a, None).
Proof. induction 1 as [|d a Hd Ha IH]; cbn; [done|]. by rewrite Hd, IH. Qed.

Lemma break_on_some p s a b :
  break_on p s = (a, Some b) ->
  exists c, s = a ++ c :: b /\ p c = true /\ Forall (fun d => p d = false) a.
Proof.
  revert a. induction s as [|d s IH]; intros a; cbn; [done|].
  destruct (p d) eqn:E; [intros [= <- <-]; by exists d|].
  destruct (break_on p s) as [a' b'] eqn:E'. intros [= <- ->].
  destruct (IH a' eq_refl) as (c & -> & Hc & Ha). exists c. auto.
Qed.

Lemma break_on_none_inv p s a :
  break_on p s = (a, None) -> a = s /\ Forall (fun d => p d = false) s.
Proof.
  revert a. induction s as [|d s IH]; intros a; cbn; [by intros [= <-]|].
  destruct (p d) eqn:E; [done|]. destruct (break_on p s) as [a' b'] eqn:E'.
  intros [= <- ->]. destruct (IH a' eq_refl) as [-> ?]. auto.
Qed.

Lemma rbreak_on_app p a c b :
  p c = true -> Forall (fun d => p d = false) b -> rbreak_on p (a ++ c :: b) = Some (a, b).
Proof.
  intros Hc Hb. unfold rbreak_on. rewrite rev_app_distr. cbn. rewrite <- app_assoc. cbn.
  rewrite break_on_app; [by rewrite !rev_involutive| |done].
  by apply Forall_rev.
Qed.

Lemma rbreak_on_none p s : Forall (fun d => p d = false) s -> rbreak_on p s = None.
Proof. intros H. unfold rbreak_on. rewrite break_on_none; [done|]. by apply Forall_rev. Qed.

Lemma lacks_is_char c s : lacks c s <-> Forall (fun d => is_char c d = false) s.
Proof. apply Forall_iff. intros d. unfold is_char. rewrite Z.eqb_neq. done. Qed.

Lemma has_char_false c s : lacks c s -> has_char c s = false.
Proof.
  induction 1 as [|d s Hd Hs IH]; cbn; [done|]. unfold is_char at 1.
  by rewrite (proj2 (Z.eqb_neq d c)).
Qed.

Lemma str_eqb_eq s t : str_eqb s t = true <-> s = t.
Proof. apply bool_decide_eq_true. Qed.
Lemma str_eqb_neq s t : s <> t -> str_eqb s t = false.
Proof. apply bool_decide_eq_false_2. Qed.
Lemma str_eqb_refl s : str_eqb s s = true.
Proof. by apply str_eqb_eq. Qed.

(** ** Lemmas: trimming *)

(** Text that neither starts nor ends with white space. *)
Definition trimmed (s : str) : Prop :=
  match s with [] => True | c :: _ => is_ws c = false end
  /\ match rev s with [] => True | c :: _ => is_ws c = false end.

Lemma is_ws_printable c : 33 <= c <= 126 -> is_ws c = false.
Proof.
  intros Hc. unfold is_ws.
  repeat match goal with
  | |- context [?a <=? ?b] => destruct (Z.leb_spec a b); [try lia|try lia]
  | |- context [?a =? ?b] => destruct (Z.eqb_spec a b); [lia|]
  end; done.
Qed.

Lemma trim_start_ws w s : Forall (fun c => is_ws c = true) w -> trim_start (w ++ s) = trim_start s.
Proof. induction 1 as [|c w Hc Hw IH]; cbn; [done|]. by rewrite Hc. Qed.

Lemma trim_start_id s :
  match s with [] => True | c :: _ => is_ws c = false end -> trim_start s = s.
Proof. destruct s as [|c s]; cbn; [done|]. by intros ->. Qed.

Lemma trim_end_ws w s : Forall (fun c => is_ws c = true) w -> trim_end (s ++ w) = trim_end s.
Proof.
  intros Hw. unfold trim_end. rewrite rev_app_distr, trim_start_ws; [done|].
  by apply Forall_rev.
Qed.

Lemma trim_trimmed s : trimmed s -> trim s = s.
Proof.
  intros [Hl Hr]. unfold trim, trim_end. rewrite (trim_start_id s) by done.
  rewrite trim_start_id by done. apply rev_involutive.
Qed.

(** Trimming removes exactly the white space around trimmed text. *)
Lemma trim_around w1 s w2 :
  Forall (fun c => is_ws c = true) w1 -> Forall (fun c => is_ws c = true) w2 ->
  trimmed s -> trim (w1 ++ s ++ w2) = s.
Proof.
  intros H1 H2 Hs. unfold trim. rewrite trim_start_ws by done.
  destruct s as [|c s].
  - cbn. rewrite <- (app_nil_r w2), trim_start_ws by done. done.
  - rewrite trim_start_id by (destruct Hs; done).
    rewrite trim_end_ws by done. unfold trim_end. destruct Hs as [_ Hr].
    rewrite trim_start_id by done. apply rev_involutive.
Qed.

Lemma trim_nil_ws w : Forall (fun c => is_ws c = true) w -> trim w = [].
Proof. intros H. rewrite <- (app_nil_r w) at 1. by apply (trim_around w [] []). Qed.

Lemma trim_start_head s : match trim_start s with [] => True | c :: _ => is_ws c = false end.
Proof. induction s as [|c s IH]; cbn; [done|]. by destruct (is_ws c) eqn:?. Qed.

Lemma trim_start_split s : exists w, Forall (fun c => is_ws c = true) w /\ s = w ++ trim_start s.
Proof.
  induction s as [|c s (w & Hw & E)]; cbn; [by exists []|].
  destruct (is_ws c) eqn:?; [|by exists []]. exists (c :: w). cbn. rewrite <- E. auto.
Qed.

Lemma trim_is_trimmed s : trimmed (trim s).
Proof.
  unfold trim, trim_end. split.
  - pose proof (trim_start_head s) as H.
    destruct (trim_start_split (rev (trim_start s))) as (w & Hw & E).
    set (t := trim_start (rev (trim_start s))) in *.
    assert (E2 : trim_start s = rev t ++ rev w)
      by (rewrite <- rev_app_distr, <- E; symmetry; apply rev_involutive).
    destruct (rev t) as [|c u] eqn:Et; [done|]. rewrite E2 in H. done.
  - rewrite rev_involutive. apply trim_start_head.
Qed.

Lemma trim_idem s : trim (trim s) = trim s.
Proof. apply trim_trimmed, trim_is_trimmed. Qed.

Lemma no_ws_trimmed s : no_ws s -> trimmed s.
Proof.
  intros H. split.
  - by destruct H.
  - apply Forall_rev in H. by destruct H.
Qed.

Lemma trim_no_ws s : no_ws s -> trim s = s.
Proof. intros. by apply trim_trimmed, no_ws_trimmed. Qed.

(** ** Lemmas: lines *)

Lemma segments_nl_nonempty s : segments_nl s <> [].
Proof.
  induction s as [|c s IH]; cbn; [done|].
  destruct (c =? 10); [done|]. by destruct (segments_nl s).
Qed.

Lemma segments_nl_app l s : lacks 10 l -> segments_nl (l ++ 10 :: s) = l :: segments_nl s.
Proof.
  induction 1 as [|c l Hc Hl IH]; cbn; [done|].
  rewrite (proj2 (Z.eqb_neq c 10)) by done. by rewrite IH.
Qed.

Lemma segments_nl_single l : lacks 10 l -> segments_nl l = [l].
Proof.
  induction 1 as [|c l Hc Hl IH]; cbn; [done|].
  rewrite (proj2 (Z.eqb_neq c 10)) by done. by rewrite IH.
Qed.

Lemma lines_cons l s : lacks 10 l -> lines (l ++ 10 :: s) = strip_cr l :: lines s.
Proof.
  intros Hl. unfold lines. rewrite segments_nl_app by done.
  pose proof (segments_nl_nonempty s). by destruct (segments_nl s).
Qed.

Lemma lines_single l : lacks 10 l -> lines (l ++ [10]) = [strip_cr l].
Proof. intros. by rewrite lines_cons. Qed.

Lemma strip_cr_id l : lacks 13 l -> strip_cr l = l.
Proof.
  intros H%Forall_rev. unfold strip_cr. destruct H as [|c l' Hc _]; [done|].
  by rewrite (proj2 (Z.eqb_neq c 13)).
Qed.

(** Text that is empty or ends with a line feed: what every writer of the policy file
    leaves behind. *)
Definition nl_terminated (s : str) : Prop := s = [] \/ exists t, s = t ++ [10].

Lemma split_at_nl s : lacks 10 s \/ exists l s', s = l ++ 10 :: s' /\ lacks 10 l.
Proof.
  induction s as [|c s IH]; [left; constructor|].
  destruct (decide (c = 10)) as [->|Hc]; [right; by exists [], s|].
  destruct IH as [IH|(l & s' & -> & Hl)]; [left; by constructor|].
  right. exists (c :: l), s'. auto.
Qed.

Lemma lines_app_nl s t : nl_terminated s -> lines (s ++ t) = lines s ++ lines t.
Proof.
  remember (length s) as n eqn:Hn. revert s Hn.
  induction (lt_wf n) as [n _ IH]. intros s -> Hs.
  destruct (split_at_nl s) as [Hno|(l & s' & -> & Hl)].
  - destruct Hs as [->|(u & ->)]; [done|].
    apply Forall_app in Hno as [_ Hno]. inversion Hno. done.
  - rewrite <- app_assoc. cbn [app]. rewrite !lines_cons by done. cbn.
    rewrite (IH (length s')); [done| |done|].
    + rewrite length_app. cbn. lia.
    + destruct Hs as [Hs|(u & Hs)]; [by destruct l|].
      destruct s' as [|c s']; [by left|right].
      destruct (@exists_last _ (c :: s') ltac:(done)) as (v & x & E). rewrite E in Hs |- *.
      change (l ++ 10 :: v ++ [x]) with (l ++ (10 :: v) ++ [x]) in Hs.
      rewrite app_assoc in Hs. apply app_inj_tail in Hs as [_ ->]. by exists v.
Qed.

(** Joining lines with line feeds, as the rewriting commands do. *)
Definition unlines (ls : list str) : str := concat (map (fun l => l ++ [10]) ls).

Lemma unlines_app a b : unlines (a ++ b) = unlines a ++ unlines b.
Proof. unfold unlines. by rewrite map_app, concat_app. Qed.

Lemma unlines_nl ls : nl_terminated (unlines ls).
Proof.
  destruct ls as [|l ls] using rev_ind; [by left|right].
  rewrite unlines_app. cbn. rewrite app_nil_r, app_assoc. eauto.
Qed.

(** A line of a file: no line feed inside and no carriage return at its end. *)
Definition line_ok (l : str) : Prop := lacks 10 l /\ strip_cr l = l.

Lemma lines_unlines_cr ls : Forall (fun l => lacks 10 l) ls -> lines (unlines ls) = map strip_cr ls.
Proof.
  induction 1 as [|l ls H1 _ IH]; [done|].
  change (unlines (l :: ls)) with ((l ++ [10]) ++ unlines ls).
  rewrite <- app_assoc. cbn [app]. rewrite lines_cons by done. by rewrite IH.
Qed.

Lemma strip_cr_cases l : strip_cr l = l \/ l = strip_cr l ++ [13].
Proof.
  unfold strip_cr. destruct (rev l) as [|c u] eqn:E; [by left|].
  destruct (Z.eqb_spec c 13) as [->|]; [right|by left].
  rewrite <- (rev_involutive l), E. done.
Qed.

Lemma strip_cr_forall (P : char -> Prop) l : Forall P l -> Forall P (strip_cr l).
Proof.
  intros H. destruct (strip_cr_cases l) as [->|E]; [done|]. rewrite E in H.
  by apply Forall_app in H as [? _].
Qed.

Lemma segments_nl_lacks s : Forall (fun l => lacks 10 l) (segments_nl s).
Proof.
  induction s as [|c s IH]; cbn; [by constructor|].
  destruct (Z.eqb_spec c 10); [by constructor|].
  destruct (segments_nl s); [by repeat constructor|].
  inversion_clear IH. constructor; [by constructor|done].
Qed.

Lemma lines_lacks s : Forall (fun l => lacks 10 l) (lines s).
Proof.
  unfold lines. pose proof (segments_nl_lacks s) as H. induction H as [|l ls Hl Hls IH]; [done|].
  cbn. destruct ls as [|l2 ls]; [destruct l; [done|by constructor]|].
  constructor; [by apply strip_cr_forall|done].
Qed.

Lemma lines_unlines ls : Forall line_ok ls -> lines (unlines ls) = ls.
Proof.
  induction 1 as [|l ls [H1 H2] _ IH]; [done|].
  change (unlines (l :: ls)) with ((l ++ [10]) ++ unlines ls).
  rewrite <- app_assoc. cbn [app]. rewrite lines_cons by done. by rewrite H2, IH.
Qed.

(** ** Lemmas: numbers *)

Definition digits_value (r : Z) (ds : list Z) : Z := fold_left (fun a d => a * r + d) ds 0.
Abbreviation digits_lt r := (Forall (fun d : Z => 0 <= d < r)).

Section digits.
Context (r : Z) (Hr : 2 <= r).

Lemma digs_spec fuel n :
  0 <= n < r ^ Z.of_nat fuel -> (0 < fuel)%nat ->
  digits_value r (digs r fuel n) = n
  /\ digits_lt r (digs r fuel n)
  /\ (0 < length (digs r fuel n))%nat
  /\ (forall k, (0 < k)%nat -> n < r ^ Z.of_nat k -> (length (digs r fuel n) <= k)%nat).
Proof using Hr.
  revert n. induction fuel as [|f IH]; intros n Hn Hf; [lia|]. cbn [digs].
  assert (Hmod : 0 <= n mod r < r) by (apply Z.mod_pos_bound; lia).
  assert (Hdiv : n = r * (n / r) + n mod r) by (apply Z.div_mod; lia).
  assert (Hq : 0 <= n / r) by (apply Z.div_pos; lia).
  rewrite Nat2Z.inj_succ, Z.pow_succ_r in Hn by lia.
  destruct (n / r =? 0) eqn:E; bool_to_prop.
  { cbn. unfold digits_value. cbn. repeat split; try lia. constructor; [lia|done]. }
  assert (Hf' : (0 < f)%nat) by (destruct f; [cbn in Hn; nia|lia]).
  destruct (IH (n / r)) as (IH1 & IH2 & IH3 & IH4); [nia|done|].
  unfold digits_value in *. rewrite fold_left_app. cbn. rewrite IH1, length_app. cbn.
  repeat split; [lia| |lia|].
  - apply Forall_app. auto.
  - intros k Hk Hlt. destruct k as [|k]; [lia|].
    rewrite Nat2Z.inj_succ, Z.pow_succ_r in Hlt by lia.
    destruct k as [|k]; [cbn in Hlt; nia|].
    assert (length (digs r f (n / r)) <= S k)%nat by (apply IH4; [lia|nia]). lia.
Qed.

(** Without leading zeros: the first digit is zero only for zero. *)
Lemma digs_head fuel n ds :
  0 <= n < r ^ Z.of_nat fuel -> digs r fuel n = 0 :: ds -> ds = [].
Proof using Hr.
  revert n ds. induction fuel as [|f IH]; intros n ds Hn; cbn [digs]; [done|].
  destruct (n / r =? 0) eqn:E; [by intros [= _ <-]|]. bool_to_prop.
  assert (Hq : 0 <= n / r) by (apply Z.div_pos; lia).
  assert (Hdiv : n = r * (n / r) + n mod r) by (apply Z.div_mod; lia).
  assert (Hmod : 0 <= n mod r < r) by (apply Z.mod_pos_bound; lia).
  rewrite Nat2Z.inj_succ, Z.pow_succ_r in Hn by lia.
  assert (Hf' : (0 < f)%nat) by (destruct f; [cbn in Hn; nia|lia]).
  destruct (digs_spec f (n / r)) as (IH1 & _ & IH3 & _); [nia|done|].
  destruct (digs r f (n / r)) as [|d ds'] eqn:E2; [cbn in IH3; lia|].
  cbn. intros [= -> <-]. assert (ds' = []) as -> by (apply (IH (n / r)); [nia|done]).
  unfold digits_value in IH1. cbn in IH1. lia.
Qed.

Lemma num_fuel n : 0 <= n -> n < r ^ Z.of_nat (S (Z.to_nat (Z.log2 n))).
Proof using Hr.
  intros Hn. rewrite Nat2Z.inj_succ, Z2Nat.id by apply Z.log2_nonneg.
  destruct (decide (n = 0)) as [->|Hne]; [cbn; lia|].
  destruct (Z.log2_spec n) as [_ H]; [lia|].
  eapply Z.lt_le_trans; [exact H|]. apply Z.pow_le_mono_l. lia.
Qed.

Lemma num_digits_spec n :
  0 <= n ->
  digits_value r (num_digits r n) = n /\ digits_lt r (num_digits r n)
  /\ (0 < length (num_digits r n))%nat
  /\ (forall k, (0 < k)%nat -> n < r ^ Z.of_nat k -> (length (num_digits r n) <= k)%nat)
  /\ (forall ds, num_digits r n = 0 :: ds -> ds = []).
Proof using Hr.
  intros Hn. pose proof (num_fuel n Hn) as Hfuel.
  destruct (digs_spec (S (Z.to_nat (Z.log2 n))) n) as (H1 & H2 & H3 & H4); [lia|lia|].
  repeat split; try done. intros ds. apply digs_head. lia.
Qed.
End digits.

Lemma to_digit_char r d : 0 <= d < r -> r <= 16 -> to_digit r (digit_char d) = Some d.
Proof.
  intros Hd Hr. unfold to_digit, digit_char.
  destruct (d <? 10) eqn:E; bool_to_prop.
  - rewrite (proj2 (Z.leb_le _ _)), (proj2 (Z.leb_le _ _)) by lia. cbn.
    rewrite (proj2 (Z.ltb_lt _ _)) by lia. f_equal. lia.
  - rewrite (proj2 (Z.leb_gt (87 + d) 57)), andb_false_r by lia.
    rewrite (proj2 (Z.leb_le _ _)), (proj2 (Z.leb_le _ _)) by lia. cbn.
    rewrite (proj2 (Z.ltb_lt _ _)) by lia. f_equal. lia.
Qed.

Lemma to_digit_inv r c d :
  to_digit r c = Some d ->
  d < r /\ (48 <= c <= 57 /\ d = c - 48 \/ 97 <= c <= 122 /\ d = c - 87
            \/ 65 <= c <= 90 /\ d = c - 55).
Proof.
  unfold to_digit. repeat case_goal; try done; intros [= <-]; bool_to_prop; lia.
Qed.

(** The characters a number is written with: decimal digits, and [a] to [f]. *)
Definition numeral_char (c : char) : Prop := 48 <= c <= 57 \/ 97 <= c <= 102.

Lemma digit_char_numeral d : 0 <= d < 16 -> numeral_char (digit_char d).
Proof. intros Hd. unfold digit_char, numeral_char. case_goal; bool_to_prop; lia. Qed.

Lemma show_dec_chars n : 0 <= n -> Forall (fun c => 48 <= c <= 57) (show_dec n).
Proof.
  intros Hn. unfold show_dec. apply Forall_map.
  destruct (num_digits_spec 10 ltac:(lia) n Hn) as (_ & H & _).
  eapply Forall_impl; [exact H|]. intros d Hd. unfold compose, digit_char.
  cbv beta in Hd. destruct (d <? 10) eqn:?; bool_to_prop; lia.
Qed.

Lemma show_hex_chars n : 0 <= n -> Forall numeral_char (show_hex n).
Proof.
  intros Hn. unfold show_hex. apply Forall_map.
  destruct (num_digits_spec 16 ltac:(lia) n Hn) as (_ & H & _).
  eapply Forall_impl; [exact H|]. intros d Hd. by apply digit_char_numeral.
Qed.

Lemma show_dec_nonempty n : 0 <= n -> show_dec n <> [].
Proof.
  intros Hn. unfold show_dec.
  destruct (num_digits_spec 10 ltac:(lia) n Hn) as (_ & _ & H & _).
  by destruct (num_digits 10 n); [cbn in H; lia|].
Qed.

Lemma show_hex_nonempty n : 0 <= n -> show_hex n <> [].
Proof.
  intros Hn. unfold show_hex.
  destruct (num_digits_spec 16 ltac:(lia) n Hn) as (_ & _ & H & _).
  by destruct (num_digits 16 n); [cbn in H; lia|].
Qed.

Lemma digits_val_map max acc ds :
  digits_lt 10 ds -> 0 <= acc -> fold_left (fun a d => a * 10 + d) ds acc <= max ->
  digits_val max acc (map digit_char ds) = Some (fold_left (fun a d => a * 10 + d) ds acc).
Proof.
  intros Hds. revert acc. induction Hds as [|d ds Hd Hds IH]; intros acc Hacc Hmax; [done|].
  cbn [map digits_val]. rewrite to_digit_char by lia. cbn [fold_left] in Hmax |- *.
  assert (Hge : forall l a, digits_lt 10 l -> 0 <= a -> a <= fold_left (fun a d => a * 10 + d) l a).
  { clear. induction l as [|x l IHl]; intros a Hl Ha; cbn; [lia|]. inversion_clear Hl.
    transitivity (a * 10 + x); [lia|apply IHl; [done|lia]]. }
  specialize (Hge ds (acc * 10 + d) Hds ltac:(lia)).
  rewrite (proj2 (Z.leb_le _ _)) by lia. apply IH; [lia|done].
Qed.

(** Reading back what was written. *)
Lemma parse_show_dec max n : 0 <= n <= max -> parse_uint max (show_dec n) = Some n.
Proof.
  intros Hn. destruct (num_digits_spec 10 ltac:(lia) n ltac:(lia)) as (Hv & Hd & _).
  pose proof (show_dec_chars n ltac:(lia)) as Hc. pose proof (show_dec_nonempty n ltac:(lia)).
  assert (E : digits_val max 0 (show_dec n) = Some n).
  { unfold digits_value in Hv. unfold show_dec. rewrite digits_val_map; rewrite ?Hv; auto; lia. }
  unfold parse_uint. destruct (show_dec n) as [|c s] eqn:Es; [done|].
  inversion_clear Hc. rewrite (proj2 (Z.eqb_neq c 43)), (proj2 (Z.eqb_neq c 45)) by lia. done.
Qed.

Lemma parse_uint_bound max s n : 0 <= max -> parse_uint max s = Some n -> 0 <= n <= max.
Proof.
  intros Hmax.
  assert (H : forall t acc v, 0 <= acc <= max -> digits_val max acc t = Some v -> 0 <= v <= max).
  { induction t as [|c t IH]; intros acc v Ha; cbn; [intros [= <-]; done|].
    destruct (to_digit 10 c) as [d|] eqn:Ed; [|done].
    destruct (acc * 10 + d <=? max) eqn:E; [|done]. bool_to_prop. apply IH.
    apply to_digit_inv in Ed. lia. }
  unfold parse_uint. destruct s as [|c s]; [done|].
  repeat case_goal; try done; apply H; lia.
Qed.
