(* ===== verification/IpAddr.v ===== *)
(** [std::net::IpAddr]: its parser and its printer, as the policy file uses them.

    An address is its big-endian integer value; octets and 16-bit groups are its
    digits.  The parser is the recursive descent of the standard library
    ([core::net::parser]); the printer compresses the longest run of zero groups. *)
From S2P Require Import Prelude Unicode RustStr.

Inductive IpAddr : Type :=
| V4 (n : Z)
| V6 (n : Z).

#[export] Instance ipaddr_eq_dec : EqDecision IpAddr.
Proof. solve_decision. Defined.
#[export] Instance ipaddr_countable : Countable IpAddr.
Proof.
  refine (inj_countable'
    (fun a => match a with V4 n => inl n | V6 n => inr n end)
    (fun s => match s with inl n => V4 n | inr n => V6 n end) _).
  by intros [].
Defined.

Definition ip_ok (a : IpAddr) : Prop :=
  match a with V4 n => 0 <= n < 2 ^ 32 | V6 n => 0 <= n < 2 ^ 128 end.

(** [Ipv4Addr::octets], [Ipv6Addr::octets] and their inverses. *)
Definition octets (a : IpAddr) : list Z :=
  match a with V4 n => be_split 8 4 n | V6 n => be_split 8 16 n end.
Definition v4_of (o : list Z) : IpAddr := V4 (be_join 8 o).
Definition v6_of (o : list Z) : IpAddr := V6 (be_join 8 o).

Lemma octets4 q : ip_ok (V4 q) -> exists a b c d, octets (V4 q) = [a; b; c; d] /\ v4_of [a; b; c; d] = V4 q.
Proof.
  intros Hq. unfold octets. pose proof (be_join_split 8 4 q ltac:(lia) Hq) as E.
  pose proof (be_split_length 8 4 q) as Hl.
  destruct (be_split 8 4 q) as [|a [|b [|c [|d [|]]]]]; try done. exists a, b, c, d.
  split; [done|]. unfold v4_of. by rewrite E.
Qed.

(** [IpAddr::is_unspecified] *)
Definition is_unspecified (a : IpAddr) : bool :=
  match a with V4 n => n =? 0 | V6 n => n =? 0 end.

(** ** Parsing *)

(** Digits up to [max]; one more is a failure. *)
Fixpoint read_digits (r : Z) (max : nat) (s : str) {struct s} : option (list Z * str) :=
  match s with
  | [] => Some ([], [])
  | c :: s' =>
      match to_digit r c with
      | None => Some ([], s)
      | Some d =>
          match max with
          | O => None
          | S m => '(ds, rest) ← read_digits r m s'; Some (d :: ds, rest)
          end
      end
  end.

(** [read_number(radix, Some(max_digits), allow_zero_prefix)] into an integer type with
    largest value [bound]. *)
Definition read_number (r : Z) (max : nat) (zero_prefix : bool) (bound : Z) (s : str)
  : option (Z * str) :=
  '(ds, rest) ← read_digits r max s;
  if (length ds =? 0)%nat then None
  else if negb zero_prefix && bool_decide (head ds = Some 0) && (1 <? length ds)%nat then None
  else let v := digits_value r ds in
       if v <=? bound then Some (v, rest) else None.

Definition read_given (c : char) (s : str) : option str :=
  match s with d :: s' => if d =? c then Some s' else None | [] => None end.

(** [read_separator]: the separator is required before every item but the first. *)
Definition read_sep (sep : char) (first : bool) (s : str) : option str :=
  if first then Some s else read_given sep s.

Definition read_octet : str -> option (Z * str) := read_number 10 3 false 255.

Definition read_ipv4_addr (s : str) : option (list Z * str) :=
  '(a, s) ← read_octet s;
  s ← read_given 46 s; '(b, s) ← read_octet s;
  s ← read_given 46 s; '(c, s) ← read_octet s;
  s ← read_given 46 s; '(d, s) ← read_octet s;
  Some ([a; b; c; d], s).

(** At most [k] groups: the groups, whether the last two came from an embedded IPv4
    address, and the rest of the input. *)
Fixpoint read_groups (first : bool) (k : nat) (s : str) : list Z * bool * str :=
  match k with
  | O => ([], false, s)
  | S k' =>
      let embedded := if (1 <=? k')%nat then (t ← read_sep 58 first s; read_ipv4_addr t) else None in
      match embedded with
      | Some ([a; b; c; d], rest) => ([be16 a b; be16 c d], true, rest)
      | _ =>
          match (t ← read_sep 58 first s; read_number 16 4 true 65535 t) with
          | Some (g, rest) =>
              let '(gs, v4, rest') := read_groups false k' rest in (g :: gs, v4, rest')
          | None => ([], false, s)
          end
      end
  end.

Definition read_ipv6_addr (s : str) : option (Z * str) :=
  let '(head, head_v4, rest) := read_groups true 8 s in
  if (length head =? 8)%nat then Some (be_join 16 head, rest)
  else if head_v4 then None
  else
    rest ← read_given 58 rest;
    rest ← read_given 58 rest;
    let '(tail, _, rest') := read_groups true (8 - (length head + 1)) rest in
    Some (be_join 16 (head ++ replicate (8 - length head - length tail) 0 ++ tail), rest').

(** [s.parse::<Ipv6Addr>()] *)
Definition parse_ipv6 (s : str) : option Z :=
  match read_ipv6_addr s with Some (n, []) => Some n | _ => None end.

(** [s.parse::<IpAddr>()]: whichever family reads first must consume everything. *)
Definition parse_ip (s : str) : option IpAddr :=
  match read_ipv4_addr s with
  | Some (o, []) => Some (v4_of o)
  | Some (_, _ :: _) => None
  | None => V6 <$> parse_ipv6 s
  end.

Definition is_ipv6 (s : str) : bool := bool_decide (is_Some (parse_ipv6 s)).
Definition is_ip (s : str) : bool := bool_decide (is_Some (parse_ip s)).

(** ** Printing *)

Fixpoint sep_by (sep : str) (ls : list str) : str :=
  match ls with
  | [] => []
  | [l] => l
  | l :: ls' => l ++ sep ++ sep_by sep ls'
  end.

Definition show_octets (o : list Z) : str := sep_by [46] (map show_dec o).
Definition show_groups (g : list Z) : str := sep_by [58] (map show_hex g).

(** The scan for the first longest run of zero groups: [(start, len)] of the best run
    so far and of the current one. *)
Fixpoint zero_span (i : nat) (longest current : nat * nat) (segs : list Z) : nat * nat :=
  match segs with
  | [] => longest
  | g :: segs' =>
      if g =? 0 then
        let start := if (current.2 =? 0)%nat then i else current.1 in
        let current' := (start, S current.2) in
        let longest' := if (longest.2 <? current'.2)%nat then current' else longest in
        zero_span (S i) longest' current' segs'
      else zero_span (S i) longest (0%nat, 0%nat) segs'
  end.

Definition is_v4_mapped (segs : list Z) : bool :=
  bool_decide (take 6 segs = [0; 0; 0; 0; 0; 65535]).

Definition show_ipv6 (n : Z) : str :=
  let segs := be_split 16 8 n in
  if is_v4_mapped segs then $"::ffff:" ++ show_octets (be_split 8 4 (n mod 2 ^ 32))
  else
    let '(start, len) := zero_span 0 (0%nat, 0%nat) (0%nat, 0%nat) segs in
    if (1 <? len)%nat
    then show_groups (take start segs) ++ $"::" ++ show_groups (drop (start + len) segs)
    else show_groups segs.

(** [addr.to_string()] *)
Definition show_ip (a : IpAddr) : str :=
  match a with V4 n => show_octets (be_split 8 4 n) | V6 n => show_ipv6 n end.

Example show_ip_1 : show_ip (V4 16843009) = $"1.1.1.1".
Proof. reflexivity. Qed.
Example parse_ip_1 : (show_ip <$> parse_ip ($"2606:4700:4700::1111")) = Some $"2606:4700:4700::1111".
Proof. vm_compute. reflexivity. Qed.
Example parse_ip_2 : (show_ip <$> parse_ip ($"2606:0:0:0:0:0:0:1")) = Some $"2606::1".
Proof. vm_compute. reflexivity. Qed.
Example parse_ip_3 : (show_ip <$> parse_ip ($"::FFFF:10.0.0.1")) = Some $"::ffff:10.0.0.1".
Proof. vm_compute. reflexivity. Qed.
Example parse_ip_4 : map parse_ip [$"1.2.3"; $"01.2.3.4"; $"1.2.3.4.5"; $"1:2"; $"example.com"; $"::1::"]
  = [None; None; None; None; None; None].
Proof. vm_compute. reflexivity. Qed.

(** ** Reading back a printed address *)

(** The first character of [s] is not a digit in base [r]. *)
Definition stops (r : Z) (s : str) : Prop :=
  match s with [] => True | c :: _ => to_digit r c = None end.

Lemma read_digits_map r max ds rest :
  r <= 16 -> digits_lt r ds -> (length ds <= max)%nat -> stops r rest ->
  read_digits r max (map digit_char ds ++ rest) = Some (ds, rest).
Proof.
  intros Hr Hds. revert max. induction Hds as [|d ds Hd Hds IH]; intros max Hlen Hstop.
  - destruct rest as [|c rest]; cbn; [done|]. cbn in Hstop. by rewrite Hstop.
  - cbn in Hlen. destruct max as [|max]; [lia|]. cbn.
    rewrite to_digit_char by done. by rewrite (IH max) by (done || lia).
Qed.

(** A number printed in base [r] reads back, whatever follows it, when it fits. *)
Lemma read_number_show r max zp bound n rest :
  2 <= r <= 16 -> (0 < max)%nat -> 0 <= n < r ^ Z.of_nat max -> n <= bound -> stops r rest ->
  read_number r max zp bound (map digit_char (num_digits r n) ++ rest) = Some (n, rest).
Proof.
  intros Hr Hm Hn Hb Hstop.
  destruct (num_digits_spec r ltac:(lia) n ltac:(lia)) as (Hv & Hd & Hpos & Hlen & Hhead).
  unfold read_number.
  assert (length (num_digits r n) <= max)%nat by (apply Hlen; lia).
  rewrite read_digits_map by (done || lia). cbn [mbind option_bind].
  destruct (num_digits r n) as [|d ds] eqn:E; [cbn in Hpos; lia|].
  cbn [length Nat.eqb head].
  replace (negb zp && bool_decide (Some d = Some 0) && (1 <? S (length ds))%nat) with false.
  - rewrite Hv. by rewrite (proj2 (Z.leb_le _ _)) by lia.
  - symmetry. destruct (decide (d = 0)) as [->|Hne].
    + rewrite (Hhead ds eq_refl). cbn. by rewrite andb_false_r.
    + rewrite (bool_decide_eq_false_2 (Some d = Some 0)) by congruence. by rewrite andb_false_r.
Qed.

Lemma read_octet_show n rest :
  byte_ok n -> stops 10 rest -> read_octet (show_dec n ++ rest) = Some (n, rest).
Proof.
  intros Hn Hs. unfold byte_ok in Hn.
  apply (read_number_show 10 3); [lia|lia|cbn; lia|lia|done].
Qed.

Lemma read_group_show n rest :
  0 <= n < 65536 -> stops 16 rest ->
  read_number 16 4 true 65535 (show_hex n ++ rest) = Some (n, rest).
Proof. intros Hn Hs. apply (read_number_show 16 4); [lia|lia|cbn; lia|lia|done]. Qed.

Lemma stops_char r c s : to_digit r c = None -> stops r (c :: s).
Proof. done. Qed.

Lemma four_octets (o : list Z) :
  length o = 4%nat -> exists a b c d, o = [a; b; c; d].
Proof. destruct o as [|a [|b [|c [|d [|]]]]]; try done. by exists a, b, c, d. Qed.

Lemma read_ipv4_show o rest :
  bytes_ok o -> length o = 4%nat -> stops 10 rest ->
  read_ipv4_addr (show_octets o ++ rest) = Some (o, rest).
Proof.
  intros Ho Hl Hs. destruct (four_octets o Hl) as (a & b & c & d & ->).
  repeat match goal with H : Forall _ (_ :: _) |- _ => inversion_clear H end.
  unfold show_octets. cbn [map sep_by].
  repeat (rewrite <- app_assoc; cbn [app]). unfold read_ipv4_addr.
  do 3 (rewrite read_octet_show by (done || reflexivity);
        cbn [mbind option_bind read_given]; rewrite Z.eqb_refl; cbn [mbind option_bind]).
  by rewrite read_octet_show.
Qed.

(** What a decimal read leaves of a hexadecimal numeral still does not start with a dot. *)
Lemma read_digits_suffix r max h rest ds s :
  Forall numeral_char h -> stops 10 rest -> r = 10 ->
  read_digits r max (h ++ rest) = Some (ds, s) -> exists h', s = h' ++ rest /\ Forall numeral_char h'.
Proof.
  intros Hh Hs ->. revert max ds s. induction Hh as [|c h Hc Hh IH]; intros max ds s.
  - cbn [app]. destruct rest as [|c rest]; cbn; [intros [= _ <-]; by exists []|].
    cbn in Hs. rewrite Hs. intros [= _ <-]. by exists [].
  - cbn. destruct (to_digit 10 c) as [d|] eqn:E.
    + destruct max as [|m]; [done|]. destruct (read_digits 10 m (h ++ rest)) as [[ds' s']|] eqn:E'; [|done].
      cbn. intros [= <- <-]. by eapply IH.
    + intros [= _ <-]. exists (c :: h). auto.
Qed.

Lemma not_ipv4 h rest :
  Forall numeral_char h -> stops 10 rest -> head rest <> Some 46 ->
  read_ipv4_addr (h ++ rest) = None.
Proof.
  intros Hh Hs Hd. unfold read_ipv4_addr, read_octet, read_number.
  destruct (read_digits 10 3 (h ++ rest)) as [[ds s]|] eqn:E; [|done]. cbn.
  destruct (read_digits_suffix 10 3 h rest ds s Hh Hs eq_refl E) as (h' & -> & Hh').
  assert (Hgiven : read_given 46 (h' ++ rest) = None).
  { destruct Hh' as [|c h' Hc _]; cbn.
    - destruct rest as [|c rest]; [done|]. cbn. cbn in Hd.
      rewrite (proj2 (Z.eqb_neq c 46)) by congruence. done.
    - unfold numeral_char in Hc. by rewrite (proj2 (Z.eqb_neq c 46)) by lia. }
  repeat case_goal; cbn; try done; rewrite Hgiven; done.
Qed.

Lemma read_groups_number first k s t g rest :
  read_sep 58 first s = Some t -> read_ipv4_addr t = None ->
  read_number 16 4 true 65535 t = Some (g, rest) ->
  read_groups first (S k) s =
    (let '(gs, v4, rest') := read_groups false k rest in (g :: gs, v4, rest')).
Proof.
  intros E1 E2 E3. cbn [read_groups]. rewrite E1. cbn [mbind option_bind].
  rewrite E2, E3. by destruct (1 <=? k)%nat.
Qed.

Lemma read_groups_embedded first k s t a b c d rest :
  read_sep 58 first s = Some t -> read_ipv4_addr t = Some ([a; b; c; d], rest) ->
  read_groups first (S (S k)) s = ([be16 a b; be16 c d], true, rest).
Proof.
  intros E1 E2. cbn [read_groups Nat.leb]. rewrite E1. cbn [mbind option_bind]. by rewrite E2.
Qed.

Definition group_ok (g : Z) : Prop := 0 <= g < 65536.

(** Groups after the first are each preceded by a colon. *)
Definition tail_groups (g : list Z) : str := concat (map (fun x => 58 :: show_hex x) g).

Lemma show_groups_cons g gs : show_groups (g :: gs) = show_hex g ++ tail_groups gs.
Proof.
  unfold show_groups, tail_groups. cbn [map]. revert g.
  induction gs as [|x gs IH]; intros g; cbn [map sep_by concat]; [by rewrite app_nil_r|].
  f_equal. cbn. f_equal. apply IH.
Qed.

(** What may follow the groups of one side: nothing, or the double colon. *)
Definition ends_side (rest : str) : Prop := rest = [] \/ exists t, rest = 58 :: 58 :: t.

Lemma ends_side_stops r rest : ends_side rest -> r <= 16 -> stops r rest.
Proof.
  intros [->|(t & ->)] Hr; [done|]. unfold stops, to_digit. cbn.
  destruct (r <? r) eqn:E; [apply Z.ltb_lt in E; lia|done].
Qed.

Lemma read_number_none r max zp bound s : stops r s -> read_number r max zp bound s = None.
Proof.
  intros Hs. unfold read_number. destruct s as [|c s]; cbn; [done|].
  cbn in Hs. by rewrite Hs.
Qed.

Lemma read_ipv4_none s : stops 10 s -> read_ipv4_addr s = None.
Proof. intros Hs. unfold read_ipv4_addr, read_octet. by rewrite read_number_none. Qed.

Lemma read_groups_end first k rest :
  ends_side rest -> read_groups first k rest = ([], false, rest).
Proof.
  intros He. destruct k as [|k]; [done|]. cbn [read_groups].
  assert (Hsep : forall t, read_sep 58 first rest = Some t -> stops 16 t /\ stops 10 t).
  { intros t. destruct He as [->|(u & ->)]; destruct first; cbn; intros [= <-];
      split; first [exact I | reflexivity]. }
  destruct (read_sep 58 first rest) as [t|] eqn:E; cbn [mbind option_bind].
  - destruct (Hsep t eq_refl) as [H16 H10].
    rewrite read_number_none by done. rewrite read_ipv4_none by done. by destruct (1 <=? k)%nat.
  - by destruct (1 <=? k)%nat.
Qed.

Lemma tail_groups_stops r gs rest :
  r <= 16 -> ends_side rest ->
  stops r (tail_groups gs ++ rest) /\ head (tail_groups gs ++ rest) <> Some 46.
Proof.
  intros Hr He. destruct gs as [|g gs]; cbn [tail_groups map concat app].
  - split; [by apply ends_side_stops|]. by destruct He as [->|(t & ->)].
  - split; [|done]. unfold stops, to_digit. cbn.
    destruct (r <? r) eqn:E; [apply Z.ltb_lt in E; lia|done].
Qed.

(** One side of the printed address reads back as its groups. *)
Lemma read_tail_groups gs k rest :
  Forall group_ok gs -> (length gs <= k)%nat -> ends_side rest ->
  read_groups false k (tail_groups gs ++ rest) = (gs, false, rest).
Proof.
  intros Hgs. revert k. induction Hgs as [|g gs Hg Hgs IH]; intros k Hk He.
  - by apply read_groups_end.
  - cbn in Hk. destruct k as [|k]; [lia|].
    cbn [tail_groups map concat]. rewrite <- app_assoc. fold (tail_groups gs).
    cbn [read_groups read_sep read_given app]. rewrite Z.eqb_refl. cbn [mbind option_bind].
    rewrite not_ipv4; [|by apply show_hex_chars; unfold group_ok in Hg; lia
                       |by apply tail_groups_stops|by apply (tail_groups_stops 10)].
    rewrite read_group_show by (by apply tail_groups_stops || done).
    rewrite IH by (done || lia). by destruct (1 <=? k)%nat.
Qed.

Lemma read_show_groups gs k rest :
  Forall group_ok gs -> (length gs <= k)%nat -> ends_side rest ->
  read_groups true k (show_groups gs ++ rest) = (gs, false, rest).
Proof.
  intros Hgs Hk He. destruct Hgs as [|g gs Hg Hgs]; [by apply read_groups_end|].
  cbn in Hk. destruct k as [|k]; [lia|].
  rewrite show_groups_cons, <- app_assoc. cbn [read_groups read_sep mbind option_bind].
  rewrite not_ipv4; [|by apply show_hex_chars; unfold group_ok in Hg; lia
                     |by apply tail_groups_stops|by apply (tail_groups_stops 10)].
  rewrite read_group_show by (by apply tail_groups_stops || done).
  rewrite read_tail_groups by (done || lia). by destruct (1 <=? k)%nat.
Qed.

Lemma show_groups_not_ipv4 gs rest :
  Forall group_ok gs -> ends_side rest -> read_ipv4_addr (show_groups gs ++ rest) = None.
Proof.
  intros Hgs He. destruct Hgs as [|g gs Hg Hgs].
  - apply read_ipv4_none. by apply ends_side_stops.
  - rewrite show_groups_cons, <- app_assoc. apply not_ipv4.
    + apply show_hex_chars. unfold group_ok in Hg. lia.
    + by apply tail_groups_stops.
    + by apply (tail_groups_stops 10).
Qed.

(** The run found by the scan consists of zeros. *)
Definition span_ok (segs : list Z) (sp : nat * nat) : Prop :=
  (sp.1 + sp.2 <= length segs)%nat
  /\ forall j, (sp.1 <= j < sp.1 + sp.2)%nat -> segs !! j = Some 0.

Lemma zero_span_ok all i longest current segs :
  drop i all = segs -> (i <= length all)%nat -> span_ok all longest -> span_ok all current ->
  (current.2 = 0%nat \/ (current.1 + current.2 = i)%nat) ->
  span_ok all (zero_span i longest current segs).
Proof.
  revert i longest current. induction segs as [|g segs IH]; intros i longest current Hd Hi Hl Hc Hcur.
  - done.
  - assert (Hg : all !! i = Some g) by (rewrite <- (Nat.add_0_r i), <- lookup_drop, Hd; done).
    assert (Hd' : drop (S i) all = segs) by (by apply (drop_S_inv all i g)) ||
      (rewrite (drop_S _ _ _ Hg) in Hd; by injection Hd).
    assert (Hi' : (S i <= length all)%nat) by (apply lookup_lt_Some in Hg; lia).
    cbn [zero_span]. destruct (g =? 0) eqn:E; bool_to_prop.
    + subst g. set (start := if (current.2 =? 0)%nat then i else current.1).
      assert (Hend : (start + S current.2 = S i)%nat).
      { unfold start. destruct (current.2 =? 0)%nat eqn:E2; bool_to_prop; lia. }
      assert (Hok : span_ok all (start, S current.2)).
      { split; cbn [fst snd]; [lia|]. intros j Hj. destruct (decide (j = i)) as [->|Hne]; [done|].
        apply Hc. unfold start in *. destruct (current.2 =? 0)%nat eqn:E2; bool_to_prop; lia. }
      apply IH; [done|done|by case_goal|done|by right].
    + apply IH; [done|done|done| |by left]. split; cbn; [lia|intros; lia].
Qed.

Lemma span_split segs st ln :
  span_ok segs (st, ln) -> segs = take st segs ++ replicate ln 0 ++ drop (st + ln) segs.
Proof.
  intros [Hle Hz]. cbn [fst snd] in *. rewrite <- (take_drop st segs) at 1. f_equal.
  rewrite <- drop_drop, <- (take_drop ln (drop st segs)) at 1. f_equal.
  apply list_eq. intros j. destruct (decide (j < ln)%nat).
  - rewrite take_drop_lookup, Hz by lia. symmetry. by apply lookup_replicate_2.
  - rewrite !lookup_ge_None_2; rewrite ?length_replicate, ?length_take; try done; lia.
Qed.

Lemma be_split16_ok n : Forall group_ok (be_split 16 8 n).
Proof. apply (be_split_ok 16). lia. Qed.

Lemma parse_show_groups n segs :
  Forall group_ok segs -> length segs = 8%nat -> be_join 16 segs = n ->
  read_ipv6_addr (show_groups segs) = Some (n, []).
Proof.
  intros Hok Hlen <-. unfold read_ipv6_addr.
  rewrite <- (app_nil_r (show_groups segs)), read_show_groups; [|done|lia|by left].
  by rewrite Hlen.
Qed.

Lemma parse_show_compressed st ln segs :
  Forall group_ok segs -> length segs = 8%nat -> span_ok segs (st, ln) -> (1 < ln)%nat ->
  read_ipv6_addr (show_groups (take st segs) ++ $"::" ++ show_groups (drop (st + ln) segs))
  = Some (be_join 16 segs, []).
Proof.
  intros Hok Hlen Hsp Hln. pose proof (span_split _ _ _ Hsp) as E. destruct Hsp as [Hle _].
  cbn [fst snd] in Hle. unfold read_ipv6_addr.
  change ($"::" ++ show_groups (drop (st + ln) segs))
    with (58 :: 58 :: show_groups (drop (st + ln) segs)).
  set (pre := take st segs) in *. set (post := drop (st + ln) segs) in *.
  assert (Hpre : length pre = st) by (unfold pre; rewrite length_take; lia).
  assert (Hpost : length post = (8 - st - ln)%nat) by (unfold post; rewrite length_drop; lia).
  rewrite read_show_groups; [|by apply Forall_take|lia|right; eexists; reflexivity].
  rewrite Hpre. rewrite (proj2 (Nat.eqb_neq st 8)) by lia.
  do 2 (cbn [read_given mbind option_bind]; rewrite Z.eqb_refl). cbn [mbind option_bind].
  rewrite <- (app_nil_r (show_groups post)), read_show_groups;
    [|by apply Forall_drop|lia|by left].
  do 2 f_equal. rewrite E. do 4 f_equal. lia.
Qed.

Lemma parse_show_mapped n :
  0 <= n < 2 ^ 128 -> is_v4_mapped (be_split 16 8 n) = true ->
  read_ipv6_addr ($"::ffff:" ++ show_octets (be_split 8 4 (n mod 2 ^ 32))) = Some (n, []).
Proof.
  intros Hn Hm. apply bool_decide_eq_true in Hm.
  assert (Hj : be_join 16 (be_split 16 8 n) = n) by (apply be_join_split; cbn; lia).
  set (os := be_split 8 4 (n mod 2 ^ 32)).
  assert (Hos : be_join 8 os = n mod 2 ^ 32).
  { apply be_join_split; [lia|]. apply Z.mod_pos_bound. lia. }
  assert (Hok : bytes_ok os) by (apply (be_split_ok 8); lia).
  destruct (four_octets os) as (a & b & c & d & Eos); [apply be_split_length|].
  change ($"::ffff:" ++ show_octets os) with (58 :: 58 :: show_hex 65535 ++ 58 :: show_octets os).
  unfold read_ipv6_addr. rewrite read_groups_end by (right; by eexists).
  cbn [length Nat.eqb].
  do 2 (cbn [read_given mbind option_bind]; rewrite Z.eqb_refl). cbn [mbind option_bind].
  change (8 - (0 + 1))%nat with 7%nat.
  erewrite read_groups_number; [|reflexivity|by apply not_ipv4; [apply show_hex_chars| |]
                                |by apply read_group_show].
  erewrite read_groups_embedded;
    [|reflexivity|rewrite <- (app_nil_r (show_octets os)), <- Eos;
      apply read_ipv4_show; [done|apply be_split_length|done]].
  rewrite Eos in Hos. cbn [length Nat.sub replicate app]. do 2 f_equal.
  pose proof (be_split_length 16 8 n) as Hl. pose proof (be_split_ok 16 8 n ltac:(lia)) as Hd.
  destruct (be_split 16 8 n) as [|s0 [|s1 [|s2 [|s3 [|s4 [|s5 [|s6 [|s7 [|]]]]]]]]]; try done.
  cbn [take] in Hm. simplify_eq. rewrite !be16_eq.
  unfold digits_ok in Hd. rewrite !Forall_cons in Hd.
  destruct Hd as (_ & _ & _ & _ & _ & _ & H6 & H7 & _).
  cbn [be_join length Z.of_nat Pos.of_succ_nat Pos.succ Z.mul Pos.mul Pos.add] in *.
  assert (Hlow : (65535 * 2 ^ 32 + (s6 * 2 ^ 16 + s7)) mod 2 ^ 32 = s6 * 2 ^ 16 + s7).
  { rewrite Z.add_comm, Z.mod_add by lia. apply Z.mod_small. lia. }
  match goal with H : _ = ?m mod _ |- _ => replace m with (65535 * 2 ^ 32 + (s6 * 2 ^ 16 + s7)) in H by lia end.
  rewrite Hlow in Hos. lia.
Qed.

Lemma parse_show_ipv6 n : 0 <= n < 2 ^ 128 -> read_ipv6_addr (show_ipv6 n) = Some (n, []).
Proof.
  intros Hn. unfold show_ipv6.
  assert (Hj : be_join 16 (be_split 16 8 n) = n) by (apply be_join_split; cbn; lia).
  destruct (is_v4_mapped _) eqn:Hm; [by apply parse_show_mapped|].
  destruct (zero_span _ _ _ _) as [st ln] eqn:E.
  destruct (1 <? ln)%nat eqn:Hln; bool_to_prop.
  - rewrite parse_show_compressed; [by rewrite Hj|apply be_split16_ok|apply be_split_length| |done].
    rewrite <- E.
    apply zero_span_ok; [done|lia| | |by left]; split; cbn; intros; lia.
  - apply parse_show_groups; [apply be_split16_ok|apply be_split_length|done].
Qed.

(** A printed IPv6 address contains a colon before any dot: it is never read as IPv4. *)
Lemma show_ipv6_not_ipv4 n : read_ipv4_addr (show_ipv6 n) = None.
Proof.
  unfold show_ipv6. destruct (is_v4_mapped _); [by apply read_ipv4_none|].
  destruct (zero_span _ _ _ _) as [st ln]. destruct (1 <? ln)%nat.
  - apply show_groups_not_ipv4; [apply Forall_take, be_split16_ok|right; by eexists].
  - rewrite <- (app_nil_r (show_groups _)).
    apply show_groups_not_ipv4; [apply be_split16_ok|by left].
Qed.

(** Every address reads back from its printed form. *)
Lemma parse_show_ip a : ip_ok a -> parse_ip (show_ip a) = Some a.
Proof.
  destruct a as [n|n]; cbn [ip_ok show_ip]; intros Hn; unfold parse_ip.
  - rewrite <- (app_nil_r (show_octets _)), read_ipv4_show;
      [|apply (be_split_ok 8); lia|apply be_split_length|done].
    unfold v4_of. rewrite be_join_split; [done|lia|cbn; lia].
  - rewrite show_ipv6_not_ipv4. unfold parse_ipv6. by rewrite parse_show_ipv6.
Qed.

Lemma is_ipv6_show a : ip_ok a -> is_ipv6 (show_ip a) = match a with V4 _ => false | V6 _ => true end.
Proof.
  destruct a as [n|n]; cbn [ip_ok show_ip]; intros Hn; unfold is_ipv6, parse_ipv6.
  - destruct (four_octets (be_split 8 4 n) (be_split_length 8 4 n)) as (a & b & c & d & E).
    unfold read_ipv6_addr. erewrite read_groups_embedded; [reflexivity|reflexivity|].
    rewrite <- (app_nil_r (show_octets _)), <- E.
    apply read_ipv4_show; [apply (be_split_ok 8); lia|apply be_split_length|done].
  - by rewrite parse_show_ipv6.
Qed.

(** ** Parsed addresses are in range *)

Lemma read_digits_lt r max s ds rest :
  2 <= r -> read_digits r max s = Some (ds, rest) -> digits_lt r ds.
Proof.
  intros Hr. revert max ds. induction s as [|c s IH]; intros max ds; cbn.
  - intros [= <- <-]. done.
  - destruct (to_digit r c) as [d|] eqn:E; [|by intros [= <- <-]].
    destruct max as [|m]; [done|].
    destruct (read_digits r m s) as [[ds' rest']|] eqn:E2; [|done].
    cbn. intros [= <- <-]. constructor; [apply to_digit_inv in E; lia|].
    by apply (IH m).
Qed.

Lemma digits_value_nonneg r ds : 2 <= r -> digits_lt r ds -> 0 <= digits_value r ds.
Proof.
  intros Hr Hds. unfold digits_value.
  assert (H : forall acc, 0 <= acc -> 0 <= fold_left (fun a d => a * r + d) ds acc).
  { induction Hds as [|d ds Hd Hds IH]; intros acc Hacc; cbn; [done|]. apply IH. nia. }
  by apply H.
Qed.

Lemma read_number_range r max zp bound s v rest :
  2 <= r -> read_number r max zp bound s = Some (v, rest) -> 0 <= v <= bound.
Proof.
  intros Hr. unfold read_number.
  destruct (read_digits r max s) as [[ds rest']|] eqn:E; [|done]. cbn [mbind option_bind].
  repeat case_goal; try done. intros [= <- <-]. bool_to_prop. split; [|done].
  apply digits_value_nonneg; [done|by eapply read_digits_lt].
Qed.

Lemma read_ipv4_range s o rest :
  read_ipv4_addr s = Some (o, rest) -> bytes_ok o /\ length o = 4%nat.
Proof.
  unfold read_ipv4_addr, read_octet. intros H.
  repeat (apply bind_Some in H as ([? ?] & ?%read_number_range & H) || lia
          || apply bind_Some in H as (? & ? & H)); [|lia..].
  injection H as <- <-. split; [|done]. unfold byte_ok. repeat constructor; lia.
Qed.

Lemma read_groups_range first k s gs v4 rest :
  read_groups first k s = (gs, v4, rest) -> Forall group_ok gs /\ (length gs <= k)%nat.
Proof.
  revert first s gs v4 rest. induction k as [|k IH]; intros first s gs v4 rest; cbn [read_groups].
  { intros [= <- <- <-]. split; [done|cbn; lia]. }
  set (embedded := if (1 <=? k)%nat then _ else _).
  assert (He : forall o r, embedded = Some (o, r) -> bytes_ok o /\ length o = 4%nat /\ (1 <= k)%nat).
  { unfold embedded. intros o r. destruct (1 <=? k)%nat eqn:E; [|done]. bool_to_prop.
    intros H. apply bind_Some in H as (t & _ & H). apply read_ipv4_range in H. naive_solver. }
  clearbody embedded.
  destruct (t ← read_sep 58 first s; read_number 16 4 true 65535 t) as [[g r]|] eqn:En.
  - assert (Hg : group_ok g).
    { apply bind_Some in En as (t & _ & H%read_number_range); unfold group_ok; lia. }
    destruct (read_groups false k r) as [[gs' v'] r'] eqn:E'. apply IH in E' as [H1 H2].
    destruct embedded as [[[|a [|b [|c [|d [|]]]]] r2]|]; intros [= <- <- <-];
      try (split; [by constructor|cbn; lia]).
    destruct (He _ _ eq_refl) as (Ho & _ & Hk).
    repeat match goal with H : Forall _ (_ :: _) |- _ => inversion_clear H end.
    split; [repeat constructor; unfold group_ok; try apply be16_bound; done|cbn; lia].
  - destruct embedded as [[[|a [|b [|c [|d [|]]]]] r2]|]; intros [= <- <- <-];
      try (split; [by constructor|cbn; lia]).
    destruct (He _ _ eq_refl) as (Ho & _ & Hk).
    repeat match goal with H : Forall _ (_ :: _) |- _ => inversion_clear H end.
    split; [repeat constructor; unfold group_ok; try apply be16_bound; done|cbn; lia].
Qed.

Lemma read_ipv6_range s n rest : read_ipv6_addr s = Some (n, rest) -> 0 <= n < 2 ^ 128.
Proof.
  unfold read_ipv6_addr. destruct (read_groups true 8 s) as [[head v4] r] eqn:E1.
  apply read_groups_range in E1 as [Hh Hl].
  destruct (length head =? 8)%nat eqn:E2; bool_to_prop.
  { intros [= <- <-]. pose proof (be_join_bound 16 head ltac:(lia) Hh) as B. by rewrite E2 in B. }
  destruct v4; [done|]. intros H.
  apply bind_Some in H as (r1 & _ & H). apply bind_Some in H as (r2 & _ & H).
  destruct (read_groups true (8 - (length head + 1)) r2) as [[tail v'] r3] eqn:E3.
  apply read_groups_range in E3 as [Ht Htl]. injection H as <- <-.
  set (all := head ++ _ ++ tail).
  assert (Hall : digits_ok 16 all).
  { apply Forall_app. split; [done|]. apply Forall_app. split; [|done].
    apply Forall_replicate. lia. }
  pose proof (be_join_bound 16 all ltac:(lia) Hall) as B.
  replace (length all) with 8%nat in B; [done|].
  unfold all. rewrite !length_app, length_replicate. lia.
Qed.

Lemma parse_ip_range s a : parse_ip s = Some a -> ip_ok a.
Proof.
  unfold parse_ip. destruct (read_ipv4_addr s) as [[o [|]]|] eqn:E; [|done|].
  - intros [= <-]. apply read_ipv4_range in E as [Ho Hl]. cbn.
    pose proof (be_join_bound 8 o ltac:(lia) Ho) as B. by rewrite Hl in B.
  - unfold parse_ipv6. destruct (read_ipv6_addr s) as [[n [|]]|] eqn:E6; cbn; try done.
    intros [= <-]. by eapply read_ipv6_range.
Qed.

(** ** The characters of a printed address *)

Definition ip_char (c : char) : Prop := numeral_char c \/ c = 46 \/ c = 58.

Lemma sep_by_forall (P : char -> Prop) sep ls :
  Forall P sep -> Forall (Forall P) ls -> Forall P (sep_by sep ls).
Proof.
  intros Hs. induction 1 as [|l ls Hl Hls IH]; [done|]. cbn.
  destruct ls; [done|]. repeat (apply Forall_app; split); done.
Qed.

Lemma show_octets_chars o : bytes_ok o -> Forall (fun c => 48 <= c <= 57 \/ c = 46) (show_octets o).
Proof.
  intros Ho. apply sep_by_forall; [constructor; [by right|done]|].
  apply Forall_map. eapply Forall_impl; [exact Ho|]. intros b Hb. unfold compose.
  eapply Forall_impl; [apply show_dec_chars; unfold byte_ok in Hb; lia|]. intros c Hc. by left.
Qed.

Lemma show_groups_chars g : Forall group_ok g -> Forall ip_char (show_groups g).
Proof.
  intros Hg. apply sep_by_forall; [constructor; [by right; right|done]|].
  apply Forall_map. eapply Forall_impl; [exact Hg|]. intros b Hb. unfold compose.
  eapply Forall_impl; [apply show_hex_chars; unfold group_ok in Hb; lia|]. intros c Hc. by left.
Qed.

Lemma show_ip_chars a : Forall ip_char (show_ip a).
Proof.
  assert (Ho : forall z, Forall ip_char (show_octets (be_split 8 4 z))).
  { intros z. eapply Forall_impl; [apply show_octets_chars, (be_split_ok 8); lia|].
    intros c [Hc|Hc]; [left; by left|by right; left]. }
  destruct a as [n|n]; cbn [show_ip]; [done|].
  unfold show_ipv6. destruct (is_v4_mapped _).
  - apply Forall_app. split; [|done].
    unfold ip_char, numeral_char. cbn. rewrite !Forall_cons. repeat split; lia || done.
  - destruct (zero_span _ _ _ _) as [st ln]. destruct (1 <? ln)%nat.
    + apply Forall_app. split; [apply show_groups_chars, Forall_take, be_split16_ok|].
      apply Forall_app. split; [|apply show_groups_chars, Forall_drop, be_split16_ok].
      unfold ip_char, numeral_char. cbn. rewrite !Forall_cons. repeat split; lia || done.
    + apply show_groups_chars, be_split16_ok.
Qed.

Lemma show_ip_nonempty a : ip_ok a -> show_ip a <> [].
Proof. intros Ha E. pose proof (parse_show_ip a Ha) as H. rewrite E in H. by vm_compute in H. Qed.

Lemma show_v4_no_colon n : lacks 58 (show_ip (V4 n)).
Proof.
  eapply Forall_impl; [apply show_octets_chars, (be_split_ok 8); lia|]. intros c. cbn. lia.
Qed.
