(* ===== verification/Target.v ===== *)
(** How a rule is spelled: destinations with an optional port, scoped values
    ("<destination> <binary>"), comments and directives (policy.rs). *)
From S2P Require Import Prelude Unicode RustStr IpAddr.

(** A destination as written in a rule: a name or address and an optional port. *)
Definition Target : Type := str * option Z.

(** "host", "host:port" or "[v6addr]:port". *)
Definition split_target (s0 : str) : Target :=
  let s := trim s0 in
  let unbracketed :=
    if is_ipv6 s then (s, None)
    else
      match rbreak_on (is_char 58) s with
      | Some (before, after) =>
          match parse_u16 after with
          | Some p => if negb (has_char 58 before) then (before, Some p) else (s, None)
          | None => (s, None)
          end
      | None => (s, None)
      end in
  match strip_prefix [91] s with
  | Some rest =>
      match break_on (is_char 93) rest with
      | (host, Some after) => (host, p ← strip_prefix [58] after; parse_u16 p)
      | (_, None) => unbracketed
      end
  | None => unbracketed
  end.

(** Render a target the way a rule file spells it. *)
Definition join_target (host : str) (port : option Z) : str :=
  match port with
  | None => host
  | Some p => if is_ipv6 host then [91] ++ host ++ [93; 58] ++ show_dec p
              else host ++ [58] ++ show_dec p
  end.

(** A scoped rule value as (destination, binary): split at the first white space. *)
Definition split_scoped (v : str) : option (str * str) :=
  match split_ws v with
  | (_, None) => None
  | (d, Some e) =>
      let dest := trim d in
      let exe := trim e in
      if bool_decide (dest = []) || bool_decide (exe = []) then None else Some (dest, exe)
  end.

(** The text before a hash sign, and the comment after it. *)
Definition split_comment (raw : str) : str * option str :=
  match break_on (is_char 35) raw with
  | (body, Some c) => (body, Some (trim c))
  | (body, None) => (raw, None)
  end.

(** One directive: keyword, value, comment. *)
Definition parse_line (raw : str) : option (str * str * option str) :=
  let '(body, comment) := split_comment raw in
  let body := trim body in
  if bool_decide (body = []) then None
  else
    let '(k, rest) := split_ws body in
    let v := trim (default [] rest) in
    if bool_decide (v = []) then None else Some (k, v, comment).

(** The examples of the target tests of policy.rs. *)
Example split_target_tests :
  map split_target [$"example.com"; $"example.com:443"; $"2606:4700:4700::1111";
                    $"[2606:4700:4700::1111]:853"; $"[2606:4700:4700::1111]"; $"1.1.1.1";
                    $"1.1.1.1:53"; $"example.com:https"]
  = [($"example.com", None); ($"example.com", Some 443); ($"2606:4700:4700::1111", None);
     ($"2606:4700:4700::1111", Some 853); ($"2606:4700:4700::1111", None); ($"1.1.1.1", None);
     ($"1.1.1.1", Some 53); ($"example.com:https", None)].
Proof. vm_compute. reflexivity. Qed.

(** With brackets, what is not a port is dropped, and the rule covers every port; without
    them it stays part of the name. *)
Example bracket_drops_port :
  (split_target $"[2606:4700::1]:https").2 = None
  /\ (split_target $"[2606:4700::1]:https").1 = $"2606:4700::1"
  /\ (split_target $"example.com:https").1 = $"example.com:https".
Proof. vm_compute. repeat split. Qed.

(** ** An IPv6 literal has at least two colons *)

Definition colons (s : str) : nat := length (filter (fun c : char => c = 58%Z) s).

Arguments colons : simpl never.

Lemma colons_cons c s : colons (c :: s) = ((if decide (c = 58%Z) then 1 else 0) + colons s)%nat.
Proof. unfold colons. rewrite filter_cons. by case_decide. Qed.

Lemma colons_app s t : colons (s ++ t) = (colons s + colons t)%nat.
Proof. unfold colons. by rewrite filter_app, length_app. Qed.

Lemma colons_lacks s : lacks 58 s -> colons s = 0%nat.
Proof.
  induction 1 as [|c s Hc Hs IH]; [done|]. rewrite colons_cons, IH. by rewrite decide_False.
Qed.

Lemma read_digits_colons r max s ds rest :
  read_digits r max s = Some (ds, rest) -> (colons rest <= colons s)%nat.
Proof.
  revert max ds. induction s as [|c s IH]; intros max ds; cbn [read_digits].
  - by intros [= _ <-].
  - destruct (to_digit r c) as [d|]; [rewrite colons_cons|by intros [= _ <-]].
    destruct max as [|m]; [done|].
    destruct (read_digits r m s) as [[ds' rest']|] eqn:E; [|done].
    cbn. intros [= _ <-]. apply IH in E. lia.
Qed.

Lemma read_number_colons r max zp b s v rest :
  read_number r max zp b s = Some (v, rest) -> (colons rest <= colons s)%nat.
Proof.
  unfold read_number. destruct (read_digits r max s) as [[ds rest']|] eqn:E; [|done].
  cbn [mbind option_bind]. repeat case_goal; try done. intros [= _ <-].
  by eapply read_digits_colons.
Qed.

Lemma read_given_colons c s rest :
  read_given c s = Some rest -> colons s = ((if (c =? 58)%Z then 1 else 0) + colons rest)%nat.
Proof.
  destruct s as [|d s]; [done|]. cbn [read_given]. destruct (d =? c) eqn:E; [|done].
  intros [= <-]. bool_to_prop. subst. rewrite colons_cons.
  destruct (Z.eqb_spec c 58); case_decide; done.
Qed.

Lemma read_ipv4_colons s o rest : read_ipv4_addr s = Some (o, rest) -> (colons rest <= colons s)%nat.
Proof.
  unfold read_ipv4_addr, read_octet. intros H.
  repeat (apply bind_Some in H as ([? ?] & ?%read_number_colons & H)
          || apply bind_Some in H as (? & ?%read_given_colons & H)).
  injection H as _ <-. simpl in *. lia.
Qed.

Lemma read_groups_colons first k s gs v4 rest :
  read_groups first k s = (gs, v4, rest) ->
  (length gs + colons rest
   <= colons s + (if first then Nat.min 1 (length gs) else 0) + (if v4 then 1 else 0))%nat.
Proof.
  revert first s gs v4 rest. induction k as [|k IH]; intros first s gs v4 rest; cbn [read_groups].
  { intros [= <- <- <-]. cbn. lia. }
  assert (Hsep : forall t, read_sep 58 first s = Some t ->
            (colons t + (if first then 0 else 1) = colons s)%nat).
  { destruct first; cbn; [intros t [= <-]; lia|]. intros t Ht%read_given_colons. cbn in Ht. lia. }
  set (embedded := if (1 <=? k)%nat then _ else _).
  assert (He : forall o r, embedded = Some (o, r) ->
            (colons r + (if first then 0 else 1) <= colons s)%nat).
  { unfold embedded. intros o r. destruct (1 <=? k)%nat; [|done].
    intros H. apply bind_Some in H as (t & Ht%Hsep & H%read_ipv4_colons). lia. }
  clearbody embedded.
  destruct (t ← read_sep 58 first s; read_number 16 4 true 65535 t) as [[g r]|] eqn:En.
  - assert (Hr : (colons r + (if first then 0 else 1) <= colons s)%nat).
    { apply bind_Some in En as (t & Ht%Hsep & H%read_number_colons). lia. }
    destruct (read_groups false k r) as [[gs' v'] r'] eqn:E'. apply IH in E'.
    destruct embedded as [[[|a [|b [|c [|d [|]]]]] r2]|]; intros [= <- <- <-]; cbn;
      try (destruct first, v'; lia).
    specialize (He _ _ eq_refl). destruct first; lia.
  - destruct embedded as [[[|a [|b [|c [|d [|]]]]] r2]|]; intros [= <- <- <-]; cbn; try lia.
    specialize (He _ _ eq_refl). destruct first; lia.
Qed.

Lemma is_ipv6_colons s : is_ipv6 s = true -> (2 <= colons s)%nat.
Proof.
  unfold is_ipv6, parse_ipv6. intros H%bool_decide_eq_true.
  destruct (read_ipv6_addr s) as [[n [|]]|] eqn:E; try by destruct H. clear H.
  unfold read_ipv6_addr in E.
  destruct (read_groups true 8 s) as [[head v4] r] eqn:E1. apply read_groups_colons in E1. cbn iota in E1.
  destruct (length head =? 8)%nat eqn:E2; bool_to_prop; [destruct v4; lia|].
  destruct v4; [done|].
  apply bind_Some in E as (r1 & H1%read_given_colons & E).
  apply bind_Some in E as (r2 & H2%read_given_colons & E). cbn in H1, H2. lia.
Qed.

(** ** Targets read back *)

(** A host name the rule syntax can carry: not empty, and free of white space, hash
    signs, colons and an opening bracket at the front. *)
Definition clean_host (h : str) : Prop :=
  h <> [] /\ no_ws h /\ lacks 35 h /\ lacks 58 h /\ head h <> Some 91.

Definition port_ok (p : option Z) : Prop :=
  match p with None => True | Some p => 0 <= p <= u16_max end.

Lemma show_dec_plain p :
  0 <= p -> no_ws (show_dec p) /\ lacks 35 (show_dec p) /\ lacks 58 (show_dec p) /\ lacks 10 (show_dec p)
            /\ lacks 13 (show_dec p).
Proof.
  intros Hp. pose proof (show_dec_chars p Hp) as H.
  repeat split; (eapply Forall_impl; [exact H|]); intros c Hc; cbv beta in *; try lia.
  apply is_ws_printable. lia.
Qed.

Lemma strip_bracket_other s : head s <> Some 91 -> strip_prefix [91] s = None.
Proof.
  destruct s as [|c s]; [done|]. cbn. intros H.
  destruct c as [|c|c]; try done. by repeat (destruct c as [c|c|]; try done).
Qed.

Lemma clean_host_not_v6 h : lacks 58 h -> is_ipv6 h = false.
Proof.
  intros Hh. destruct (is_ipv6 h) eqn:E; [|done].
  apply is_ipv6_colons in E. rewrite colons_lacks in E by done. lia.
Qed.

Lemma no_ws_app a b : no_ws a -> no_ws b -> no_ws (a ++ b).
Proof. intros. apply Forall_app. auto. Qed.

Lemma lacks_app c a b : lacks c a -> lacks c b -> lacks c (a ++ b).
Proof. intros. apply Forall_app. auto. Qed.

(** A clean host, with or without a port, is what its rendering splits into. *)
Lemma split_join_clean h p :
  clean_host h -> port_ok p -> split_target (join_target h p) = (h, p).
Proof.
  intros (Hne & Hws & _ & Hcol & Hbr) Hp. unfold join_target. rewrite clean_host_not_v6 by done.
  destruct p as [p|]; unfold split_target.
  - cbn in Hp. destruct (show_dec_plain p ltac:(lia)) as (Hws' & _ & Hcol' & _).
    rewrite trim_no_ws by (repeat apply no_ws_app; try done; repeat constructor).
    rewrite strip_bracket_other by (destruct h; done).
    assert (Hv6 : is_ipv6 (h ++ [58] ++ show_dec p) = false).
    { destruct (is_ipv6 _) eqn:E; [|done]. apply is_ipv6_colons in E.
      rewrite !colons_app, (colons_lacks h), (colons_lacks (show_dec p)) in E by done.
      change (colons [58]) with 1%nat in E. lia. }
    rewrite Hv6. cbn [app]. rewrite rbreak_on_app by (by apply lacks_is_char || done).
    unfold parse_u16. rewrite parse_show_dec by lia. by rewrite has_char_false.
  - rewrite trim_no_ws by done. rewrite strip_bracket_other by done.
    rewrite clean_host_not_v6 by done.
    rewrite rbreak_on_none by (by apply lacks_is_char). done.
Qed.

Lemma ip_char_plain c : ip_char c -> is_ws c = false /\ c <> 35 /\ c <> 91 /\ c <> 93 /\ c <> 10 /\ c <> 13.
Proof.
  unfold ip_char, numeral_char. intros H. split; [apply is_ws_printable; lia|lia].
Qed.

Lemma show_ip_no_ws a : no_ws (show_ip a).
Proof. eapply Forall_impl; [apply show_ip_chars|]. intros c Hc. by apply ip_char_plain. Qed.

Lemma show_ip_lacks a c : c = 35 \/ c = 91 \/ c = 93 \/ c = 10 \/ c = 13 -> lacks c (show_ip a).
Proof.
  intros Hc. eapply Forall_impl; [apply show_ip_chars|]. intros d Hd%ip_char_plain. naive_solver.
Qed.

Lemma show_ip_head a : head (show_ip a) <> Some 91.
Proof.
  pose proof (show_ip_lacks a 91 ltac:(auto)) as H. destruct H as [|c s Hc _]; [done|].
  cbn. congruence.
Qed.

(** So does an address. *)
Lemma split_join_ip a p :
  ip_ok a -> port_ok p -> split_target (join_target (show_ip a) p) = (show_ip a, p).
Proof.
  intros Ha Hp. destruct a as [n|n] eqn:Ea.
  - apply split_join_clean; [|done].
    split; [by apply show_ip_nonempty|]. split; [apply show_ip_no_ws|].
    split; [apply show_ip_lacks; auto|]. split; [apply show_v4_no_colon|apply show_ip_head].
  - rewrite <- Ea in *. pose proof (is_ipv6_show a Ha) as H6. rewrite Ea in H6 at 2.
    unfold join_target. rewrite H6. unfold split_target.
    destruct p as [p|].
    + cbn in Hp. destruct (show_dec_plain p ltac:(lia)) as (Hws' & _).
      rewrite trim_no_ws by (repeat apply no_ws_app; try done; try apply show_ip_no_ws; repeat constructor).
      cbn [app strip_prefix]. rewrite Z.eqb_refl.
      rewrite break_on_app by (try done; apply lacks_is_char, show_ip_lacks; auto).
      cbn [strip_prefix]. rewrite Z.eqb_refl. cbn [mbind option_bind]. unfold parse_u16.
      by rewrite parse_show_dec by lia.
    + rewrite trim_no_ws by apply show_ip_no_ws.
      rewrite strip_bracket_other by apply show_ip_head. by rewrite H6.
Qed.
