(* ===== verification/Policy.v ===== *)
(** The policy: verdicts, rules, the file format, and the decision (policy.rs).

    [load_text] is [Policy::load] on the text of the file ([None] when it cannot be
    read); the diagnostics it prints are not modelled.  Addresses, ports and host
    patterns are kept as the code keeps them: finite sets of rule tuples. *)
From S2P Require Import Prelude Unicode RustStr IpAddr Target.

(** ** Data *)

Inductive Verdict : Type := Allow | Deny | Ask.

Inductive Answer : Type := AllowConn | AllowApp | Block | BlockApp | Timeout.

Inductive Mode : Type := Visibility | Enforcement.

Inductive AttributionMode : Type := Procstat | Kernel.

#[export] Instance verdict_eq_dec : EqDecision Verdict.
Proof. solve_decision. Defined.
#[export] Instance answer_eq_dec : EqDecision Answer.
Proof. solve_decision. Defined.
#[export] Instance mode_eq_dec : EqDecision Mode.
Proof. solve_decision. Defined.
#[export] Instance attribution_mode_eq_dec : EqDecision AttributionMode.
Proof. solve_decision. Defined.

(** A rule about a destination for one binary: (binary, destination, port). *)
Abbreviation HostRule := (str * str * option Z)%type.
Abbreviation DestRule := (str * IpAddr * option Z)%type.

Record Policy : Type := mk_policy {
  p_default : option Verdict;
  allow_app : gset str;
  deny_app : gset str;
  allow_host : gset (str * option Z);
  deny_host : gset (str * option Z);
  allow_dest : gset (IpAddr * option Z);
  deny_dest : gset (IpAddr * option Z);
  allow_host_from : gset HostRule;
  allow_dest_from : gset DestRule;
  deny_host_from : gset HostRule;
  deny_dest_from : gset DestRule;
  prompt : option str;
  app_id : gmap str str;
  p_mode : option Mode;
  p_attribution : option AttributionMode
}.

(** [Policy { default: Some(Verdict::Ask), ..Default::default() }] *)
Definition fresh_policy : Policy :=
  mk_policy (Some Ask) ∅ ∅ ∅ ∅ ∅ ∅ ∅ ∅ ∅ ∅ None ∅ None None.

(** One change of a policy: what a directive of the file, or a recorded answer, does. *)
Inductive change : Type :=
| SetDefault (v : Verdict)
| AddAllowApp (e : str)
| AddDenyApp (e : str)
| AddAllowHost (h : str) (p : option Z)
| AddDenyHost (h : str) (p : option Z)
| AddAllowDest (a : IpAddr) (p : option Z)
| AddDenyDest (a : IpAddr) (p : option Z)
| AddAllowHostFrom (e h : str) (p : option Z)
| AddAllowDestFrom (e : str) (a : IpAddr) (p : option Z)
| AddDenyHostFrom (e h : str) (p : option Z)
| AddDenyDestFrom (e : str) (a : IpAddr) (p : option Z)
| SetPrompt (s : str)
| SetAppId (e sha : str)
| SetMode (m : Mode)
| SetAttribution (a : AttributionMode).

Definition apply_change (c : change) (p : Policy) : Policy :=
  let '(mk_policy d aa da ah dh ad dd ahf adf dhf ddf pr ids m at_) := p in
  match c with
  | SetDefault v => mk_policy (Some v) aa da ah dh ad dd ahf adf dhf ddf pr ids m at_
  | AddAllowApp e => mk_policy d ({[e]} ∪ aa) da ah dh ad dd ahf adf dhf ddf pr ids m at_
  | AddDenyApp e => mk_policy d aa ({[e]} ∪ da) ah dh ad dd ahf adf dhf ddf pr ids m at_
  | AddAllowHost h o => mk_policy d aa da ({[(h, o)]} ∪ ah) dh ad dd ahf adf dhf ddf pr ids m at_
  | AddDenyHost h o => mk_policy d aa da ah ({[(h, o)]} ∪ dh) ad dd ahf adf dhf ddf pr ids m at_
  | AddAllowDest a o => mk_policy d aa da ah dh ({[(a, o)]} ∪ ad) dd ahf adf dhf ddf pr ids m at_
  | AddDenyDest a o => mk_policy d aa da ah dh ad ({[(a, o)]} ∪ dd) ahf adf dhf ddf pr ids m at_
  | AddAllowHostFrom e h o =>
      mk_policy d aa da ah dh ad dd ({[(e, h, o)]} ∪ ahf) adf dhf ddf pr ids m at_
  | AddAllowDestFrom e a o =>
      mk_policy d aa da ah dh ad dd ahf ({[(e, a, o)]} ∪ adf) dhf ddf pr ids m at_
  | AddDenyHostFrom e h o =>
      mk_policy d aa da ah dh ad dd ahf adf ({[(e, h, o)]} ∪ dhf) ddf pr ids m at_
  | AddDenyDestFrom e a o =>
      mk_policy d aa da ah dh ad dd ahf adf dhf ({[(e, a, o)]} ∪ ddf) pr ids m at_
  | SetPrompt s => mk_policy d aa da ah dh ad dd ahf adf dhf ddf (Some s) ids m at_
  | SetAppId e sha => mk_policy d aa da ah dh ad dd ahf adf dhf ddf pr (<[e := sha]> ids) m at_
  | SetMode v => mk_policy d aa da ah dh ad dd ahf adf dhf ddf pr ids (Some v) at_
  | SetAttribution v => mk_policy d aa da ah dh ad dd ahf adf dhf ddf pr ids m (Some v)
  end.

(** ** Keywords *)

(** [Answer::parse] *)
Definition parse_answer (s : str) : option Answer :=
  let t := trim s in
  if str_eqb t $"allow-conn" then Some AllowConn
  else if str_eqb t $"allow-app" then Some AllowApp
  else if str_eqb t $"block-conn" || str_eqb t $"block" then Some Block
  else if str_eqb t $"block-app" then Some BlockApp
  else if str_eqb t $"timeout" then Some Timeout
  else None.

(** [Mode::parse] and [Mode::as_str] *)
Definition parse_mode (s : str) : option Mode :=
  let t := to_lowercase (trim s) in
  if str_eqb t $"visibility" || str_eqb t $"listen" || str_eqb t $"observe" then Some Visibility
  else if str_eqb t $"enforcement" || str_eqb t $"enforce" then Some Enforcement
  else None.

Definition mode_str (m : Mode) : str :=
  match m with Visibility => $"visibility" | Enforcement => $"enforcement" end.

Definition enforcing (m : Mode) : bool := bool_decide (m = Enforcement).

(** [AttributionMode::parse] and [AttributionMode::as_str] *)
Definition parse_attribution (s : str) : option AttributionMode :=
  let t := to_lowercase (trim s) in
  if str_eqb t $"procstat" || str_eqb t $"userspace" then Some Procstat
  else if str_eqb t $"kernel" then Some Kernel
  else None.

Definition attribution_str (a : AttributionMode) : str :=
  match a with Procstat => $"procstat" | Kernel => $"kernel" end.

Definition parse_default (v : str) : option Verdict :=
  if str_eqb v $"allow" then Some Allow
  else if str_eqb v $"deny" then Some Deny
  else if str_eqb v $"ask" then Some Ask
  else None.

(** ** Loading *)

Definition host_rule (v : str) (mk : str -> option Z -> change) : option change :=
  let '(h, pt) := split_target v in Some (mk (to_lowercase h) pt).

Definition dest_rule (v : str) (mk : IpAddr -> option Z -> change) : option change :=
  let '(a, pt) := split_target v in
  match parse_ip a with Some addr => Some (mk addr pt) | None => None end.

Definition scoped (v : str) (k : str -> str -> option change) : option change :=
  match split_scoped v with Some (d, e) => k d e | None => None end.

(** The change one directive makes; [None] when it is diagnosed and skipped. *)
Definition directive (k v : str) : option change :=
  if str_eqb k $"default" then SetDefault <$> parse_default v
  else if str_eqb k $"allow-app" then Some (AddAllowApp v)
  else if str_eqb k $"deny-app" then Some (AddDenyApp v)
  else if str_eqb k $"allow-host" then host_rule v AddAllowHost
  else if str_eqb k $"deny-host" then host_rule v AddDenyHost
  else if str_eqb k $"prompt" then Some (SetPrompt v)
  else if str_eqb k $"app-id" then scoped v (fun sha exe => Some (SetAppId exe (to_lowercase sha)))
  else if str_eqb k $"mode" then SetMode <$> parse_mode v
  else if str_eqb k $"attribution" then SetAttribution <$> parse_attribution v
  else if str_eqb k $"allow-host-from" then scoped v (fun h e => host_rule h (AddAllowHostFrom e))
  else if str_eqb k $"allow-dest-from" then scoped v (fun a e => dest_rule a (AddAllowDestFrom e))
  else if str_eqb k $"deny-host-from" then scoped v (fun h e => host_rule h (AddDenyHostFrom e))
  else if str_eqb k $"deny-dest-from" then scoped v (fun a e => dest_rule a (AddDenyDestFrom e))
  else if str_eqb k $"allow-dest" then dest_rule v AddAllowDest
  else if str_eqb k $"deny-dest" then dest_rule v AddDenyDest
  else None.

(** The change one raw line makes. *)
Definition line_change (raw : str) : option change :=
  let line := trim (break_on (is_char 35) raw).1 in
  if bool_decide (line = []) then None
  else
    let '(k, rest) := split_ws line in
    directive k (trim (default [] rest)).

Definition load_line (p : Policy) (raw : str) : Policy :=
  match line_change raw with Some c => apply_change c p | None => p end.

(** [Policy::load] *)
Definition load_text (text : option str) : Policy :=
  match text with
  | None => fresh_policy
  | Some t => foldl load_line fresh_policy (lines t)
  end.

(** ** Matching *)

(** Does one rule pattern cover this (lower-case) host? *)
Definition pattern_matches (rule host_lower : str) : bool :=
  if str_eqb rule host_lower then true
  else match strip_prefix $"*." rule with
       | Some suffix => str_eqb host_lower suffix || ends_with (46 :: suffix) host_lower
       | None => false
       end.

(** Does a rule's port constraint admit this destination port? *)
Definition port_admits (rule : option Z) (dport : Z) : bool :=
  match rule with None => true | Some p => p =? dport end.

Definition scoped_host_hit (set : gset HostRule) (exe host_lower : str) (dport : Z) : bool :=
  set_any (fun r : HostRule =>
    str_eqb r.1.1 exe && port_admits r.2 dport && pattern_matches r.1.2 host_lower) set.

Definition scoped_dest_hit (set : gset DestRule) (exe : str) (dst : IpAddr) (dport : Z) : bool :=
  set_any (fun r : DestRule =>
    str_eqb r.1.1 exe && bool_decide (r.1.2 = dst) && port_admits r.2 dport) set.

Definition host_matches (set : gset (str * option Z)) (host : str) (dport : Z) : bool :=
  let h := to_lowercase host in
  set_any (fun r : str * option Z => port_admits r.2 dport && pattern_matches r.1 h) set.

Definition dest_matches (set : gset (IpAddr * option Z)) (dst : IpAddr) (dport : Z) : bool :=
  set_any (fun r : IpAddr * option Z => bool_decide (r.1 = dst) && port_admits r.2 dport) set.

(** [Option::is_some_and] *)
Definition opt_any {A} (f : A -> bool) (o : option A) : bool :=
  match o with Some a => f a | None => false end.

(** [Policy::decide]: each [return] of the code is one branch, in its order. *)
Definition decide_verdict (p : Policy) (exe : option str) (dst : IpAddr) (host : option str)
  (dport : Z) : Verdict :=
  if opt_any (fun e => scoped_dest_hit (deny_dest_from p) e dst dport) exe then Deny
  else if opt_any (fun e => opt_any (fun h =>
            scoped_host_hit (deny_host_from p) e (to_lowercase h) dport) host) exe then Deny
  else if opt_any (fun h => host_matches (deny_host p) h dport) host then Deny
  else if dest_matches (deny_dest p) dst dport then Deny
  else if opt_any (fun e => bool_decide (e ∈ deny_app p)) exe then Deny
  else if opt_any (fun e => scoped_dest_hit (allow_dest_from p) e dst dport) exe then Allow
  else if opt_any (fun e => opt_any (fun h =>
            scoped_host_hit (allow_host_from p) e (to_lowercase h) dport) host) exe then Allow
  else if opt_any (fun e => bool_decide (e ∈ allow_app p)) exe then Allow
  else if opt_any (fun h => host_matches (allow_host p) h dport) host then Allow
  else if dest_matches (allow_dest p) dst dport then Allow
  else default Ask (p_default p).

(** ** Settings *)

Definition policy_mode (p : Policy) (fallback : Mode) : Mode := default fallback (p_mode p).
Definition attribution (p : Policy) : AttributionMode := default Procstat (p_attribution p).

(** [prompt_bin]: the environment variable (when set and not empty), the directive, the
    built-in default. *)
Definition prompt_bin (p : Policy) (env : option str) (builtin : str) : str :=
  match env with
  | Some (_ :: _ as s) => s
  | _ => default builtin (prompt p)
  end.

Definition expected_id (p : Policy) (exe : str) : option str := app_id p !! exe.

Definition verdict_debug (v : Verdict) : str :=
  match v with Allow => $"Allow" | Deny => $"Deny" | Ask => $"Ask" end.

Definition show_nat (n : nat) : str := show_dec (Z.of_nat n).

Definition summary (p : Policy) : str :=
  $"default=" ++ verdict_debug (default Ask (p_default p))
  ++ $" allow-app=" ++ show_nat (size (allow_app p))
  ++ $" deny-app=" ++ show_nat (size (deny_app p))
  ++ $" allow-host=" ++ show_nat (size (allow_host p))
  ++ $" allow-dest=" ++ show_nat (size (allow_dest p)).

(** ** What the matchers mean *)

(** A pattern covers a host: literally, or as [*.suffix] the suffix itself and every
    name that ends with a dot and the suffix. *)
Definition host_covers (pat h : str) : Prop :=
  pat = h \/ exists suffix, pat = $"*." ++ suffix
             /\ (h = suffix \/ exists pre, h = pre ++ 46 :: suffix).

Definition port_covers (rule : option Z) (dport : Z) : Prop := rule = None \/ rule = Some dport.

Lemma strip_prefix_spec p s t : strip_prefix p s = Some t <-> s = p ++ t.
Proof.
  revert s. induction p as [|c p IH]; intros s; cbn; [naive_solver|].
  destruct s as [|d s]; [naive_solver|]. destruct (Z.eqb_spec c d) as [->|Hne].
  - rewrite IH. naive_solver.
  - naive_solver.
Qed.

Lemma ends_with_spec q s : ends_with q s = true <-> exists pre, s = pre ++ q.
Proof.
  unfold ends_with. rewrite bool_decide_eq_true. split.
  - intros [t Ht%strip_prefix_spec]. exists (rev t).
    rewrite <- (rev_involutive s), Ht, rev_app_distr, rev_involutive. done.
  - intros [pre ->]. exists (rev pre). apply strip_prefix_spec. by rewrite rev_app_distr.
Qed.

Lemma port_admits_spec rule dport : port_admits rule dport = true <-> port_covers rule dport.
Proof. unfold port_covers. destruct rule as [p|]; cbn; rewrite ?Z.eqb_eq; naive_solver. Qed.

Lemma pattern_matches_true pat h : pattern_matches pat h = true <-> host_covers pat h.
Proof.
  unfold pattern_matches, host_covers. destruct (str_eqb pat h) eqn:E.
  { apply str_eqb_eq in E. naive_solver. }
  assert (pat <> h) by (intros ->; by rewrite str_eqb_refl in E).
  destruct (strip_prefix _ pat) as [suffix|] eqn:Es.
  - apply strip_prefix_spec in Es. rewrite orb_true_iff, str_eqb_eq, ends_with_spec. split.
    + intros Hh. right. exists suffix. naive_solver.
    + intros [?|(s' & E2 & Hh)]; [done|]. rewrite Es in E2. apply app_inv_head in E2 as ->. naive_solver.
  - split; [done|]. intros [?|(s' & E2 & _)]; [done|].
    apply strip_prefix_spec in E2. congruence.
Qed.

Lemma scoped_host_hit_spec set exe h dport :
  scoped_host_hit set exe h dport = true
  <-> exists pat o, (exe, pat, o) ∈ set /\ port_covers o dport /\ host_covers pat h.
Proof.
  unfold scoped_host_hit. rewrite set_any_spec. split.
  - intros ([[e pat] o] & Hin & H). cbn [fst snd] in H.
    rewrite !andb_true_iff, str_eqb_eq, port_admits_spec, pattern_matches_true in H. naive_solver.
  - intros (pat & o & Hin & Hp & Hh). exists (exe, pat, o). split; [done|]. cbn [fst snd].
    by rewrite !andb_true_iff, str_eqb_eq, port_admits_spec, pattern_matches_true.
Qed.

Lemma scoped_dest_hit_spec set exe dst dport :
  scoped_dest_hit set exe dst dport = true
  <-> exists o, (exe, dst, o) ∈ set /\ port_covers o dport.
Proof.
  unfold scoped_dest_hit. rewrite set_any_spec. split.
  - intros ([[e a] o] & Hin & H). cbn [fst snd] in H.
    rewrite !andb_true_iff, str_eqb_eq, port_admits_spec, bool_decide_eq_true in H. naive_solver.
  - intros (o & Hin & Hp). exists (exe, dst, o). split; [done|]. cbn [fst snd].
    by rewrite !andb_true_iff, str_eqb_eq, port_admits_spec, bool_decide_eq_true.
Qed.

Lemma host_matches_spec set host dport :
  host_matches set host dport = true
  <-> exists pat o, (pat, o) ∈ set /\ port_covers o dport /\ host_covers pat (to_lowercase host).
Proof.
  unfold host_matches. rewrite set_any_spec. split.
  - intros ([pat o] & Hin & H). cbn [fst snd] in H.
    rewrite andb_true_iff, port_admits_spec, pattern_matches_true in H. naive_solver.
  - intros (pat & o & Hin & Hp & Hh). exists (pat, o). split; [done|]. cbn [fst snd].
    by rewrite andb_true_iff, port_admits_spec, pattern_matches_true.
Qed.

Lemma dest_matches_spec set dst dport :
  dest_matches set dst dport = true <-> exists o, (dst, o) ∈ set /\ port_covers o dport.
Proof.
  unfold dest_matches. rewrite set_any_spec. split.
  - intros ([a o] & Hin & H). cbn [fst snd] in H.
    rewrite andb_true_iff, port_admits_spec, bool_decide_eq_true in H. naive_solver.
  - intros (o & Hin & Hp). exists (dst, o). split; [done|]. cbn [fst snd].
    by rewrite andb_true_iff, port_admits_spec, bool_decide_eq_true.
Qed.

(** ** The specification of a decision

    One side of the policy (all its denies, or all its allows) covers a connection when
    some rule of that side names it. *)

Section covered.
Context (hf : gset HostRule) (df : gset DestRule) (app : gset str)
        (hs : gset (str * option Z)) (ds : gset (IpAddr * option Z)).
Context (exe : option str) (dst : IpAddr) (host : option str) (dport : Z).

Inductive covered : Prop :=
| cov_dest_from e o : exe = Some e -> (e, dst, o) ∈ df -> port_covers o dport -> covered
| cov_host_from e h pat o :
    exe = Some e -> host = Some h -> (e, pat, o) ∈ hf -> port_covers o dport ->
    host_covers pat (to_lowercase h) -> covered
| cov_app e : exe = Some e -> e ∈ app -> covered
| cov_host h pat o :
    host = Some h -> (pat, o) ∈ hs -> port_covers o dport ->
    host_covers pat (to_lowercase h) -> covered
| cov_dest o : (dst, o) ∈ ds -> port_covers o dport -> covered.

Definition covered_b : bool :=
  opt_any (fun e => scoped_dest_hit df e dst dport) exe
  || opt_any (fun e => opt_any (fun h => scoped_host_hit hf e (to_lowercase h) dport) host) exe
  || opt_any (fun e => bool_decide (e ∈ app)) exe
  || opt_any (fun h => host_matches hs h dport) host
  || dest_matches ds dst dport.

Lemma covered_b_spec : covered_b = true <-> covered.
Proof.
  unfold covered_b. rewrite !orb_true_iff. split.
  - intros [[[[H|H]|H]|H]|H].
    + destruct exe as [e|] eqn:Ee; [|done]. apply scoped_dest_hit_spec in H as (o & ? & ?).
      by eapply cov_dest_from.
    + destruct exe as [e|] eqn:Ee; [|done]. destruct host as [h|] eqn:Eh; [|done].
      apply scoped_host_hit_spec in H as (pat & o & ? & ? & ?). by eapply cov_host_from.
    + destruct exe as [e|] eqn:Ee; [|done]. apply bool_decide_eq_true in H. by eapply cov_app.
    + destruct host as [h|] eqn:Eh; [|done].
      apply host_matches_spec in H as (pat & o & ? & ? & ?). by eapply cov_host.
    + apply dest_matches_spec in H as (o & ? & ?). by eapply cov_dest.
  - destruct 1 as [e o -> Hin Hp|e h pat o -> -> Hin Hp Hh|e -> Hin|h pat o -> Hin Hp Hh|o Hin Hp];
      cbn [opt_any].
    + do 4 left. apply scoped_dest_hit_spec. eauto.
    + do 3 left. right. apply scoped_host_hit_spec. eauto.
    + do 2 left. right. by apply bool_decide_eq_true.
    + left. right. apply host_matches_spec. eauto 6.
    + right. apply dest_matches_spec. eauto.
Qed.
End covered.

Definition denies (p : Policy) : option str -> IpAddr -> option str -> Z -> Prop :=
  covered (deny_host_from p) (deny_dest_from p) (deny_app p) (deny_host p) (deny_dest p).
Definition allows (p : Policy) : option str -> IpAddr -> option str -> Z -> Prop :=
  covered (allow_host_from p) (allow_dest_from p) (allow_app p) (allow_host p) (allow_dest p).

Definition denies_b (p : Policy) : option str -> IpAddr -> option str -> Z -> bool :=
  covered_b (deny_host_from p) (deny_dest_from p) (deny_app p) (deny_host p) (deny_dest p).
Definition allows_b (p : Policy) : option str -> IpAddr -> option str -> Z -> bool :=
  covered_b (allow_host_from p) (allow_dest_from p) (allow_app p) (allow_host p) (allow_dest p).

#[export] Instance denies_dec p exe dst host dport : Decision (denies p exe dst host dport).
Proof.
  destruct (denies_b p exe dst host dport) eqn:E;
    [left; by apply covered_b_spec|].
  right. intros H%covered_b_spec. unfold denies_b in E. congruence.
Defined.

(** The cascade of early returns is "any deny, then any allow, then the default". *)
Lemma decide_verdict_eq p exe dst host dport :
  decide_verdict p exe dst host dport =
    if denies_b p exe dst host dport then Deny
    else if allows_b p exe dst host dport then Allow
    else default Ask (p_default p).
Proof.
  unfold decide_verdict, denies_b, allows_b, covered_b.
  repeat match goal with
  | |- context [if (opt_any ?f ?o) then _ else _] => destruct (opt_any f o) eqn:?
  | |- context [if (dest_matches ?s ?a ?b) then _ else _] => destruct (dest_matches s a b) eqn:?
  end; cbn [orb]; rewrite ?orb_true_r; reflexivity.
Qed.

Lemma denies_b_spec p exe dst host dport : denies_b p exe dst host dport = true <-> denies p exe dst host dport.
Proof. apply covered_b_spec. Qed.
Lemma allows_b_spec p exe dst host dport : allows_b p exe dst host dport = true <-> allows p exe dst host dport.
Proof. apply covered_b_spec. Qed.

(** ** How one more rule changes the matchers *)

Lemma scoped_host_hit_add e' pat o s e h dport :
  scoped_host_hit ({[(e', pat, o)]} ∪ s) e h dport
  = (str_eqb e' e && port_admits o dport && pattern_matches pat h) || scoped_host_hit s e h dport.
Proof. unfold scoped_host_hit. by rewrite set_any_union, set_any_singleton. Qed.
Lemma scoped_dest_hit_add e' a o s e dst dport :
  scoped_dest_hit ({[(e', a, o)]} ∪ s) e dst dport
  = (str_eqb e' e && bool_decide (a = dst) && port_admits o dport) || scoped_dest_hit s e dst dport.
Proof. unfold scoped_dest_hit. by rewrite set_any_union, set_any_singleton. Qed.
Lemma host_matches_add pat o s h dport :
  host_matches ({[(pat, o)]} ∪ s) h dport
  = (port_admits o dport && pattern_matches pat (to_lowercase h)) || host_matches s h dport.
Proof. unfold host_matches. by rewrite set_any_union, set_any_singleton. Qed.
Lemma dest_matches_add a o s dst dport :
  dest_matches ({[(a, o)]} ∪ s) dst dport
  = (bool_decide (a = dst) && port_admits o dport) || dest_matches s dst dport.
Proof. unfold dest_matches. by rewrite set_any_union, set_any_singleton. Qed.
Lemma app_add (e' e : str) (s : gset str) :
  bool_decide (e ∈ {[e']} ∪ s) = str_eqb e' e || bool_decide (e ∈ s).
Proof.
  apply eq_true_iff_eq. rewrite orb_true_iff, !bool_decide_eq_true, str_eqb_eq. set_solver.
Qed.

Lemma port_admits_neq q dport : dport <> q -> port_admits (Some q) dport = false.
Proof. intros H. apply Z.eqb_neq. congruence. Qed.

(** The binary a change is scoped to, and the port it is limited to. *)
Definition change_app (c : change) : option str :=
  match c with
  | AddAllowApp e | AddDenyApp e => Some e
  | AddAllowHostFrom e _ _ | AddAllowDestFrom e _ _
  | AddDenyHostFrom e _ _ | AddDenyDestFrom e _ _ => Some e
  | _ => None
  end.
Definition change_port (c : change) : option Z :=
  match c with
  | AddAllowHost _ o | AddDenyHost _ o | AddAllowDest _ o | AddDenyDest _ o => o
  | AddAllowHostFrom _ _ o | AddAllowDestFrom _ _ o
  | AddDenyHostFrom _ _ o | AddDenyDestFrom _ _ o => o
  | _ => None
  end.

(** The rule tuple a change adds cannot match this connection. *)
Definition out_of_scope (c : change) (exe : option str) (dport : Z) : Prop :=
  (exists e, change_app c = Some e /\ exe <> Some e)
  \/ (exists q, change_port c = Some q /\ dport <> q).

Ltac split_policy p := destruct p as [pd aa da ah dh ad dd ahf adf dhf ddf pr ids pm pa].

Lemma covered_b_out_of_scope c p exe dst host dport :
  out_of_scope c exe dport ->
  denies_b (apply_change c p) exe dst host dport = denies_b p exe dst host dport
  /\ allows_b (apply_change c p) exe dst host dport = allows_b p exe dst host dport
  /\ p_default (apply_change c p) = p_default p.
Proof.
  intros Hs. split_policy p. unfold out_of_scope in Hs.
  destruct c as [v|e|e|h o|h o|a o|a o|e h o|e a o|e h o|e a o|s|e s|m|a];
    cbn in Hs; try (destruct Hs as [(e' & [=] & ?)|(q & [=] & ?)]; fail);
    cbn [apply_change]; unfold denies_b, allows_b, covered_b;
    cbn [deny_host_from deny_dest_from deny_app deny_host deny_dest allow_host_from
         allow_dest_from allow_app allow_host allow_dest p_default];
    (split; [|split]; [..|reflexivity]); try reflexivity;
    destruct exe as [x|], host as [hh|]; cbn [opt_any]; try reflexivity;
    rewrite ?scoped_host_hit_add, ?scoped_dest_hit_add, ?host_matches_add, ?dest_matches_add, ?app_add;
    try reflexivity;
    destruct Hs as [(e' & [= <-] & Hx)|(q & [= ->] & Hx)];
    rewrite ?str_eqb_neq by congruence; rewrite ?port_admits_neq by congruence;
    rewrite ?andb_false_r, ?andb_false_l; reflexivity.
Qed.

(** A change never takes a deny away. *)
Lemma denies_b_mono c p exe dst host dport :
  denies_b p exe dst host dport = true -> denies_b (apply_change c p) exe dst host dport = true.
Proof.
  split_policy p. unfold denies_b, covered_b.
  destruct c as [v|e|e|h o|h o|a o|a o|e h o|e a o|e h o|e a o|s|e s|m|a];
    cbn [apply_change deny_host_from deny_dest_from deny_app deny_host deny_dest]; try done;
    destruct exe as [x|], host as [hh|]; cbn [opt_any]; try done;
    rewrite ?scoped_host_hit_add, ?scoped_dest_hit_add, ?host_matches_add, ?dest_matches_add, ?app_add;
    rewrite !orb_true_iff; tauto.
Qed.

(** ** Properties of the decision *)

(** C3. [decide] is "deny overrides allow overrides default": it returns Deny exactly
    when some deny rule covers the connection (or nothing allows it and the default is
    deny), Allow exactly when no deny covers it and an allow (or the default) does, and
    Ask exactly when no rule covers it and the default is ask. *)
Theorem decide_spec p exe dst host dport :
  (decide_verdict p exe dst host dport = Deny
   <-> denies p exe dst host dport \/ (~ allows p exe dst host dport /\ default Ask (p_default p) = Deny))
  /\ (decide_verdict p exe dst host dport = Allow
   <-> ~ denies p exe dst host dport
       /\ (allows p exe dst host dport \/ default Ask (p_default p) = Allow))
  /\ (decide_verdict p exe dst host dport = Ask
   <-> ~ denies p exe dst host dport /\ ~ allows p exe dst host dport
       /\ default Ask (p_default p) = Ask).
Proof.
  rewrite decide_verdict_eq, <- denies_b_spec, <- allows_b_spec.
  destruct (denies_b p exe dst host dport), (allows_b p exe dst host dport);
    destruct (default Ask (p_default p)); intuition congruence.
Qed.

(** C4. No later rule, approval or setting re-opens what a deny rule covers: after any
    change the connection is still denied, whatever allow rules the change adds. *)
Theorem deny_survives_change c p exe dst host dport :
  denies p exe dst host dport ->
  decide_verdict (apply_change c p) exe dst host dport = Deny.
Proof.
  rewrite <- denies_b_spec, decide_verdict_eq. intros H.
  by rewrite (denies_b_mono c p exe dst host dport H).
Qed.

Definition app1 : str := $"/usr/local/bin/someapp".
Definition app2 : str := $"/usr/local/bin/otherapp".
Definition metrics : str := $"metrics.example.com".
Definition addr9 : IpAddr := V4 3405803785. (* 203.0.113.9 *)

Lemma deny_survives_change_witness :
  decide_verdict (apply_change (AddAllowApp app1)
    (apply_change (AddDenyHostFrom app1 metrics None) fresh_policy))
    (Some app1) addr9 (Some metrics) 443 = Deny.
Proof.
  apply deny_survives_change. apply denies_b_spec. vm_compute. reflexivity.
Defined.

(** Scoping: a rule for one binary leaves every decision about other binaries (and
    about unattributed connections) as it was, and a rule with a port leaves every
    decision about other ports as it was. *)
Theorem scoped_change_frame c p exe dst host dport :
  out_of_scope c exe dport ->
  decide_verdict (apply_change c p) exe dst host dport = decide_verdict p exe dst host dport.
Proof.
  intros H. rewrite !decide_verdict_eq.
  destruct (covered_b_out_of_scope c p exe dst host dport H) as (-> & -> & ->). done.
Qed.

Lemma scoped_change_frame_witness :
  decide_verdict (apply_change (AddAllowHostFrom app1 metrics (Some 443)) fresh_policy)
    (Some app2) addr9 (Some metrics) 443
  = decide_verdict fresh_policy (Some app2) addr9 (Some metrics) 443.
Proof.
  apply scoped_change_frame. left. exists app1. split; [reflexivity|]. by vm_compute.
Defined.

(** A wildcard pattern covers its bare domain and every subdomain, and nothing
    else: in particular a name that merely ends in the same letters is not covered. *)
Theorem pattern_matches_spec pat h :
  pattern_matches pat h = true
  <-> pat = h \/ exists suffix, pat = $"*." ++ suffix
        /\ (h = suffix \/ exists pre, h = pre ++ 46 :: suffix).
Proof. apply pattern_matches_true. Qed.
