(* ===== verification/PolicyFile.v ===== *)
(** Rule management on the policy FILE (policy.rs): listing, adding, removing and
    rewriting rules, over a file system that can fail at every call.

    Files hold text; a path that is absent does not exist.  The class [Io] says which
    system calls fail: reading, opening or writing (possibly after a prefix was
    written), renaming. *)
From S2P Require Import Prelude Unicode RustStr IpAddr Target Policy.

(** ** Files *)

Abbreviation Fs := (gmap str str).

Class Io : Type := {
  read_ok : str -> bool;
  (** [None]: the write succeeds.  [Some None]: the file cannot be opened.
      [Some (Some n)]: the call fails after [n] characters. *)
  write_fault : str -> option (option nat);
  rename_ok : str -> str -> bool
}.

(** No call fails. *)
Definition io_fine : Io :=
  {| read_ok := fun _ => true; write_fault := fun _ => None; rename_ok := fun _ _ => true |}.

(** [io::Result]; an [InvalidInput] error is one the code builds itself. *)
Inductive io_result (A : Type) : Type :=
| IoOk (a : A)
| InvalidInput
| IoErr.
Arguments IoOk {A} _.
Arguments InvalidInput {A}.
Arguments IoErr {A}.

Section fs.
Context `{Io}.

(** [fs::read_to_string] *)
Definition read_to_string (fs : Fs) (path : str) : option str :=
  if read_ok path then fs !! path else None.

(** [fs::write]: create or truncate, then write everything. *)
Definition fs_write (fs : Fs) (path data : str) : Fs * bool :=
  match write_fault path with
  | None => (<[path := data]> fs, true)
  | Some None => (fs, false)
  | Some (Some n) => (<[path := take n data]> fs, false)
  end.

(** [OpenOptions::new().create(true).append(true)] and one write. *)
Definition fs_append (fs : Fs) (path data : str) : Fs * bool :=
  let old := default [] (fs !! path) in
  match write_fault path with
  | None => (<[path := old ++ data]> fs, true)
  | Some None => (fs, false)
  | Some (Some n) => (<[path := old ++ take n data]> fs, false)
  end.

(** [fs::rename] *)
Definition fs_rename (fs : Fs) (a b : str) : Fs * bool :=
  match fs !! a with
  | Some d => if rename_ok a b then (<[b := d]> (delete a fs), true) else (fs, false)
  | None => (fs, false)
  end.

(** [Path::with_extension]: the extension of the last component is replaced; a name
    without a dot (or with only a leading one) gets it appended. *)
Definition with_extension (path ext : str) : str :=
  let '(dir, name) := match rbreak_on (is_char 47) path with
                      | Some (d, n) => (d ++ [47], n)
                      | None => ([], path)
                      end in
  let stem := match rbreak_on (is_char 46) name with
              | Some ((_ :: _) as st, _) => st
              | _ => name
              end in
  dir ++ stem ++ [46] ++ ext.

Definition tmp_path (path : str) : str := with_extension path $"conf.tmp".
Definition bak_path (path : str) : str := path ++ $".bak".

(** [write_atomic]: a temporary file, then a rename. *)
Definition write_atomic (fs : Fs) (path data : str) : Fs * bool :=
  let tmp := tmp_path path in
  let '(fs1, ok) := fs_write fs tmp data in
  if ok then fs_rename fs1 tmp path else (fs1, false).
End fs.

Example tmp_path_ex :
  tmp_path $"/usr/local/etc/pfsnitch/policy.conf" = $"/usr/local/etc/pfsnitch/policy.conf.tmp".
Proof. vm_compute. reflexivity. Qed.

(** ** Rules *)

Record Rule : Type := mk_rule { kind : str; value : str; comment : option str }.

Definition KINDS : list str :=
  [$"allow-app"; $"deny-app"; $"allow-host"; $"deny-host"; $"allow-dest"; $"deny-dest";
   $"allow-host-from"; $"allow-dest-from"; $"deny-host-from"; $"deny-dest-from"].

Definition is_kind (k : str) : bool := bool_decide (k ∈ KINDS).

Definition one_of (k : str) (ks : list str) : bool := bool_decide (k ∈ ks).

(** The canonical spelling of a rule's value. *)
Definition normalise (kind value : str) : str :=
  if one_of kind [$"allow-host"; $"deny-host"] then
    let '(h, p) := split_target value in join_target (to_lowercase h) p
  else if one_of kind [$"allow-host-from"; $"deny-host-from"] then
    match split_scoped value with
    | Some (h, e) =>
        let '(hh, p) := split_target h in join_target (to_lowercase hh) p ++ [32] ++ e
    | None => value
    end
  else if one_of kind [$"allow-dest-from"; $"deny-dest-from"] then
    match split_scoped value with
    | Some (a, e) =>
        let '(aa, p) := split_target a in
        match parse_ip aa with
        | Some addr => join_target (show_ip addr) p ++ [32] ++ e
        | None => value
        end
    | None => value
    end
  else if one_of kind [$"allow-dest"; $"deny-dest"] then
    let '(a, p) := split_target value in
    match parse_ip a with Some addr => join_target (show_ip addr) p | None => value end
  else value.

(** Every rule of a text, in file order. *)
Definition rules_text (text : str) : list Rule :=
  omap (fun raw => match parse_line raw with
                   | Some (k, v, c) => if is_kind k then Some (mk_rule k v c) else None
                   | None => None
                   end) (lines text).

Definition same_rule (k norm : str) (r : Rule) : bool :=
  str_eqb (kind r) k && str_eqb (normalise (kind r) (value r)) norm.

(** The checks [add_rule] makes before it looks at the file. *)
Definition add_invalid (k v : str) : bool :=
  negb (is_kind k)
  || (one_of k [$"allow-host-from"; $"allow-dest-from"; $"deny-host-from"; $"deny-dest-from"]
      && match split_scoped v with
         | Some (d, _) => ends_with $"dest-from" k && negb (is_ip (split_target d).1)
         | None => true
         end)
  || (one_of k [$"allow-dest"; $"deny-dest"] && negb (is_ip (split_target v).1)).

(** The line a new rule is written as. *)
Definition rule_line (k norm : str) (note : option str) : str :=
  match note with
  | Some n => k ++ [32] ++ norm ++ $"	# " ++ n
  | None => k ++ [32] ++ norm
  end.

(** The rewriting loop of [remove_rule], [remove_app] and [clear_rules]: lines that hit
    are counted and dropped, the others are kept. *)
Definition drop_lines (hit : str -> bool) (text : str) : str * nat :=
  foldl (fun '(kept, removed) raw =>
           if hit raw then (kept, S removed) else (kept ++ raw ++ [10], removed))
        ([], 0%nat) (lines text).

(** Does the line hold this rule? *)
Definition remove_hit (k want : str) (raw : str) : bool :=
  match parse_line raw with
  | Some (k', v, _) => str_eqb k' k && str_eqb (normalise k' v) want
  | None => false
  end.

(** Does the line hold a rule, or the identity, of this binary? *)
Definition app_hit (exe : str) (raw : str) : bool :=
  match parse_line raw with
  | Some (k, v, _) =>
      if one_of k [$"allow-app"; $"deny-app"] then str_eqb v exe
      else if one_of k [$"app-id"; $"allow-host-from"; $"deny-host-from"; $"allow-dest-from";
                        $"deny-dest-from"] then
        match split_scoped v with Some (_, e) => str_eqb e exe | None => false end
      else false
  | None => false
  end.

(** Does the line hold a rule or an identity at all? *)
Definition rule_hit (raw : str) : bool :=
  match parse_line raw with
  | Some (k, _, _) => is_kind k || str_eqb k $"app-id"
  | None => false
  end.

(** Is the line a setting of this key? *)
Definition is_key (key raw : str) : bool :=
  match parse_line raw with Some (k, _, _) => str_eqb k key | None => false end.

(** The rewriting loop of [set_directive]: the first setting is replaced in place, later
    ones are dropped, a missing one is appended. *)
Definition set_directive_text (key value text : str) : str :=
  let new := key ++ [32] ++ value ++ [10] in
  let '(out, written) :=
    foldl (fun '(out, written) raw =>
             if is_key key raw then ((if written : bool then out else out ++ new), true)
             else (out ++ raw ++ [10], written))
          ([], false) (lines text) in
  if written then out else out ++ new.

Section commands.
Context `{Io}.

(** [rules] *)
Definition rules (fs : Fs) (path : str) : list Rule :=
  match read_to_string fs path with Some t => rules_text t | None => [] end.

(** [add_rule] *)
Definition add_rule (fs : Fs) (path k v : str) (note : option str) : Fs * io_result bool :=
  if add_invalid k v then (fs, InvalidInput)
  else
    let norm := normalise k v in
    if existsb (same_rule k norm) (rules fs path) then (fs, IoOk false)
    else
      let '(fs', ok) := fs_append fs path (rule_line k norm note ++ [10]) in
      (fs', if ok then IoOk true else IoErr).

(** [remove_rule] *)
Definition remove_rule (fs : Fs) (path k v : str) : Fs * io_result nat :=
  match read_to_string fs path with
  | None => (fs, IoErr)
  | Some text =>
      let '(kept, removed) := drop_lines (remove_hit k (normalise k v)) text in
      if (0 <? removed)%nat then
        let '(fs', ok) := write_atomic fs path kept in (fs', if ok then IoOk removed else IoErr)
      else (fs, IoOk removed)
  end.

(** The common shape of [remove_app] and [clear_rules]: a backup, the loop, a rewrite
    when something went. *)
Definition drop_with_backup (hit : str -> bool) (fs : Fs) (path : str)
  : Fs * io_result (nat * str) :=
  match read_to_string fs path with
  | None => (fs, IoErr)
  | Some text =>
      let backup := bak_path path in
      let '(fs1, ok) := fs_write fs backup text in
      if negb ok then (fs1, IoErr)
      else
        let '(kept, removed) := drop_lines hit text in
        if (0 <? removed)%nat then
          let '(fs2, ok2) := write_atomic fs1 path kept in
          (fs2, if ok2 then IoOk (removed, backup) else IoErr)
        else (fs1, IoOk (removed, backup))
  end.

(** [remove_app] *)
Definition remove_app (fs : Fs) (path exe : str) : Fs * io_result (nat * str) :=
  drop_with_backup (app_hit exe) fs path.

(** [clear_rules] *)
Definition clear_rules (fs : Fs) (path : str) : Fs * io_result (nat * str) :=
  drop_with_backup rule_hit fs path.

(** [set_directive], [set_mode], [set_attribution] *)
Definition set_directive (fs : Fs) (path key value : str) : Fs * bool :=
  write_atomic fs path (set_directive_text key value (default [] (read_to_string fs path))).

Definition set_mode (fs : Fs) (path : str) (m : Mode) : Fs * bool :=
  set_directive fs path $"mode" (mode_str m).

Definition set_attribution (fs : Fs) (path : str) (a : AttributionMode) : Fs * bool :=
  set_directive fs path $"attribution" (attribution_str a).

(** [Policy::load] of the file at [path]. *)
Definition load (fs : Fs) (path : str) : Policy := load_text (read_to_string fs path).
End commands.

(** ** Lines and their directives *)

(** A trailing carriage return does not change what a line says. *)
Lemma break_hash_cr raw :
  trim (break_on (is_char 35) (raw ++ [13])).1 = trim (break_on (is_char 35) raw).1
  /\ (trim <$> (break_on (is_char 35) (raw ++ [13])).2) = (trim <$> (break_on (is_char 35) raw).2).
Proof.
  assert (Ht : forall s, trim (s ++ [13]) = trim s).
  { intros s. unfold trim.
    destruct (trim_start_split s) as (w & Hw & E). rewrite E at 1. rewrite <- app_assoc.
    rewrite trim_start_ws by done. pose proof (trim_start_head s) as Hh.
    destruct (trim_start s) as [|c u].
    - cbn. done.
    - rewrite trim_start_id by done. by apply trim_end_ws; repeat constructor. }
  destruct (break_on (is_char 35) raw) as [a [b|]] eqn:E.
  - apply break_on_some in E as (c & -> & Hc & Ha).
    rewrite <- app_assoc. cbn [app]. rewrite break_on_app by done.
    cbn [fst snd fmap option_fmap option_map]. by rewrite Ht.
  - apply break_on_none_inv in E as [-> Ha].
    rewrite break_on_none by (apply Forall_app; split; [done|by repeat constructor]).
    cbn [fst snd fmap option_fmap option_map]. by rewrite Ht.
Qed.

Lemma line_change_cr raw : line_change (strip_cr raw) = line_change raw.
Proof.
  destruct (strip_cr_cases raw) as [->|E]; [done|]. rewrite E at 2. unfold line_change.
  by destruct (break_hash_cr (strip_cr raw)) as [-> _].
Qed.

Lemma parse_line_eq raw :
  parse_line raw =
    let line := trim (break_on (is_char 35) raw).1 in
    if bool_decide (line = []) then None
    else let '(k, rest) := split_ws line in
         let v := trim (default [] rest) in
         if bool_decide (v = []) then None
         else Some (k, v, trim <$> (break_on (is_char 35) raw).2).
Proof.
  unfold parse_line, split_comment. destruct (break_on (is_char 35) raw) as [a [b|]] eqn:E; [done|].
  apply break_on_none_inv in E as [-> _]. done.
Qed.

Lemma parse_line_cr raw : parse_line (strip_cr raw) = parse_line raw.
Proof.
  destruct (strip_cr_cases raw) as [->|E]; [done|]. rewrite E at 2. rewrite !parse_line_eq.
  by destruct (break_hash_cr (strip_cr raw)) as [-> ->].
Qed.

(** The line means to [load] what [parse_line] reads, except that [load] also takes a
    keyword with no value. *)
Lemma line_change_parse raw k v c : parse_line raw = Some (k, v, c) -> line_change raw = directive k v.
Proof.
  rewrite parse_line_eq. unfold line_change. case_bool_decide; [done|].
  destruct (split_ws _) as [k' rest]. case_bool_decide; [done|]. by intros [= <- <- <-].
Qed.

Lemma is_key_cr key raw : is_key key (strip_cr raw) = is_key key raw.
Proof. unfold is_key. by rewrite parse_line_cr. Qed.
Lemma rule_hit_cr raw : rule_hit (strip_cr raw) = rule_hit raw.
Proof. unfold rule_hit. by rewrite parse_line_cr. Qed.
Lemma app_hit_cr exe raw : app_hit exe (strip_cr raw) = app_hit exe raw.
Proof. unfold app_hit. by rewrite parse_line_cr. Qed.
Lemma remove_hit_cr k w raw : remove_hit k w (strip_cr raw) = remove_hit k w raw.
Proof. unfold remove_hit. by rewrite parse_line_cr. Qed.

(** ** The rewriting loop *)

Definition kept_lines (hit : str -> bool) (text : str) : list str :=
  filter (fun l => hit l = false) (lines text).
Definition hit_lines (hit : str -> bool) (text : str) : list str :=
  filter (fun l => hit l = true) (lines text).

Lemma drop_lines_eq hit text :
  drop_lines hit text = (unlines (kept_lines hit text), length (hit_lines hit text)).
Proof.
  unfold drop_lines, kept_lines, hit_lines. generalize (lines text) as ls.
  assert (G : forall ls k n,
    foldl (fun '(kept, removed) raw =>
             if hit raw then (kept, S removed) else (kept ++ raw ++ [10], removed)) (k, n) ls
    = (k ++ unlines (filter (fun l => hit l = false) ls),
       (n + length (filter (fun l => hit l = true) ls))%nat)).
  { induction ls as [|l ls IH]; intros k n; cbn [foldl].
    - cbn. by rewrite app_nil_r, Nat.add_0_r.
    - rewrite !filter_cons. destruct (hit l) eqn:E; rewrite IH.
      + rewrite decide_False, decide_True by done. cbn. f_equal. lia.
      + rewrite decide_True, decide_False by done.
        change (unlines (?a :: ?b)) with ((a ++ [10]) ++ unlines b).
        by rewrite <- app_assoc. }
  intros ls. by rewrite G.
Qed.

(** The rewritten text has exactly the kept lines. *)
Lemma lines_kept hit text :
  (forall l, hit (strip_cr l) = hit l) ->
  lines (unlines (kept_lines hit text)) = map strip_cr (kept_lines hit text).
Proof.
  intros Hcr. apply lines_unlines_cr. unfold kept_lines.
  apply Forall_forall. intros l [_ Hl]%list_elem_of_filter.
  by apply (proj1 (Forall_forall _ _) (lines_lacks text)).
Qed.

Lemma omap_strip_cr {A} (f : str -> option A) ls :
  (forall l, f (strip_cr l) = f l) -> omap f (map strip_cr ls) = omap f ls.
Proof. intros Hf. induction ls as [|l ls IH]; cbn; [done|]. by rewrite Hf, IH. Qed.

Lemma load_lines_cr p ls : foldl load_line p (map strip_cr ls) = foldl load_line p ls.
Proof.
  revert p. induction ls as [|l ls IH]; intros p; cbn; [done|].
  rewrite IH. f_equal. unfold load_line. by rewrite line_change_cr.
Qed.

(** What [load] reads in a rewritten file. *)
Lemma load_kept hit text :
  (forall l, hit (strip_cr l) = hit l) ->
  load_text (Some (unlines (kept_lines hit text))) = foldl load_line fresh_policy (kept_lines hit text).
Proof. intros Hcr. unfold load_text. by rewrite lines_kept, load_lines_cr. Qed.

(** ** The temporary file and the rename *)

Section atomic.
Context `{Io}.

(** The states the file system passes through while [write_atomic] runs, wherever it
    is interrupted. *)
Inductive write_point (fs : Fs) (path data : str) : Fs -> Prop :=
| wp_before : write_point fs path data fs
| wp_partial n : write_point fs path data (<[tmp_path path := take n data]> fs)
| wp_written : write_point fs path data (<[tmp_path path := data]> fs)
| wp_renamed : write_point fs path data
    (<[path := data]> (delete (tmp_path path) (<[tmp_path path := data]> fs))).

Lemma write_atomic_point fs path data fs' ok :
  write_atomic fs path data = (fs', ok) -> write_point fs path data fs'.
Proof.
  unfold write_atomic, fs_write. destruct (write_fault (tmp_path path)) as [[n|]|].
  - intros [= <- _]. apply wp_partial.
  - intros [= <- _]. apply wp_before.
  - unfold fs_rename. rewrite lookup_insert_eq. destruct (rename_ok _ _); intros [= <- _].
    + apply wp_renamed.
    + apply wp_written.
Qed.

Lemma write_atomic_ok fs path data fs' :
  write_atomic fs path data = (fs', true) -> fs' !! path = Some data.
Proof.
  unfold write_atomic, fs_write. destruct (write_fault (tmp_path path)) as [[n|]|]; try done.
  unfold fs_rename. rewrite lookup_insert_eq. destruct (rename_ok _ _); intros [= <-].
  apply lookup_insert_eq.
Qed.
End atomic.

Lemma path_parts path :
  exists dir name, path = dir ++ name
    /\ tmp_path path = dir ++ (match rbreak_on (is_char 46) name with
                               | Some ((_ :: _) as st, _) => st | _ => name end) ++ [46] ++ $"conf.tmp".
Proof.
  unfold tmp_path, with_extension. destruct (rbreak_on (is_char 47) path) as [[d n]|] eqn:E.
  - exists (d ++ [47]), n. split; [|done].
    unfold rbreak_on in E. destruct (break_on _ (rev path)) as [a [b|]] eqn:E2; [|done].
    apply break_on_some in E2 as (c & E3 & Hc & _). injection E as <- <-.
    apply Z.eqb_eq in Hc as ->. rewrite <- (rev_involutive path), E3, rev_app_distr. cbn.
    by rewrite <- app_assoc.
  - by exists [], path.
Qed.

(** The policy file is never its own temporary file, unless its name already ends in
    [.conf.tmp]. *)
Lemma tmp_path_ne path : ends_with $".conf.tmp" path = false -> tmp_path path <> path.
Proof.
  intros H E. assert (ends_with $".conf.tmp" path = true); [|congruence].
  apply ends_with_spec. destruct (path_parts path) as (dir & name & Hp & Ht).
  rewrite Ht in E. rewrite app_assoc in E. rewrite <- E. eexists. reflexivity.
Qed.
