(* ===== verification/RuleText.v ===== *)
(** What a well-formed rule looks like as text, and that it reads back: lines, scoped
    values, canonical spellings.  Shared by the commands that edit the policy file and by
    [record]. *)
From S2P Require Import Prelude Unicode RustStr IpAddr Target Policy PolicyFile.

(** ** Text a line can carry *)

(** One word: not empty, no white space, no hash sign. *)
Definition word_ok (s : str) : Prop := s <> [] /\ no_ws s /\ lacks 35 s.

(** The path of a binary, or any value, that survives being written on a line. *)
Definition exe_ok (e : str) : Prop := e <> [] /\ trimmed e /\ lacks 35 e /\ lacks 10 e.

Lemma no_ws_lacks c s : is_ws c = true -> no_ws s -> lacks c s.
Proof. intros Hc H. eapply Forall_impl; [exact H|]. cbv beta. congruence. Qed.

Lemma word_exe_ok s : word_ok s -> exe_ok s.
Proof.
  intros (H1 & H2 & H3). repeat split; try done; try by apply no_ws_trimmed.
  by apply no_ws_lacks.
Qed.

Lemma trimmed_cat a b c :
  no_ws a -> a <> [] -> trimmed b -> b <> [] -> trimmed (a ++ c :: b).
Proof.
  intros Ha Hne [_ Hb] Hbne. split.
  - destruct Ha as [|x a Hx _]; done.
  - change (a ++ c :: b) with (a ++ [c] ++ b). rewrite app_assoc, rev_app_distr.
    destruct (rev b) as [|x u] eqn:E; [|done].
    apply (f_equal (@rev _)) in E. rewrite rev_involutive in E. done.
Qed.

Lemma split_ws_word d e : no_ws d -> split_ws (d ++ 32 :: e) = (d, Some e).
Proof. intros H. by apply break_on_app. Qed.

Lemma split_scoped_text d e :
  word_ok d -> exe_ok e -> split_scoped (d ++ 32 :: e) = Some (d, e).
Proof.
  intros (Hd & Hws & _) (He & Ht & _). unfold split_scoped. rewrite split_ws_word by done.
  rewrite trim_no_ws, trim_trimmed by done.
  by rewrite !bool_decide_eq_false_2 by done.
Qed.

Lemma scoped_text_ok d e : word_ok d -> exe_ok e -> exe_ok (d ++ 32 :: e).
Proof.
  intros (Hd & Hws & Hh) (He & Ht & Hh' & Hl). split; [by destruct d|].
  split; [by apply trimmed_cat|]. split; apply lacks_app; try done; try by constructor.
  - by apply no_ws_lacks.
Qed.

Lemma split_scoped_inv v d e : split_scoped v = Some (d, e) -> e <> [] /\ trimmed e.
Proof.
  unfold split_scoped. destruct (split_ws v) as [d' [e'|]]; [|done].
  destruct (bool_decide (trim d' = [])) eqn:?, (bool_decide (trim e' = [])) eqn:?; try done.
  intros [= <- <-]. bool_to_prop. split; [done|apply trim_is_trimmed].
Qed.

(** ** A written line reads back *)

Lemma body_split (l : str) (c : option str) :
  lacks 35 l ->
  break_on (is_char 35) (match c with Some n => l ++ $"	# " ++ n | None => l end)
  = match c with Some n => (l ++ [9], Some (32 :: n)) | None => (l, None) end.
Proof.
  intros Hl. destruct c as [n|].
  - change (l ++ $"	# " ++ n) with (l ++ [9] ++ 35 :: 32 :: n). rewrite app_assoc.
    apply break_on_app; [|done]. apply lacks_is_char, lacks_app; [done|by repeat constructor].
  - apply break_on_none. by apply lacks_is_char.
Qed.

Lemma parse_rule_line k v note :
  word_ok k -> exe_ok v ->
  parse_line (rule_line k v note) = Some (k, v, trim <$> note)
  /\ line_change (rule_line k v note) = directive k v.
Proof.
  intros Hk Hv. pose proof (scoped_text_ok k v Hk Hv) as (Hne & Ht & Hh & _).
  destruct Hk as (Hk & Hkw & _), Hv as (Hv & Hvt & _).
  assert (E : rule_line k v note = match note with
      Some n => (k ++ 32 :: v) ++ $"	# " ++ n | None => k ++ 32 :: v end).
  { unfold rule_line. destruct note; [|done]. by rewrite <- !app_assoc. }
  assert (Htrim : trim (break_on (is_char 35) (rule_line k v note)).1 = k ++ 32 :: v).
  { rewrite E, body_split by done. destruct note; cbn [fst].
    - apply (trim_around [] (k ++ 32 :: v) [9]); [constructor|by repeat constructor|done].
    - by apply trim_trimmed. }
  assert (Hc : (trim <$> (break_on (is_char 35) (rule_line k v note)).2) = (trim <$> note)).
  { rewrite E, body_split by done. destruct note as [n|]; [|done]. cbn [snd fmap option_fmap option_map].
    f_equal. }
  split.
  - rewrite parse_line_eq. cbv zeta. rewrite Htrim, Hc, split_ws_word by done.
    rewrite bool_decide_eq_false_2 by done. change (default [] (Some v)) with v. rewrite (trim_trimmed v) by done.
    by rewrite bool_decide_eq_false_2.
  - unfold line_change. rewrite Htrim, split_ws_word by done.
    rewrite bool_decide_eq_false_2 by done. change (default [] (Some v)) with v. by rewrite (trim_trimmed v).
Qed.

Lemma rule_line_lacks k v note :
  word_ok k -> exe_ok v -> default True (lacks 10 <$> note) -> lacks 10 (rule_line k v note).
Proof.
  intros Hk Hv Hn. destruct (scoped_text_ok k v Hk Hv) as (_ & _ & _ & Hl).
  unfold rule_line. destruct note as [n|]; [|done]. cbn in Hn.
  change (lacks 10 (k ++ [32] ++ v ++ [9; 35; 32] ++ n)).
  apply Forall_app in Hl as [? Hl]. inversion_clear Hl.
  repeat apply lacks_app; try done; by repeat constructor.
Qed.

(** Appending a rule to a text that ends with a line feed adds one rule and one change. *)
Lemma append_rule text k v note :
  nl_terminated text -> is_kind k = true -> word_ok k -> exe_ok v ->
  default True (lacks 10 <$> note) ->
  rules_text (text ++ rule_line k v note ++ [10]) = rules_text text ++ [mk_rule k v (trim <$> note)]
  /\ load_text (Some (text ++ rule_line k v note ++ [10]))
     = match directive k v with Some c => apply_change c (load_text (Some text))
                              | None => load_text (Some text) end.
Proof.
  intros Ht Hkind Hk Hv Hn. destruct (parse_rule_line k v note Hk Hv) as [Hp Hc].
  assert (E : lines (text ++ rule_line k v note ++ [10]) = lines text ++ [strip_cr (rule_line k v note)]).
  { rewrite lines_app_nl by done. by rewrite lines_single by (by apply rule_line_lacks). }
  unfold rules_text, load_text. rewrite E, omap_app, foldl_app. split.
  - f_equal. cbn [omap list_omap]. rewrite parse_line_cr, Hp, Hkind. done.
  - cbn [foldl]. unfold load_line at 1. rewrite line_change_cr, Hc. done.
Qed.

(** The same for any directive with a value, [app-id] for one. *)
Lemma append_load text k v note :
  nl_terminated text -> word_ok k -> exe_ok v -> default True (lacks 10 <$> note) ->
  load_text (Some (text ++ rule_line k v note ++ [10]))
  = match directive k v with Some c => apply_change c (load_text (Some text))
                           | None => load_text (Some text) end.
Proof.
  intros Ht Hk Hv Hn. destruct (parse_rule_line k v note Hk Hv) as [_ Hc].
  unfold load_text. rewrite lines_app_nl, lines_single by (done || by apply rule_line_lacks).
  rewrite foldl_app. cbn [foldl]. unfold load_line at 1. by rewrite line_change_cr, Hc.
Qed.

(** ** Canonical spellings *)

Lemma lower_char_keeps c x d :
  (x < 97 \/ 122 < x < 128) -> c <> x -> d ∈ char_lower c -> d <> x.
Proof. intros Hx Hc Hd ->. destruct (char_lower_ascii c x Hd ltac:(lia)); [congruence|lia]. Qed.

Lemma lower_lacks x s : (x < 97 \/ 122 < x < 128) -> lacks x s -> lacks x (to_lowercase s).
Proof.
  intros Hx. apply to_lowercase_forall; [lia|lia|]. intros c d. by apply lower_char_keeps.
Qed.

Lemma lower_no_ws s : no_ws s -> no_ws (to_lowercase s).
Proof. apply to_lowercase_forall; [done|done|]. apply char_lower_ws. Qed.

Lemma lower_head s : head s <> Some 91 -> head (to_lowercase s) <> Some 91.
Proof.
  destruct s as [|c s]; [done|]. cbn [head]. intros Hc. unfold to_lowercase. cbn [lower_from].
  destruct (Z.eqb_spec c 931) as [->|Hs].
  - unfold map_sigma. by destruct (ignorable_then_cased [] && negb (ignorable_then_cased s)).
  - pose proof (char_lower_nonempty c) as Hne.
    destruct (char_lower c) as [|d ds] eqn:E; [done|]. cbn [app head]. intros [= ->].
    assert (91 ∈ char_lower c) by (rewrite E; by left).
    by apply (lower_char_keeps c 91 91) in H; [| lia | congruence].
Qed.

Lemma clean_host_lower h : clean_host h -> clean_host (to_lowercase h).
Proof.
  intros (H1 & H2 & H3 & H4 & H5).
  split; [by rewrite to_lowercase_nil_iff|]. split; [by apply lower_no_ws|].
  split; [apply lower_lacks; [lia|done]|]. split; [apply lower_lacks; [lia|done]|].
  by apply lower_head.
Qed.

Lemma split_target_port v : port_ok (split_target v).2.
Proof.
  assert (Hp : forall s, port_ok (parse_u16 s)).
  { intros s. unfold port_ok. destruct (parse_u16 s) eqn:E; [|done].
    by apply parse_uint_bound in E. }
  unfold split_target. repeat case_match; subst; cbn [snd fst]; try done;
    repeat match goal with H : parse_u16 ?x = Some _ |- _ => pose proof (Hp x); rewrite H in *; clear H end; try done.
  all: try match goal with |- context [strip_prefix ?a ?b] => destruct (strip_prefix a b) end; cbn; try done; try apply Hp.
Qed.

Lemma join_clean_word h p : clean_host h -> port_ok p -> word_ok (join_target h p).
Proof.
  intros (H1 & H2 & H3 & H4 & _) Hp. unfold join_target. destruct p as [p|]; [|done].
  destruct Hp as [Hp _]. destruct (show_dec_plain p Hp) as (Hw & Hh & _).
  rewrite clean_host_not_v6 by done. split; [by destruct h|].
  split; [apply no_ws_app; [done|apply no_ws_app; [by repeat constructor|done]]|].
  apply lacks_app; [done|apply lacks_app; [by repeat constructor|done]].
Qed.

Lemma join_ip_word a p : ip_ok a -> port_ok p -> word_ok (join_target (show_ip a) p).
Proof.
  intros Ha Hp. pose proof (show_ip_no_ws a) as Hws. pose proof (show_ip_lacks a 35 ltac:(auto)) as Hh.
  unfold join_target. destruct p as [p|]; [|split; [by apply show_ip_nonempty|done]].
  destruct Hp as [Hp _]. destruct (show_dec_plain p Hp) as (Hw & Hh' & _).
  pose proof (show_ip_nonempty a Ha) as Hne.
  destruct (is_ipv6 (show_ip a)).
  - split; [done|]. split; repeat first [apply no_ws_app | apply lacks_app]; try done; by repeat constructor.
  - split; [by destruct (show_ip a)|].
    split; repeat first [apply no_ws_app | apply lacks_app]; try done; by repeat constructor.
Qed.

(** ** The five families of rules *)

Definition norm_host (v : str) : str :=
  join_target (to_lowercase (split_target v).1) (split_target v).2.

Definition norm_dest (v : str) : str :=
  match parse_ip (split_target v).1 with
  | Some a => join_target (show_ip a) (split_target v).2
  | None => v
  end.

(** A host or address value a rule line can carry. *)
Definition host_value (v : str) : Prop := clean_host (split_target v).1.
Definition dest_value (v : str) : Prop := is_Some (parse_ip (split_target v).1).
Definition scoped_value (P : str -> Prop) (v : str) : Prop :=
  exists d e, split_scoped v = Some (d, e) /\ exe_ok e /\ P d.

Definition value_ok (k v : str) : Prop :=
  if one_of k [$"allow-app"; $"deny-app"] then exe_ok v
  else if one_of k [$"allow-host"; $"deny-host"] then host_value v
  else if one_of k [$"allow-dest"; $"deny-dest"] then dest_value v
  else if one_of k [$"allow-host-from"; $"deny-host-from"] then scoped_value host_value v
  else scoped_value dest_value v.

(** What the ten keywords do, as five families that differ only in the change they make. *)
Inductive rule_class (k : str) : Prop :=
| rc_app mk : (forall v, directive k v = Some (mk v)) -> (forall v, normalise k v = v) ->
    (forall v, value_ok k v = exe_ok v) -> rule_class k
| rc_host mk : (forall v, directive k v = host_rule v mk) -> (forall v, normalise k v = norm_host v) ->
    (forall v, value_ok k v = host_value v) -> rule_class k
| rc_dest mk : (forall v, directive k v = dest_rule v mk) -> (forall v, normalise k v = norm_dest v) ->
    (forall v, value_ok k v = dest_value v) -> rule_class k
| rc_host_from mk : (forall v, directive k v = scoped v (fun d e => host_rule d (mk e))) ->
    (forall v d e, split_scoped v = Some (d, e) -> normalise k v = norm_host d ++ 32 :: e) ->
    (forall v, value_ok k v = scoped_value host_value v) -> rule_class k
| rc_dest_from mk : (forall v, directive k v = scoped v (fun d e => dest_rule d (mk e))) ->
    (forall v d e, split_scoped v = Some (d, e) -> dest_value d ->
       normalise k v = norm_dest d ++ 32 :: e) ->
    (forall v, value_ok k v = scoped_value dest_value v) -> rule_class k.

Lemma is_kind_in k : is_kind k = true <-> k ∈ KINDS.
Proof. apply bool_decide_eq_true. Qed.

Lemma norm_host_eq v : (let '(h, p) := split_target v in join_target (to_lowercase h) p) = norm_host v.
Proof. unfold norm_host. by destruct (split_target v). Qed.
Lemma norm_dest_eq v :
  (let '(a, p) := split_target v in
   match parse_ip a with Some addr => join_target (show_ip addr) p | None => v end) = norm_dest v.
Proof. unfold norm_dest. by destruct (split_target v). Qed.

Lemma normalise_host_from k v d e :
  k = $"allow-host-from" \/ k = $"deny-host-from" ->
  split_scoped v = Some (d, e) -> normalise k v = norm_host d ++ 32 :: e.
Proof.
  intros Hk E. transitivity (match split_scoped v with
    | Some (h, e) => let '(hh, p) := split_target h in join_target (to_lowercase hh) p ++ [32] ++ e
    | None => v end); [by destruct Hk as [-> | ->]|].
  rewrite E. unfold norm_host. by destruct (split_target d).
Qed.

Lemma normalise_dest_from k v d e :
  k = $"allow-dest-from" \/ k = $"deny-dest-from" ->
  split_scoped v = Some (d, e) -> dest_value d -> normalise k v = norm_dest d ++ 32 :: e.
Proof.
  intros Hk E Hd. transitivity (match split_scoped v with
    | Some (a, e) => let '(aa, p) := split_target a in
        match parse_ip aa with Some addr => join_target (show_ip addr) p ++ [32] ++ e | None => v end
    | None => v end); [by destruct Hk as [-> | ->]|].
  rewrite E. unfold norm_dest, dest_value in *. destruct (split_target d) as [a p]. cbn [fst snd] in *.
  by destruct Hd as [x ->].
Qed.

Lemma classify k : is_kind k = true -> rule_class k.
Proof.
  intros H%is_kind_in. unfold KINDS in H.
  repeat (apply elem_of_cons in H as [-> | H]); [..|by apply not_elem_of_nil in H].
  - by apply (rc_app _ AddAllowApp).
  - by apply (rc_app _ AddDenyApp).
  - by apply (rc_host _ AddAllowHost); try done; apply norm_host_eq.
  - by apply (rc_host _ AddDenyHost); try done; apply norm_host_eq.
  - by apply (rc_dest _ AddAllowDest); try done; apply norm_dest_eq.
  - by apply (rc_dest _ AddDenyDest); try done; apply norm_dest_eq.
  - apply (rc_host_from _ AddAllowHostFrom); try done. intros v d e. apply normalise_host_from. auto.
  - apply (rc_dest_from _ AddAllowDestFrom); try done. intros v d e. apply normalise_dest_from. auto.
  - apply (rc_host_from _ AddDenyHostFrom); try done. intros v d e. apply normalise_host_from. auto.
  - apply (rc_dest_from _ AddDenyDestFrom); try done. intros v d e. apply normalise_dest_from. auto.
Qed.

(** *** The canonical spelling of a destination says the same and is stable *)

Lemma norm_host_facts v :
  host_value v ->
  word_ok (norm_host v) /\ split_target (norm_host v) = (to_lowercase (split_target v).1, (split_target v).2)
  /\ host_value (norm_host v) /\ norm_host (norm_host v) = norm_host v.
Proof.
  intros Hv%clean_host_lower. pose proof (split_target_port v) as Hp.
  assert (E : split_target (norm_host v) = (to_lowercase (split_target v).1, (split_target v).2))
    by (by apply split_join_clean).
  split; [by apply join_clean_word|]. split; [done|]. unfold host_value.
  split; [by rewrite E|]. unfold norm_host at 1. rewrite E. cbn [fst snd]. by rewrite to_lowercase_idem.
Qed.

Lemma host_rule_norm v mk : host_value v -> host_rule (norm_host v) mk = host_rule v mk.
Proof.
  intros Hv. unfold host_rule. destruct (norm_host_facts v Hv) as (_ & -> & _).
  rewrite to_lowercase_idem. by destruct (split_target v).
Qed.

Lemma norm_dest_facts v a :
  parse_ip (split_target v).1 = Some a ->
  word_ok (norm_dest v) /\ split_target (norm_dest v) = (show_ip a, (split_target v).2)
  /\ parse_ip (split_target (norm_dest v)).1 = Some a /\ norm_dest (norm_dest v) = norm_dest v.
Proof.
  intros Hv. pose proof (split_target_port v) as Hp. pose proof (parse_ip_range _ _ Hv) as Ha.
  assert (E0 : norm_dest v = join_target (show_ip a) (split_target v).2)
    by (unfold norm_dest; by rewrite Hv).
  assert (E : split_target (norm_dest v) = (show_ip a, (split_target v).2))
    by (rewrite E0; by apply split_join_ip).
  split; [rewrite E0; by apply join_ip_word|]. split; [done|].
  assert (E2 : parse_ip (split_target (norm_dest v)).1 = Some a)
    by (rewrite E; by apply parse_show_ip).
  split; [done|]. unfold norm_dest at 1. rewrite E2, E, E0. done.
Qed.

Lemma dest_rule_norm v mk : dest_value v -> dest_rule (norm_dest v) mk = dest_rule v mk.
Proof.
  intros [a Ha]. unfold dest_rule. destruct (norm_dest_facts v a Ha) as (_ & E & E2 & _).
  rewrite E in E2 |- *. cbn [fst] in E2. rewrite E2. destruct (split_target v). cbn [fst] in Ha.
  by rewrite Ha.
Qed.

Lemma scoped_text v d e k :
  split_scoped v = Some (d, e) -> scoped v k = k d e.
Proof. intros E. unfold scoped. by rewrite E. Qed.

(** [normalise] keeps what a well-formed rule says, is stable, and fits on a line. *)
Lemma normalise_facts k v :
  is_kind k = true -> value_ok k v ->
  exe_ok (normalise k v) /\ normalise k (normalise k v) = normalise k v
  /\ directive k (normalise k v) = directive k v /\ is_Some (directive k v).
Proof.
  intros Hk Hv. destruct (classify k Hk) as [mk Hd Hn Ho|mk Hd Hn Ho|mk Hd Hn Ho|mk Hd Hn Ho|mk Hd Hn Ho];
    rewrite Ho in Hv; rewrite !Hd.
  - rewrite !Hn. by split_and!.
  - rewrite !Hn, host_rule_norm by done. destruct (norm_host_facts v Hv) as (Hw & _ & _ & E).
    split_and!; [by apply word_exe_ok|done|done|]. unfold host_rule. by destruct (split_target v).
  - rewrite !Hn, dest_rule_norm by done. destruct Hv as [a Ha].
    destruct (norm_dest_facts v a Ha) as (Hw & _ & _ & E).
    split_and!; [by apply word_exe_ok|done|done|]. unfold dest_rule.
    destruct (split_target v). cbn [fst] in Ha. by rewrite Ha.
  - destruct Hv as (d & e & Es & He & Hd').
    destruct (norm_host_facts d Hd') as (Hw & _ & Hv' & E).
    pose proof (split_scoped_text _ _ Hw He) as Es'.
    rewrite (Hn _ _ _ Es), (Hn _ _ _ Es'), E. rewrite (scoped_text _ _ _ _ Es), (scoped_text _ _ _ _ Es').
    split_and!; [by apply scoped_text_ok|done|by apply host_rule_norm|].
    unfold host_rule. by destruct (split_target d).
  - destruct Hv as (d & e & Es & He & [a Ha]).
    destruct (norm_dest_facts d a Ha) as (Hw & _ & Hv' & E).
    pose proof (split_scoped_text _ _ Hw He) as Es'.
    rewrite (Hn _ _ _ Es), (Hn _ _ _ Es'), E by (by exists a).
    rewrite (scoped_text _ _ _ _ Es), (scoped_text _ _ _ _ Es').
    split_and!; [by apply scoped_text_ok|done|apply dest_rule_norm; by exists a|].
    unfold dest_rule. destruct (split_target d). cbn [fst] in Ha. by rewrite Ha.
Qed.

Lemma kind_word k : is_kind k = true -> word_ok k.
Proof.
  intros H%is_kind_in. unfold KINDS in H.
  repeat (apply elem_of_cons in H as [-> | H]); [..|by apply not_elem_of_nil in H];
    (split; [done|split; by repeat constructor]).
Qed.
