(* ===== verification/PolicyEdit.v ===== *)
(** The commands that edit the policy file (policy.rs): what each leaves in the file, and
    what a daemon that re-reads the file then decides. *)
From S2P Require Import Prelude Unicode RustStr IpAddr Target Policy PolicyFile RuleText.
From Stdlib Require Import Btauto.

(** ** What a directive changes *)

(** The binary a change belongs to, identities included. *)
Definition change_owner (c : change) : option str :=
  match c with SetAppId e _ => Some e | _ => change_app c end.

(** The binary a directive names. *)
Definition line_owner (k v : str) : option str :=
  if one_of k [$"allow-app"; $"deny-app"] then Some v
  else if one_of k [$"app-id"; $"allow-host-from"; $"deny-host-from"; $"allow-dest-from";
                    $"deny-dest-from"] then snd <$> split_scoped v
  else None.

(** Rules and identities, as opposed to settings. *)
Definition rule_change (c : change) : bool :=
  match c with
  | SetDefault _ | SetPrompt _ | SetMode _ | SetAttribution _ => false
  | _ => true
  end.

Lemma host_rule_inv v mk c : host_rule v mk = Some c -> exists h p, c = mk h p.
Proof. unfold host_rule. destruct (split_target v). intros [= <-]. eauto. Qed.
Lemma dest_rule_inv v mk c : dest_rule v mk = Some c -> exists a p, c = mk a p.
Proof. unfold dest_rule. destruct (split_target v). case_match; [|done]. intros [= <-]. eauto. Qed.
Lemma scoped_inv v k c : scoped v k = Some c -> exists d e, split_scoped v = Some (d, e) /\ k d e = Some c.
Proof. unfold scoped. destruct (split_scoped v) as [[d e]|]; [eauto|done]. Qed.

(** Name the change each kind of directive makes. *)
Ltac directive_forms :=
  repeat match goal with
  | H : scoped _ _ = Some _ |- _ => apply scoped_inv in H as (? & ? & ? & H)
  | H : host_rule _ _ = Some _ |- _ => apply host_rule_inv in H as (? & ? & ?)
  | H : dest_rule _ _ = Some _ |- _ => apply dest_rule_inv in H as (? & ? & ?)
  | H : _ <$> _ = Some _ |- _ => apply fmap_Some in H as (? & _ & ?)
  | H : str_eqb _ _ = true |- _ => apply str_eqb_eq in H
  end.

Lemma directive_facts k v c :
  directive k v = Some c ->
  change_owner c = line_owner k v /\ rule_change c = is_kind k || str_eqb k $"app-id".
Proof.
  unfold directive. intros H.
  repeat match type of H with
  | (if str_eqb k ?l then _ else _) = _ =>
      destruct (str_eqb k l) eqn:?;
      [ match goal with E : str_eqb k l = true |- _ => apply str_eqb_eq in E; subst k end |]
  end; try done;
  directive_forms; simplify_eq; (split; [|reflexivity]); try reflexivity.
  all: cbn [change_owner change_app]; symmetry.
  all: match goal with E : split_scoped ?v = _ |- _ => transitivity (snd <$> split_scoped v);
         [reflexivity | by rewrite E] end.
Qed.

(** ** Folding over the kept lines *)

Lemma fold_kept (R : Policy -> Policy -> Prop) (hit : str -> bool) :
  (forall l p q, hit l = true -> R p q -> R (load_line p l) q) ->
  (forall l p q, hit l = false -> R p q -> R (load_line p l) (load_line q l)) ->
  forall ls p q, R p q ->
    R (foldl load_line p ls) (foldl load_line q (filter (fun l => hit l = false) ls)).
Proof.
  intros Hhit Hno. induction ls as [|l ls IH]; intros p q HR; [done|]. rewrite filter_cons.
  destruct (hit l) eqn:E.
  - rewrite decide_False by done. apply IH. by apply Hhit.
  - rewrite decide_True by done. apply IH. by apply Hno.
Qed.

Lemma omap_filter_eq {B} (f : str -> option B) (b : str -> bool) (q : B -> bool) (ls : list str) :
  (forall l r, f l = Some r -> b l = q r) ->
  omap f (filter (fun l => b l = false) ls) = filter (fun r => q r = false) (omap f ls).
Proof.
  intros H. induction ls as [|l ls IH]; [done|]. rewrite filter_cons. cbn [omap list_omap].
  destruct (f l) as [r|] eqn:E.
  - rewrite filter_cons, <- (H l r E). destruct (b l).
    + by rewrite !decide_False.
    + rewrite !decide_True by done. cbn [omap list_omap]. by rewrite E, IH.
  - destruct (b l); [by rewrite decide_False|]. rewrite decide_True by done.
    cbn [omap list_omap]. by rewrite E, IH.
Qed.

Lemma omap_hits_length {B} (f : str -> option B) (b : str -> bool) (q : B -> bool) (ls : list str) :
  (forall l r, f l = Some r -> b l = q r) -> (forall l, f l = None -> b l = false) ->
  length (filter (fun l => b l = true) ls) = length (filter (fun r => q r = true) (omap f ls)).
Proof.
  intros H H0. induction ls as [|l ls IH]; [done|]. rewrite filter_cons. cbn [omap list_omap].
  destruct (f l) as [r|] eqn:E.
  - rewrite filter_cons, <- (H l r E). destruct (b l).
    + rewrite !decide_True by done. cbn [length]. by rewrite IH.
    + by rewrite !decide_False.
  - rewrite (H0 l E). by rewrite decide_False.
Qed.

Lemma omap_none {A B} (f : A -> option B) (ls : list A) :
  (forall l, l ∈ ls -> f l = None) -> omap f ls = [].
Proof.
  induction ls as [|l ls IH]; intros Hn; [done|]. cbn [omap list_omap].
  rewrite (Hn l) by (by left). apply IH. intros l' Hl. apply Hn. by right.
Qed.

(** The rule a line holds. *)
Definition line_rule (raw : str) : option Rule :=
  match parse_line raw with
  | Some (k, v, c) => if is_kind k then Some (mk_rule k v c) else None
  | None => None
  end.

Lemma rules_text_eq text : rules_text text = omap line_rule (lines text).
Proof. done. Qed.

Lemma rules_kept (hit : str -> bool) (q : Rule -> bool) text :
  (forall l, hit (strip_cr l) = hit l) ->
  (forall l r, line_rule l = Some r -> hit l = q r) ->
  rules_text (unlines (kept_lines hit text)) = filter (fun r => q r = false) (rules_text text).
Proof.
  intros Hcr Hq. rewrite !rules_text_eq, lines_kept, omap_strip_cr by
    (done || (intros l; unfold line_rule; by rewrite parse_line_cr)).
  by apply omap_filter_eq.
Qed.

(** Lines the loop dropped, when there are none: the file is not rewritten. *)
Lemma no_hits (hit : str -> bool) text :
  length (hit_lines hit text) = 0%nat -> kept_lines hit text = lines text.
Proof.
  unfold hit_lines, kept_lines. induction (lines text) as [|l ls IH]; [done|].
  rewrite !filter_cons. destruct (hit l) eqn:E.
  - by rewrite decide_True.
  - rewrite decide_False, decide_True by done. intros H. by rewrite IH.
Qed.

Section edits.
Context `{Io}.

Lemma write_atomic_frame (fs : Fs) path data fs' ok q :
  write_atomic fs path data = (fs', ok) -> q <> path -> q <> tmp_path path -> fs' !! q = fs !! q.
Proof.
  intros Hw Hq Ht. apply write_atomic_point in Hw.
  destruct Hw; simplify_map_eq; try done. all: by rewrite !lookup_insert_ne.
Qed.

Lemma remove_rule_frame (fs : Fs) path k v fs' r q :
  remove_rule fs path k v = (fs', r) -> q <> path -> q <> tmp_path path -> fs' !! q = fs !! q.
Proof.
  unfold remove_rule. intros Hr Hq Ht. destruct (read_to_string fs path); [|by simplify_eq].
  destruct (drop_lines _ _) as [kept n]. destruct (0 <? n)%nat; [|by simplify_eq].
  destruct (write_atomic fs path kept) as [fs1 ok] eqn:E. simplify_eq. by eapply write_atomic_frame.
Qed.

Lemma bak_ne path : bak_path path <> path /\ bak_path path <> tmp_path path.
Proof.
  split.
  - intros E. apply (f_equal length) in E. unfold bak_path in E. rewrite length_app in E. cbn in E. lia.
  - intros E. destruct (path_parts path) as (dir & name & _ & Ht). rewrite Ht in E.
    apply (f_equal (@rev _)) in E. unfold bak_path in E. rewrite !rev_app_distr in E. done.
Qed.

(** What [remove_app] and [clear_rules] leave behind, when they succeed. *)
Lemma drop_with_backup_ok (fs : Fs) path hit fs' n bak :
  (forall l, hit (strip_cr l) = hit l) -> read_ok path = true ->
  drop_with_backup hit fs path = (fs', IoOk (n, bak)) ->
  exists text text', fs !! path = Some text /\ fs' !! path = Some text'
    /\ bak = bak_path path /\ fs' !! bak = Some text
    /\ n = length (hit_lines hit text)
    /\ load_text (Some text') = foldl load_line fresh_policy (kept_lines hit text)
    /\ rules_text text' = omap line_rule (kept_lines hit text)
    /\ (forall q, q <> path -> q <> tmp_path path -> q <> bak -> fs' !! q = fs !! q).
Proof.
  intros Hcr Hr Hrun. unfold drop_with_backup, read_to_string in Hrun. rewrite Hr in Hrun.
  destruct (fs !! path) as [text|] eqn:Ht; [|done]. exists text.
  unfold fs_write in Hrun. destruct (bak_ne path) as [Hb1 Hb2].
  destruct (write_fault (bak_path path)) as [[?|]|]; [done|done|]. cbn [negb] in Hrun.
  rewrite drop_lines_eq in Hrun. set (fs1 := <[bak_path path := text]> fs) in *.
  destruct (Nat.ltb_spec 0 (length (hit_lines hit text))) as [Hn|Hn].
  - destruct (write_atomic fs1 path _) as [fs2 ok] eqn:E. destruct ok; [|done].
    injection Hrun as <- <- <-. pose proof (write_atomic_ok _ _ _ _ E) as Hok.
    eexists. split; [done|]. split; [exact Hok|]. split; [done|].
    split. { rewrite (write_atomic_frame _ _ _ _ _ _ E) by done. apply lookup_insert_eq. }
    split; [done|]. split; [by apply load_kept|].
    split. { rewrite rules_text_eq, lines_kept, omap_strip_cr; [done| |done].
             intros l. unfold line_rule. by rewrite parse_line_cr. }
    intros q ???. rewrite (write_atomic_frame _ _ _ _ _ _ E) by done. by apply lookup_insert_ne.
  - injection Hrun as <- <- <-. exists text. unfold fs1. rewrite no_hits by lia.
    rewrite lookup_insert_eq, lookup_insert_ne by done. split_and!; try done.
    intros q ???. by apply lookup_insert_ne.
Qed.
End edits.

(** ** Removing one rule *)

Lemma remove_hit_same k v l r :
  is_kind k = true -> line_rule l = Some r -> remove_hit k (normalise k v) l = same_rule k (normalise k v) r.
Proof.
  unfold line_rule, remove_hit, same_rule. destruct (parse_line l) as [[[k' v'] c]|]; [|done].
  destruct (is_kind k'); [|done]. by intros _ [= <-].
Qed.

Lemma remove_hit_none k w l : is_kind k = true -> line_rule l = None -> remove_hit k w l = false.
Proof.
  unfold line_rule, remove_hit. destruct (parse_line l) as [[[k' v'] c]|]; [|done].
  destruct (is_kind k') eqn:E; [done|]. intros Hk _.
  rewrite str_eqb_neq; [done|]. intros ->. congruence.
Qed.

(** C37. [remove_rule]: when it succeeds, the rules left are exactly those that are not the
    named rule (compared by canonical spelling), in their order; the number it returns is
    the number of rules that went; nothing is written when that number is zero; every
    line that is not the rule is still there; and no file but the policy and its
    temporary is touched. *)
Theorem remove_rule_removes `{Io} (fs : Fs) path text k v fs' n :
  is_kind k = true -> read_ok path = true ->
  fs !! path = Some text ->
  remove_rule fs path k v = (fs', IoOk n) ->
  rules fs' path = filter (fun r => same_rule k (normalise k v) r = false) (rules fs path)
  /\ n = length (filter (fun r => same_rule k (normalise k v) r = true) (rules fs path))
  /\ (n = 0%nat -> fs' = fs)
  /\ ((0 < n)%nat -> exists text', fs' !! path = Some text'
        /\ lines text' = map strip_cr (filter (fun l => remove_hit k (normalise k v) l = false) (lines text)))
  /\ (forall q, q <> path -> q <> tmp_path path -> fs' !! q = fs !! q).
Proof.
  intros Hk Hr Ht Hrun. pose proof (fun q => remove_rule_frame fs path k v fs' _ q Hrun) as Hframe.
  unfold remove_rule, read_to_string in Hrun. rewrite Hr, Ht, drop_lines_eq in Hrun.
  unfold rules, read_to_string. rewrite Hr, Ht.
  set (hit := remove_hit k (normalise k v)) in *. set (same := same_rule k (normalise k v)) in *.
  assert (Hsame : forall l r, line_rule l = Some r -> hit l = same r)
    by (intros; by apply remove_hit_same).
  assert (Hcr : forall l, hit (strip_cr l) = hit l) by (intros; apply remove_hit_cr).
  assert (Hlen : length (hit_lines hit text) = length (filter (fun r => same r = true) (rules_text text))).
  { apply omap_hits_length; [done|]. intros l. by apply remove_hit_none. }
  destruct (Nat.ltb_spec 0 (length (hit_lines hit text))) as [Hn|Hn].
  - destruct (write_atomic fs path _) as [fs1 ok] eqn:E. destruct ok; [|done]. injection Hrun as <- <-.
    apply write_atomic_ok in E. rewrite E. split; [by apply rules_kept|]. split; [done|].
    split; [lia|]. split; [|done]. intros _. eexists. split; [done|]. by apply lines_kept.
  - injection Hrun as <- <-. rewrite Ht. split; [|split_and!; by (done || lia)].
    rewrite rules_text_eq, <- omap_filter_eq with (b := hit) by done.
    fold (kept_lines hit text). by rewrite no_hits by lia.
Qed.

(** ** Clearing every rule *)

(** The settings of a policy, with every rule and identity gone. *)
Definition settings_only (p : Policy) : Policy :=
  mk_policy (p_default p) ∅ ∅ ∅ ∅ ∅ ∅ ∅ ∅ ∅ ∅ (prompt p) ∅ (p_mode p) (p_attribution p).

Lemma settings_rule c p : rule_change c = true -> settings_only (apply_change c p) = settings_only p.
Proof. split_policy p. by destruct c. Qed.
Lemma settings_setting c p :
  rule_change c = false -> settings_only (apply_change c p) = apply_change c (settings_only p).
Proof. split_policy p. by destruct c. Qed.

(** A line that is only a keyword (which [load] takes with an empty value, and the
    editing commands do not see). *)
Definition bare_keyword (l : str) : Prop := parse_line l = None /\ is_Some (line_change l).

Lemma rule_hit_change l c :
  ~ bare_keyword l -> line_change l = Some c -> rule_change c = rule_hit l.
Proof.
  intros Hb Hc. unfold rule_hit. destruct (parse_line l) as [[[k v] cm]|] eqn:E.
  - rewrite (line_change_parse _ _ _ _ E) in Hc. by apply directive_facts in Hc as [_ ->].
  - destruct Hb. unfold bare_keyword. by rewrite Hc.
Qed.

Lemma fold_settings ls p :
  Forall (fun l => ~ bare_keyword l) ls ->
  settings_only (foldl load_line p ls)
  = foldl load_line (settings_only p) (filter (fun l => rule_hit l = false) ls).
Proof.
  intros Hb. revert p. induction Hb as [|l ls Hl _ IH]; intros p; [done|]. rewrite filter_cons.
  cbn [foldl]. rewrite IH. destruct (rule_hit l) eqn:E.
  - rewrite decide_False by done. f_equal. unfold load_line.
    destruct (line_change l) as [c|] eqn:Ec; [|done].
    apply settings_rule. by rewrite (rule_hit_change l c Hl Ec).
  - rewrite decide_True by done. cbn [foldl]. f_equal. unfold load_line.
    destruct (line_change l) as [c|] eqn:Ec; [|done].
    apply settings_setting. by rewrite (rule_hit_change l c Hl Ec).
Qed.

(** [clear_rules]: when it succeeds the file lists no rule any more, and a daemon
    that reads it has exactly the settings it had (default, mode, prompt, attribution)
    with every rule and identity gone; the backup holds the file as it was. *)
Theorem clear_rules_clears `{Io} (fs : Fs) path fs' n bak :
  read_ok path = true ->
  Forall (fun l => ~ bare_keyword l) (lines (default [] (fs !! path))) ->
  clear_rules fs path = (fs', IoOk (n, bak)) ->
  rules fs' path = []
  /\ load fs' path = settings_only (load fs path)
  /\ bak = bak_path path /\ fs' !! bak = fs !! path
  /\ (forall q, q <> path -> q <> tmp_path path -> q <> bak -> fs' !! q = fs !! q).
Proof.
  intros Hr Hb Hrun.
  apply drop_with_backup_ok in Hrun as (text & text' & Ht & Ht' & -> & Hbak & _ & Hload & Hrules & Hf);
    [|apply rule_hit_cr|done].
  unfold rules, load, read_to_string. rewrite Hr, Ht', Ht, Hload, Hrules, Hbak.
  rewrite Ht in Hb. cbn in Hb. split_and!; try done.
  - apply omap_none. unfold kept_lines. intros l [Hl _]%list_elem_of_filter.
    unfold rule_hit in Hl. unfold line_rule. destruct (parse_line l) as [[[k v] c]|]; [|done].
    apply orb_false_iff in Hl as [-> _]. done.
  - unfold load_text. by rewrite (fold_settings (lines text) fresh_policy).
Qed.

(** ** Removing a binary *)

(** The decision of two policies about one connection rests on the same facts. *)
Definition same_basis (exe : option str) (dst : IpAddr) (host : option str) (dport : Z)
  (p q : Policy) : Prop :=
  denies_b p exe dst host dport = denies_b q exe dst host dport
  /\ allows_b p exe dst host dport = allows_b q exe dst host dport
  /\ p_default p = p_default q.

Lemma same_basis_decide exe dst host dport p q :
  same_basis exe dst host dport p q ->
  decide_verdict p exe dst host dport = decide_verdict q exe dst host dport.
Proof. intros (H1 & H2 & H3). by rewrite !decide_verdict_eq, H1, H2, H3. Qed.

Lemma no_rule {A} `{Countable A} (f : A -> bool) : set_any f ∅ = false.
Proof. by apply set_any_false. Qed.
Lemma no_host_rule e h dport : scoped_host_hit ∅ e h dport = false.
Proof. apply no_rule. Qed.
Lemma no_dest_rule e dst dport : scoped_dest_hit ∅ e dst dport = false.
Proof. apply no_rule. Qed.
Lemma no_host h dport : host_matches ∅ h dport = false.
Proof. apply no_rule. Qed.
Lemma no_dest dst dport : dest_matches ∅ dst dport = false.
Proof. apply no_rule. Qed.
Lemma no_app (e : str) (d : Decision (e ∈ (∅ : gset str))) : @bool_decide _ d = false.
Proof. by apply bool_decide_eq_false_2. Qed.

Lemma denies_b_apply c p exe dst host dport :
  denies_b (apply_change c p) exe dst host dport
  = denies_b (apply_change c fresh_policy) exe dst host dport || denies_b p exe dst host dport.
Proof.
  split_policy p. unfold denies_b, covered_b, fresh_policy.
  destruct c as [v|e|e|h o|h o|a o|a o|e h o|e a o|e h o|e a o|s|e s|m|a];
    cbn [apply_change deny_host_from deny_dest_from deny_app deny_host deny_dest];
    destruct exe as [x|], host as [hh|]; cbn [opt_any];
    rewrite ?scoped_host_hit_add, ?scoped_dest_hit_add, ?host_matches_add, ?dest_matches_add, ?app_add;
    rewrite ?no_host_rule, ?no_dest_rule, ?no_host, ?no_dest, ?no_app; btauto.
Qed.

Lemma allows_b_apply c p exe dst host dport :
  allows_b (apply_change c p) exe dst host dport
  = allows_b (apply_change c fresh_policy) exe dst host dport || allows_b p exe dst host dport.
Proof.
  split_policy p. unfold allows_b, covered_b, fresh_policy.
  destruct c as [v|e|e|h o|h o|a o|a o|e h o|e a o|e h o|e a o|s|e s|m|a];
    cbn [apply_change allow_host_from allow_dest_from allow_app allow_host allow_dest];
    destruct exe as [x|], host as [hh|]; cbn [opt_any];
    rewrite ?scoped_host_hit_add, ?scoped_dest_hit_add, ?host_matches_add, ?dest_matches_add, ?app_add;
    rewrite ?no_host_rule, ?no_dest_rule, ?no_host, ?no_dest, ?no_app; btauto.
Qed.

Lemma same_basis_change exe dst host dport c p q :
  same_basis exe dst host dport p q ->
  same_basis exe dst host dport (apply_change c p) (apply_change c q).
Proof.
  intros (H1 & H2 & H3). unfold same_basis. rewrite !(denies_b_apply c p), !(denies_b_apply c q),
    !(allows_b_apply c p), !(allows_b_apply c q), H1, H2. split_and!; try done.
  destruct p, q. by destruct c.
Qed.

Lemma same_basis_other exe dst host dport c p q x :
  change_owner c = Some x -> exe <> Some x ->
  same_basis exe dst host dport p q -> same_basis exe dst host dport (apply_change c p) q.
Proof.
  intros Hc Hx (H1 & H2 & H3). destruct (decide (change_app c = Some x)) as [Ha|Ha].
  - destruct (covered_b_out_of_scope c p exe dst host dport) as (E1 & E2 & E3).
    { left. exists x. done. }
    unfold same_basis. by rewrite E1, E2, E3.
  - split_policy p. by destruct c.
Qed.

Lemma app_id_change c p e :
  change_owner c <> Some e -> app_id (apply_change c p) !! e = app_id p !! e.
Proof.
  split_policy p. destruct c; try done. cbn. intros Hn. apply lookup_insert_ne. congruence.
Qed.

Lemma app_id_same_change c p q e :
  app_id p !! e = app_id q !! e -> app_id (apply_change c p) !! e = app_id (apply_change c q) !! e.
Proof.
  destruct p, q. destruct c as [| | | | | | | | | | | |e' s| |]; try done. cbn.
  intros E. destruct (decide (e' = e)) as [->|]; [by rewrite !lookup_insert_eq|].
  by rewrite !lookup_insert_ne.
Qed.

(** The directives of the lines [remove_app] drops are those owned by the binary. *)
Lemma app_hit_owner exe l k v cm c :
  parse_line l = Some (k, v, cm) -> directive k v = Some c ->
  app_hit exe l = bool_decide (change_owner c = Some exe).
Proof.
  intros Hp [-> _]%directive_facts. unfold app_hit, line_owner. rewrite Hp.
  destruct (one_of k [_; _]); [apply bool_decide_ext; naive_solver|].
  destruct (one_of k _); [|by rewrite bool_decide_eq_false_2].
  destruct (split_scoped v) as [[d e]|]; cbn; [|by rewrite bool_decide_eq_false_2].
  apply bool_decide_ext. naive_solver.
Qed.

Lemma app_hit_change exe l c :
  app_hit exe l = true -> line_change l = Some c -> change_owner c = Some exe.
Proof.
  intros Hh Hc. destruct (parse_line l) as [[[k v] cm]|] eqn:E.
  - rewrite (line_change_parse _ _ _ _ E) in Hc. rewrite (app_hit_owner _ _ _ _ _ _ E Hc) in Hh.
    by apply bool_decide_eq_true in Hh.
  - unfold app_hit in Hh. by rewrite E in Hh.
Qed.

(** The rule names this binary. *)
Definition rule_of (exe : str) (r : Rule) : bool :=
  bool_decide (line_owner (kind r) (value r) = Some exe).

Lemma app_hit_rule exe l r : line_rule l = Some r -> app_hit exe l = rule_of exe r.
Proof.
  unfold line_rule, app_hit, rule_of. destruct (parse_line l) as [[[k v] cm]|]; [|done].
  destruct (is_kind k); [|done]. intros [= <-]. cbn. unfold line_owner.
  destruct (one_of k [_; _]); [apply bool_decide_ext; naive_solver|].
  destruct (one_of k _); [|by rewrite bool_decide_eq_false_2].
  destruct (split_scoped v) as [[d e]|]; cbn; [|by rewrite bool_decide_eq_false_2].
  apply bool_decide_ext. naive_solver.
Qed.

Lemma kept_no_app_id exe ls p :
  exe <> [] -> app_id p !! exe = None ->
  app_id (foldl load_line p (filter (fun l => app_hit exe l = false) ls)) !! exe = None.
Proof.
  intros Hne. revert p. induction ls as [|l ls IH]; intros p Hp; [done|]. rewrite filter_cons.
  case_decide as Hl; [|by apply IH]. cbn [foldl]. apply IH. unfold load_line.
  destruct (line_change l) as [c|] eqn:Ec; [|done].
  destruct c as [| | | | | | | | | | | |e' s| |]; try by split_policy p.
  rewrite app_id_change; [done|]. cbn. intros [= ->].
  destruct (parse_line l) as [[[k v] cm]|] eqn:E.
  - rewrite (line_change_parse _ _ _ _ E) in Ec. rewrite (app_hit_owner _ _ _ _ _ _ E Ec) in Hl.
    by apply bool_decide_eq_false in Hl.
  - assert (Hb : exists k, line_change l = directive k []).
    { rewrite parse_line_eq in E. unfold line_change in Ec |- *. cbv zeta in E.
      case_bool_decide; [done|]. destruct (split_ws _) as [k rest].
      case_bool_decide as Hv; [|done]. rewrite Hv. by exists k. }
    destruct Hb as [k Hb]. rewrite Ec in Hb. symmetry in Hb. apply directive_facts in Hb as [Hb _].
    cbn in Hb. unfold line_owner in Hb. repeat case_match; try done. by injection Hb as ->.
Qed.

(** [remove_app]: when it succeeds, no rule of the binary is left and every other rule
    is, in order; no identity is expected of it any more and every other binary's is
    kept; and every decision about another binary, or an unattributed connection, is the
    one the daemon made before. *)
Theorem remove_app_frame `{Io} (fs : Fs) path exe fs' n bak :
  read_ok path = true -> exe <> [] ->
  remove_app fs path exe = (fs', IoOk (n, bak)) ->
  rules fs' path = filter (fun r => rule_of exe r = false) (rules fs path)
  /\ expected_id (load fs' path) exe = None
  /\ (forall other, other <> exe -> expected_id (load fs' path) other = expected_id (load fs path) other)
  /\ (forall who dst host dport, who <> Some exe ->
        decide_verdict (load fs' path) who dst host dport = decide_verdict (load fs path) who dst host dport)
  /\ fs' !! bak = fs !! path.
Proof.
  intros Hr Hne Hrun.
  apply drop_with_backup_ok in Hrun as (text & text' & Ht & Ht' & -> & Hbak & _ & Hload & Hrules & _);
    [|apply app_hit_cr|done].
  unfold rules, load, read_to_string, expected_id. rewrite Hr, Ht', Ht, Hload, Hrules, Hbak.
  unfold kept_lines. split_and!; try done.
  - rewrite rules_text_eq. apply omap_filter_eq. intros. by apply app_hit_rule.
  - by apply kept_no_app_id.
  - intros other Ho. symmetry.
    apply (fold_kept (fun p q => app_id p !! other = app_id q !! other) (app_hit exe)); [| |done];
      intros l p q Hl Hpq; unfold load_line; destruct (line_change l) as [c|] eqn:Ec; try done.
    + rewrite app_id_change; [done|]. rewrite (app_hit_change _ _ _ Hl Ec). congruence.
    + by apply app_id_same_change.
  - intros who dst host dport Hw. symmetry. apply same_basis_decide.
    apply (fold_kept (same_basis who dst host dport) (app_hit exe)); [| |done];
      intros l p q Hl Hpq; unfold load_line; destruct (line_change l) as [c|] eqn:Ec; try done.
    + eapply same_basis_other; [by eapply app_hit_change|done|done].
    + by apply same_basis_change.
Qed.

(** ** Writing a setting *)

(** The loop of [set_directive], as lines: what comes out after a setting was written,
    and before. *)
Definition dropped (key : str) (ls : list str) : list str := filter (fun l => is_key key l = false) ls.
Fixpoint placed (key new : str) (ls : list str) : list str :=
  match ls with
  | [] => [new]
  | l :: ls' => if is_key key l then new :: dropped key ls' else l :: placed key new ls'
  end.

Lemma set_directive_lines key value text :
  set_directive_text key value text = unlines (placed key (key ++ [32] ++ value) (lines text)).
Proof.
  unfold set_directive_text. set (new := key ++ [32] ++ value).
  replace (key ++ [32] ++ value ++ [10]) with (new ++ [10]) by (unfold new; by rewrite <- !app_assoc).
  assert (Hw : forall ls out, foldl (fun '(out, written) raw =>
             if is_key key raw then ((if written : bool then out else out ++ new ++ [10]), true)
             else (out ++ raw ++ [10], written)) (out, true) ls
          = (out ++ unlines (dropped key ls), true)).
  { induction ls as [|l ls IH]; intros out; cbn [foldl]; [cbn; by rewrite app_nil_r|].
    unfold dropped. rewrite filter_cons. destruct (is_key key l); rewrite IH.
    - by rewrite decide_False.
    - rewrite decide_True by done.
      change (unlines (l :: ?x)) with ((l ++ [10]) ++ unlines x). by rewrite <- !app_assoc. }
  assert (G : forall ls out, (let '(out, written) :=
      foldl (fun '(out, written) raw =>
             if is_key key raw then ((if written : bool then out else out ++ new ++ [10]), true)
             else (out ++ raw ++ [10], written)) (out, false) ls in
      if written then out else out ++ new ++ [10]) = out ++ unlines (placed key new ls)).
  { induction ls as [|l ls IH]; intros out; cbn [foldl placed]; [cbn; by rewrite app_nil_r|].
    destruct (is_key key l).
    - rewrite Hw. change (unlines (new :: ?x)) with ((new ++ [10]) ++ unlines x).
      by rewrite <- !app_assoc.
    - rewrite IH. change (unlines (l :: ?x)) with ((l ++ [10]) ++ unlines x).
      by rewrite <- !app_assoc. }
  apply (G (lines text) []).
Qed.

Section setting.
Context (key value : str) (c : change).
Hypothesis key_word : word_ok key.
Hypothesis value_word : exe_ok value.
Hypothesis new_line : directive key value = Some c.
Hypothesis key_lines : forall v c' p,
  directive key v = Some c' -> apply_change c (apply_change c' p) = apply_change c p.
Hypothesis other_lines : forall k v c' p, k <> key ->
  directive k v = Some c' -> apply_change c (apply_change c' p) = apply_change c' (apply_change c p).
Hypothesis bare : directive key [] = None.

Lemma setting_key_line l p :
  is_key key l = true -> apply_change c (load_line p l) = apply_change c p.
Proof using key_lines.
  unfold is_key, load_line. destruct (parse_line l) as [[[k v] cm]|] eqn:E; [|done].
  intros ->%str_eqb_eq. rewrite (line_change_parse _ _ _ _ E).
  destruct (directive key v) eqn:Ed; [|done]. by eapply key_lines.
Qed.

Lemma line_change_cases l c' :
  line_change l = Some c' ->
  exists k v, directive k v = Some c' /\ (v = [] \/ exists cm, parse_line l = Some (k, v, cm)).
Proof using.
  unfold line_change. rewrite parse_line_eq. cbv zeta. case_bool_decide; [done|].
  destruct (split_ws _) as [k rest]. intros Hd. exists k, (trim (default [] rest)). split; [done|].
  case_bool_decide; [by left|right]. eauto.
Qed.

Lemma setting_other_line l p :
  is_key key l = false -> load_line (apply_change c p) l = apply_change c (load_line p l).
Proof using other_lines bare.
  unfold is_key, load_line. intros Hk. destruct (line_change l) as [c'|] eqn:E; [|done].
  destruct (line_change_cases l c' E) as (k & v & Hd & Hv). symmetry. eapply other_lines; [|exact Hd].
  intros ->. destruct Hv as [->|[cm Hv]]; [congruence|]. rewrite Hv, str_eqb_refl in Hk. done.
Qed.

Lemma load_dropped ls p :
  foldl load_line (apply_change c p) (dropped key ls) = apply_change c (foldl load_line p ls).
Proof using key_lines other_lines bare.
  revert p. induction ls as [|l ls IH]; intros p; [done|]. unfold dropped. rewrite filter_cons.
  cbn [foldl]. destruct (is_key key l) eqn:E.
  - rewrite decide_False by done. by rewrite <- (setting_key_line l p E), IH.
  - rewrite decide_True by done. cbn [foldl]. by rewrite setting_other_line, IH.
Qed.

Lemma load_placed ls p :
  foldl load_line p (placed key (key ++ [32] ++ value) ls) = apply_change c (foldl load_line p ls).
Proof using key_word value_word new_line key_lines other_lines bare.
  assert (Hnew : forall q, load_line q (key ++ [32] ++ value) = apply_change c q).
  { intros q. unfold load_line.
    destruct (parse_rule_line key value None key_word value_word) as [_ E].
    unfold rule_line in E. by rewrite E, new_line. }
  revert p. induction ls as [|l ls IH]; intros p; cbn [placed foldl]; [by rewrite Hnew|].
  destruct (is_key key l) eqn:E; cbn [foldl].
  - by rewrite Hnew, <- (setting_key_line l p E), load_dropped.
  - by rewrite IH.
Qed.
End setting.

Lemma placed_lacks key value ls :
  word_ok key -> exe_ok value -> Forall (fun l => lacks 10 l) ls ->
  Forall (fun l => lacks 10 l) (placed key (key ++ [32] ++ value) ls).
Proof.
  intros Hk Hv. pose proof (rule_line_lacks key value None Hk Hv I) as Hnew. unfold rule_line in Hnew.
  induction 1 as [|l ls Hl Hls IH]; cbn [placed]; [by constructor|].
  destruct (is_key key l); constructor; try done. unfold dropped.
  apply Forall_forall. intros x [_ Hx]%list_elem_of_filter. by eapply Forall_forall in Hls.
Qed.

Lemma placed_rules key value ls :
  word_ok key -> exe_ok value -> is_kind key = false ->
  omap line_rule (placed key (key ++ [32] ++ value) ls) = omap line_rule ls.
Proof.
  intros Hk Hv Hkind.
  assert (Hnew : line_rule (key ++ [32] ++ value) = None).
  { unfold line_rule. destruct (parse_rule_line key value None Hk Hv) as [E _].
    unfold rule_line in E. by rewrite E, Hkind. }
  assert (Hold : forall l, is_key key l = true -> line_rule l = None).
  { intros l. unfold is_key, line_rule. destruct (parse_line l) as [[[k v] cm]|]; [|done].
    by intros ->%str_eqb_eq; rewrite Hkind. }
  assert (Hdrop : forall ls, omap line_rule (dropped key ls) = omap line_rule ls).
  { unfold dropped. clear ls. induction ls as [|l ls IH]; [done|]. rewrite filter_cons.
    cbn [omap list_omap]. destruct (is_key key l) eqn:E.
    - rewrite decide_False by done. by rewrite (Hold l E).
    - rewrite decide_True by done. cbn [omap list_omap]. by rewrite IH. }
  induction ls as [|l ls IH]; cbn [placed omap list_omap]; [by rewrite Hnew|].
  destruct (is_key key l) eqn:E; cbn [omap list_omap].
  - by rewrite Hnew, (Hold l E).
  - by rewrite IH.
Qed.

(** A directive other than [mode] never sets the mode, and likewise for [attribution]:
    writing the setting commutes with it. *)
Lemma mode_commutes k v c m p :
  k <> $"mode" -> directive k v = Some c ->
  apply_change (SetMode m) (apply_change c p) = apply_change c (apply_change (SetMode m) p).
Proof.
  intros Hk Hd. destruct c; try (destruct p; reflexivity). exfalso. unfold directive in Hd.
  repeat case_match; try done; directive_forms; congruence.
Qed.

Lemma attribution_commutes k v c a p :
  k <> $"attribution" -> directive k v = Some c ->
  apply_change (SetAttribution a) (apply_change c p) = apply_change c (apply_change (SetAttribution a) p).
Proof.
  intros Hk Hd. destruct c; try (destruct p; reflexivity). exfalso. unfold directive in Hd.
  repeat case_match; try done; directive_forms; congruence.
Qed.

Lemma word_ascii s : s <> [] -> forallb (fun c => (33 <=? c) && (c <=? 126) && negb (c =? 35)) s = true -> word_ok s.
Proof.
  intros Hne H. rewrite forallb_forall in H.
  split; [done|]. split; apply Forall_forall; intros c Hc%list_elem_of_In%H; bool_to_prop; [|done].
  by apply is_ws_printable.
Qed.

Lemma mode_word m : word_ok (mode_str m).
Proof. by destruct m; apply word_ascii. Qed.
Lemma attribution_word a : word_ok (attribution_str a).
Proof. by destruct a; apply word_ascii. Qed.

Lemma set_directive_ok `{Io} (fs : Fs) path key value fs' c :
  (forall ls p, foldl load_line p (placed key (key ++ [32] ++ value) ls) = apply_change c (foldl load_line p ls)) ->
  word_ok key -> exe_ok value -> is_kind key = false -> read_ok path = true ->
  set_directive fs path key value = (fs', true) ->
  load fs' path = apply_change c (load fs path) /\ rules fs' path = rules fs path.
Proof.
  intros Hpl Hk Hv Hkind Hr Hset. unfold set_directive in Hset. apply write_atomic_ok in Hset.
  unfold load, rules, read_to_string in *. rewrite Hr in *. rewrite Hset, set_directive_lines.
  set (text := default [] (fs !! path)).
  assert (Hl : lines (unlines (placed key (key ++ [32] ++ value) (lines text)))
             = map strip_cr (placed key (key ++ [32] ++ value) (lines text))).
  { apply lines_unlines_cr, placed_lacks; try done. apply lines_lacks. }
  split.
  - unfold load_text at 1. rewrite Hl, load_lines_cr, Hpl. unfold text. by destruct (fs !! path).
  - rewrite rules_text_eq, Hl, omap_strip_cr, placed_rules by
      (done || (intros l; unfold line_rule; by rewrite parse_line_cr)).
    unfold text. by destruct (fs !! path).
Qed.

(** Writing a setting: after [set_mode] (or [set_attribution]) succeeds, a daemon that
    reads the file has the mode (the attribution) that was written and is otherwise
    configured exactly as before, whatever settings of that name the file held, and the
    rules listed are the same. *)
Theorem set_setting_load `{Io} (fs : Fs) path m a fs' :
  read_ok path = true ->
  (set_mode fs path m = (fs', true) ->
     load fs' path = apply_change (SetMode m) (load fs path) /\ rules fs' path = rules fs path)
  /\ (set_attribution fs path a = (fs', true) ->
     load fs' path = apply_change (SetAttribution a) (load fs path) /\ rules fs' path = rules fs path).
Proof.
  intros Hr. split; intros Hset; (eapply set_directive_ok; [| | | |done|exact Hset]).
  - apply load_placed.
    + by apply word_ascii.
    + apply word_exe_ok, mode_word.
    + by destruct m.
    + intros v c' p Hd. change (SetMode <$> parse_mode v = Some c') in Hd.
      apply fmap_Some in Hd as (m' & _ & ->). by destruct p.
    + intros k v c' p. apply mode_commutes.
    + done.
  - by apply word_ascii.
  - apply word_exe_ok, mode_word.
  - done.
  - apply load_placed.
    + by apply word_ascii.
    + apply word_exe_ok, attribution_word.
    + by destruct a.
    + intros v c' p Hd. change (SetAttribution <$> parse_attribution v = Some c') in Hd.
      apply fmap_Some in Hd as (m' & _ & ->). by destruct p.
    + intros k v c' p. apply attribution_commutes.
    + done.
  - by apply word_ascii.
  - apply word_exe_ok, attribution_word.
  - done.
Qed.

(** ** Adding a rule *)

Lemma value_valid k v : is_kind k = true -> value_ok k v -> add_invalid k v = false.
Proof.
  intros Hk Hv. assert (Hip : forall d, dest_value d -> is_ip (split_target d).1 = true)
    by (intros d Hd; by apply bool_decide_eq_true).
  unfold add_invalid. rewrite Hk. cbn [negb orb]. apply is_kind_in in Hk. unfold KINDS in Hk.
  repeat (apply elem_of_cons in Hk as [-> | Hk]); try by apply not_elem_of_nil in Hk.
  all: try reflexivity.
  all: try (change (dest_value v) in Hv; apply Hip in Hv; change (negb (is_ip (split_target v).1) = false);
            by rewrite Hv).
  all: destruct Hv as (d & e & Es & _ & Hd); apply orb_false_iff; (split; [|reflexivity]);
    rewrite Es; try reflexivity; apply Hip in Hd; rewrite Hd; reflexivity.
Qed.

(** [add_rule]: a well-formed rule that the file does not hold yet is appended (to a
    file that is missing, empty or ends with a line feed) so that the file lists it last,
    in canonical spelling and with its note, a daemon that reads the file has exactly
    that rule more, and adding it again, with any note, changes nothing. *)
Theorem add_rule_adds `{Io} (fs : Fs) path k v note :
  read_ok path = true -> write_fault path = None ->
  nl_terminated (default [] (fs !! path)) ->
  is_kind k = true -> value_ok k v -> default True (lacks 10 <$> note) ->
  existsb (same_rule k (normalise k v)) (rules fs path) = false ->
  exists fs' c, add_rule fs path k v note = (fs', IoOk true)
    /\ directive k v = Some c
    /\ rules fs' path = rules fs path ++ [mk_rule k (normalise k v) (trim <$> note)]
    /\ load fs' path = apply_change c (load fs path)
    /\ (forall note', add_rule fs' path k v note' = (fs', IoOk false))
    /\ (forall q, q <> path -> fs' !! q = fs !! q).
Proof.
  intros Hr Hw Hnl Hk Hv Hn Hnew.
  destruct (normalise_facts k v Hk Hv) as (Hexe & Hidem & Hdir & [c Hc]).
  pose proof (value_valid k v Hk Hv) as Hval.
  set (text := default [] (fs !! path)) in *.
  destruct (append_rule text k (normalise k v) note Hnl Hk (kind_word k Hk) Hexe Hn) as [Hrules Hload].
  rewrite Hdir, Hc in Hload.
  set (new := text ++ rule_line k (normalise k v) note ++ [10]) in *.
  exists (<[path := new]> fs), c.
  assert (Hrules0 : rules fs path = rules_text text).
  { unfold rules, read_to_string, text. rewrite Hr. by destruct (fs !! path). }
  assert (Hrules' : rules (<[path := new]> fs) path = rules_text new).
  { unfold rules, read_to_string. by rewrite Hr, lookup_insert_eq. }
  assert (Hload' : load (<[path := new]> fs) path = load_text (Some new)).
  { unfold load, read_to_string. by rewrite Hr, lookup_insert_eq. }
  assert (Hload0 : load fs path = load_text (Some text)).
  { unfold load, read_to_string, text. rewrite Hr. by destruct (fs !! path). }
  split_and!; try done.
  - unfold add_rule, fs_append. by rewrite Hval, Hnew, Hw.
  - by rewrite Hrules', Hrules, Hrules0.
  - by rewrite Hload', Hload, Hload0.
  - intros note'. unfold add_rule. rewrite Hval, Hrules', Hrules, existsb_app. cbn [existsb].
    unfold same_rule at 2. cbn [kind value]. rewrite Hidem, !str_eqb_refl. cbn [andb orb].
    by rewrite orb_true_r.
  - intros q Hq. by apply lookup_insert_ne.
Qed.

(** ** Interrupted writes *)

Lemma write_atomic_content `{Io} (fs : Fs) path data fs' ok :
  ends_with $".conf.tmp" path = false -> write_atomic fs path data = (fs', ok) ->
  fs' !! path = if ok then Some data else fs !! path.
Proof.
  intros Hp%tmp_path_ne Hw. destruct ok; [by apply write_atomic_ok in Hw|].
  unfold write_atomic, fs_write, fs_rename in Hw.
  repeat case_match; simplify_eq; try done; by rewrite lookup_insert_ne.
Qed.

(** C38. Crash safety of every rewrite of the policy file, for any pattern of failing
    calls (the temporary cannot be opened, the write stops after any number of
    characters, the rename does not happen): when the rewrite did not complete the policy
    file still holds its old text, when it did it holds the whole new one, and no other
    file but the temporary (and the backup) changed.  A command that reports an error has
    not touched a rule. *)
Theorem rewrites_crash_safe `{Io} (fs : Fs) path :
  ends_with $".conf.tmp" path = false ->
  (forall data fs' ok, write_atomic fs path data = (fs', ok) ->
     fs' !! path = (if ok then Some data else fs !! path)
     /\ forall q, q <> path -> q <> tmp_path path -> fs' !! q = fs !! q)
  /\ (forall key value fs', set_directive fs path key value = (fs', false) -> fs' !! path = fs !! path)
  /\ (forall k v fs', remove_rule fs path k v = (fs', IoErr) -> fs' !! path = fs !! path)
  /\ (forall exe fs', remove_app fs path exe = (fs', IoErr) -> fs' !! path = fs !! path)
  /\ (forall fs', clear_rules fs path = (fs', IoErr) -> fs' !! path = fs !! path).
Proof.
  intros Hp.
  assert (Hd : forall hit fs', drop_with_backup hit fs path = (fs', IoErr) -> fs' !! path = fs !! path).
  { intros hit fs' Hd. unfold drop_with_backup, fs_write in Hd. destruct (bak_ne path) as [Hb _].
    destruct (read_to_string fs path); [|by simplify_eq].
    destruct (write_fault _) as [[n|]|]; cbn [negb] in Hd; simplify_eq;
      [by rewrite lookup_insert_ne|done|].
    destruct (drop_lines _ _) as [kept n]. destruct (0 <? n)%nat; [|done].
    destruct (write_atomic _ _ _) as [fs2 ok] eqn:E. destruct ok; [done|]. simplify_eq.
    rewrite (write_atomic_content _ _ _ _ _ Hp E). by apply lookup_insert_ne. }
  split_and!.
  - intros data fs' ok Hw. split; [by apply write_atomic_content|].
    intros q Hq Ht. by eapply write_atomic_frame.
  - intros key value fs' Hw. by apply (write_atomic_content _ _ _ _ _ Hp Hw).
  - intros k v fs' Hw. unfold remove_rule in Hw. destruct (read_to_string fs path); [|by simplify_eq].
    destruct (drop_lines _ _) as [kept n]. destruct (0 <? n)%nat; [|done].
    destruct (write_atomic _ _ _) as [fs2 ok] eqn:E. destruct ok; [done|]. simplify_eq.
    by apply (write_atomic_content _ _ _ _ _ Hp E).
  - intros exe fs'. apply Hd.
  - intros fs'. apply Hd.
Qed.

(** ** A concrete file, for the witnesses *)

Definition conf : str := $"/etc/policy.conf".
Definition conf_lines : list str :=
  [$"# rules"; $"mode visibility"; $"allow-host Example.com:443 # note";
           $"deny-app /usr/local/bin/otherapp"; $"allow-dest-from 1.1.1.1:53 /usr/local/bin/someapp"].
Definition conf_text : str := unlines conf_lines.
Definition conf_fs : Fs := {[conf := conf_text]}.

Lemma conf_nl : nl_terminated (default [] (conf_fs !! conf)).
Proof. exact (unlines_nl conf_lines). Qed.

Lemma remove_rule_removes_witness :
  let r := @remove_rule io_fine conf_fs conf $"allow-host" $"EXAMPLE.com:443" in
  @rules io_fine r.1 conf
  = filter (fun x => same_rule $"allow-host" (normalise $"allow-host" $"EXAMPLE.com:443") x = false)
      (@rules io_fine conf_fs conf).
Proof.
  intros r. refine (proj1 (@remove_rule_removes io_fine conf_fs conf conf_text $"allow-host"
    $"EXAMPLE.com:443" r.1 1%nat _ _ _ _)); vm_compute; reflexivity.
Defined.

Lemma conf_no_bare : Forall (fun l => ~ bare_keyword l) (lines (default [] (conf_fs !! conf))).
Proof.
  assert (E : Forall (fun l => bool_decide (line_change l = None) || bool_decide (is_Some (parse_line l)) = true)
                (lines (default [] (conf_fs !! conf)))).
  { repeat (constructor; [vm_compute; reflexivity|]). constructor. }
  eapply Forall_impl; [exact E|]. intros l [H%bool_decide_eq_true|H%bool_decide_eq_true]%orb_true_iff [H1 H2].
  - rewrite H in H2. by destruct H2.
  - rewrite H1 in H. by destruct H.
Qed.

Lemma clear_rules_clears_witness :
  @rules io_fine (@clear_rules io_fine conf_fs conf).1 conf = [].
Proof.
  refine (proj1 (@clear_rules_clears io_fine conf_fs conf (@clear_rules io_fine conf_fs conf).1
    3%nat (bak_path conf) _ conf_no_bare _)); vm_compute; reflexivity.
Defined.

Lemma remove_app_frame_witness :
  @expected_id (@load io_fine (@remove_app io_fine conf_fs conf app1).1 conf) app1 = None.
Proof.
  refine (proj1 (proj2 (@remove_app_frame io_fine conf_fs conf app1
    (@remove_app io_fine conf_fs conf app1).1 1%nat (bak_path conf) _ _ _)));
    [reflexivity | discriminate | vm_compute; reflexivity].
Defined.

Lemma set_setting_load_witness :
  @load io_fine (@set_mode io_fine conf_fs conf Enforcement).1 conf
  = apply_change (SetMode Enforcement) (@load io_fine conf_fs conf).
Proof.
  refine (proj1 (proj1 (@set_setting_load io_fine conf_fs conf Enforcement Kernel
    (@set_mode io_fine conf_fs conf Enforcement).1 _) _)); vm_compute; reflexivity.
Defined.

Lemma add_rule_adds_witness :
  exists fs' c, @add_rule io_fine conf_fs conf $"deny-dest" $"[2606:4700::1111]:853" (Some $"dns") = (fs', IoOk true)
    /\ directive $"deny-dest" $"[2606:4700::1111]:853" = Some c
    /\ @load io_fine fs' conf = apply_change c (@load io_fine conf_fs conf).
Proof.
  destruct (@add_rule_adds io_fine conf_fs conf $"deny-dest" $"[2606:4700::1111]:853" (Some $"dns"))
    as (fs' & c & H1 & H2 & _ & H3 & _); [..|by exists fs', c].
  - reflexivity.
  - reflexivity.
  - apply conf_nl.
  - reflexivity.
  - exists (V6 50543257672059871404715951523469725969). vm_compute. reflexivity.
  - change (lacks 10 $"dns"). vm_compute. repeat (constructor; [discriminate|]). constructor.
  - vm_compute. reflexivity.
Defined.

Lemma rewrites_crash_safe_witness :
  (@set_mode (Build_Io (fun _ => true) (fun _ => Some (Some 7%nat)) (fun _ _ => true)) conf_fs conf Enforcement).1 !! conf
  = Some conf_text.
Proof.
  set (io := Build_Io (fun _ => true) (fun _ => Some (Some 7%nat)) (fun _ _ => true)).
  refine (eq_trans (proj1 (proj2 (@rewrites_crash_safe io conf_fs conf _)) $"mode" $"enforcement" _ _) _);
    vm_compute; reflexivity.
Defined.
