(* ===== verification/PolicyRecord.v ===== *)
(** Persisting an answer or an observation (policy.rs [record], [record_id], [forget_id]):
    the change of the policy in memory and the line appended to the file. *)
From S2P Require Import Prelude Unicode RustStr IpAddr Target Policy PolicyFile RuleText PolicyEdit.

(** Who decided: a person, or visibility mode. *)
Inductive Origin : Type := Approved | Learned.

#[export] Instance origin_eq_dec : EqDecision Origin.
Proof. solve_decision. Defined.

(** [Origin::adjective] *)
Definition adjective (o : Origin) : str :=
  match o with Approved => $"approved" | Learned => $"learned" end.

(** [!h.is_empty() && h != "-"] *)
Definition usable_host (h : str) : bool := negb (bool_decide (h = [])) && negb (str_eqb h $"-").

(** The name to write the rule for, when there is one. *)
Definition named (host : option str) : option str :=
  match host with Some h => if usable_host h then Some h else None | None => None end.

(** The change and the line of an answer; [None] where the code returns early. *)
Definition record_entry (ans : Answer) (exe : option str) (dst : IpAddr) (host : option str)
  (dport : Z) (origin : Origin) : option (change * str) :=
  let port := Some dport in
  match ans with
  | AllowConn =>
      Some match exe, named host with
           | Some e, Some h =>
               (AddAllowHostFrom e (to_lowercase h) port,
                $"allow-host-from" ++ [32] ++ join_target h port ++ [9] ++ e ++ $"	# " ++ adjective origin
                ++ $" for this app")
           | Some e, None =>
               (AddAllowDestFrom e dst port,
                $"allow-dest-from" ++ [32] ++ join_target (show_ip dst) port ++ [9] ++ e
                ++ $"	# " ++ $"no hostname seen; " ++ adjective origin ++ $" for this app")
           | None, Some h =>
               (AddAllowHost (to_lowercase h) port,
                $"allow-host" ++ [32] ++ join_target h port ++ $"	# " ++ adjective origin
                ++ $"; unattributed connection")
           | None, None =>
               (AddAllowDest dst port,
                $"allow-dest" ++ [32] ++ join_target (show_ip dst) port ++ $"	# " ++ adjective origin
                ++ $"; unattributed, no hostname seen")
           end
  | AllowApp =>
      match exe with
      | Some e => Some (AddAllowApp e, $"allow-app" ++ [32] ++ e)
      | None => None
      end
  | Block =>
      Some match exe, named host with
           | Some e, Some h =>
               (AddDenyHostFrom e (to_lowercase h) port,
                $"deny-host-from" ++ [32] ++ join_target h port ++ [9] ++ e
                ++ $"	# " ++ $"blocked for this app only")
           | Some e, None =>
               (AddDenyDestFrom e dst port,
                $"deny-dest-from" ++ [32] ++ join_target (show_ip dst) port ++ [9] ++ e
                ++ $"	# " ++ $"no hostname seen; blocked for this app only")
           | None, Some h =>
               (AddDenyHost (to_lowercase h) port,
                $"deny-host" ++ [32] ++ join_target h port
                ++ $"	# " ++ $"unattributed connection; blocked for every application")
           | None, None =>
               (AddDenyDest dst port,
                $"deny-dest" ++ [32] ++ join_target (show_ip dst) port
                ++ $"	# " ++ $"unattributed, no hostname seen; blocked for every application")
           end
  | BlockApp =>
      match exe with
      | Some e => Some (AddDenyApp e, $"deny-app" ++ [32] ++ e ++ $"	# " ++ $"every destination")
      | None => None
      end
  | Timeout => None
  end.

Section record.
Context `{Io}.

(** [record] *)
Definition record (p : Policy) (fs : Fs) (path : str) (ans : Answer) (exe : option str)
  (dst : IpAddr) (host : option str) (dport : Z) (origin : Origin) : Policy * Fs :=
  match record_entry ans exe dst host dport origin with
  | Some (c, line) => (apply_change c p, (fs_append fs path (line ++ [10])).1)
  | None => (p, fs)
  end.

(** [record_id] *)
Definition record_id (p : Policy) (fs : Fs) (path exe sha : str) : Policy * Fs :=
  match app_id p !! exe with
  | Some _ => (p, fs)
  | None =>
      (apply_change (SetAppId exe (to_lowercase sha)) p,
       (fs_append fs path ($"app-id" ++ [32] ++ sha ++ [9] ++ exe ++ $"	# identity when approved" ++ [10])).1)
  end.
End record.

(** [forget_id] *)
Definition forget_id (p : Policy) (exe : str) : Policy :=
  let '(mk_policy d aa da ah dh ad dd ahf adf dhf ddf pr ids m at_) := p in
  mk_policy d aa da ah dh ad dd ahf adf dhf ddf pr (delete exe ids) m at_.

(** ** The change covers the connection it answers *)

Lemma named_some host h : named host = Some h -> host = Some h.
Proof. unfold named. destruct host; [|done]. by case_match. Qed.

Lemma port_admits_self dport : port_admits (Some dport) dport = true.
Proof. apply Z.eqb_refl. Qed.
Lemma pattern_matches_self h : pattern_matches h h = true.
Proof. unfold pattern_matches. by rewrite str_eqb_refl. Qed.

Lemma some_pair {A B} (a c : A) (b d : B) : Some (a, b) = Some (c, d) -> c = a /\ d = b.
Proof. by intros [= -> ->]. Qed.

(** Each change of [record_entry] covers the connection it names. *)
Lemma change_covers p e h dst host dport x :
  allows_b (apply_change (AddAllowApp e) p) (Some e) dst host dport = true
  /\ denies_b (apply_change (AddDenyApp e) p) (Some e) dst host dport = true
  /\ allows_b (apply_change (AddAllowHostFrom e (to_lowercase h) (Some dport)) p) (Some e) dst (Some h) dport = true
  /\ denies_b (apply_change (AddDenyHostFrom e (to_lowercase h) (Some dport)) p) (Some e) dst (Some h) dport = true
  /\ allows_b (apply_change (AddAllowDestFrom e dst (Some dport)) p) (Some e) dst host dport = true
  /\ denies_b (apply_change (AddDenyDestFrom e dst (Some dport)) p) (Some e) dst host dport = true
  /\ allows_b (apply_change (AddAllowHost (to_lowercase h) (Some dport)) p) x dst (Some h) dport = true
  /\ denies_b (apply_change (AddDenyHost (to_lowercase h) (Some dport)) p) x dst (Some h) dport = true
  /\ allows_b (apply_change (AddAllowDest dst (Some dport)) p) x dst host dport = true
  /\ denies_b (apply_change (AddDenyDest dst (Some dport)) p) x dst host dport = true.
Proof.
  split_policy p. unfold allows_b, denies_b.
  cbn [apply_change deny_host_from deny_dest_from deny_app deny_host deny_dest allow_host_from
       allow_dest_from allow_app allow_host allow_dest]. cbv zeta.
  assert (Hin : forall {A} `{Countable A} (a : A) (s : gset A), a ∈ {[a]} ∪ s) by set_solver.
  split_and!; apply covered_b_spec.
  1,2: by eapply cov_app.
  1,2: eapply cov_host_from; [done|done|apply Hin|by right|by left].
  1,2: eapply cov_dest_from; [done|apply Hin|by right].
  1,2: eapply cov_host; [done|apply Hin|by right|by left].
  1,2: eapply cov_dest; [apply Hin|by right].
Qed.

Lemma record_covers ans exe dst host dport origin c line p :
  record_entry ans exe dst host dport origin = Some (c, line) ->
  (ans = AllowConn \/ ans = AllowApp ->
     allows_b (apply_change c p) exe dst host dport = true
     /\ denies_b (apply_change c p) exe dst host dport = denies_b p exe dst host dport)
  /\ (ans = Block \/ ans = BlockApp -> denies_b (apply_change c p) exe dst host dport = true).
Proof.
  intros Hc. unfold record_entry in Hc.
  destruct ans; (split; [intros Ha | intros Ha]); try (destruct Ha; discriminate).
  all: destruct exe as [e|]; try discriminate Hc.
  all: try (destruct (named host) as [h|] eqn:En; [apply named_some in En as ->|]).
  all: apply some_pair in Hc as [-> _]; try (split; [|by destruct p]).
  all: lazymatch goal with
       | |- _ ?x _ (Some ?h) _ = true =>
           try solve [apply (change_covers p (default [] x) h dst (Some h) dport x)]
       | |- _ ?x _ ?hh _ = true => try solve [apply (change_covers p (default [] x) [] dst hh dport x)]
       end.
  all: apply (change_covers p e [] dst host dport None).
Qed.

(** The answers that write something, and those that do not. *)
Lemma record_entry_writes ans exe dst host dport origin :
  (ans = Block \/ (ans = BlockApp /\ is_Some exe) \/ ans = AllowConn \/ (ans = AllowApp /\ is_Some exe) ->
     is_Some (record_entry ans exe dst host dport origin))
  /\ (ans = Timeout \/ ((ans = AllowApp \/ ans = BlockApp) /\ exe = None) ->
     record_entry ans exe dst host dport origin = None).
Proof.
  split.
  - intros [->|[[-> [e ->]]|[->|[-> [e ->]]]]]; eexists; reflexivity.
  - intros [->|[[->| ->] ->]]; reflexivity.
Qed.

(** An answer settles the connection it was given for: after a block the policy denies
    it; after an approval it allows it, unless a deny rule covers it, which still wins;
    and the connection is never asked about again.  An answer that can only be about a
    binary, given for an unattributed connection, and a timeout, change nothing: neither
    the policy nor the file. *)
Theorem record_settles `{Io} (p : Policy) (fs : Fs) path ans exe dst host dport origin p' fs' :
  record p fs path ans exe dst host dport origin = (p', fs') ->
  (ans = Block \/ (ans = BlockApp /\ is_Some exe) -> decide_verdict p' exe dst host dport = Deny)
  /\ (ans = AllowConn \/ (ans = AllowApp /\ is_Some exe) ->
      decide_verdict p' exe dst host dport
      = if denies_b p exe dst host dport then Deny else Allow)
  /\ (ans = Timeout \/ ((ans = AllowApp \/ ans = BlockApp) /\ exe = None) -> p' = p /\ fs' = fs).
Proof.
  intros Hr. unfold record in Hr. destruct (record_entry_writes ans exe dst host dport origin) as [Hw Hn].
  destruct (record_entry ans exe dst host dport origin) as [[c line]|] eqn:E.
  - apply pair_eq in Hr as [<- _]. destruct (record_covers _ _ _ _ _ _ _ _ p E) as [Ha Hb].
    rewrite !decide_verdict_eq. split; [|split].
    + intros Hans. rewrite Hb; [done|]. tauto.
    + intros Hans. destruct Ha as [-> ->]; [tauto|]. reflexivity.
    + intros Hans. discriminate (Hn Hans).
  - apply pair_eq in Hr as [<- <-]. split; [|split; [|done]];
      intros Hans; destruct Hw as [? [=]]; tauto.
Qed.

(** ** The line says the same as the change *)

(** The line is a rule line that [load] reads as the change. *)
Definition writes (c : change) (line : str) : Prop :=
  exists k v note, line = rule_line k v note /\ is_kind k = true /\ exe_ok v
    /\ default True (lacks 10 <$> note) /\ directive k v = Some c.

Lemma plain_entry k v note c :
  is_kind k = true -> exe_ok v -> directive k v = Some c -> lacks 10 note ->
  writes c (k ++ [32] ++ v ++ $"	# " ++ note).
Proof. intros. by exists k, v, (Some note). Qed.

(** A scoped value separated by a tab. *)
Lemma tab_value d e :
  word_ok d -> exe_ok e ->
  exe_ok (d ++ [9] ++ e) /\ forall f, scoped (d ++ [9] ++ e) f = f d e.
Proof.
  intros (Hd & Hdw & Hdh) (He & Het & Heh & Hel). split.
  - split; [by destruct d|]. split; [by apply trimmed_cat|].
    split; repeat apply lacks_app; try done; try by repeat constructor. by apply no_ws_lacks.
  - intros f. unfold scoped, split_scoped, split_ws.
    change (d ++ [9] ++ e) with (d ++ 9 :: e). rewrite break_on_app by done.
    rewrite trim_no_ws, trim_trimmed by done. by rewrite !bool_decide_eq_false_2 by done.
Qed.

Lemma scoped_entry k d e note f c :
  is_kind k = true -> word_ok d -> exe_ok e -> (forall v, directive k v = scoped v f) ->
  f d e = Some c -> lacks 10 note ->
  writes c (k ++ [32] ++ d ++ [9] ++ e ++ $"	# " ++ note).
Proof.
  intros Hk Hd He Hdir Hf Hn. destruct (tab_value d e Hd He) as [Hv Hs].
  exists k, (d ++ [9] ++ e), (Some note).
  split; [unfold rule_line; by rewrite <- !app_assoc|]. by rewrite Hdir, Hs.
Qed.

Lemma host_rule_join h p mk :
  clean_host h -> port_ok p -> host_rule (join_target h p) mk = Some (mk (to_lowercase h) p).
Proof. intros. unfold host_rule. by rewrite split_join_clean. Qed.
Lemma dest_rule_join a p mk :
  ip_ok a -> port_ok p -> dest_rule (join_target (show_ip a) p) mk = Some (mk a p).
Proof. intros. unfold dest_rule. rewrite split_join_ip by done. by rewrite parse_show_ip. Qed.

(** What a connection can be written down for: a binary path, a name and an address
    that fit on a line. *)
Definition recordable (exe : option str) (dst : IpAddr) (host : option str) (dport : Z) : Prop :=
  default True (exe_ok <$> exe) /\ default True (clean_host <$> named host)
  /\ ip_ok dst /\ 0 <= dport <= u16_max.

Lemma note_lacks (n : str) : forallb (fun c => negb (c =? 10)) n = true -> lacks 10 n.
Proof.
  intros H. apply Forall_forall. intros c Hc%list_elem_of_In. rewrite forallb_forall in H.
  apply H in Hc. bool_to_prop. done.
Qed.

Lemma record_line_change ans exe dst host dport origin c line :
  recordable exe dst host dport ->
  record_entry ans exe dst host dport origin = Some (c, line) -> writes c line.
Proof.
  intros (Hexe & Hhost & Hip & Hport) Hc. unfold record_entry in Hc.
  assert (Hd : word_ok (join_target (show_ip dst) (Some dport))) by (by apply join_ip_word).
  assert (Hh : forall h, named host = Some h -> clean_host h /\ word_ok (join_target h (Some dport))).
  { intros h Eh. rewrite Eh in Hhost. cbn in Hhost. split; [done|]. by apply join_clean_word. }
  assert (Hn : forall s, forallb (fun c => negb (c =? 10)) s = true -> lacks 10 (adjective origin ++ s)).
  { intros s Hs. apply lacks_app; apply note_lacks; [by destruct origin|done]. }
  destruct ans, exe as [e|]; try discriminate Hc; cbn in Hexe;
    try (destruct (named host) as [h|] eqn:En; [destruct (Hh h eq_refl) as [Hclean Hword]|]);
    apply some_pair in Hc as [-> ->].
  - refine (scoped_entry $"allow-host-from" _ _ _ _ _ eq_refl Hword Hexe (fun v => eq_refl) _ _);
      [by apply host_rule_join|by apply Hn].
  - refine (scoped_entry $"allow-dest-from" _ _ ($"no hostname seen; " ++ _) _ _ eq_refl Hd Hexe (fun v => eq_refl) _ _);
      [by apply dest_rule_join|]. apply lacks_app; [by apply note_lacks|by apply Hn].
  - refine (plain_entry $"allow-host" _ _ _ eq_refl _ _ _);
      [by apply word_exe_ok|by apply host_rule_join|by apply Hn].
  - refine (plain_entry $"allow-dest" _ _ _ eq_refl _ _ _);
      [by apply word_exe_ok|by apply dest_rule_join|by apply Hn].
  - by exists $"allow-app", e, None.
  - by exists $"allow-app", e, None.
  - refine (scoped_entry $"deny-host-from" _ _ _ _ _ eq_refl Hword Hexe (fun v => eq_refl) _ _);
      [by apply host_rule_join|by apply note_lacks].
  - refine (scoped_entry $"deny-dest-from" _ _ _ _ _ eq_refl Hd Hexe (fun v => eq_refl) _ _);
      [by apply dest_rule_join|by apply note_lacks].
  - refine (plain_entry $"deny-host" _ _ _ eq_refl _ _ _);
      [by apply word_exe_ok|by apply host_rule_join|by apply note_lacks].
  - refine (plain_entry $"deny-dest" _ _ _ eq_refl _ _ _);
      [by apply word_exe_ok|by apply dest_rule_join|by apply note_lacks].
  - refine (plain_entry $"deny-app" _ _ _ eq_refl _ _ _); [done|done|by apply note_lacks].
  - refine (plain_entry $"deny-app" _ _ _ eq_refl _ _ _); [done|done|by apply note_lacks].
Qed.

(** C36. Persistence: for a connection that can be written down and a policy file that is
    missing, empty or ends with a line feed, the policy in memory after [record] is
    exactly what the next start reads from the file; nothing already in the file is
    changed, and no other file is touched. *)
Theorem record_persists `{Io} (p : Policy) (fs : Fs) path ans exe dst host dport origin p' fs' :
  read_ok path = true -> write_fault path = None ->
  nl_terminated (default [] (fs !! path)) ->
  recordable exe dst host dport ->
  p = load fs path ->
  record p fs path ans exe dst host dport origin = (p', fs') ->
  load fs' path = p'
  /\ (exists added, default [] (fs' !! path) = default [] (fs !! path) ++ added)
  /\ nl_terminated (default [] (fs' !! path))
  /\ (forall q, q <> path -> fs' !! q = fs !! q).
Proof.
  intros Hr Hw Hnl Hrec -> Hrun. unfold record in Hrun.
  destruct (record_entry ans exe dst host dport origin) as [[c line]|] eqn:E.
  - apply pair_eq in Hrun as [<- <-].
    destruct (record_line_change _ _ _ _ _ _ _ _ Hrec E) as (k & v & note & -> & Hk & Hv & Hn & Hd).
    destruct (append_rule _ k v note Hnl Hk (kind_word k Hk) Hv Hn) as [_ Hload].
    rewrite Hd in Hload. unfold fs_append. rewrite Hw. cbn [fst].
    unfold load, read_to_string. rewrite Hr, lookup_insert_eq.
    change (default [] (Some ?x)) with x. split_and!.
    + rewrite Hload. by destruct (fs !! path).
    + eauto.
    + right. exists (default [] (fs !! path) ++ rule_line k v note). by rewrite <- app_assoc.
    + intros q Hq. by apply lookup_insert_ne.
  - apply pair_eq in Hrun as [<- <-]. split_and!; try done. exists []. by rewrite app_nil_r.
Qed.

Lemma id_line_eq sha exe :
  $"app-id" ++ [32] ++ sha ++ [9] ++ exe ++ $"	# identity when approved" ++ [10]
  = rule_line $"app-id" (sha ++ [9] ++ exe) (Some $"identity when approved") ++ [10].
Proof. unfold rule_line. rewrite <- !app_assoc. reflexivity. Qed.

(** Identity pinning: [record_id] pins a binary to the hash it had, unless one is
    already pinned (which it never overwrites), in memory and for the next start alike;
    no other binary's identity and no rule changes. *)
Theorem record_id_pins `{Io} (p : Policy) (fs : Fs) path exe sha p' fs' :
  read_ok path = true -> write_fault path = None ->
  nl_terminated (default [] (fs !! path)) ->
  exe_ok exe -> word_ok sha -> p = load fs path ->
  record_id p fs path exe sha = (p', fs') ->
  load fs' path = p'
  /\ expected_id p' exe = Some (default (to_lowercase sha) (expected_id p exe))
  /\ (forall other, other <> exe -> expected_id p' other = expected_id p other)
  /\ (forall who dst host dport, decide_verdict p' who dst host dport = decide_verdict p who dst host dport).
Proof.
  intros Hr Hw Hnl Hexe Hsha -> Hrun. unfold record_id, expected_id in *.
  destruct (app_id (load fs path) !! exe) as [old|] eqn:E.
  { apply pair_eq in Hrun as [<- <-]. by rewrite E. }
  apply pair_eq in Hrun as [<- <-].
  destruct (tab_value sha exe Hsha Hexe) as [Hv Hs].
  assert (Happ : word_ok $"app-id") by (by apply word_ascii).
  assert (Hn : default True (lacks 10 <$> Some $"identity when approved")) by (by apply note_lacks).
  pose proof (append_load _ $"app-id" _ (Some $"identity when approved") Hnl Happ Hv Hn) as Hload.
  change (directive $"app-id" (sha ++ [9] ++ exe)) with
    (scoped (sha ++ [9] ++ exe) (fun sha exe => Some (SetAppId exe (to_lowercase sha)))) in Hload.
  rewrite Hs in Hload. set (p := load fs path) in *.
  assert (Hp : app_id (apply_change (SetAppId exe (to_lowercase sha)) p) = <[exe := to_lowercase sha]> (app_id p))
    by (by destruct p).
  split_and!.
  - unfold fs_append. rewrite Hw. cbn [fst]. unfold load, read_to_string. rewrite Hr, lookup_insert_eq.
    rewrite id_line_eq, Hload. unfold p, load, read_to_string. rewrite Hr. by destruct (fs !! path).
  - by rewrite Hp, lookup_insert_eq.
  - intros other Ho. by rewrite Hp, lookup_insert_ne.
  - intros who dst host dport. apply same_basis_decide. by destruct p.
Qed.

(** ** Concrete runs *)

Definition empty_fs : Fs := ∅.

Lemma record_settles_witness :
  decide_verdict (@record io_fine fresh_policy empty_fs conf Block (Some app1) addr9 (Some metrics) 443 Approved).1
    (Some app1) addr9 (Some metrics) 443 = Deny.
Proof.
  refine (proj1 (@record_settles io_fine fresh_policy empty_fs conf Block (Some app1) addr9 (Some metrics) 443 Approved
    _ _ (surjective_pairing _)) _). by left.
Defined.

Lemma metrics_recordable : recordable (Some app1) addr9 (Some metrics) 443.
Proof.
  split; [|split; [|split; [|unfold u16_max; lia]]].
  - apply word_exe_ok. by apply word_ascii.
  - split; [done|]. split; [apply (word_ascii metrics); done|].
    split; [apply (word_ascii metrics); done|]. split; [by repeat constructor|done].
  - unfold addr9, ip_ok. lia.
Qed.

Lemma record_persists_witness :
  let r := @record io_fine (@load io_fine conf_fs conf) conf_fs conf AllowConn (Some app1) addr9 (Some metrics) 443 Learned in
  @load io_fine r.2 conf = r.1.
Proof.
  intros r. refine (proj1 (@record_persists io_fine _ conf_fs conf AllowConn (Some app1) addr9
    (Some metrics) 443 Learned r.1 r.2 eq_refl eq_refl _ metrics_recordable eq_refl _)).
  - apply conf_nl.
  - apply surjective_pairing.
Defined.

Lemma record_id_pins_witness :
  expected_id (@record_id io_fine (@load io_fine conf_fs conf) conf_fs conf app1 $"00FF").1 app1
  = Some $"00ff".
Proof.
  refine (eq_trans (proj1 (proj2 (@record_id_pins io_fine (@load io_fine conf_fs conf) conf_fs conf app1 $"00FF"
    _ _ eq_refl eq_refl _ _ _ eq_refl (surjective_pairing _)))) _).
  - apply conf_nl.
  - apply word_exe_ok. by apply word_ascii.
  - by apply word_ascii.
  - vm_compute. reflexivity.
Defined.

(** ** Where the conditions matter

    What [record] writes is not escaped: each run below breaks one of the conditions of
    [record_persists], and the next start reads something else. *)

(** A host name with a line feed (DNS labels are raw bytes) writes a rule of its own. *)
Example record_injects :
  let host := $"x" ++ [10] ++ $"allow-app /tmp/evil #" in
  let fs' := (@record io_fine fresh_policy empty_fs conf AllowConn (Some app1) addr9 (Some host) 443 Learned).2 in
  decide_verdict (@load io_fine fs' conf) (Some $"/tmp/evil") addr9 None 22 = Allow.
Proof. vm_compute. reflexivity. Qed.

(** The path of a binary is cut at a hash sign: another binary is approved. *)
Example record_truncates :
  let fs' := (@record io_fine fresh_policy empty_fs conf AllowApp (Some $"/tmp/a#b") addr9 None 443 Approved).2 in
  let p := @load io_fine fs' conf in
  decide_verdict p (Some $"/tmp/a#b") addr9 None 443 = Ask
  /\ decide_verdict p (Some $"/tmp/a") addr9 None 443 = Allow.
Proof. vm_compute. split; reflexivity. Qed.

(** A last line without a line feed is merged with the new one: a deny rule is lost. *)
Example record_merges :
  let fs : Fs := {[conf := $"deny-app /usr/bin/x"]} in
  let p := @load io_fine fs conf in
  let fs' := (@record io_fine p fs conf AllowApp (Some app1) addr9 None 443 Approved).2 in
  decide_verdict p (Some $"/usr/bin/x") addr9 None 443 = Deny
  /\ decide_verdict (@load io_fine fs' conf) (Some $"/usr/bin/x") addr9 None 443 = Ask.
Proof. vm_compute. split; reflexivity. Qed.
