(* ===== verification/Packet.v ===== *)
(** Reading a diverted packet (divert.rs): the network header, the chain of IPv6
    extension headers, the flow, and where the payload starts.

    Every index and slice of the code goes through [idx], [get_] and [slice] of the
    prelude, so that reading past the end of a packet shows as [Panic]. *)
From S2P Require Import Prelude IpAddr.

Record Flow : Type := mk_flow {
  f_proto : Z; f_src : IpAddr; f_dst : IpAddr; f_sport : Z; f_dport : Z; syn_only : bool
}.

(** The upper-layer protocol, the addresses, and where the upper-layer header starts. *)
Record L3 : Type := mk_l3 { l3_proto : Z; l3_src : IpAddr; l3_dst : IpAddr; l4 : nat }.

Definition usize_max : Z := 2 ^ 64 - 1.

Definition checked_add (off : nat) (len : Z) : option nat :=
  if Z.of_nat off + len <=? usize_max then Some (off + Z.to_nat len)%nat else None.

(** The length of the extension header [nh] at [off]; [None] when [nh] is not one we know
    the length of, so that it is the upper layer. *)
Definition ext_len (pkt : list Z) (nh : Z) (off : nat) : res (option Z) :=
  if (nh =? 0) || (nh =? 43) || (nh =? 60) then
    b ← get_ pkt (off + 1); Ok (Some ((b + 1) * 8))
  else if nh =? 44 then
    b2 ← get_ pkt (off + 2); b3 ← get_ pkt (off + 3);
    if negb (Z.shiftr (be16 b2 b3) 3 =? 0) then Nope else Ok (Some 8)
  else if nh =? 51 then
    b ← get_ pkt (off + 1); Ok (Some ((b + 2) * 4))
  else Ok None.

(** [skip_ext], with the number of headers still allowed. *)
Fixpoint skip_ext_loop (n : nat) (pkt : list Z) (nh : Z) (off : nat) : res (Z * nat) :=
  match n with
  | O => Nope
  | S n' =>
      e ← ext_len pkt nh off;
      match e with
      | None => Ok (nh, off)
      | Some len =>
          nh' ← get_ pkt off;
          off' ← of_option (checked_add off len);
          if (length pkt <=? off')%nat then Nope else skip_ext_loop n' pkt nh' off'
      end
  end.

Definition max_ext : nat := 8.
Definition skip_ext (pkt : list Z) (nh0 : Z) (off0 : nat) : res (Z * nat) :=
  skip_ext_loop max_ext pkt nh0 off0.

Definition l3 (pkt : list Z) : res L3 :=
  b0 ← get_ pkt 0;
  if Z.shiftr b0 4 =? 4 then
    if (length pkt <? 20)%nat then Nope
    else
      b ← idx pkt 0;
      let ihl := (Z.to_nat (Z.land b 15) * 4)%nat in
      if (ihl <? 20)%nat || (length pkt <? ihl)%nat then Nope
      else
        proto ← idx pkt 9;
        s0 ← idx pkt 12; s1 ← idx pkt 13; s2 ← idx pkt 14; s3 ← idx pkt 15;
        d0 ← idx pkt 16; d1 ← idx pkt 17; d2 ← idx pkt 18; d3 ← idx pkt 19;
        Ok (mk_l3 proto (v4_of [s0; s1; s2; s3]) (v4_of [d0; d1; d2; d3]) ihl)
  else if Z.shiftr b0 4 =? 6 then
    if (length pkt <? 40)%nat then Nope
    else
      s ← slice pkt 8 24;
      d ← slice pkt 24 40;
      nh ← idx pkt 6;
      '(proto, off) ← skip_ext pkt nh 40;
      Ok (mk_l3 proto (v6_of s) (v6_of d) off)
  else Nope.

Definition parse (pkt : list Z) : res Flow :=
  h ← l3 pkt;
  if (length pkt <? l4 h + 4)%nat then Nope
  else
    p0 ← idx pkt (l4 h); p1 ← idx pkt (l4 h + 1);
    p2 ← idx pkt (l4 h + 2); p3 ← idx pkt (l4 h + 3);
    syn ← (if (l3_proto h =? 6) && (l4 h + 14 <=? length pkt)%nat then
             flags ← idx pkt (l4 h + 13);
             Ok (negb (Z.land flags 2 =? 0) && (Z.land flags 16 =? 0))
           else Ok false);
    Ok (mk_flow (l3_proto h) (l3_src h) (l3_dst h) (be16 p0 p1) (be16 p2 p3) syn).

Definition payload_offset (pkt : list Z) : res nat :=
  h ← l3 pkt;
  if l3_proto h =? 17 then Ok (l4 h + 8)%nat
  else if l3_proto h =? 6 then
    b ← get_ pkt (l4 h + 12);
    Ok (l4 h + Z.to_nat (Z.shiftr b 4) * 4)%nat
  else Nope.

(** ** No packet makes the parser read past its end *)

Lemma res_if_ok {A} (b : bool) (x y : res A) v :
  (if b then x else y) = Ok v -> (b = true /\ x = Ok v) \/ (b = false /\ y = Ok v).
Proof. destruct b; auto. Qed.

Ltac res_ok :=
  repeat match goal with
  | H : (_ ≫= _) = Ok _ |- _ => apply res_bind_ok in H as (? & ? & H)
  | H : (if _ then _ else _) = Ok _ |- _ => apply res_if_ok in H as [[? H]|[? H]]
  | H : Ok _ = Ok _ |- _ => injection H as H
  | H : Nope = Ok _ |- _ => discriminate H
  | H : of_option _ = Ok _ |- _ => unfold of_option in H
  | H : idx _ _ = Ok _ |- _ => apply idx_inv in H
  end.

Ltac res_safe :=
  repeat first
    [ apply safe_ok | apply safe_nope | apply get_safe | apply safe_of_option
    | (apply idx_safe; lia) | (apply slice_safe; lia)
    | match goal with |- safe (_ ≫= _) => apply safe_bind; [|intros] end ].

Lemma ext_len_safe pkt nh off : safe (ext_len pkt nh off).
Proof. unfold ext_len. repeat case_match; res_safe; repeat case_match; res_safe. Qed.

Lemma skip_ext_loop_safe n pkt nh off : safe (skip_ext_loop n pkt nh off).
Proof.
  revert nh off. induction n as [|n IH]; intros nh off; cbn [skip_ext_loop]; [apply safe_nope|].
  apply safe_bind; [apply ext_len_safe|]. intros [len|] _; res_safe. case_match; [apply safe_nope|apply IH].
Qed.

Lemma skip_ext_loop_bound n pkt nh off nh' off' :
  skip_ext_loop n pkt nh off = Ok (nh', off') -> (off <= length pkt)%nat ->
  (off <= off' <= length pkt)%nat.
Proof.
  revert nh off. induction n as [|n IH]; intros nh off; cbn [skip_ext_loop]; [done|].
  intros (e & He & H)%res_bind_ok Hoff. destruct e as [len|]; [|injection H as <- <-; lia].
  apply res_bind_ok in H as (nh2 & _ & H). apply res_bind_ok in H as (off2 & Ho & H).
  destruct (Nat.leb_spec (length pkt) off2); [done|].
  unfold checked_add in Ho. destruct (_ <=? usize_max); [|done]. injection Ho as <-.
  apply IH in H; lia.
Qed.

Lemma skip_ext_loop_byte n pkt nh off nh' off' :
  bytes_ok pkt -> byte_ok nh -> skip_ext_loop n pkt nh off = Ok (nh', off') -> byte_ok nh'.
Proof.
  intros Hb. revert nh off. induction n as [|n IH]; intros nh off Hnh; cbn [skip_ext_loop]; [done|].
  intros (e & He & H)%res_bind_ok. destruct e as [len|]; [|by injection H as <- <-].
  apply res_bind_ok in H as (nh2 & Hg & H). apply res_bind_ok in H as (off2 & Ho & H).
  destruct (length pkt <=? off2)%nat; [done|]. apply IH in H; [done|].
  unfold get_, of_option in Hg. destruct (pkt !! off) eqn:E; [|done]. injection Hg as ->.
  by eapply bytes_ok_lookup.
Qed.

Lemma get_ok b i v : get_ b i = Ok v <-> b !! i = Some v.
Proof. unfold get_, of_option. destruct (b !! i); split; congruence. Qed.

Lemma l3_safe pkt : safe (l3 pkt).
Proof.
  unfold l3. apply safe_bind; [res_safe|]. intros b0 Hb0.
  destruct (Z.shiftr b0 4 =? 4).
  - destruct (Nat.ltb_spec (length pkt) 20); [res_safe|]. apply safe_bind; [res_safe|]. intros b _.
    cbv zeta. destruct (_ || _); res_safe.
  - destruct (Z.shiftr b0 4 =? 6); [|res_safe].
    destruct (Nat.ltb_spec (length pkt) 40); [res_safe|]. res_safe; [apply skip_ext_loop_safe|].
    case_match. res_safe.
Qed.

(** What [l3] finds lies inside the packet. *)
Lemma l3_bounds pkt h : l3 pkt = Ok h -> (20 <= l4 h <= length pkt)%nat.
Proof.
  unfold l3. intros H. res_ok; cbv zeta in *; res_ok; bool_to_prop; subst; cbn [l4]; [lia|].
  destruct x3 as [proto off]. injection H as <-. cbn [l4].
  rename select (skip_ext _ _ _ = _) into E. apply skip_ext_loop_bound in E; [lia|]. lia.
Qed.

Lemma v4_octets_ok a b c d :
  byte_ok a -> byte_ok b -> byte_ok c -> byte_ok d -> ip_ok (v4_of [a; b; c; d]).
Proof.
  intros. unfold ip_ok, v4_of. apply (be_join_bound 8 [a; b; c; d]); [lia|].
  repeat constructor; unfold byte_ok in *; cbn; lia.
Qed.

Lemma v6_octets_ok s : bytes_ok s -> length s = 16%nat -> ip_ok (v6_of s).
Proof.
  intros Hb Hl. unfold ip_ok, v6_of. pose proof (be_join_bound 8 s ltac:(lia)) as H.
  rewrite Hl in H. apply H. eapply Forall_impl; [exact Hb|]. done.
Qed.

Lemma slice_bytes pkt i j s : bytes_ok pkt -> slice pkt i j = Ok s -> bytes_ok s /\ length s = (j - i)%nat.
Proof.
  intros Hb [Hij ->]%slice_inv. split.
  - apply Forall_take. by apply Forall_drop.
  - rewrite length_take, length_drop. lia.
Qed.

Lemma l3_range pkt h :
  bytes_ok pkt -> l3 pkt = Ok h -> byte_ok (l3_proto h) /\ ip_ok (l3_src h) /\ ip_ok (l3_dst h).
Proof.
  intros Hb H. assert (Hl : forall i v, pkt !! i = Some v -> byte_ok v)
    by (intros; by eapply bytes_ok_lookup).
  unfold l3 in H. res_ok; cbv zeta in *; res_ok; subst; cbn [l3_proto l3_src l3_dst].
  - split; [by eapply Hl|]. split; apply v4_octets_ok; by eapply Hl.
  - destruct x3 as [proto off]. injection H as <-. cbn [l3_proto l3_src l3_dst].
    repeat match goal with E : slice _ _ _ = Ok _ |- _ => apply (slice_bytes _ _ _ _ Hb) in E as [? ?] end.
    split; [|split; by apply v6_octets_ok].
    eapply (skip_ext_loop_byte max_ext pkt x2 40); [exact Hb| |exact H7]. by eapply Hl.
Qed.

(** C28. The packet parser is total: on any bytes at all, whatever lengths and offsets they
    announce, [parse] and [payload_offset] return without reading past the end; the flow
    they report has a one-byte protocol, 16-bit ports and addresses of the right width,
    and the header it was read from lies inside the packet. *)
Theorem parse_safe pkt :
  safe (parse pkt) /\ safe (payload_offset pkt)
  /\ forall f, bytes_ok pkt -> parse pkt = Ok f ->
       byte_ok (f_proto f) /\ ip_ok (f_src f) /\ ip_ok (f_dst f)
       /\ 0 <= f_sport f < 65536 /\ 0 <= f_dport f < 65536
       /\ exists h, l3 pkt = Ok h /\ (20 <= l4 h)%nat /\ (l4 h + 4 <= length pkt)%nat.
Proof.
  split; [|split].
  - unfold parse. apply safe_bind; [apply l3_safe|]. intros h Hh.
    destruct (Nat.ltb_spec (length pkt) (l4 h + 4)); [res_safe|]. res_safe.
    destruct (_ =? 6); cbn [andb]; [|res_safe].
    destruct (Nat.leb_spec (l4 h + 14) (length pkt)); res_safe.
  - unfold payload_offset. apply safe_bind; [apply l3_safe|]. intros h _.
    repeat case_match; res_safe.
  - intros f Hb H. unfold parse in H. apply res_bind_ok in H as (h & Hh & H).
    destruct (Nat.ltb_spec (length pkt) (l4 h + 4)); [done|].
    destruct (l3_range _ _ Hb Hh) as (H1 & H2 & H3). destruct (l3_bounds _ _ Hh) as [H4 _].
    apply res_bind_ok in H as (p0 & E0%idx_inv & H). apply res_bind_ok in H as (p1 & E1%idx_inv & H).
    apply res_bind_ok in H as (p2 & E2%idx_inv & H). apply res_bind_ok in H as (p3 & E3%idx_inv & H).
    apply res_bind_ok in H as (syn & _ & H). injection H as <-. cbn [f_proto f_src f_dst f_sport f_dport].
    split_and!; try done; [..|by exists h];
      apply be16_bound; eapply bytes_ok_lookup; eauto.
Qed.

(** ** Packets built by hand are read back *)

(** The port pair and what follows it; for TCP, byte 13 holds the flags. *)
Definition l4_bytes (sport dport : Z) (rest : list Z) : list Z := to_be16 sport ++ to_be16 dport ++ rest.

Definition syn_of (proto : Z) (rest : list Z) : bool :=
  (proto =? 6) && match rest !! 9%nat with
                  | Some fl => negb (Z.land fl 2 =? 0) && (Z.land fl 16 =? 0)
                  | None => false
                  end.

(** Whatever the network header was, the ports and the flags are read after it. *)
Lemma parse_after_l3 hdr proto src dst sport dport rest :
  0 <= sport < 65536 -> 0 <= dport < 65536 ->
  l3 (hdr ++ l4_bytes sport dport rest) = Ok (mk_l3 proto src dst (length hdr)) ->
  parse (hdr ++ l4_bytes sport dport rest) = Ok (mk_flow proto src dst sport dport (syn_of proto rest)).
Proof.
  intros Hs Hd Hl3. unfold parse. rewrite Hl3. cbn [mbind res_bind l4 l3_proto l3_src l3_dst].
  unfold l4_bytes in *. destruct (to_be16_split sport Hs) as (a & b & -> & Hab).
  destruct (to_be16_split dport Hd) as (c & d & -> & Hcd).
  cbn [app]. assert (Hlen : length (hdr ++ a :: b :: c :: d :: rest) = (length hdr + 4 + length rest)%nat)
    by (rewrite length_app; cbn [length]; lia).
  destruct (Nat.ltb_spec (length (hdr ++ a :: b :: c :: d :: rest)) (length hdr + 4)); [lia|].
  assert (Hi : forall i v, (a :: b :: c :: d :: rest) !! i = Some v ->
            idx (hdr ++ a :: b :: c :: d :: rest) (length hdr + i) = Ok v).
  { intros i v Hv. unfold idx. rewrite lookup_app_r by lia.
    replace (length hdr + i - length hdr)%nat with i by lia. by rewrite Hv. }
  rewrite <- (Nat.add_0_r (length hdr)) at 1.
  rewrite (Hi 0%nat a eq_refl), (Hi 1%nat b eq_refl), (Hi 2%nat c eq_refl), (Hi 3%nat d eq_refl).
  cbn [mbind res_bind]. rewrite Hab, Hcd. unfold syn_of.
  destruct (proto =? 6); cbn [andb]; [|done].
  destruct (rest !! 9%nat) as [fl|] eqn:E.
  - apply lookup_lt_Some in E as Hlt.
    destruct (Nat.leb_spec (length hdr + 14) (length (hdr ++ a :: b :: c :: d :: rest))); [|lia].
    by rewrite (Hi 13%nat fl E).
  - apply lookup_ge_None in E.
    destruct (Nat.leb_spec (length hdr + 14) (length (hdr ++ a :: b :: c :: d :: rest))); [lia|done].
Qed.

(** An IPv4 header: [words] is the number of 4-byte option words. *)
Definition v4_header (pre ck opts : list Z) (proto src dst : Z) : list Z :=
  (64 + 5 + Z.of_nat (length opts) / 4) :: pre ++ proto :: ck
  ++ octets (V4 src) ++ octets (V4 dst) ++ opts.

Lemma v4_l3 pre ck opts proto src dst tail k :
  length pre = 8%nat -> length ck = 2%nat -> length opts = (4 * k)%nat -> (k <= 10)%nat ->
  ip_ok (V4 src) -> ip_ok (V4 dst) ->
  l3 (v4_header pre ck opts proto src dst ++ tail)
  = Ok (mk_l3 proto (V4 src) (V4 dst) (length (v4_header pre ck opts proto src dst))).
Proof.
  intros Hp Hc Ho Hk Hs Hd.
  destruct pre as [|p1 [|p2 [|p3 [|p4 [|p5 [|p6 [|p7 [|p8 [|]]]]]]]]]; try done.
  destruct ck as [|c1 [|c2 [|]]]; try done.
  destruct (octets4 src Hs) as (s0 & s1 & s2 & s3 & Es & Es'), (octets4 dst Hd) as (d0 & d1 & d2 & d3 & Ed & Ed').
  unfold v4_header. rewrite Es, Ed. cbn [app length].
  assert (Ek : Z.of_nat (length opts) / 4 = Z.of_nat k).
  { rewrite Ho, Nat2Z.inj_mul. change (Z.of_nat 4) with 4. rewrite Z.mul_comm. by apply Z.div_mul. }
  rewrite Ek. unfold l3. unfold get_, of_option, idx.
  cbn [lookup list_lookup mbind res_bind]. cbn [length]. rewrite ?length_app.
  assert (Hhi : Z.shiftr (64 + 5 + Z.of_nat k) 4 = 4 /\ Z.land (64 + 5 + Z.of_nat k) 15 = 5 + Z.of_nat k).
  { assert (Hk' : (k < 11)%nat) by lia. clear -Hk'.
    do 11 (destruct k as [|k]; [split; reflexivity|]). lia. }
  destruct Hhi as [-> ->]. change (4 =? 4) with true. cbv iota zeta.
  replace (Z.to_nat (5 + Z.of_nat k) * 4)%nat with (20 + 4 * k)%nat by lia.
  repeat match goal with
  | |- context [(?a <? ?b)%nat] => destruct (Nat.ltb_spec a b); [cbn in *; lia|]
  end. cbn [orb]. rewrite Es', Ed'. do 2 f_equal. cbn. lia.
Qed.

(** An IPv6 extension header: its kind, its length byte and what follows that byte. *)
Record Ext : Type := mk_ext { e_kind : Z; e_len : Z; e_body : list Z }.

(** Well formed: its length is the one its kind says, and a fragment header is the first
    fragment's. *)
Definition ext_ok (e : Ext) : Prop :=
  byte_ok (e_len e) /\
  ((e_kind e = 0 \/ e_kind e = 43 \/ e_kind e = 60)
     /\ Z.of_nat (length (e_body e)) + 2 = (e_len e + 1) * 8
   \/ e_kind e = 51 /\ Z.of_nat (length (e_body e)) + 2 = (e_len e + 2) * 4
   \/ e_kind e = 44 /\ exists a b r, e_body e = a :: b :: r /\ length r = 4%nat /\ Z.shiftr (be16 a b) 3 = 0).

(** The next-header value that announces a chain ending in [proto], and its bytes. *)
Definition chain_nh (exts : list Ext) (proto : Z) : Z :=
  match exts with e :: _ => e_kind e | [] => proto end.
Fixpoint chain_bytes (exts : list Ext) (proto : Z) : list Z :=
  match exts with
  | [] => []
  | e :: exts' => chain_nh exts' proto :: e_len e :: e_body e ++ chain_bytes exts' proto
  end.

Definition upper (proto : Z) : Prop := forall pkt off, ext_len pkt proto off = Ok None.

Lemma upper_tcp : upper 6. Proof. done. Qed.
Lemma upper_udp : upper 17. Proof. done. Qed.

Lemma ext_len_header pre e nh tail :
  ext_ok e ->
  ext_len (pre ++ nh :: e_len e :: e_body e ++ tail) (e_kind e) (length pre)
  = Ok (Some (Z.of_nat (length (e_body e)) + 2)).
Proof.
  intros (Hb & Hk).
  assert (Hg : forall i v, (nh :: e_len e :: e_body e ++ tail) !! i = Some v ->
    get_ (pre ++ nh :: e_len e :: e_body e ++ tail) (length pre + i) = Ok v).
  { intros i v Hv. apply get_ok. rewrite lookup_app_r by lia.
    by replace (length pre + i - length pre)%nat with i by lia. }
  unfold ext_len. destruct Hk as [[Hk Hl]|[[Hk Hl]|(Hk & a & b & r & Hl & Hr & Hz)]].
  - rewrite (Hg 1%nat _ eq_refl). cbn [mbind res_bind]. rewrite <- Hl.
    by destruct Hk as [->|[->| ->]].
  - rewrite (Hg 1%nat _ eq_refl). cbn [mbind res_bind]. rewrite <- Hl. by rewrite Hk.
  - rewrite Hl in *. rewrite (Hg 2%nat _ eq_refl), (Hg 3%nat _ eq_refl). cbn [mbind res_bind].
    rewrite Hk, Hz. change (44 =? 44) with true. cbn [orb Z.eqb negb length]. by rewrite Hr.
Qed.

Lemma ext_body_pos e : ext_ok e -> 0 < Z.of_nat (length (e_body e)).
Proof.
  intros (Hb & [[_ Hl]|[[_ Hl]|(_ & a & b & r & -> & _)]]); unfold byte_ok in Hb; cbn [length]; lia.
Qed.

(** One step over a well-formed header. *)
Lemma skip_step n pre e nh tail :
  ext_ok e -> tail <> [] ->
  Z.of_nat (length (pre ++ nh :: e_len e :: e_body e ++ tail)) <= usize_max ->
  skip_ext_loop (S n) (pre ++ nh :: e_len e :: e_body e ++ tail) (e_kind e) (length pre)
  = skip_ext_loop n ((pre ++ nh :: e_len e :: e_body e) ++ tail) nh (length (pre ++ nh :: e_len e :: e_body e)).
Proof.
  intros He Ht Hmax. cbn [skip_ext_loop]. rewrite ext_len_header by done. cbn [mbind res_bind].
  assert (Hg : get_ (pre ++ nh :: e_len e :: e_body e ++ tail) (length pre) = Ok nh).
  { apply get_ok. rewrite lookup_app_r by lia. by rewrite Nat.sub_diag. }
  rewrite Hg. cbn [mbind res_bind]. pose proof (ext_body_pos e He) as Hpos.
  assert (Htl : (0 < length tail)%nat) by (destruct tail; [done|cbn; lia]).
  rewrite length_app in Hmax. cbn [length] in Hmax. rewrite length_app in Hmax.
  unfold checked_add. destruct (Z.leb_spec (Z.of_nat (length pre) + (Z.of_nat (length (e_body e)) + 2)) usize_max); [|lia].
  cbn [of_option mbind res_bind].
  replace (length pre + Z.to_nat (Z.of_nat (length (e_body e)) + 2))%nat
    with (length (pre ++ nh :: e_len e :: e_body e)) by (rewrite length_app; cbn [length]; lia).
  replace (pre ++ nh :: e_len e :: e_body e ++ tail) with ((pre ++ nh :: e_len e :: e_body e) ++ tail)
    by (by rewrite <- app_assoc).
  destruct (Nat.leb_spec (length ((pre ++ nh :: e_len e :: e_body e) ++ tail))
    (length (pre ++ nh :: e_len e :: e_body e))) as [Hle|]; [|done].
  rewrite length_app in Hle. lia.
Qed.

Lemma skip_chain exts : forall n pre proto tail,
  Forall ext_ok exts -> upper proto -> tail <> [] ->
  Z.of_nat (length (pre ++ chain_bytes exts proto ++ tail)) <= usize_max ->
  skip_ext_loop n (pre ++ chain_bytes exts proto ++ tail) (chain_nh exts proto) (length pre)
  = if (length exts <? n)%nat then Ok (proto, length (pre ++ chain_bytes exts proto)) else Nope.
Proof.
  induction exts as [|e exts IH]; intros n pre proto tail Hok Hup Ht Hmax.
  - cbn [chain_bytes chain_nh length app]. rewrite app_nil_r. destruct n as [|n]; [done|].
    cbn [skip_ext_loop]. by rewrite Hup.
  - inversion_clear Hok as [|? ? He Hok']. cbn [chain_bytes chain_nh length].
    destruct n as [|n]; [done|]. cbn [chain_bytes] in Hmax.
    change ((?x :: ?y :: ?z ++ ?u) ++ ?v) with (x :: y :: (z ++ u) ++ v) in Hmax |- *.
    rewrite <- app_assoc in Hmax |- *.
    assert (Hne : chain_bytes exts proto ++ tail <> []) by (intros [_ ?]%app_eq_nil; done).
    rewrite skip_step by done.
    rewrite IH; try done.
    + change (S (length exts) <? S n)%nat with (length exts <? n)%nat.
      case_match; [|done]. do 3 f_equal. by rewrite <- app_assoc.
    + rewrite <- app_assoc. exact Hmax.
Qed.

(** An IPv6 header before a chain of extension headers. *)
Definition v6_header (pre : list Z) (hop : Z) (exts : list Ext) (proto src dst : Z) : list Z :=
  96 :: pre ++ chain_nh exts proto :: hop :: octets (V6 src) ++ octets (V6 dst).

Lemma v6_header_length pre hop exts proto src dst :
  length pre = 5%nat -> length (v6_header pre hop exts proto src dst) = 40%nat.
Proof.
  intros Hp. unfold v6_header, octets. cbn [length]. rewrite length_app, Hp. cbn [length].
  by rewrite length_app, !be_split_length.
Qed.

Lemma v6_octets q : ip_ok (V6 q) -> v6_of (octets (V6 q)) = V6 q.
Proof. intros Hq. unfold v6_of, octets. f_equal. by apply (be_join_split 8 16). Qed.

Lemma v6_l3 pre hop exts proto src dst tail :
  length pre = 5%nat -> ip_ok (V6 src) -> ip_ok (V6 dst) ->
  Forall ext_ok exts -> upper proto -> tail <> [] ->
  let hdr := v6_header pre hop exts proto src dst in
  Z.of_nat (length (hdr ++ chain_bytes exts proto ++ tail)) <= usize_max ->
  l3 (hdr ++ chain_bytes exts proto ++ tail)
  = if (length exts <? max_ext)%nat
    then Ok (mk_l3 proto (V6 src) (V6 dst) (length (hdr ++ chain_bytes exts proto))) else Nope.
Proof.
  intros Hp Hs Hd Hok Hup Ht hdr Hmax. pose proof (v6_header_length pre hop exts proto src dst Hp) as Hlen.
  fold hdr in Hlen. set (pkt := hdr ++ chain_bytes exts proto ++ tail) in *.
  assert (Hlp : (40 <= length pkt)%nat) by (unfold pkt; rewrite length_app; lia).
  assert (H0 : pkt !! 0%nat = Some 96) by done.
  assert (H6 : pkt !! 6%nat = Some (chain_nh exts proto)).
  { destruct pre as [|p1 [|p2 [|p3 [|p4 [|p5 [|]]]]]]; done. }
  assert (Ha : forall i n, (i + n <= 40)%nat -> take n (drop i pkt) = take n (drop i hdr)).
  { intros i n Hi. unfold pkt. rewrite skipn_app, firstn_app.
    replace (n - length (drop i hdr))%nat with 0%nat by (rewrite length_drop; lia).
    by rewrite app_nil_r. }
  assert (Hsrc : take 16 (drop 8 pkt) = octets (V6 src) /\ take 16 (drop 24 pkt) = octets (V6 dst)).
  { rewrite !Ha by lia. unfold hdr, v6_header.
    destruct pre as [|p1 [|p2 [|p3 [|p4 [|p5 [|]]]]]]; done. }
  unfold l3. assert (Hg : get_ pkt 0 = Ok 96) by (by apply get_ok). rewrite Hg. cbn [mbind res_bind].
  change (Z.shiftr 96 4 =? 4) with false. change (Z.shiftr 96 4 =? 6) with true. cbv iota.
  destruct (Nat.ltb_spec (length pkt) 40); [lia|]. unfold slice.
  rewrite !(proj2 (Nat.leb_le _ (length pkt))) by lia. cbn [Nat.leb andb mbind res_bind].
  change (24 - 8)%nat with 16%nat. change (40 - 24)%nat with 16%nat.
  destruct Hsrc as [-> ->]. unfold idx. rewrite H6. cbn [mbind res_bind].
  unfold skip_ext, pkt. rewrite <- Hlen at 1. rewrite skip_chain by done.
  destruct (length exts <? max_ext)%nat; [|done]. cbn [mbind res_bind]. by rewrite !v6_octets.
Qed.

(** C29. The parser reads what was sent: an IPv4 packet with any options, and an IPv6 packet
    with any chain of fewer than eight well-formed extension headers, parse to their
    protocol, addresses and ports, with [syn_only] set exactly for a TCP segment with SYN
    and without ACK; an IPv6 packet with eight or more extension headers is refused. *)
Theorem parse_reads_back src dst sport dport proto rest :
  0 <= sport < 65536 -> 0 <= dport < 65536 ->
  (forall pre ck opts k,
     length pre = 8%nat -> length ck = 2%nat -> length opts = (4 * k)%nat -> (k <= 10)%nat ->
     ip_ok (V4 src) -> ip_ok (V4 dst) ->
     parse (v4_header pre ck opts proto src dst ++ l4_bytes sport dport rest)
     = Ok (mk_flow proto (V4 src) (V4 dst) sport dport (syn_of proto rest)))
  /\ (forall pre hop exts,
     length pre = 5%nat -> ip_ok (V6 src) -> ip_ok (V6 dst) -> Forall ext_ok exts -> upper proto ->
     let pkt := v6_header pre hop exts proto src dst ++ chain_bytes exts proto ++ l4_bytes sport dport rest in
     Z.of_nat (length pkt) <= usize_max ->
     parse pkt = if (length exts <? 8)%nat
                 then Ok (mk_flow proto (V6 src) (V6 dst) sport dport (syn_of proto rest)) else Nope).
Proof.
  intros Hs Hd. split.
  - intros pre ck opts k Hp Hc Ho Hk Hsrc Hdst. apply parse_after_l3; try done. by eapply v4_l3.
  - intros pre hop exts Hp Hsrc Hdst Hok Hup pkt Hmax.
    assert (Hne : l4_bytes sport dport rest <> []).
    { unfold l4_bytes. destruct (to_be16_split sport Hs) as (a & b & -> & _). done. }
    pose proof (v6_l3 pre hop exts proto src dst _ Hp Hsrc Hdst Hok Hup Hne Hmax) as Hl3.
    unfold max_ext in Hl3. destruct (length exts <? 8)%nat.
    + unfold pkt. rewrite app_assoc in Hl3 |- *. by apply parse_after_l3.
    + unfold parse. fold pkt in Hl3. by rewrite Hl3.
Qed.

(** ** Concrete packets *)

Definition tcp_tail : list Z := replicate 9 0 ++ [2] ++ replicate 6 0.

Lemma parse_safe_witness :
  0 <= 443 < 65536 /\ safe (parse (v4_header (replicate 8 0) [0; 0] [] 6 16909060 84281096
                                    ++ l4_bytes 40000 443 tcp_tail)).
Proof. split; [lia|]. apply parse_safe. Defined.

Lemma parse_reads_back_witness :
  parse (v6_header (replicate 5 0) 64 [mk_ext 0 0 (replicate 6 0)] 6 1 2
         ++ chain_bytes [mk_ext 0 0 (replicate 6 0)] 6 ++ l4_bytes 40000 443 tcp_tail)
  = Ok (mk_flow 6 (V6 1) (V6 2) 40000 443 true).
Proof.
  refine (proj2 (parse_reads_back 1 2 40000 443 6 tcp_tail _ _) (replicate 5 0) 64
    [mk_ext 0 0 (replicate 6 0)] eq_refl _ _ _ upper_tcp _); try lia.
  - unfold ip_ok. lia.
  - unfold ip_ok. lia.
  - constructor; [|constructor]. split; [unfold byte_ok; cbn; lia|]. left. cbn. lia.
  - vm_compute. discriminate.
Defined.

(** A later fragment of an IPv4 packet (offset 185, 1480 bytes in) is taken for a packet
    of its own: its payload is read as a port pair. *)
Example fragment_ports :
  let pre := [0; 0; 28; 0; 1; 0; 185; 64] in
  parse (v4_header pre [0; 0] [] 17 1 2 ++ l4_bytes 443 22 []) = Ok (mk_flow 17 (V4 1) (V4 2) 443 22 false).
Proof. vm_compute. reflexivity. Qed.
