(* ===== verification/Reset.v ===== *)
(** Refusing a connection at once (divert.rs): the Internet checksum and the TCP reset
    that answers a denied segment. *)
From S2P Require Import Prelude IpAddr Packet.

(** ** The checksum *)

(** [sum += word] on a [u32]. *)
Definition add32 (a b : Z) : Z := (a + b) mod 2 ^ 32.

(** The inner loop: whole 16-bit words of one part, and its odd byte. *)
Fixpoint sum_pairs (sum : Z) (part : list Z) : Z * option Z :=
  match part with
  | a :: b :: part' => sum_pairs (add32 sum (be16 a b)) part'
  | [a] => (sum, Some a)
  | [] => (sum, None)
  end.

(** One part, starting with the odd byte of the parts before it. *)
Definition sum_part (st : Z * option Z) (part : list Z) : Z * option Z :=
  match st with
  | (sum, Some hi) =>
      match part with
      | b :: part' => sum_pairs (add32 sum (be16 hi b)) part'
      | [] => (sum, Some hi)
      end
  | (sum, None) => sum_pairs sum part
  end.

(** [while (sum >> 16) != 0 { sum = (sum & 0xffff) + (sum >> 16) }] *)
Fixpoint fold16 (fuel : nat) (sum : Z) : Z :=
  match fuel with
  | O => sum
  | S f => if Z.shiftr sum 16 =? 0 then sum else fold16 f (Z.land sum 65535 + Z.shiftr sum 16)
  end.

Definition fold_fuel : nat := 3.

Definition csum (parts : list (list Z)) : Z :=
  let '(sum, carry) := foldl sum_part (0, None) parts in
  let sum := match carry with Some hi => add32 sum (be16 hi 0) | None => sum end in
  65535 - fold16 fold_fuel sum mod 65536.

(** ** The reset *)

(** [v[16..18].copy_from_slice(..)] on a buffer long enough *)
Definition splice (b : list Z) (i : nat) (s : list Z) : list Z := take i b ++ s ++ drop (i + length s) b.

(** The segment of the reset, its checksum still zero: ports swapped, sequence number 0,
    RST and ACK. *)
Definition rst_segment (sport dport ack : Z) : list Z :=
  to_be16 dport ++ to_be16 sport ++ to_be32 0 ++ to_be32 ack ++ [80; 20]
  ++ to_be16 0 ++ to_be16 0 ++ to_be16 0.

(** The IPv4 packet from [d] back to [s]. *)
Definition rst_v4 (s d : Z) (tcp : list Z) : list Z :=
  let so := octets (V4 d) in
  let de := octets (V4 s) in
  let pseudo := so ++ de ++ [0; 6; 0; 20] in
  let tcp := splice tcp 16 (to_be16 (csum [pseudo; tcp])) in
  let ip := [69; 0] ++ to_be16 40 ++ to_be16 0 ++ to_be16 0 ++ [64; 6] ++ to_be16 0 ++ so ++ de in
  let ip := splice ip 10 (to_be16 (csum [ip])) in
  ip ++ tcp.

(** The IPv6 packet from [d] back to [s]. *)
Definition rst_v6 (s d : Z) (tcp : list Z) : list Z :=
  let so := octets (V6 d) in
  let de := octets (V6 s) in
  let pseudo := so ++ de ++ to_be32 20 ++ [0; 0; 0; 6] in
  let tcp := splice tcp 16 (to_be16 (csum [pseudo; tcp])) in
  [96; 0; 0; 0] ++ to_be16 20 ++ [6; 64] ++ so ++ de ++ tcp.

Definition tcp_rst (pkt : list Z) : res (list Z) :=
  h ← l3 pkt;
  if negb (l3_proto h =? 6) || (length pkt <? l4 h + 20)%nat then Nope
  else
    flags ← idx pkt (l4 h + 13);
    if negb (Z.land flags 4 =? 0) then Nope
    else
      p0 ← idx pkt (l4 h); p1 ← idx pkt (l4 h + 1);
      p2 ← idx pkt (l4 h + 2); p3 ← idx pkt (l4 h + 3);
      q0 ← idx pkt (l4 h + 4); q1 ← idx pkt (l4 h + 5);
      q2 ← idx pkt (l4 h + 6); q3 ← idx pkt (l4 h + 7);
      let seq := be_join 8 [q0; q1; q2; q3] in
      let ack := add32 seq (if negb (Z.land flags 2 =? 0) then 1 else 0) in
      let tcp := rst_segment (be16 p0 p1) (be16 p2 p3) ack in
      match l3_src h, l3_dst h with
      | V4 s, V4 d => Ok (rst_v4 s d tcp)
      | V6 s, V6 d => Ok (rst_v6 s d tcp)
      | _, _ => Nope
      end.

(** ** The sum of a byte string *)

(** The reference: the sum of the 16-bit words of the string, padded with a zero byte. *)
Fixpoint word_sum (l : list Z) : Z :=
  match l with
  | a :: b :: l' => be16 a b + word_sum l'
  | [a] => be16 a 0
  | [] => 0
  end.

(** Ones-complement reduction: the residue modulo 65535, with 65535 for a positive
    multiple. *)
Definition reduce (s : Z) : Z := if s =? 0 then 0 else (s - 1) mod 65535 + 1.

Lemma two_step {A} (P : list A -> Prop) :
  P [] -> (forall a, P [a]) -> (forall a b l, P l -> P (a :: b :: l)) -> forall l, P l.
Proof.
  intros H0 H1 H2. assert (G : forall l, P l /\ forall a, P (a :: l)).
  { induction l as [|b l [IH1 IH2]]; split; auto. }
  intros l. apply G.
Qed.

Lemma word_sum_bound l : bytes_ok l -> 0 <= word_sum l <= 65535 * ((Z.of_nat (length l) + 1) / 2).
Proof.
  induction l as [|a|a b l IH] using two_step; intros Hb.
  - split; [done|]. change (word_sum []) with 0. apply Z.mul_nonneg_nonneg; [lia|]. by apply Z.div_pos.
  - inversion_clear Hb. cbn [word_sum length]. pose proof (be16_bound a 0 ltac:(done) ltac:(split; lia)).
    change ((Z.of_nat 1 + 1) / 2) with 1. lia.
  - inversion_clear Hb as [|? ? Ha Hb']. inversion_clear Hb' as [|? ? Hb Hl]. cbn [word_sum length].
    pose proof (be16_bound a b Ha Hb). specialize (IH Hl).
    replace (Z.of_nat (S (S (length l))) + 1) with (Z.of_nat (length l) + 1 + 1 * 2) by lia.
    rewrite Z.div_add by lia. lia.
Qed.

(** What the loop still has to add. *)
Definition pending (c : option Z) : list Z := match c with Some hi => [hi] | None => [] end.

Lemma sum_pairs_eq l : forall s s' c,
  bytes_ok l -> 0 <= s -> s + word_sum l < 2 ^ 32 -> sum_pairs s l = (s', c) ->
  0 <= s' /\ (forall t, s' + word_sum (pending c ++ t) = s + word_sum (l ++ t))
  /\ Forall byte_ok (pending c).
Proof.
  induction l as [|a|a b l IH] using two_step; intros s s' c Hb Hs Hlt Hrun; cbn [sum_pairs] in Hrun.
  - injection Hrun as <- <-. split_and!; try done.
  - injection Hrun as <- <-. split_and!; try done.
  - inversion_clear Hb as [|? ? Ha Hb']. inversion_clear Hb' as [|? ? Hbb Hl].
    pose proof (be16_bound a b Ha Hbb). pose proof (word_sum_bound l Hl).
    cbn [word_sum] in Hlt. unfold add32 in Hrun. rewrite Z.mod_small in Hrun by lia.
    apply IH in Hrun as (H1 & H2 & H3); try done; try lia. split_and!; try done.
    intros t. rewrite H2. cbn [app word_sum]. lia.
Qed.

Lemma sum_part_eq l : forall s c s' c',
  bytes_ok l -> bytes_ok (pending c) -> 0 <= s -> s + word_sum (pending c ++ l) < 2 ^ 32 ->
  sum_part (s, c) l = (s', c') ->
  0 <= s' /\ (forall t, s' + word_sum (pending c' ++ t) = s + word_sum (pending c ++ l ++ t))
  /\ bytes_ok (pending c').
Proof.
  intros s c s' c' Hb Hc Hs Hlt Hrun. destruct c as [hi|]; cbn [sum_part pending app] in *.
  - destruct l as [|b l]; [by injection Hrun as <- <-|]. inversion_clear Hb as [|? ? Hbb Hl].
    inversion_clear Hc as [|? ? Hhi _]. pose proof (be16_bound hi b Hhi Hbb).
    pose proof (word_sum_bound l Hl). cbn [word_sum] in Hlt. unfold add32 in Hrun.
    rewrite Z.mod_small in Hrun by lia.
    apply sum_pairs_eq in Hrun as (H1 & H2 & H3); try done; try lia. split_and!; try done.
    intros t. rewrite H2. cbn [app word_sum]. lia.
  - by apply sum_pairs_eq in Hrun.
Qed.

(** A prefix sums to no more than the whole. *)
Lemma word_sum_prefix l t : bytes_ok l -> bytes_ok t -> word_sum l <= word_sum (l ++ t).
Proof.
  induction l as [|a|a b l IH] using two_step; intros Hl Ht.
  - cbn. pose proof (word_sum_bound t Ht). lia.
  - cbn [app word_sum]. destruct t as [|b t]; [cbn [word_sum]; lia|]. cbn [word_sum].
    inversion_clear Ht as [|? ? Hb Ht']. pose proof (word_sum_bound t Ht'). rewrite !be16_eq.
    unfold byte_ok in *. lia.
  - inversion_clear Hl as [|? ? Ha Hl']. inversion_clear Hl' as [|? ? Hb Hl2].
    cbn [app word_sum]. specialize (IH Hl2 Ht). lia.
Qed.

Lemma sum_parts_eq parts : forall s c s' c',
  Forall (fun l => bytes_ok l) parts -> bytes_ok (pending c) -> 0 <= s ->
  s + word_sum (pending c ++ concat parts) < 2 ^ 32 ->
  foldl sum_part (s, c) parts = (s', c') ->
  0 <= s' /\ s' + word_sum (pending c') = s + word_sum (pending c ++ concat parts).
Proof.
  induction parts as [|l parts IH]; intros s c s' c' Hok Hc Hs Hlt Hrun; cbn [foldl concat] in *.
  - injection Hrun as <- <-. by rewrite app_nil_r.
  - inversion_clear Hok as [|? ? Hl Hps].
    assert (Hbc : bytes_ok (concat parts)) by (by apply Forall_concat).
    pose proof (word_sum_prefix (pending c ++ l) (concat parts)) as Hpre.
    rewrite <- app_assoc in Hpre. specialize (Hpre ltac:(by apply Forall_app) Hbc).
    destruct (sum_part (s, c) l) as [s1 c1] eqn:E1.
    apply sum_part_eq in E1 as (H1 & H2 & H3); try done; [|lia].
    specialize (H2 (concat parts)).
    apply IH in Hrun as (H4 & H5); try done; [|lia]. split; [done|]. lia.
Qed.

(** ** Folding the carries back *)

Lemma shiftr16 s : Z.shiftr s 16 = s / 65536.
Proof. by rewrite Z.shiftr_div_pow2. Qed.
Lemma land16 s : Z.land s 65535 = s mod 65536.
Proof. change 65535 with (Z.ones 16). by rewrite Z.land_ones. Qed.

Lemma reduce_fold s : 0 <= s -> reduce (Z.land s 65535 + Z.shiftr s 16) = reduce s.
Proof.
  intros Hs. rewrite land16, shiftr16. pose proof (Z.div_mod s 65536 ltac:(lia)) as E.
  pose proof (Z.mod_pos_bound s 65536 ltac:(lia)).
  assert (0 <= s / 65536) by (by apply Z.div_pos).
  set (q := s / 65536) in *. set (r := s mod 65536) in *. unfold reduce.
  destruct (Z.eqb_spec s 0), (Z.eqb_spec (r + q) 0); try lia.
  f_equal. replace (s - 1) with (r + q - 1 + q * 65535) by lia. by rewrite Z.mod_add.
Qed.

Lemma reduce_small s : 0 <= s < 65536 -> reduce s = s.
Proof. intros Hs. unfold reduce. destruct (Z.eqb_spec s 0); [lia|]. rewrite Z.mod_small; lia. Qed.

Lemma reduce_bound s : 0 <= s -> 0 <= reduce s < 65536.
Proof.
  intros Hs. unfold reduce. destruct (s =? 0); [lia|].
  pose proof (Z.mod_pos_bound (s - 1) 65535 ltac:(lia)). lia.
Qed.

(** Two rounds are enough for a 32-bit sum. *)
Lemma fold16_reduce s : 0 <= s < 2 ^ 32 -> fold16 fold_fuel s = reduce s.
Proof.
  intros Hs. assert (Hstep : forall x, 0 <= x -> 0 <= Z.land x 65535 + Z.shiftr x 16 <= 65535 + x / 65536).
  { intros x Hx. rewrite land16, shiftr16. pose proof (Z.mod_pos_bound x 65536 ltac:(lia)).
    assert (0 <= x / 65536) by (by apply Z.div_pos). lia. }
  assert (Hstop : forall x, 0 <= x -> Z.shiftr x 16 = 0 -> reduce x = x).
  { intros x Hx E. rewrite shiftr16 in E. apply reduce_small. split; [done|]. by apply Z.div_small_iff in E; lia. }
  unfold fold_fuel. cbn [fold16]. destruct (Z.eqb_spec (Z.shiftr s 16) 0) as [E|E]; [by rewrite Hstop by lia|].
  rewrite <- (reduce_fold s) by lia. pose proof (Hstep s ltac:(lia)) as H1.
  assert (s / 65536 < 65536) by (apply Z.div_lt_upper_bound; lia).
  assert (H65 : Z.land s 65535 + Z.shiftr s 16 <= 131070) by lia.
  set (s1 := Z.land s 65535 + Z.shiftr s 16) in *. clearbody s1.
  destruct (Z.eqb_spec (Z.shiftr s1 16) 0) as [E1|E1]; [by rewrite Hstop by lia|].
  rewrite <- (reduce_fold s1) by lia. rewrite shiftr16 in E1.
  assert (s1 / 65536 = 1).
  { assert (s1 / 65536 <= 1) by (apply Z.lt_succ_r, Z.div_lt_upper_bound; lia).
    assert (0 <= s1 / 65536) by (apply Z.div_pos; lia). lia. }
  pose proof (Z.div_mod s1 65536 ltac:(lia)) as Ed.
  set (s2 := s1 mod 65536 + s1 / 65536) in *.
  assert (Es : Z.land s1 65535 + Z.shiftr s1 16 = s2) by (by rewrite land16, shiftr16). rewrite Es.
  assert (0 <= s2 < 65536).
  { pose proof (Z.mod_pos_bound s1 65536 ltac:(lia)). unfold s2. lia. }
  destruct (Z.eqb_spec (Z.shiftr s2 16) 0) as [E2|E2]; [by rewrite reduce_small|].
  rewrite shiftr16, Z.div_small in E2 by done. done.
Qed.

(** How many bytes a checksum may cover before the 32-bit sum could wrap. *)
Definition csum_limit : Z := 131072.

Lemma csum_eq parts :
  Forall (fun l => bytes_ok l) parts -> Z.of_nat (length (concat parts)) <= csum_limit ->
  csum parts = 65535 - reduce (word_sum (concat parts)).
Proof.
  intros Hok Hlen. assert (Hbc : bytes_ok (concat parts)) by (by apply Forall_concat).
  pose proof (word_sum_bound _ Hbc) as Hw. unfold csum_limit in Hlen.
  assert (Hlt : word_sum (concat parts) < 2 ^ 32).
  { assert ((Z.of_nat (length (concat parts)) + 1) / 2 < 65537) by (apply Z.div_lt_upper_bound; lia). lia. }
  unfold csum. destruct (foldl sum_part (0, None) parts) as [s c] eqn:E.
  apply sum_parts_eq in E as [H1 H2]; [|done|by constructor|lia|exact Hlt]. cbn [pending app] in H2.
  assert (Hs : (match c with Some hi => add32 s (be16 hi 0) | None => s end) = word_sum (concat parts)).
  { destruct c as [hi|]; cbn [pending word_sum] in H2; [|lia]. unfold add32. rewrite H2. apply Z.mod_small. lia. }
  rewrite Hs, fold16_reduce by lia. rewrite Z.mod_small; [done|]. apply reduce_bound. lia.
Qed.

(** C31. The checksum of several parts is the Internet checksum of their concatenation,
    odd-length parts included: the ones complement of the ones-complement sum of the
    16-bit big-endian words, padded with a zero byte; the carry loop always finishes. *)
Theorem csum_reference parts :
  Forall (fun l => bytes_ok l) parts -> Z.of_nat (length (concat parts)) <= csum_limit ->
  csum parts = 65535 - reduce (word_sum (concat parts)) /\ csum parts = csum [concat parts].
Proof.
  intros Hok Hlen. split; [by apply csum_eq|]. rewrite !csum_eq; try done.
  - cbn [concat]. by rewrite app_nil_r.
  - constructor; [by apply Forall_concat|constructor].
  - cbn [concat]. by rewrite app_nil_r.
Qed.

Lemma csum_reference_witness : csum [[1]; []; [2; 3]; [4; 5; 6]] = csum [[1; 2; 3; 4; 5; 6]].
Proof.
  refine (proj2 (csum_reference [[1]; []; [2; 3]; [4; 5; 6]] _ _)); [|vm_compute; discriminate].
  repeat constructor; vm_compute; intuition discriminate.
Defined.

(** ** A filled-in checksum verifies *)

Lemma word_sum_app a b : Nat.even (length a) = true -> word_sum (a ++ b) = word_sum a + word_sum b.
Proof.
  induction a as [|x|x y a IH] using two_step; intros He; [done|done|].
  cbn [app word_sum]. cbn in He. rewrite IH by done. lia.
Qed.

Lemma reduce_fill s : 0 <= s -> reduce (s + (65535 - reduce s)) = 65535.
Proof.
  intros Hs. pose proof (reduce_bound s Hs) as Hb. unfold reduce in *.
  destruct (Z.eqb_spec s 0) as [->|Hn]; [reflexivity|].
  pose proof (Z.mod_pos_bound (s - 1) 65535 ltac:(lia)).
  destruct (Z.eqb_spec (s + (65535 - ((s - 1) mod 65535 + 1))) 0); [lia|].
  pose proof (Z.div_mod (s - 1) 65535 ltac:(lia)) as E.
  replace (s + (65535 - ((s - 1) mod 65535 + 1)) - 1) with (65534 + ((s - 1) / 65535) * 65535) by lia.
  by rewrite Z.mod_add.
Qed.

Lemma to_be16_bytes z : bytes_ok (to_be16 z).
Proof. exact (be_split_ok 8 2 z ltac:(lia)). Qed.
Lemma to_be32_bytes z : bytes_ok (to_be32 z).
Proof. exact (be_split_ok 8 4 z ltac:(lia)). Qed.
Lemma octets_bytes a : bytes_ok (octets a).
Proof. destruct a as [n|n]; [exact (be_split_ok 8 4 n ltac:(lia))|exact (be_split_ok 8 16 n ltac:(lia))]. Qed.

Lemma word_sum_be16 z : 0 <= z < 65536 -> word_sum (to_be16 z) = z.
Proof. intros Hz. destruct (to_be16_split z Hz) as (a & b & -> & E). cbn [word_sum]. lia. Qed.

(** Writing the checksum of a string over two zero bytes at an even offset makes the
    string's checksum zero, which is what a receiver tests. *)
Lemma csum_fill a b :
  bytes_ok a -> bytes_ok b -> Nat.even (length a) = true ->
  Z.of_nat (length (a ++ [0; 0] ++ b)) <= csum_limit ->
  csum [a ++ to_be16 (csum [a ++ [0; 0] ++ b]) ++ b] = 0.
Proof.
  intros Ha Hb He Hlen.
  assert (Hl : bytes_ok (a ++ [0; 0] ++ b)).
  { apply Forall_app; split; [done|]. repeat (constructor; [split; lia|]). done. }
  assert (Hc : concat [a ++ [0; 0] ++ b] = a ++ [0; 0] ++ b) by (cbn [concat]; apply app_nil_r).
  rewrite (csum_eq [a ++ [0; 0] ++ b]); [|by constructor|by rewrite Hc]. rewrite Hc.
  set (s := word_sum (a ++ [0; 0] ++ b)). set (ck := 65535 - reduce s).
  assert (Hs : 0 <= s) by apply (word_sum_bound _ Hl). pose proof (reduce_bound s Hs) as Hr.
  assert (Hck : 0 <= ck < 65536) by (unfold ck; lia).
  assert (Hc2 : concat [a ++ to_be16 ck ++ b] = a ++ to_be16 ck ++ b) by (cbn [concat]; apply app_nil_r).
  assert (Hlen2 : length (to_be16 ck) = 2%nat) by apply be_split_length.
  rewrite csum_eq; rewrite ?Hc2.
  - assert (E : word_sum (a ++ to_be16 ck ++ b) = s + ck).
    { unfold s. rewrite !word_sum_app by (done || by rewrite Hlen2). rewrite word_sum_be16 by done. cbn. lia. }
    rewrite E. unfold ck. rewrite reduce_fill by done. done.
  - constructor; [|constructor]. apply Forall_app; split; [done|]. apply Forall_app; split; [apply to_be16_bytes|done].
  - rewrite !length_app in *. rewrite Hlen2. cbn [length] in Hlen. lia.
Qed.

(** ** The reset *)

(** The checksum a receiver computes over a TCP segment and its pseudo header. *)
Definition tcp_check (src dst : IpAddr) (seg : list Z) : Z :=
  match src, dst with
  | V4 _, V4 _ => csum [octets src ++ octets dst ++ [0; 6] ++ to_be16 (Z.of_nat (length seg)); seg]
  | _, _ => csum [octets src ++ octets dst ++ to_be32 (Z.of_nat (length seg)) ++ [0; 0; 0; 6]; seg]
  end.

(** The finished segment. *)
Definition rst_filled (sport dport ack ck : Z) : list Z :=
  l4_bytes dport sport (to_be32 0 ++ to_be32 ack ++ [80; 20] ++ to_be16 0 ++ to_be16 ck ++ to_be16 0).

Lemma rst_splice sport dport ack ck :
  splice (rst_segment sport dport ack) 16 (to_be16 ck) = rst_filled sport dport ack ck.
Proof. reflexivity. Qed.

Definition rst_head (sport dport ack : Z) : list Z :=
  to_be16 dport ++ to_be16 sport ++ to_be32 0 ++ to_be32 ack ++ [80; 20] ++ to_be16 0.

Lemma rst_segment_split sport dport ack :
  rst_segment sport dport ack = rst_head sport dport ack ++ [0; 0] ++ [0; 0].
Proof. reflexivity. Qed.
Lemma rst_filled_split sport dport ack ck :
  rst_filled sport dport ack ck = rst_head sport dport ack ++ to_be16 ck ++ [0; 0].
Proof. reflexivity. Qed.

Lemma rst_head_bytes sport dport ack : bytes_ok (rst_head sport dport ack).
Proof.
  unfold rst_head. repeat (apply Forall_app; split); try apply to_be16_bytes; try apply to_be32_bytes.
  repeat (constructor; [split; lia|]). done.
Qed.

Lemma csum_two a b :
  bytes_ok a -> bytes_ok b -> Z.of_nat (length (a ++ b)) <= csum_limit -> csum [a; b] = csum [a ++ b].
Proof.
  intros Ha Hb Hl. rewrite !csum_eq; cbn [concat]; rewrite ?app_nil_r; try done.
  - constructor; [by apply Forall_app|done].
  - by repeat constructor.
Qed.

(** With the checksum filled in, the segment verifies against its pseudo header. *)
Lemma rst_checks pseudo sport dport ack :
  bytes_ok pseudo -> Nat.even (length pseudo) = true -> (length pseudo <= 40)%nat ->
  csum [pseudo; rst_filled sport dport ack (csum [pseudo; rst_segment sport dport ack])] = 0.
Proof.
  intros Hp He Hl. pose proof (rst_head_bytes sport dport ack) as Hh.
  assert (Hz : bytes_ok [0; 0]) by (repeat (constructor; [split; lia|]); done).
  rewrite rst_filled_split, rst_segment_split.
  assert (Hlh : length (rst_head sport dport ack) = 16%nat) by reflexivity.
  assert (Hbound : forall x : list Z, length x = 2%nat ->
    Z.of_nat (length (pseudo ++ rst_head sport dport ack ++ x ++ [0; 0])) <= csum_limit).
  { intros x Hx. rewrite !length_app, Hlh, Hx. cbn [length]. unfold csum_limit. lia. }
  rewrite (csum_two pseudo (rst_head sport dport ack ++ [0; 0] ++ [0; 0]));
    [|done|apply Forall_app; split; [done|by apply Forall_app]|by apply Hbound].
  rewrite csum_two; [|done| |apply Hbound, be_split_length].
  2: { apply Forall_app; split; [done|]. apply Forall_app; split; [apply to_be16_bytes|done]. }
  rewrite !(app_assoc pseudo). apply csum_fill; try done.
  - by apply Forall_app.
  - rewrite length_app, Hlh, Nat.even_add, He. done.
  - rewrite <- app_assoc. by apply Hbound.
Qed.

Definition rst_v4_head (s d : Z) (ck : list Z) : list Z :=
  v4_header [0; 0; 40; 0; 0; 0; 0; 64] ck [] 6 d s.

Lemma rst_v4_eq s d sport dport ack :
  exists ck, length ck = 2%nat
    /\ rst_v4 s d (rst_segment sport dport ack)
       = rst_v4_head s d ck ++ rst_filled sport dport ack
           (csum [octets (V4 d) ++ octets (V4 s) ++ [0; 6; 0; 20]; rst_segment sport dport ack])
    /\ csum [rst_v4_head s d ck] = 0.
Proof.
  set (a := [69; 0; 0; 40; 0; 0; 0; 0; 64; 6]). set (b := octets (V4 d) ++ octets (V4 s)).
  exists (to_be16 (csum [a ++ [0; 0] ++ b])).
  split; [apply be_split_length|]. split; [reflexivity|].
  change (rst_v4_head s d (to_be16 (csum [a ++ [0; 0] ++ b]))) with (a ++ to_be16 (csum [a ++ [0; 0] ++ b]) ++ octets (V4 d) ++ octets (V4 s) ++ []).
  rewrite app_nil_r. fold b.
  apply csum_fill; try done.
  - unfold a. repeat (constructor; [split; lia|]). done.
  - apply Forall_app; split; apply octets_bytes.
Qed.

Lemma rst_v6_eq s d sport dport ack :
  rst_v6 s d (rst_segment sport dport ack)
  = v6_header [0; 0; 0; 0; 20] 64 [] 6 d s
    ++ chain_bytes [] 6
    ++ rst_filled sport dport ack
         (csum [octets (V6 d) ++ octets (V6 s) ++ to_be32 20 ++ [0; 0; 0; 6]; rst_segment sport dport ack]).
Proof.
  unfold rst_v6. rewrite rst_splice. cbn [chain_bytes app]. unfold v6_header. cbn [chain_nh].
  rewrite <- !app_comm_cons, <- !app_assoc. reflexivity.
Qed.

(** The reset parses as the answer to the flow, and is itself never answered. *)
Lemma rst_read_back hdr src dst sport dport ack ck :
  0 <= sport < 65536 -> 0 <= dport < 65536 ->
  l3 (hdr ++ rst_filled sport dport ack ck) = Ok (mk_l3 6 src dst (length hdr)) ->
  parse (hdr ++ rst_filled sport dport ack ck) = Ok (mk_flow 6 src dst dport sport false)
  /\ tcp_rst (hdr ++ rst_filled sport dport ack ck) = Nope.
Proof.
  intros Hs Hd Hl3. split; [by apply parse_after_l3|].
  assert (Hlen : length (rst_filled sport dport ack ck) = 20%nat) by reflexivity.
  unfold tcp_rst. rewrite Hl3. cbn [mbind res_bind l3_proto l4]. change (6 =? 6) with true. cbn [negb orb].
  destruct (Nat.ltb_spec (length (hdr ++ rst_filled sport dport ack ck)) (length hdr + 20)) as [Hlt|];
    [rewrite length_app in Hlt; lia|].
  assert (Hfl : idx (hdr ++ rst_filled sport dport ack ck) (length hdr + 13) = Ok 20).
  { unfold idx. rewrite lookup_app_r by lia.
    by replace (length hdr + 13 - length hdr)%nat with 13%nat by lia. }
  by rewrite Hfl.
Qed.

(** What the code reads of the segment it answers. *)
Definition segment_seq (pkt : list Z) (h : L3) : Z := be_join 8 (take 4 (drop (l4 h + 4) pkt)).
Definition segment_flags (pkt : list Z) (h : L3) : Z := default 0 (pkt !! (l4 h + 13)%nat).

Lemma take_four (pkt : list Z) i a b c d :
  pkt !! i = Some a -> pkt !! (i + 1)%nat = Some b -> pkt !! (i + 2)%nat = Some c ->
  pkt !! (i + 3)%nat = Some d -> take 4 (drop i pkt) = [a; b; c; d].
Proof.
  intros Ha Hb Hc Hd. apply list_eq. intros j.
  destruct (decide (j < 4)%nat) as [Hj|Hj].
  - rewrite take_drop_lookup by done.
    do 4 (destruct j as [|j]; [by rewrite ?Nat.add_0_r|]). lia.
  - rewrite !lookup_ge_None_2; [done| |]; [cbn; lia|]. rewrite length_take. lia.
Qed.

Lemma tcp_rst_inv pkt r :
  bytes_ok pkt -> tcp_rst pkt = Ok r ->
  exists h f, l3 pkt = Ok h /\ parse pkt = Ok f /\ f_proto f = 6
    /\ f_src f = l3_src h /\ f_dst f = l3_dst h
    /\ 0 <= f_sport f < 65536 /\ 0 <= f_dport f < 65536
    /\ Z.land (segment_flags pkt h) 4 = 0
    /\ let ack := add32 (segment_seq pkt h) (if negb (Z.land (segment_flags pkt h) 2 =? 0) then 1 else 0) in
       let tcp := rst_segment (f_sport f) (f_dport f) ack in
       (exists s d, l3_src h = V4 s /\ l3_dst h = V4 d /\ r = rst_v4 s d tcp)
       \/ (exists s d, l3_src h = V6 s /\ l3_dst h = V6 d /\ r = rst_v6 s d tcp).
Proof.
  intros Hb H. unfold tcp_rst in H. apply res_bind_ok in H as (h & Hh & H).
  destruct (negb (l3_proto h =? 6) || (length pkt <? l4 h + 20)%nat) eqn:Eg; [done|].
  apply orb_false_iff in Eg as [Ep El]. apply negb_false_iff in Ep. pose proof (proj1 (Z.eqb_eq _ _) Ep) as Ep'.
  apply Nat.ltb_ge in El. apply res_bind_ok in H as (fl & Hfl%idx_inv & H).
  destruct (negb (Z.land fl 4 =? 0)) eqn:Efl; [done|]. apply negb_false_iff, Z.eqb_eq in Efl.
  apply res_bind_ok in H as (p0 & E0%idx_inv & H). apply res_bind_ok in H as (p1 & E1%idx_inv & H).
  apply res_bind_ok in H as (p2 & E2%idx_inv & H). apply res_bind_ok in H as (p3 & E3%idx_inv & H).
  apply res_bind_ok in H as (q0 & F0%idx_inv & H). apply res_bind_ok in H as (q1 & F1%idx_inv & H).
  apply res_bind_ok in H as (q2 & F2%idx_inv & H). apply res_bind_ok in H as (q3 & F3%idx_inv & H).
  cbv zeta in H.
  exists h, (mk_flow 6 (l3_src h) (l3_dst h) (be16 p0 p1) (be16 p2 p3)
               (negb (Z.land fl 2 =? 0) && (Z.land fl 16 =? 0))).
  cbn [f_proto f_src f_dst f_sport f_dport]. split; [done|]. split.
  { unfold parse. rewrite Hh. cbn [mbind res_bind].
    destruct (Nat.ltb_spec (length pkt) (l4 h + 4)); [lia|]. unfold idx. rewrite E0, E1, E2, E3, Hfl, Ep.
    destruct (Nat.leb_spec (l4 h + 14) (length pkt)); [|lia]. cbn [andb mbind res_bind]. by rewrite Ep'. }
  assert (Hby : forall i v, pkt !! i = Some v -> byte_ok v) by (intros; by eapply bytes_ok_lookup).
  split; [done|]. split; [done|]. split; [done|].
  split; [apply be16_bound; by eapply Hby|]. split; [apply be16_bound; by eapply Hby|].
  unfold segment_flags, segment_seq. rewrite Hfl. cbn [default]. split; [done|]. cbv zeta.
  replace (l4 h + 5)%nat with (l4 h + 4 + 1)%nat in F1 by lia.
  replace (l4 h + 6)%nat with (l4 h + 4 + 2)%nat in F2 by lia.
  replace (l4 h + 7)%nat with (l4 h + 4 + 3)%nat in F3 by lia.
  rewrite (take_four _ _ _ _ _ _ F0 F1 F2 F3).
  destruct (l3_src h) as [s|s], (l3_dst h) as [d|d]; try done; injection H as <-; [left|right]; eauto.
Qed.

(** C30. The reset that answers a denied segment: whenever one is built, it is addressed
    from the segment's destination back to its source (addresses and ports swapped), it
    carries RST and ACK with sequence number 0 and acknowledges the segment's sequence
    number (plus one for a SYN, modulo 2^32), its TCP checksum and its IPv4 header
    checksum verify, and it is never answered by a reset itself.  Nothing makes the
    construction read out of range. *)
Theorem tcp_rst_answers pkt :
  safe (tcp_rst pkt)
  /\ forall r, bytes_ok pkt -> tcp_rst pkt = Ok r ->
     exists h f hdr seg, l3 pkt = Ok h /\ parse pkt = Ok f /\ f_proto f = 6
       /\ parse r = Ok (mk_flow 6 (f_dst f) (f_src f) (f_dport f) (f_sport f) false)
       /\ r = hdr ++ seg /\ length seg = 20%nat /\ seg !! 13%nat = Some 20
       /\ take 8 (drop 4 seg) = to_be32 0 ++ to_be32
            (add32 (segment_seq pkt h) (if negb (Z.land (segment_flags pkt h) 2 =? 0) then 1 else 0))
       /\ tcp_check (f_dst f) (f_src f) seg = 0
       /\ (forall s, f_src f = V4 s -> csum [hdr] = 0)
       /\ tcp_rst r = Nope.
Proof.
  split.
  { unfold tcp_rst. apply safe_bind; [apply l3_safe|]. intros h _.
    destruct (negb (l3_proto h =? 6)); cbn [orb]; [res_safe|].
    destruct (Nat.ltb_spec (length pkt) (l4 h + 20)); [res_safe|].
    apply safe_bind; [res_safe|]. intros fl _. destruct (negb _); res_safe. cbv zeta.
    destruct (l3_src h), (l3_dst h); res_safe. }
  intros r Hb Hr. destruct (tcp_rst_inv pkt r Hb Hr) as (h & f & Hh & Hf & Hp & Es & Ed & Hs & Hd & _ & Hcase).
  destruct (l3_range _ _ Hb Hh) as (_ & Hso & Hdo). rewrite <- Es in Hso. rewrite <- Ed in Hdo.
  cbv zeta in Hcase. set (ack := add32 _ _) in *.
  destruct Hcase as [(s & d & Hs4 & Hd4 & ->)|(s & d & Hs6 & Hd6 & ->)].
  - rewrite <- Es in Hs4. rewrite <- Ed in Hd4. rewrite Hs4, Hd4 in *.
    destruct (rst_v4_eq s d (f_sport f) (f_dport f) ack) as (ck & Hck & -> & Hsum).
    set (cs := csum _). exists h, f, (rst_v4_head s d ck), (rst_filled (f_sport f) (f_dport f) ack cs).
    assert (Hl3 : l3 (rst_v4_head s d ck ++ rst_filled (f_sport f) (f_dport f) ack cs)
                  = Ok (mk_l3 6 (V4 d) (V4 s) (length (rst_v4_head s d ck))))
      by (apply (v4_l3 _ _ _ _ _ _ _ 0); (done || lia)).
    destruct (rst_read_back _ _ _ _ _ _ cs Hs Hd Hl3) as [Hparse Hno].
    rewrite Hs4, Hd4. split_and!; try done. unfold cs.
    apply (rst_checks (octets (V4 d) ++ octets (V4 s) ++ [0; 6; 0; 20])); [|reflexivity|cbn; lia].
    apply Forall_app; split; [apply octets_bytes|]. apply Forall_app; split; [apply octets_bytes|].
    repeat (constructor; [split; lia|]). done.
  - rewrite <- Es in Hs6. rewrite <- Ed in Hd6. rewrite Hs6, Hd6 in *.
    rewrite rst_v6_eq. set (cs := csum _). set (hdr := v6_header [0; 0; 0; 0; 20] 64 [] 6 d s).
    exists h, f, hdr, (rst_filled (f_sport f) (f_dport f) ack cs).
    assert (Hl3 : l3 (hdr ++ chain_bytes [] 6 ++ rst_filled (f_sport f) (f_dport f) ack cs)
                  = Ok (mk_l3 6 (V6 d) (V6 s) (length hdr))).
    { unfold hdr. rewrite v6_l3; done. }
    cbn [chain_bytes app] in Hl3 |- *.
    destruct (rst_read_back _ _ _ _ _ _ cs Hs Hd Hl3) as [Hparse Hno].
    rewrite Hs6, Hd6. split_and!; try done. unfold cs.
    apply (rst_checks (octets (V6 d) ++ octets (V6 s) ++ to_be32 20 ++ [0; 0; 0; 6])); [|reflexivity|cbn; lia].
    apply Forall_app; split; [apply octets_bytes|]. apply Forall_app; split; [apply octets_bytes|].
    apply Forall_app; split; [apply to_be32_bytes|]. repeat (constructor; [split; lia|]). done.
Qed.

(** A SYN from 1.2.3.4 port 40000 to 5.6.7.8 port 443. *)
Definition syn4 : list Z :=
  v4_header (replicate 8 0) [0; 0] [] 6 16909060 84281096 ++ l4_bytes 40000 443 tcp_tail.
Definition rst4 : list Z := match tcp_rst syn4 with Ok r => r | _ => [] end.

Lemma tcp_rst_answers_witness :
  length rst4 = 40%nat
  /\ exists f, parse syn4 = Ok f
       /\ parse rst4 = Ok (mk_flow 6 (f_dst f) (f_src f) (f_dport f) (f_sport f) false)
       /\ tcp_rst rst4 = Nope.
Proof.
  split; [vm_compute; reflexivity|].
  destruct (proj2 (tcp_rst_answers syn4) rst4) as (h & f & hdr & seg & _ & H1 & _ & H2 & _ & _ & _ & _ & _ & _ & H3).
  - repeat (constructor; [vm_compute; intuition discriminate|]). constructor.
  - vm_compute. reflexivity.
  - by exists f.
Defined.
