(* ===== verification/Dns.v ===== *)
(** Learning host names from DNS answers (dns.rs): the message parser, which reads
    hostile input, and the cache from addresses to names. *)
From S2P Require Import Prelude Unicode RustStr IpAddr.

(** ** Names *)

(** One iteration of the loop of [read_name]: it goes on at an offset, or is done. *)
Record Cursor : Type := mk_cursor { off : nat; out : str; after : option nat; hops : nat }.

Definition max_hops : nat := 16.

Definition read_step (b : list Z) (c : Cursor) : res (Cursor + (str * nat)) :=
  if (length b <=? off c)%nat then Nope
  else
    len ← idx b (off c);
    if Z.land len 192 =? 192 then
      if (length b <=? off c + 1)%nat then Nope
      else
        lo ← idx b (off c + 1);
        let ptr := Z.to_nat (Z.lor (Z.shiftl (Z.land len 63) 8) lo) in
        let after' := match after c with None => Some (off c + 2)%nat | Some a => Some a end in
        if (max_hops <? S (hops c))%nat || (length b <=? ptr)%nat then Nope
        else Ok (inl (mk_cursor ptr (out c) after' (S (hops c))))
    else if len =? 0 then
      Ok (inr (out c, default (off c + 1)%nat (after c)))
    else
      let n := Z.to_nat len in
      if (length b <? off c + 1 + n)%nat then Nope
      else
        label ← slice b (off c + 1) (off c + 1 + n);
        let out' := match out c with [] => [] | _ => out c ++ [46] end in
        Ok (inl (mk_cursor (off c + 1 + n) (out' ++ utf8_lossy label) (after c) (hops c))).

(** The loop; [None] when the fuel ran out. *)
Fixpoint read_loop (fuel : nat) (b : list Z) (c : Cursor) : option (res (str * nat)) :=
  match fuel with
  | O => None
  | S f =>
      match read_step b c with
      | Ok (inl c') => read_loop f b c'
      | Ok (inr r) => Some (Ok r)
      | Nope => Some Nope
      | Panic => Some Panic
      end
  end.

(** Enough iterations for any message: between two jumps the offset only grows, and there
    are at most [max_hops] jumps. *)
Definition name_fuel (b : list Z) : nat := (S max_hops * S (length b))%nat.

(** [read_name]; running out of fuel would show as [Panic]. *)
Definition read_name (b : list Z) (start : nat) : res (str * nat) :=
  default Panic (read_loop (name_fuel b) b (mk_cursor start [] None 0)).

(** ** Responses *)

(** [for _ in 1..qd]: skip the further questions. *)
Fixpoint skip_questions (n : nat) (b : list Z) (o : nat) : res nat :=
  match n with
  | O => Ok o
  | S n' => '(_, nx) ← read_name b o; skip_questions n' b (nx + 4)
  end.

(** [for _ in 0..an]: the addresses, up to a record that does not fit. *)
Fixpoint read_answers (n : nat) (b : list Z) (o : nat) (ips : list IpAddr) : res (list IpAddr) :=
  match n with
  | O => Ok ips
  | S n' =>
      '(_, o1) ← read_name b o;
      if (length b <? o1 + 10)%nat then Ok ips
      else
        t0 ← idx b o1; t1 ← idx b (o1 + 1);
        r0 ← idx b (o1 + 8); r1 ← idx b (o1 + 9);
        let rtype := be16 t0 t1 in
        let rdlen := be16 r0 r1 in
        let o2 := (o1 + 10)%nat in
        if (length b <? o2 + Z.to_nat rdlen)%nat then Ok ips
        else
          ips' ← (if (rtype =? 1) && (rdlen =? 4) then
                    a0 ← idx b o2; a1 ← idx b (o2 + 1); a2 ← idx b (o2 + 2); a3 ← idx b (o2 + 3);
                    Ok (ips ++ [v4_of [a0; a1; a2; a3]])
                  else if (rtype =? 28) && (rdlen =? 16) then
                    a ← slice b o2 (o2 + 16);
                    Ok (ips ++ [v6_of a])
                  else Ok ips);
          read_answers n' b (o2 + Z.to_nat rdlen) ips'
  end.

Definition parse_response (b : list Z) : res (str * list IpAddr) :=
  if (length b <? 12)%nat then Nope
  else
    f0 ← idx b 2; f1 ← idx b 3;
    if Z.land (be16 f0 f1) 32768 =? 0 then Nope
    else
      q0 ← idx b 4; q1 ← idx b 5;
      n0 ← idx b 6; n1 ← idx b 7;
      let qd := Z.to_nat (be16 q0 q1) in
      let an := Z.to_nat (be16 n0 n1) in
      if (qd =? 0)%nat || (an =? 0)%nat then Nope
      else
        '(qname, next) ← read_name b 12;
        o ← skip_questions (qd - 1) b (next + 4);
        ips ← read_answers an b o [];
        match ips with [] => Nope | _ => Ok (qname, ips) end.

(** ** The cache *)

(** Instants and durations are nanoseconds. *)
Definition seconds (n : Z) : Z := n * 1000000000.

Record DnsCache : Type := mk_dns { dns_map : gmap IpAddr (str * Z); dns_ttl : Z }.

Definition dns_new : DnsCache := mk_dns ∅ (seconds 3600).
Definition name_for (c : DnsCache) (ip : IpAddr) : option str := fst <$> dns_map c !! ip.
Definition dns_len (c : DnsCache) : nat := size (dns_map c).

(** [retain(|_, (_, t)| t.elapsed() < ttl)] at the instant [later]. *)
Definition expire (ttl later : Z) (m : gmap IpAddr (str * Z)) : gmap IpAddr (str * Z) :=
  filter (fun kv => later - kv.2.2 < ttl) m.

Definition dns_limit : nat := 4096.

(** [observe] with the clock read at [now] for the insertions and at [later] for the
    expiry. *)
Definition observe (now later : Z) (payload : list Z) (c : DnsCache) : DnsCache :=
  let m := match to_option (parse_response payload) with
           | Some (name, ips) => foldl (fun m ip => <[ip := (name, now)]> m) (dns_map c) ips
           | None => dns_map c
           end in
  mk_dns (if (dns_limit <? size m)%nat then expire (dns_ttl c) later m else m) (dns_ttl c).

(** ** No message makes the parser loop or read out of range *)

Lemma read_step_safe b c : safe (read_step b c).
Proof.
  unfold read_step. destruct (Nat.leb_spec (length b) (off c)); [done|].
  apply safe_bind; [by apply idx_safe|]. intros len _.
  destruct (Z.land len 192 =? 192).
  - destruct (Nat.leb_spec (length b) (off c + 1)); [done|].
    apply safe_bind; [by apply idx_safe|]. intros lo _. cbv zeta. by destruct (_ || _).
  - destruct (len =? 0); [done|]. cbv zeta.
    destruct (Nat.ltb_spec (length b) (off c + 1 + Z.to_nat len)); [done|].
    apply safe_bind; [apply slice_safe; lia|]. done.
Qed.

(** What is left to do: jumps, then bytes. *)
Definition todo (b : list Z) (c : Cursor) : nat := ((max_hops - hops c) * S (length b) + (length b - off c))%nat.

Lemma read_step_progress b c c' :
  bytes_ok b -> (hops c <= max_hops)%nat -> read_step b c = Ok (inl c') ->
  (hops c' <= max_hops)%nat /\ (todo b c' < todo b c)%nat.
Proof.
  intros Hb Hh. unfold read_step. destruct (Nat.leb_spec (length b) (off c)); [done|].
  intros (len & Hl%idx_inv & H1)%res_bind_ok. pose proof (bytes_ok_lookup _ _ _ Hb Hl) as Hlen.
  unfold todo. destruct (Z.land len 192 =? 192).
  - destruct (Nat.leb_spec (length b) (off c + 1)); [done|].
    apply res_bind_ok in H1 as (lo & _ & H1). cbv zeta in H1.
    destruct (Nat.ltb_spec max_hops (S (hops c))); cbn [orb] in H1; [done|].
    match type of H1 with (if (_ <=? ?p)%nat then _ else _) = _ => destruct (Nat.leb_spec (length b) p) end; [done|].
    injection H1 as <-. cbn [hops off]. split; [lia|].
    replace (max_hops - hops c)%nat with (S (max_hops - S (hops c))) by lia. lia.
  - destruct (Z.eqb_spec len 0); [done|]. cbv zeta in H1.
    destruct (Nat.ltb_spec (length b) (off c + 1 + Z.to_nat len)); [done|].
    apply res_bind_ok in H1 as (label & _ & H1). injection H1 as <-. cbn [hops off].
    unfold byte_ok in Hlen. split; [done|]. lia.
Qed.

Lemma read_loop_total b c fuel :
  bytes_ok b -> (hops c <= max_hops)%nat -> (todo b c < fuel)%nat ->
  exists r, read_loop fuel b c = Some r /\ safe r.
Proof.
  intros Hb. revert c. induction fuel as [|fuel IH]; intros c Hh Hf; [lia|]. cbn [read_loop].
  pose proof (read_step_safe b c) as Hs. destruct (read_step b c) as [[c'|r]| |] eqn:E; [| | |done].
  - destruct (read_step_progress b c c' Hb Hh E) as [Hh' Ht]. apply IH; [done|lia].
  - eexists. split; [done|]. done.
  - eexists. split; [done|]. done.
Qed.

Lemma name_fuel_enough b start : (todo b (mk_cursor start [] None 0) < name_fuel b)%nat.
Proof. unfold todo, name_fuel, max_hops. cbn [hops off]. lia. Qed.

Lemma read_name_safe b start : bytes_ok b -> safe (read_name b start).
Proof.
  intros Hb. unfold read_name.
  destruct (read_loop_total b (mk_cursor start [] None 0) (name_fuel b) Hb) as (r & -> & Hr);
    [cbn; lia|apply name_fuel_enough|done].
Qed.

Lemma skip_questions_safe n b o : bytes_ok b -> safe (skip_questions n b o).
Proof.
  intros Hb. revert o. induction n as [|n IH]; intros o; cbn [skip_questions]; [done|].
  apply safe_bind; [by apply read_name_safe|]. intros [? nx] _. apply IH.
Qed.

Lemma read_answers_safe n b o ips : bytes_ok b -> safe (read_answers n b o ips).
Proof.
  intros Hb. revert o ips. induction n as [|n IH]; intros o ips; cbn [read_answers]; [done|].
  apply safe_bind; [by apply read_name_safe|]. intros [? o1] _.
  destruct (Nat.ltb_spec (length b) (o1 + 10)); [done|].
  apply safe_bind; [apply idx_safe; lia|]. intros t0 _. apply safe_bind; [apply idx_safe; lia|]. intros t1 _.
  apply safe_bind; [apply idx_safe; lia|]. intros r0 _. apply safe_bind; [apply idx_safe; lia|]. intros r1 _.
  cbv zeta. set (rd := be16 r0 r1).
  destruct (Nat.ltb_spec (length b) (o1 + 10 + Z.to_nat rd)); [done|].
  apply safe_bind.
  - destruct ((be16 t0 t1 =? 1) && (rd =? 4)) eqn:E1.
    + bool_to_prop. repeat (apply safe_bind; [apply idx_safe; lia|intros ? _]). done.
    + destruct ((be16 t0 t1 =? 28) && (rd =? 16)) eqn:E2; [|done]. bool_to_prop.
      apply safe_bind; [apply slice_safe; lia|]. done.
  - intros ips' _. apply IH.
Qed.

(** C32. Hostile DNS input: on any bytes, reading a name ends within a number of iterations
    fixed by the message's length (compression pointers cannot loop it), and neither it
    nor the whole response parser reads out of range. *)
Theorem dns_parser_total b :
  bytes_ok b ->
  (forall start, exists r, read_loop (name_fuel b) b (mk_cursor start [] None 0) = Some r /\ safe r)
  /\ safe (parse_response b).
Proof.
  intros Hb. split.
  - intros start. apply read_loop_total; [done|cbn; lia|apply name_fuel_enough].
  - unfold parse_response. destruct (Nat.ltb_spec (length b) 12); [done|].
    apply safe_bind; [apply idx_safe; lia|]. intros f0 _. apply safe_bind; [apply idx_safe; lia|]. intros f1 _.
    destruct (_ =? 0); [done|].
    do 4 (apply safe_bind; [apply idx_safe; lia|]; intros ? _). cbv zeta. destruct (_ || _); [done|].
    apply safe_bind; [by apply read_name_safe|]. intros [qname next] _.
    apply safe_bind; [by apply skip_questions_safe|]. intros o _.
    apply safe_bind; [by apply read_answers_safe|]. by intros [|ip ips] _.
Qed.

(** ** A well-formed response is read back *)

Definition label_ok (l : list Z) : Prop := (0 < length l < 64)%nat.
Definition enc_labels (ls : list (list Z)) : list Z := concat (map (fun l => Z.of_nat (length l) :: l) ls).

(** The name the labels spell, after the text read so far. *)
Fixpoint name_from (acc : str) (ls : list (list Z)) : str :=
  match ls with
  | [] => acc
  | l :: ls' => name_from (match acc with [] => [] | _ => acc ++ [46] end ++ utf8_lossy l) ls'
  end.

Lemma label_not_pointer n : (n < 64)%nat -> Z.land (Z.of_nat n) 192 = 0.
Proof.
  intros Hn. assert (H : forallb (fun k => Z.land (Z.of_nat k) 192 =? 0) (seq 0 64) = true) by reflexivity.
  rewrite forallb_forall in H. apply Z.eqb_eq, H, in_seq. lia.
Qed.

Lemma idx_at (pre : list Z) x post : idx (pre ++ x :: post) (length pre) = Ok x.
Proof. unfold idx. rewrite lookup_app_r by lia. by rewrite Nat.sub_diag. Qed.
Lemma idx_at_plus (pre post : list Z) i x : post !! i = Some x -> idx (pre ++ post) (length pre + i) = Ok x.
Proof.
  intros Hx. unfold idx. rewrite lookup_app_r by lia.
  replace (length pre + i - length pre)%nat with i by lia. by rewrite Hx.
Qed.

Lemma slice_at (pre l post : list Z) : slice (pre ++ l ++ post) (length pre) (length pre + length l) = Ok l.
Proof.
  unfold slice. rewrite (proj2 (Nat.leb_le _ _)), (proj2 (Nat.leb_le _ _)) by (rewrite ?length_app; lia).
  cbn [andb]. rewrite drop_app_length. replace (length pre + length l - length pre)%nat with (length l) by lia.
  by rewrite take_app_length.
Qed.

Lemma read_loop_labels ls : forall fuel pre post o a h,
  Forall label_ok ls -> (length ls < fuel)%nat ->
  read_loop fuel (pre ++ enc_labels ls ++ 0 :: post) (mk_cursor (length pre) o a h)
  = Some (Ok (name_from o ls, default (length pre + length (enc_labels ls) + 1)%nat a)).
Proof.
  induction ls as [|l ls IH]; intros fuel pre post o a h Hok Hf; (destruct fuel as [|fuel]; [cbn in Hf; lia|]);
    cbn [read_loop]; unfold read_step; cbn [off out after hops].
  - cbn [enc_labels map concat app length name_from]. rewrite length_app. cbn [length].
    destruct (Nat.leb_spec (length pre + S (length post)) (length pre)); [lia|].
    rewrite idx_at. cbn [mbind res_bind]. change (Z.land 0 192 =? 192) with false.
    change (0 =? 0) with true. cbv iota. by rewrite Nat.add_0_r.
  - inversion_clear Hok as [|? ? Hl Hls]. unfold label_ok in Hl.
    change (enc_labels (l :: ls)) with (Z.of_nat (length l) :: l ++ enc_labels ls).
    set (tl := enc_labels ls ++ 0 :: post).
    replace (pre ++ (Z.of_nat (length l) :: l ++ enc_labels ls) ++ 0 :: post)
      with (pre ++ Z.of_nat (length l) :: l ++ tl) by (unfold tl; cbn [app]; by rewrite <- app_assoc).
    destruct (Nat.leb_spec (length (pre ++ Z.of_nat (length l) :: l ++ tl)) (length pre)) as [Hle|_];
      [rewrite length_app in Hle; cbn [length] in Hle; lia|].
    rewrite idx_at. cbn [mbind res_bind].
    rewrite label_not_pointer by lia. change (0 =? 192) with false. cbv iota.
    destruct (Z.eqb_spec (Z.of_nat (length l)) 0); [lia|]. rewrite Nat2Z.id.
    replace (pre ++ Z.of_nat (length l) :: l ++ tl) with ((pre ++ [Z.of_nat (length l)]) ++ l ++ tl)
      by (by rewrite <- app_assoc).
    assert (Hl1 : (length pre + 1)%nat = length (pre ++ [Z.of_nat (length l)]))
      by (rewrite length_app; cbn; lia).
    rewrite Hl1. cbv zeta.
    destruct (Nat.ltb_spec (length ((pre ++ [Z.of_nat (length l)]) ++ l ++ tl))
      (length (pre ++ [Z.of_nat (length l)]) + length l)) as [Hlt|_]; [rewrite !length_app in Hlt; lia|].
    rewrite slice_at. cbn [mbind res_bind]. unfold tl.
    replace (length (pre ++ [Z.of_nat (length l)]) + length l)%nat
      with (length ((pre ++ [Z.of_nat (length l)]) ++ l)) by (by rewrite length_app).
    rewrite (app_assoc (pre ++ [Z.of_nat (length l)]) l). rewrite IH by (done || (cbn in Hf; lia)).
    cbn [name_from]. do 4 f_equal. rewrite !length_app. cbn [length]. rewrite length_app. lia.
Qed.

Lemma enc_labels_count ls : Forall label_ok ls -> (length ls <= length (enc_labels ls))%nat.
Proof.
  induction 1 as [|l ls Hl _ IH]; [done|].
  change (enc_labels (l :: ls)) with (Z.of_nat (length l) :: l ++ enc_labels ls).
  cbn [length]. rewrite length_app. lia.
Qed.

Lemma read_name_labels pre ls post :
  Forall label_ok ls ->
  read_name (pre ++ enc_labels ls ++ 0 :: post) (length pre)
  = Ok (name_from [] ls, (length pre + length (enc_labels ls) + 1)%nat).
Proof.
  intros Hok. unfold read_name. rewrite read_loop_labels; [done|done|].
  pose proof (enc_labels_count ls Hok). unfold name_fuel, max_hops. rewrite !length_app. cbn [length]. lia.
Qed.

(** A name that is a pointer to the question's. *)
Definition ptr_bytes : list Z := [192; 12].

Lemma read_name_pointer hdr ls mid tail :
  length hdr = 12%nat -> Forall label_ok ls ->
  let q := hdr ++ enc_labels ls ++ 0 :: mid in
  read_name (q ++ ptr_bytes ++ tail) (length q) = Ok (name_from [] ls, (length q + 2)%nat).
Proof.
  intros Hh Hok q. unfold read_name.
  assert (Hb : q ++ ptr_bytes ++ tail = hdr ++ enc_labels ls ++ 0 :: mid ++ ptr_bytes ++ tail).
  { unfold q. rewrite <- !app_assoc. done. }
  pose proof (enc_labels_count ls Hok) as Hc.
  assert (Hf : exists f, name_fuel (q ++ ptr_bytes ++ tail) = S f /\ (length ls < f)%nat).
  { eexists (Nat.pred (name_fuel (q ++ ptr_bytes ++ tail))).
    unfold name_fuel, max_hops. rewrite Hb, !length_app. cbn [length]. rewrite !length_app. lia. }
  destruct Hf as (f & -> & Hf). cbn [read_loop]. unfold read_step. cbn [off out after hops].
  assert (Hlq : (12 < length q)%nat) by (unfold q; rewrite !length_app; cbn [length]; lia).
  destruct (Nat.leb_spec (length (q ++ ptr_bytes ++ tail)) (length q)) as [Hle|_];
    [rewrite length_app in Hle; cbn in Hle; lia|].
  destruct (Nat.leb_spec (length (q ++ ptr_bytes ++ tail)) (length q + 1)) as [Hle|_];
    [rewrite length_app in Hle; cbn in Hle; lia|].
  change (ptr_bytes ++ tail) with (192 :: 12 :: tail). rewrite idx_at. cbn [mbind res_bind].
  change (Z.land 192 192 =? 192) with true. cbv iota.
  rewrite (idx_at_plus _ _ _ 12) by done. cbn [mbind res_bind].
  change (Z.to_nat (Z.lor (Z.shiftl (Z.land 192 63) 8) 12)) with 12%nat. cbv zeta.
  change (max_hops <? 1)%nat with false. cbn [orb].
  destruct (Nat.leb_spec (length (q ++ 192 :: 12 :: tail)) 12) as [Hle|_];
    [rewrite length_app in Hle; lia|].
  change (q ++ 192 :: 12 :: tail) with (q ++ ptr_bytes ++ tail). rewrite Hb, <- Hh.
  by rewrite read_loop_labels.
Qed.

(** A resource record that names the question: its type, six bytes of class and TTL, its
    data. *)
Inductive Rdata : Type :=
| A (q : Z)
| Aaaa (q : Z)
| OtherData (ty : Z) (data : list Z).
Record Rr : Type := mk_rr { r_misc : list Z; r_data : Rdata }.

Definition rr_type (r : Rdata) : Z := match r with A _ => 1 | Aaaa _ => 28 | OtherData ty _ => ty end.
Definition rr_bytes (r : Rdata) : list Z :=
  match r with A q => octets (V4 q) | Aaaa q => octets (V6 q) | OtherData _ d => d end.
Definition rr_ip (r : Rr) : option IpAddr :=
  match r_data r with A q => Some (V4 q) | Aaaa q => Some (V6 q) | OtherData _ _ => None end.

Definition rr_ok (r : Rr) : Prop :=
  length (r_misc r) = 6%nat /\
  match r_data r with
  | A q => ip_ok (V4 q)
  | Aaaa q => ip_ok (V6 q)
  | OtherData ty d => 0 <= ty < 65536 /\ Z.of_nat (length d) < 65536
      /\ ~ (ty = 1 /\ length d = 4%nat) /\ ~ (ty = 28 /\ length d = 16%nat)
  end.

Definition enc_rr (r : Rr) : list Z :=
  ptr_bytes ++ to_be16 (rr_type (r_data r)) ++ r_misc r
  ++ to_be16 (Z.of_nat (length (rr_bytes (r_data r)))) ++ rr_bytes (r_data r).

Lemma rr_type_range r : rr_ok r -> 0 <= rr_type (r_data r) < 65536.
Proof. unfold rr_ok. destruct (r_data r); cbn; lia. Qed.
Lemma rr_length_range r : rr_ok r -> Z.of_nat (length (rr_bytes (r_data r))) < 65536.
Proof. unfold rr_ok. destruct (r_data r); cbn [rr_bytes octets]; rewrite ?be_split_length; lia. Qed.

(** One record: after its name, the address it holds is added and the offset moves past
    its data. *)
Lemma read_answer_step n q r tail name ips :
  rr_ok r ->
  read_name (q ++ enc_rr r ++ tail) (length q) = Ok (name, (length q + 2)%nat) ->
  read_answers (S n) (q ++ enc_rr r ++ tail) (length q) ips
  = read_answers n (q ++ enc_rr r ++ tail) (length (q ++ enc_rr r)) (ips ++ match rr_ip r with Some ip => [ip] | None => [] end).
Proof.
  intros Hr Hname. cbn [read_answers]. rewrite Hname. cbn [mbind res_bind].
  pose proof (rr_type_range r Hr) as Hty. pose proof (rr_length_range r Hr) as Hln. destruct Hr as [Hm Hd].
  destruct (to_be16_split _ Hty) as (t0 & t1 & Et & Et').
  destruct (to_be16_split (Z.of_nat (length (rr_bytes (r_data r)))) ltac:(lia)) as (l0 & l1 & El & El').
  destruct (r_misc r) as [|m1 [|m2 [|m3 [|m4 [|m5 [|m6 [|]]]]]]] eqn:Em; try done.
  set (d := rr_bytes (r_data r)) in *. set (ty := rr_type (r_data r)) in *.
  assert (Henc : enc_rr r = [192; 12; t0; t1; m1; m2; m3; m4; m5; m6; l0; l1] ++ d)
    by (unfold enc_rr; fold d ty; by rewrite Et, Em, El).
  rewrite Henc. set (b := q ++ ([192; 12; t0; t1; m1; m2; m3; m4; m5; m6; l0; l1] ++ d) ++ tail).
  assert (Hlb : length b = (length q + 12 + length d + length tail)%nat)
    by (unfold b; rewrite !length_app; cbn [length]; lia).
  destruct (Nat.ltb_spec (length b) (length q + 2 + 10)); [lia|].
  assert (Hi : forall i x, (([192; 12; t0; t1; m1; m2; m3; m4; m5; m6; l0; l1] ++ d) ++ tail) !! i = Some x ->
             idx b (length q + i) = Ok x) by (intros; by apply idx_at_plus).
  rewrite <- !Nat.add_assoc. cbn [Nat.add].
  rewrite (Hi 2%nat t0), (Hi 3%nat t1), (Hi 10%nat l0), (Hi 11%nat l1) by done.
  cbn [mbind res_bind]. rewrite Et', El', Nat2Z.id. cbv zeta. rewrite <- ?Nat.add_assoc.
  destruct (Nat.ltb_spec (length b) (length q + (12 + length d))); [lia|].
  replace (length (q ++ [192; 12; t0; t1; m1; m2; m3; m4; m5; m6; l0; l1] ++ d))
    with (length q + (12 + length d))%nat by (rewrite !length_app; cbn [length]; lia).
  assert (Hdat : forall i x, d !! i = Some x -> idx b (length q + (12 + i)) = Ok x).
  { intros i x Hx. apply Hi. rewrite <- app_assoc, lookup_app_r by (cbn [length]; lia).
    cbn [length]. replace (12 + i - 12)%nat with i by lia.
    by apply lookup_app_l_Some. }
  unfold rr_ip. destruct (r_data r) as [a|a|ty' d'] eqn:Ed.
  - destruct (octets4 a Hd) as (a0 & a1 & a2 & a3 & Eo & Ev).
    assert (Hd4 : d = [a0; a1; a2; a3]) by (by rewrite <- Eo).
    rewrite Hd4 in Hdat |- *. change ((ty =? 1) && (Z.of_nat (length [a0; a1; a2; a3]) =? 4)) with true. cbv iota.
    pose proof (Hdat 0%nat a0 eq_refl) as X0. pose proof (Hdat 1%nat a1 eq_refl) as X1.
    pose proof (Hdat 2%nat a2 eq_refl) as X2. pose proof (Hdat 3%nat a3 eq_refl) as X3.
    cbn [Nat.add] in X0, X1, X2, X3. rewrite X0, X1, X2, X3.
    cbn [mbind res_bind]. by rewrite Ev.
  - assert (Hl16 : length d = 16%nat) by apply be_split_length. rewrite Hl16.
    change (ty =? 1) with false. change ((ty =? 28) && (Z.of_nat 16 =? 16)) with true. cbn [andb]. cbv iota.
    assert (Hs : slice b (length q + 12) (length q + 12 + 16) = Ok d).
    { unfold b. replace (q ++ ([192; 12; t0; t1; m1; m2; m3; m4; m5; m6; l0; l1] ++ d) ++ tail)
        with ((q ++ [192; 12; t0; t1; m1; m2; m3; m4; m5; m6; l0; l1]) ++ d ++ tail) by (by rewrite <- !app_assoc).
      rewrite <- Hl16. replace (length q + 12)%nat with (length (q ++ [192; 12; t0; t1; m1; m2; m3; m4; m5; m6; l0; l1]))
        by (rewrite length_app; cbn; lia). apply slice_at. }
    rewrite <- Nat.add_assoc in Hs. change (12 + 16)%nat with 28%nat in Hs.
    rewrite Hs. cbn [mbind res_bind]. unfold v6_of.
    change d with (be_split 8 16 a). by rewrite (be_join_split 8 16 a ltac:(lia) Hd).
  - destruct Hd as (_ & _ & H1 & H2). change ty with ty'. change d with d'.
    destruct ((ty' =? 1) && (Z.of_nat (length d') =? 4)) eqn:E1; [bool_to_prop; exfalso; apply H1; lia|].
    destruct ((ty' =? 28) && (Z.of_nat (length d') =? 16)) eqn:E2; [bool_to_prop; exfalso; apply H2; lia|].
    cbn [mbind res_bind]. by rewrite app_nil_r.
Qed.

Lemma read_answers_enc rrs : forall q tail ips,
  Forall rr_ok rrs ->
  (forall pre r post, rrs = pre ++ r :: post -> forall x,
     exists name, read_name ((q ++ concat (map enc_rr pre)) ++ ptr_bytes ++ x) (length (q ++ concat (map enc_rr pre)))
       = Ok (name, (length (q ++ concat (map enc_rr pre)) + 2)%nat)) ->
  read_answers (length rrs) (q ++ concat (map enc_rr rrs) ++ tail) (length q) ips = Ok (ips ++ omap rr_ip rrs).
Proof.
  induction rrs as [|r rrs IH]; intros q tail ips Hok Hn; [cbn; by rewrite app_nil_r|].
  inversion_clear Hok as [|? ? Hr Hrs]. cbn [map concat length].
  rewrite <- app_assoc.
  destruct (Hn [] r rrs eq_refl (drop 2 (enc_rr r ++ concat (map enc_rr rrs) ++ tail))) as [name Hname].
  cbn [map concat] in Hname. rewrite app_nil_r in Hname.
  rewrite (read_answer_step _ _ _ _ name) by done.
  replace (q ++ enc_rr r ++ concat (map enc_rr rrs) ++ tail)
    with ((q ++ enc_rr r) ++ concat (map enc_rr rrs) ++ tail) by (by rewrite <- app_assoc).
  rewrite IH; [|done|].
  - f_equal. rewrite <- app_assoc. f_equal. cbn [omap list_omap]. by destruct (rr_ip r).
  - intros pre r' post E x. destruct (Hn (r :: pre) r' post ltac:(by rewrite E) x) as [nm Hnm].
    exists nm. cbn [map concat] in Hnm. rewrite <- !app_assoc in *. exact Hnm.
Qed.

(** A response with one question and answers that name it by compression. *)
Definition enc_response (id0 id1 flags : Z) (counts : list Z) (labels : list (list Z)) (qtail : list Z)
  (rrs : list Rr) (tail : list Z) : list Z :=
  ([id0; id1] ++ to_be16 flags ++ to_be16 1 ++ to_be16 (Z.of_nat (length rrs)) ++ counts)
  ++ enc_labels labels ++ 0 :: qtail ++ concat (map enc_rr rrs) ++ tail.

(** C33. A well-formed response (one question, any number of A, AAAA and other records
    whose names are compression pointers to it) is read as its question's name and the
    addresses of its A and AAAA records in order, and as nothing when there are none. *)
Theorem parse_response_reads_back id0 id1 flags counts labels qtail rrs tail :
  0 <= flags < 65536 -> Z.land flags 32768 <> 0 -> length counts = 4%nat -> length qtail = 4%nat ->
  Forall label_ok labels -> Forall rr_ok rrs -> (0 < length rrs)%nat -> Z.of_nat (length rrs) < 65536 ->
  parse_response (enc_response id0 id1 flags counts labels qtail rrs tail)
  = match omap rr_ip rrs with
    | [] => Nope
    | ips => Ok (name_from [] labels, ips)
    end.
Proof.
  intros Hf Hresp Hc Hq Hlab Hrr Hpos Hmax. unfold enc_response.
  destruct (to_be16_split flags Hf) as (f0 & f1 & Ef & Ef').
  destruct (to_be16_split (Z.of_nat (length rrs)) ltac:(lia)) as (n0 & n1 & En & En').
  rewrite Ef, En. change (to_be16 1) with [0; 1].
  destruct counts as [|c1 [|c2 [|c3 [|c4 [|]]]]]; try done. cbn [app].
  set (hdr := [id0; id1; f0; f1; 0; 1; n0; n1; c1; c2; c3; c4]).
  set (b := id0 :: id1 :: f0 :: _). assert (Hb : b = hdr ++ enc_labels labels ++ 0 :: qtail ++ concat (map enc_rr rrs) ++ tail) by done.
  assert (Hbl : (12 <= length b)%nat) by (rewrite Hb, length_app; cbn [length hdr]; lia).
  unfold parse_response. destruct (Nat.ltb_spec (length b) 12); [lia|].
  assert (Hi : forall i x, hdr !! i = Some x -> idx b i = Ok x).
  { intros i x Hx. unfold idx. rewrite Hb. by rewrite (lookup_app_l_Some _ _ _ _ Hx). }
  rewrite (Hi 2%nat f0), (Hi 3%nat f1), (Hi 4%nat 0), (Hi 5%nat 1), (Hi 6%nat n0), (Hi 7%nat n1) by done.
  cbn [mbind res_bind]. rewrite Ef', En'. destruct (Z.eqb_spec (Z.land flags 32768) 0); [done|].
  change (Z.to_nat (be16 0 1)) with 1%nat. rewrite Nat2Z.id. cbv zeta.
  destruct (Nat.eqb_spec (length rrs) 0); [lia|]. cbn [Nat.eqb orb].
  assert (Hq0 : read_name b 12 = Ok (name_from [] labels, (12 + length (enc_labels labels) + 1)%nat))
    by (rewrite Hb; exact (read_name_labels hdr labels _ Hlab)).
  rewrite Hq0. cbn [mbind res_bind skip_questions Nat.sub].
  set (q := hdr ++ enc_labels labels ++ 0 :: qtail).
  assert (Hlq : (12 + length (enc_labels labels) + 1 + 4)%nat = length q)
    by (unfold q; rewrite !length_app; cbn [length hdr]; lia).
  rewrite Hlq.
  assert (Hbq : b = q ++ concat (map enc_rr rrs) ++ tail)
    by (rewrite Hb; unfold q; rewrite <- !app_assoc; done).
  rewrite Hbq, read_answers_enc; [|done|].
  - cbn [mbind res_bind app]. by destruct (omap rr_ip rrs).
  - intros pre r post _ x. exists (name_from [] labels).
    replace (q ++ concat (map enc_rr pre)) with (hdr ++ enc_labels labels ++ 0 :: qtail ++ concat (map enc_rr pre))
      by (unfold q; rewrite <- !app_assoc; done).
    exact (read_name_pointer hdr labels (qtail ++ concat (map enc_rr pre)) x eq_refl Hlab).
Qed.

(** The cache: after [observe] of a message that carries addresses, every one of them
    (unless the clock moved past the time to live in between) has the message's question
    name; an address it does not carry keeps the name it had or, when the cache is full
    and the entry is old, loses it; no address ever gets another name.  A message that does
    not parse names nothing. *)
Theorem observe_names now later payload c :
  0 < dns_ttl c -> later - now < dns_ttl c ->
  (forall name ips, parse_response payload = Ok (name, ips) ->
     (forall ip, ip ∈ ips -> name_for (observe now later payload c) ip = Some name)
     /\ forall ip, ip ∉ ips -> name_for (observe now later payload c) ip = name_for c ip
          \/ name_for (observe now later payload c) ip = None
             /\ exists n t, dns_map c !! ip = Some (n, t) /\ dns_ttl c <= later - t)
  /\ (forall ip n, to_option (parse_response payload) = None ->
        name_for (observe now later payload c) ip = Some n -> name_for c ip = Some n).
Proof.
  intros Httl Hlater.
  assert (Hins : forall ips (name : str) (m : gmap IpAddr (str * Z)) ip, foldl (fun m ip => <[ip := (name, now)]> m) m ips !! ip
            = if bool_decide (ip ∈ ips) then Some (name, now) else m !! ip).
  { induction ips as [|i ips IH]; intros name m ip; cbn [foldl].
    - by rewrite bool_decide_eq_false_2 by apply not_elem_of_nil.
    - rewrite IH. destruct (decide (ip ∈ ips)) as [Hin|Hin].
      + rewrite (bool_decide_eq_true_2 (ip ∈ ips)) by done. by rewrite bool_decide_eq_true_2 by (by right).
      + rewrite (bool_decide_eq_false_2 (ip ∈ ips)) by done.
        destruct (decide (i = ip)) as [->|Hne].
        * rewrite lookup_insert_eq, bool_decide_eq_true_2; [done|by left].
        * rewrite lookup_insert_ne, bool_decide_eq_false_2; [done| |done].
          intros [->|?]%elem_of_cons; done. }
  assert (Hexp : forall m ip, expire (dns_ttl c) later m !! ip =
            match m !! ip with Some (n, t) => if decide (later - t < dns_ttl c) then Some (n, t) else None | None => None end).
  { intros m ip. unfold expire. rewrite map_lookup_filter. destruct (m !! ip) as [[n t]|]; [|done].
    cbn [mbind option_bind]. destruct (decide (later - t < dns_ttl c)); [by rewrite option_guard_True|by rewrite option_guard_False]. }
  unfold observe, name_for. split.
  - intros name ips ->. cbn [to_option dns_map]. set (m := foldl _ _ _). split.
    + intros ip Hin. assert (Hm : m !! ip = Some (name, now))
        by (unfold m; rewrite Hins; by rewrite bool_decide_eq_true_2).
      destruct (dns_limit <? size m)%nat; [|by rewrite Hm].
      rewrite Hexp, Hm. by rewrite decide_True by lia.
    + intros ip Hin. assert (Hm : m !! ip = dns_map c !! ip)
        by (unfold m; rewrite Hins; by rewrite bool_decide_eq_false_2).
      destruct (dns_limit <? size m)%nat; [|left; by rewrite Hm].
      rewrite Hexp, Hm. destruct (dns_map c !! ip) as [[n t]|] eqn:E; [|by left].
      destruct (decide (later - t < dns_ttl c)); [by left|right]. split; [done|]. exists n, t. split; [done|lia].
  - intros ip n ->. cbn [dns_map]. destruct (dns_limit <? size (dns_map c))%nat; [|done].
    rewrite Hexp. destruct (dns_map c !! ip) as [[n' t]|]; [|done]. by case_decide.
Qed.

(** ** A concrete message *)

Definition example_labels : list (list Z) := [utf8 $"example"; utf8 $"com"].
Definition example_msg : list Z :=
  enc_response 7 7 33152 [0; 0; 0; 0] example_labels [0; 1; 0; 1]
    [mk_rr [0; 1; 0; 0; 0; 60] (OtherData 5 [192; 12]); mk_rr [0; 1; 0; 0; 0; 60] (A 3405803785)] [].

Lemma dns_parser_total_witness : safe (parse_response example_msg).
Proof.
  apply dns_parser_total. repeat (constructor; [vm_compute; intuition discriminate|]). constructor.
Defined.

Lemma parse_response_reads_back_witness :
  parse_response example_msg = Ok ($"example.com", [V4 3405803785]).
Proof.
  refine (parse_response_reads_back 7 7 33152 [0; 0; 0; 0] example_labels [0; 1; 0; 1]
    [mk_rr [0; 1; 0; 0; 0; 60] (OtherData 5 [192; 12]); mk_rr [0; 1; 0; 0; 0; 60] (A 3405803785)] []
    _ _ eq_refl eq_refl _ _ _ _); try (cbn; lia).
  - vm_compute. discriminate.
  - repeat constructor; cbn; lia.
  - repeat constructor; cbn; lia.
Defined.

Lemma observe_names_witness :
  name_for (observe 5 6 example_msg dns_new) (V4 3405803785) = Some $"example.com".
Proof.
  destruct (observe_names 5 6 example_msg dns_new) as [H _]; [reflexivity|reflexivity|].
  apply (H $"example.com" [V4 3405803785]); [vm_compute; reflexivity|by left].
Defined.
