(* ===== verification/Procinfo.v ===== *)
(** Which process owns a flow (procinfo.rs): the socket tables, one per confidence tier,
    their construction from the process table, and the cached resolver.

    The process table comes from libprocstat, which is not part of this repository: what
    its calls return is the argument [procs] of [snapshot].  A C string is the bytes of
    its buffer; a socket address is the bytes of its [sockaddr_storage]. *)
From S2P Require Import Prelude Unicode RustStr IpAddr.

(** ** Data *)

Record Owner : Type := mk_owner { pid : Z; command : str; exe_path : str }.

Record Tuple : Type := mk_tuple { t_proto : Z; t_src : IpAddr; t_sport : Z; t_dst : IpAddr; t_dport : Z }.

#[export] Instance owner_eq_dec : EqDecision Owner.
Proof. solve_decision. Defined.
#[export] Instance tuple_eq_dec : EqDecision Tuple.
Proof. solve_decision. Defined.
#[export] Instance tuple_countable : Countable Tuple.
Proof.
  refine (inj_countable' (fun t => (t_proto t, t_src t, t_sport t, t_dst t, t_dport t))
    (fun x => let '(p, s, sp, d, dp) := x in mk_tuple p s sp d dp) _). by intros [].
Defined.

Inductive Confidence : Type := Kernel | Exact | Local | Port.

Definition confidence_str (c : Confidence) : str :=
  match c with
  | Kernel => $"kernel" | Exact => $"exact" | Local => $"local" | Port => $"port"
  end.

Record Attribution : Type := mk_attr { owner : Owner; confidence : Confidence }.

Record ProbeEntry : Type := mk_entry {
  pe_proto : Z; pe_local : IpAddr; pe_lport : Z; pe_peer : option (IpAddr * Z);
  pe_owner : Owner; pe_confidence : Confidence
}.

Abbreviation LocalKey := (Z * IpAddr * Z)%type.
Abbreviation PortKey := (Z * Z)%type.

Record Tables : Type := mk_tables {
  exact : gmap Tuple Owner;
  local_ : gmap LocalKey Owner;
  port_ : gmap PortKey Owner;
  contested_local : gset LocalKey;
  contested_port : gset PortKey
}.

Definition no_tables : Tables := mk_tables ∅ ∅ ∅ ∅ ∅.

(** ** Weak tiers *)

(** The body [add_local] and [add_port] share: the first process keeps the key, another
    process contests it. *)
Definition tier_add `{Countable K} (k : K) (o : Owner) (tier : gmap K Owner * gset K)
  : gmap K Owner * gset K :=
  let '(m, contested) := tier in
  match m !! k with
  | Some prev => if negb (pid prev =? pid o) then (m, {[k]} ∪ contested) else (m, contested)
  | None => (<[k := o]> m, contested)
  end.

#[global] Arguments tier_add : simpl never.

Definition add_local (k : LocalKey) (o : Owner) (t : Tables) : Tables :=
  let '(m, c) := tier_add k o (local_ t, contested_local t) in
  mk_tables (exact t) m (port_ t) c (contested_port t).

Definition add_port (k : PortKey) (o : Owner) (t : Tables) : Tables :=
  let '(m, c) := tier_add k o (port_ t, contested_port t) in
  mk_tables (exact t) (local_ t) m (contested_local t) c.

(** Look a weak key up: a contested one is refused. *)
Definition tier_get `{Countable K} (k : K) (m : gmap K Owner) (contested : gset K) : option Owner :=
  if bool_decide (k ∈ contested) then None else m !! k.

(** [Tables::get] *)
Definition get (t : Tables) (f : Tuple) (outbound : bool) : option Attribution :=
  match exact t !! f with
  | Some o => Some (mk_attr o Exact)
  | None =>
      if negb outbound then None
      else match tier_get (t_proto f, t_src f, t_sport f) (local_ t) (contested_local t) with
           | Some o => Some (mk_attr o Local)
           | None =>
               match tier_get (t_proto f, t_sport f) (port_ t) (contested_port t) with
               | Some o => Some (mk_attr o Port)
               | None => None
               end
           end
  end.

(** [Tables::entries], in the order the maps list their keys. *)
Definition entries (t : Tables) : list ProbeEntry :=
  map (fun '(f, o) => mk_entry (t_proto f) (t_src f) (t_sport f) (Some (t_dst f, t_dport f)) o Exact)
      (map_to_list (exact t))
  ++ omap (fun '((proto, ip, port), o) =>
             if bool_decide ((proto, ip, port) ∈ contested_local t) then None
             else Some (mk_entry proto ip port None o Local))
          (map_to_list (local_ t))
  ++ omap (fun '((proto, port), o) =>
             if bool_decide ((proto, port) ∈ contested_port t) then None
             else if existsb (fun '((p, _, lp), _) => (p =? proto) && (lp =? port)) (map_to_list (local_ t))
             then None
             else Some (mk_entry proto (V4 0) port None o Port))
          (map_to_list (port_ t)).

(** ** The snapshot *)

(** What libprocstat says of one socket: its protocol and its two addresses. *)
Record Sock : Type := mk_sock { sock_proto : Z; sa_local : list Z; sa_peer : list Z }.
(** One open file: its type and, for a socket, what [procstat_get_socket_info] filled in
    ([None] when that call fails). *)
Record FileStat : Type := mk_file { fs_type : Z; fs_sock : option Sock }.
(** One process: its pid, its name buffer, its path buffer ([None] when
    [procstat_getpathname] fails) and its files ([None] when it exited meanwhile). *)
Record Proc : Type := mk_proc {
  ki_pid : Z; ki_comm : list Z; pathbuf : option (list Z); files : option (list FileStat)
}.

Definition PS_FST_TYPE_SOCKET : Z := 3.
Definition AF_INET : Z := 2.
Definition AF_INET6 : Z := 28.

Definition byte_at (b : list Z) (i : nat) : Z := default 0 (b !! i).

(** [endpoint]: family at offset 1, port at 2, address at 4 (IPv4) or 8 (IPv6). *)
Definition endpoint (sa : list Z) : option (IpAddr * Z) :=
  let port := be16 (byte_at sa 2) (byte_at sa 3) in
  if byte_at sa 1 =? AF_INET then
    if port =? 0 then None else Some (v4_of (take 4 (drop 4 sa)), port)
  else if byte_at sa 1 =? AF_INET6 then
    if port =? 0 then None else Some (v6_of (take 16 (drop 8 sa)), port)
  else None.

Definition c_string (b : list Z) : str := utf8_lossy (until_nul b).

Definition unknown_path (command : str) : str := $"<unknown:" ++ command ++ $">".

(** The owner record of a process. *)
Definition proc_owner (p : Proc) : Owner :=
  let command := c_string (ki_comm p) in
  let path := match pathbuf p with
              | Some buf => match c_string buf with [] => unknown_path command | s => s end
              | None => unknown_path command
              end in
  mk_owner (ki_pid p) command path.

(** The unconnected branch (also the test seam [insert_unconnected]). *)
Definition insert_unconnected (proto : Z) (local : IpAddr) (port : Z) (o : Owner) (t : Tables) : Tables :=
  if is_unspecified local then add_port (proto, port) o t
  else add_port (proto, port) o (add_local (proto, local, port) o t).

Definition insert_exact (f : Tuple) (o : Owner) (t : Tables) : Tables :=
  mk_tables (<[f := o]> (exact t)) (local_ t) (port_ t) (contested_local t) (contested_port t).

Definition add_socket (o : Owner) (s : Sock) (t : Tables) : Tables :=
  let proto := sock_proto s mod 256 in
  match endpoint (sa_local s), endpoint (sa_peer s) with
  | Some (sa, sp), Some (da, dp) => insert_exact (mk_tuple proto sa sp da dp) o t
  | Some (sa, sp), None => insert_unconnected proto sa sp o t
  | _, _ => t
  end.

Definition add_file (o : Owner) (t : Tables) (f : FileStat) : Tables :=
  if fs_type f =? PS_FST_TYPE_SOCKET then
    match fs_sock f with Some s => add_socket o s t | None => t end
  else t.

Definition add_proc (t : Tables) (p : Proc) : Tables :=
  match files p with
  | None => t
  | Some fs => foldl (add_file (proc_owner p)) t fs
  end.

(** [snapshot]; [None] when the process table cannot be read. *)
Definition snapshot (procs : option (list Proc)) : Tables :=
  match procs with None => no_tables | Some ps => foldl add_proc no_tables ps end.

(** ** The resolver *)

Record Resolver : Type := mk_resolver {
  tables : Tables; last_scan : option Z; ttl : Z; missed : gset Tuple
}.

(** 750 ms *)
Definition resolver_new : Resolver := mk_resolver no_tables None 750000000 ∅.

(** [resolve] at the instant [now]; [scan] is what a rescan would read, finished at
    [scanned].  The last component says whether it rescanned. *)
Definition resolve (now scanned : Z) (scan : option (list Proc)) (r : Resolver) (t : Tuple)
  (outbound : bool) : Resolver * option Attribution * bool :=
  match get (tables r) t outbound with
  | Some a => (r, Some a, false)
  | None =>
      let stale := match last_scan r with Some i => ttl r <? now - i | None => true end in
      let rescan := stale || negb (bool_decide (t ∈ missed r)) in
      let r' := if rescan then mk_resolver (snapshot scan) (Some scanned) (ttl r) ∅ else r in
      let again := if rescan then get (tables r') t outbound else None in
      match again with
      | Some a => (r', Some a, rescan)
      | None => (mk_resolver (tables r') (last_scan r') (ttl r') ({[t]} ∪ missed r'), None, rescan)
      end
  end.

(** ** Is a daemon running? *)

(** The argument vectors of the processes, by pid; [None] when it cannot be read. *)
Definition DAEMON_MODES : list str := [$"visibility"; $"enforcement"; $"listen"; $"enforce"].

Definition is_daemon_argv (argv : list (list Z)) : bool :=
  let words := map c_string (take 8 argv) in
  match words with
  | a :: m :: _ => str_eqb (basename a) $"pfsnitch" && bool_decide (m ∈ DAEMON_MODES)
  | _ => false
  end.

Definition daemon_running (me : Z) (procs : option (list (Z * option (list (list Z))))) : bool :=
  match procs with
  | None => false
  | Some ps => existsb (fun '(p, argv) =>
      negb (p =? me) && match argv with Some a => is_daemon_argv a | None => false end) ps
  end.

(** ** What the process table claims *)

(** One attributable socket: connected, or bound without a peer. *)
Inductive Claim : Type :=
| Connected (f : Tuple) (o : Owner)
| Bound (proto : Z) (local : IpAddr) (port : Z) (o : Owner).

Definition sock_claim (o : Owner) (s : Sock) : option Claim :=
  let proto := sock_proto s mod 256 in
  match endpoint (sa_local s), endpoint (sa_peer s) with
  | Some (sa, sp), Some (da, dp) => Some (Connected (mk_tuple proto sa sp da dp) o)
  | Some (sa, sp), None => Some (Bound proto sa sp o)
  | _, _ => None
  end.

(** Every attributable socket of the process table, in the order it lists them. *)
Definition file_claim (o : Owner) (f : FileStat) : option Claim :=
  if fs_type f =? PS_FST_TYPE_SOCKET then s ← fs_sock f; sock_claim o s else None.
Definition claims (procs : option (list Proc)) : list Claim :=
  concat (map (fun p => omap (file_claim (proc_owner p)) (default [] (files p))) (default [] procs)).

Definition apply_claim (t : Tables) (c : Claim) : Tables :=
  match c with
  | Connected f o => insert_exact f o t
  | Bound proto ip port o => insert_unconnected proto ip port o t
  end.

Lemma add_file_claim o t f :
  add_file o t f = match file_claim o f with Some c => apply_claim t c | None => t end.
Proof.
  unfold add_file, file_claim. destruct (fs_type f =? PS_FST_TYPE_SOCKET); [|done].
  destruct (fs_sock f) as [s|]; [|done]. cbn [mbind option_bind]. unfold add_socket, sock_claim.
  destruct (endpoint (sa_local s)) as [[sa sp]|]; [|done].
  by destruct (endpoint (sa_peer s)) as [[da dp]|].
Qed.

Lemma snapshot_claims procs : snapshot procs = foldl apply_claim no_tables (claims procs).
Proof.
  destruct procs as [ps|]; [|done]. unfold snapshot, claims. change (default [] (Some ps)) with ps.
  generalize no_tables as t. induction ps as [|p ps IH]; intros t; [done|].
  cbn [foldl map concat].
  rewrite foldl_app, IH. f_equal. unfold add_proc.
  destruct (files p) as [fs|]; [|done]. change (default [] (Some fs)) with fs.
  revert t. induction fs as [|f fs IH2]; intros t; [done|]. cbn [foldl omap list_omap].
  rewrite IH2, add_file_claim. by destruct (file_claim _ f).
Qed.

(** The claims on the keys of a tier. *)
Definition local_claim (c : Claim) : option (LocalKey * Owner) :=
  match c with
  | Bound proto ip port o => if is_unspecified ip then None else Some ((proto, ip, port), o)
  | Connected _ _ => None
  end.
Definition port_claim (c : Claim) : option (PortKey * Owner) :=
  match c with Bound proto _ port o => Some ((proto, port), o) | Connected _ _ => None end.

Definition tier_of `{Countable K} (l : list (K * Owner)) : gmap K Owner * gset K :=
  foldl (fun tr ko => tier_add ko.1 ko.2 tr) (∅, ∅) l.

Lemma foldl_tiers cs t :
  let t' := foldl apply_claim t cs in
  (local_ t', contested_local t')
    = foldl (fun tr ko => tier_add ko.1 ko.2 tr) (local_ t, contested_local t) (omap local_claim cs)
  /\ (port_ t', contested_port t')
    = foldl (fun tr ko => tier_add ko.1 ko.2 tr) (port_ t, contested_port t) (omap port_claim cs).
Proof.
  cbv zeta. revert t. induction cs as [|c cs IH]; intros t; [done|]. cbn [foldl omap list_omap].
  destruct (IH (apply_claim t c)) as [-> ->]. destruct c as [f o|proto ip port o]; [done|].
  cbn [apply_claim local_claim port_claim]. unfold insert_unconnected, add_port, add_local.
  destruct (is_unspecified ip); cbn [foldl fst snd].
  - destruct (tier_add (proto, port) o _) as [m c] eqn:E. cbn. by rewrite ?E.
  - destruct (tier_add (proto, ip, port) o _) as [m c] eqn:E. cbn.
    destruct (tier_add (proto, port) o _) as [m2 c2] eqn:E2. cbn. by rewrite ?E, ?E2.
Qed.

Lemma foldl_exact cs t f :
  (forall o, exact (foldl apply_claim t cs) !! f = Some o -> Connected f o ∈ cs \/ exact t !! f = Some o)
  /\ (exact (foldl apply_claim t cs) !! f = None <-> exact t !! f = None /\ forall o, Connected f o ∉ cs).
Proof.
  revert t. induction cs as [|c cs IH]; intros t; cbn [foldl].
  - split; [auto|]. split; [|tauto]. intros H. split; [done|]. intros o. apply not_elem_of_nil.
  - destruct (IH (apply_claim t c)) as [IH1 IH2]. destruct c as [g o'|proto ip port o']; cbn [apply_claim] in *.
    + cbn [exact insert_exact] in *. split.
      * intros o [Ho|Ho]%IH1; [left; by right|]. destruct (decide (g = f)) as [->|Hne].
        { rewrite lookup_insert_eq in Ho. injection Ho as ->. left. by left. }
        rewrite lookup_insert_ne in Ho by done. auto.
      * rewrite IH2. split.
        { intros [Hn Hc]. destruct (decide (g = f)) as [->|Hne]; [by rewrite lookup_insert_eq in Hn|].
          rewrite lookup_insert_ne in Hn by done. split; [done|]. intros o [[= <- <-]|Hin]%elem_of_cons; [done|].
          by eapply Hc. }
        { intros [Hn Hc]. assert (g <> f) by (intros ->; by apply (Hc o'); left).
          rewrite lookup_insert_ne by done. split; [done|]. intros o Hin. apply (Hc o). by right. }
    + assert (E : exact (insert_unconnected proto ip port o' t) = exact t).
      { unfold insert_unconnected, add_port, add_local.
        repeat (match goal with |- context [tier_add ?k ?o ?x] => destruct (tier_add k o x) end; cbn).
        by destruct (is_unspecified ip); repeat (match goal with |- context [tier_add ?k ?o ?x] => destruct (tier_add k o x) end; cbn). }
      rewrite E in *. split.
      * intros o [Ho|Ho]%IH1; [left; by right|by right].
      * rewrite IH2. split; intros [Hn Hc]; (split; [done|]); intros o Hin.
        { apply elem_of_cons in Hin as [|Hin]; [done|]. by eapply Hc. }
        { apply (Hc o). by right. }
Qed.

(** ** What a tier knows *)

Lemma tier_of_spec `{Countable K} (l : list (K * Owner)) (k : K) :
  let '(m, s) := tier_of l in
  match m !! k with
  | None => (forall o, (k, o) ∉ l) /\ k ∉ s
  | Some o => (k, o) ∈ l /\ (k ∈ s <-> exists o', (k, o') ∈ l /\ pid o' <> pid o)
  end.
Proof.
  unfold tier_of. induction l as [|[k' o'] l IH] using rev_ind.
  - cbn. rewrite lookup_empty. split; [intros o; apply not_elem_of_nil|apply not_elem_of_empty].
  - rewrite foldl_app. cbn [foldl fst snd]. destruct (foldl _ _ l) as [m s]. unfold tier_add.
    assert (Hin : forall x, (k, x) ∈ l ++ [(k', o')] <-> (k, x) ∈ l \/ (k = k' /\ x = o')).
    { intros x. rewrite elem_of_app, list_elem_of_singleton. naive_solver. }
    destruct (decide (k' = k)) as [->|Hk].
    + destruct (m !! k) as [o|] eqn:E.
      * destruct IH as [Hl Hs]. destruct (Z.eqb_spec (pid o) (pid o')) as [Ep|Ep]; cbn [negb]; rewrite E;
          setoid_rewrite Hin.
        { split; [by left|]. rewrite Hs. split; [naive_solver|].
          intros (x & [Hx|[_ ->]] & Hp); [eauto|congruence]. }
        { split; [by left|]. split; [|set_solver]. intros _. exists o'. split; [by right|congruence]. }
      * destruct IH as [Hno Hs]. rewrite lookup_insert_eq. setoid_rewrite Hin.
        split; [by right|]. split; [done|].
        intros (x & [Hx|[_ ->]] & Hp); [by destruct (Hno x)|done].
    + set (tr := match m !! k' with Some prev => _ | None => _ end).
      assert (Hsame : tr.1 !! k = m !! k /\ (k ∈ tr.2 <-> k ∈ s)).
      { unfold tr. destruct (m !! k') as [prev|]; [destruct (negb _)|];
          cbn [fst snd]; (split; [by rewrite ?lookup_insert_ne by done|set_solver]). }
      destruct tr as [m' s']. cbn [fst snd] in Hsame. destruct Hsame as [-> Hs'].
      destruct (m !! k) as [o|]; setoid_rewrite Hin.
      * destruct IH as [Hl Hs]. split; [by left|]. rewrite Hs', Hs. split; [naive_solver|].
        intros (x & [Hx|[? ?]] & Hp); [eauto|congruence].
      * destruct IH as [Hno Hs]. split; [|by rewrite Hs']. intros o [Ho|[? ?]]; [by eapply Hno|congruence].
Qed.

Lemma tier_get_some `{Countable K} (l : list (K * Owner)) k o :
  tier_get k (tier_of l).1 (tier_of l).2 = Some o ->
  (k, o) ∈ l /\ forall o', (k, o') ∈ l -> pid o' = pid o.
Proof.
  pose proof (tier_of_spec l k) as Hs. destruct (tier_of l) as [m s]. unfold tier_get. cbn [fst snd].
  case_bool_decide as Hk; [done|]. intros E. rewrite E in Hs. destruct Hs as [Hin Hiff]. split; [done|].
  intros o' Ho'. destruct (decide (pid o' = pid o)); [done|]. exfalso. apply Hk, Hiff. eauto.
Qed.

Lemma tier_get_none `{Countable K} (l : list (K * Owner)) k :
  tier_get k (tier_of l).1 (tier_of l).2 = None ->
  (forall o, (k, o) ∉ l) \/ exists o o', (k, o) ∈ l /\ (k, o') ∈ l /\ pid o' <> pid o.
Proof.
  pose proof (tier_of_spec l k) as Hs. destruct (tier_of l) as [m s]. unfold tier_get. cbn [fst snd].
  destruct (m !! k) as [o|]; [|destruct Hs; by left].
  case_bool_decide as Hk; [|done]. destruct Hs as [Hin Hiff]. apply Hiff in Hk as (o' & ? & ?). right. eauto.
Qed.

(** ** Lookup against the process table *)

(** The sockets bound without a peer whose weak keys a flow would use. *)
Definition binds_local (f : Tuple) (c : Claim) (o : Owner) : Prop :=
  is_unspecified (t_src f) = false /\ c = Bound (t_proto f) (t_src f) (t_sport f) o.
Definition binds_port (f : Tuple) (c : Claim) (o : Owner) : Prop :=
  exists ip, c = Bound (t_proto f) ip (t_sport f) o.

Lemma local_key_claim (cs : list Claim) f o :
  ((t_proto f, t_src f, t_sport f), o) ∈ omap local_claim cs <-> exists c, c ∈ cs /\ binds_local f c o.
Proof.
  rewrite list_elem_of_omap. split.
  - intros (c & Hc & E). exists c. split; [done|]. destruct c as [g o'|proto ip port o']; [done|].
    cbn [local_claim] in E. destruct (is_unspecified ip) eqn:Ei; [done|]. injection E as -> -> -> ->.
    by split.
  - intros (c & Hc & Hu & ->). exists (Bound (t_proto f) (t_src f) (t_sport f) o). split; [done|].
    cbn. by rewrite Hu.
Qed.

Lemma port_key_claim (cs : list Claim) f o :
  ((t_proto f, t_sport f), o) ∈ omap port_claim cs <-> exists c, c ∈ cs /\ binds_port f c o.
Proof.
  rewrite list_elem_of_omap. split.
  - intros (c & Hc & E). exists c. split; [done|]. destruct c as [g o'|proto ip port o']; [done|].
    injection E as -> -> ->. by exists ip.
  - intros (c & Hc & ip & ->). by exists (Bound (t_proto f) ip (t_sport f) o).
Qed.

(** Two different processes hold the key. *)
Definition contested (binds : Claim -> Owner -> Prop) (cs : list Claim) : Prop :=
  exists c o c' o', c ∈ cs /\ binds c o /\ c' ∈ cs /\ binds c' o' /\ pid o' <> pid o.

(** Somebody holds the key, and everybody who does is that process. *)
Definition held_by (binds : Claim -> Owner -> Prop) (cs : list Claim) (o : Owner) : Prop :=
  (exists c, c ∈ cs /\ binds c o) /\ forall c o', c ∈ cs -> binds c o' -> pid o' = pid o.

Lemma snapshot_get procs f outbound :
  get (snapshot procs) f outbound =
    match exact (snapshot procs) !! f with
    | Some o => Some (mk_attr o Exact)
    | None =>
        if negb outbound then None
        else
          let l := tier_of (omap local_claim (claims procs)) in
          let p := tier_of (omap port_claim (claims procs)) in
          match tier_get (t_proto f, t_src f, t_sport f) l.1 l.2 with
          | Some o => Some (mk_attr o Local)
          | None => match tier_get (t_proto f, t_sport f) p.1 p.2 with
                    | Some o => Some (mk_attr o Port)
                    | None => None
                    end
          end
    end.
Proof.
  unfold get. rewrite snapshot_claims. destruct (foldl_tiers (claims procs) no_tables) as [E1 E2].
  cbn [local_ contested_local port_ contested_port no_tables] in E1, E2. unfold tier_of.
  rewrite <- E1, <- E2. done.
Qed.

(** C34. Attribution never names the wrong process.  A flow looked up in a snapshot is
    attributed exactly only to an owner of a socket connected on that very tuple; on the
    weak tiers only when it is outbound, no socket is connected on the tuple, and every
    process holding the local address and port (or, for the weakest tier, the port) is
    the same one; a flow that is left unattributed has no connected socket and, when
    outbound, no weak key that a single process holds. *)
Theorem get_sound procs f outbound :
  match get (snapshot procs) f outbound with
  | Some (mk_attr o Exact) => Connected f o ∈ claims procs
  | Some (mk_attr o Local) =>
      outbound = true /\ (forall o', Connected f o' ∉ claims procs) /\ held_by (binds_local f) (claims procs) o
  | Some (mk_attr o Port) =>
      outbound = true /\ (forall o', Connected f o' ∉ claims procs)
      /\ ~ (exists o', held_by (binds_local f) (claims procs) o') /\ held_by (binds_port f) (claims procs) o
  | Some (mk_attr _ Kernel) => False
  | None =>
      (forall o, Connected f o ∉ claims procs)
      /\ (outbound = true ->
            ~ (exists o, held_by (binds_local f) (claims procs) o)
            /\ ~ (exists o, held_by (binds_port f) (claims procs) o))
  end.
Proof.
  rewrite snapshot_get. destruct (foldl_exact (claims procs) no_tables f) as [He1 He2].
  rewrite <- snapshot_claims in He1, He2. cbn [exact no_tables] in He1, He2.
  assert (Hheld : forall o l, (forall x, ((t_proto f, t_src f, t_sport f), x) ∈ l <-> exists c, c ∈ claims procs /\ binds_local f c x) ->
            tier_get (t_proto f, t_src f, t_sport f) (tier_of l).1 (tier_of l).2 = Some o ->
            held_by (binds_local f) (claims procs) o).
  { intros o l Hl [Hin Hall]%tier_get_some. split; [by apply Hl|]. intros c o' Hc Hb. apply Hall, Hl. eauto. }
  assert (Hnot : forall l, (forall x, ((t_proto f, t_src f, t_sport f), x) ∈ l <-> exists c, c ∈ claims procs /\ binds_local f c x) ->
            tier_get (t_proto f, t_src f, t_sport f) (tier_of l).1 (tier_of l).2 = None ->
            ~ exists o, held_by (binds_local f) (claims procs) o).
  { intros l Hl [Hno|(o1 & o2 & H1 & H2 & Hp)]%tier_get_none (o & (c & Hc & Hb) & Hall).
    - apply (Hno o), Hl. eauto.
    - apply Hl in H1 as (c1 & Hc1 & Hb1), H2 as (c2 & Hc2 & Hb2).
      apply Hp. by rewrite (Hall c1 o1), (Hall c2 o2). }
  destruct (exact (snapshot procs) !! f) as [o|] eqn:E.
  { destruct (He1 o eq_refl) as [Hc|Hc]; [done|]. by rewrite lookup_empty in Hc. }
  destruct (proj1 He2 eq_refl) as [_ Hno]. destruct outbound; cbn [negb]; [|done]. cbv zeta.
  destruct (tier_get _ (tier_of (omap local_claim _)).1 _) as [o|] eqn:El.
  { split; [done|]. split; [done|]. eapply Hheld; [apply local_key_claim|exact El]. }
  pose proof (Hnot _ (local_key_claim (claims procs) f) El) as Hnl.
  destruct (tier_get _ (tier_of (omap port_claim _)).1 _) as [o|] eqn:Ep.
  - apply tier_get_some in Ep as [Hin Hall]. split; [done|]. split; [done|]. split; [done|]. split.
    + by apply port_key_claim.
    + intros c o' Hc Hb. apply Hall, port_key_claim. eauto.
  - split; [done|]. intros _. split; [done|].
    apply tier_get_none in Ep as [Hnp|(o1 & o2 & H1 & H2 & Hp)]; intros (o & (c & Hc & Hb) & Hall).
    + apply (Hnp o), port_key_claim. eauto.
    + apply port_key_claim in H1 as (c1 & Hc1 & Hb1), H2 as (c2 & Hc2 & Hb2).
      apply Hp. by rewrite (Hall c1 o1), (Hall c2 o2).
Qed.

(** ** The resolver *)

(** The resolver answers from the tables it ends up with, which are the old ones or a
    fresh snapshot; it never answers from a snapshot it did not take; a flow it could not
    attribute is remembered, so that asking again within the time to live neither rescans
    nor answers; and a flow the current tables name costs no scan at all. *)
Theorem resolve_spec now scanned scan r f outbound r' a did :
  resolve now scanned scan r f outbound = (r', a, did) ->
  a = get (tables r') f outbound
  /\ tables r' = (if did then snapshot scan else tables r)
  /\ (did = true -> last_scan r' = Some scanned)
  /\ (is_Some (get (tables r) f outbound) -> did = false)
  /\ (a = None -> forall now2 scanned2 scan2,
        (exists at_, last_scan r' = Some at_ /\ now2 - at_ <= ttl r') ->
        resolve now2 scanned2 scan2 r' f outbound = (r', None, false)).
Proof.
  unfold resolve. destruct (get (tables r) f outbound) as [a0|] eqn:E.
  { intros [= <- <- <-]. by rewrite E. }
  destruct ((match last_scan r with Some i => ttl r <? now - i | None => true end) || _) eqn:Es.
  - cbn [tables last_scan ttl missed]. destruct (get (snapshot scan) f outbound) as [a1|] eqn:E1.
    + intros [= <- <- <-]. cbn [tables last_scan]. rewrite E1. split_and!; done.
    + intros [= <- <- <-]. cbn [tables last_scan ttl missed]. rewrite E1. split_and!; try done. 
      intros _ now2 scanned2 scan2 (at_ & [= <-] & Hle).
      rewrite (proj2 (Z.ltb_ge _ _)) by lia. rewrite bool_decide_eq_true_2 by set_solver. cbn [negb orb].
      cbn [tables last_scan ttl missed]. do 3 f_equal. set_solver.
  - intros [= <- <- <-]. cbn [tables last_scan ttl missed]. rewrite E. split_and!; try done.
    intros _ now2 scanned2 scan2 (at_ & -> & Hle).
    rewrite (proj2 (Z.ltb_ge _ _)) by lia. rewrite bool_decide_eq_true_2 by set_solver. cbn [negb orb].
    cbn [tables last_scan ttl missed]. do 3 f_equal. set_solver.
Qed.

(** ** A concrete process table *)

Definition sa4 (a b c d port : Z) : list Z := [16; 2] ++ to_be16 port ++ [a; b; c; d] ++ replicate 120 0.
Definition sa_none : list Z := replicate 128 0.
Definition name_buf (s : str) : list Z := utf8 s ++ [0].
Definition udp_file (local peer : list Z) : FileStat := mk_file 3 (Some (mk_sock 17 local peer)).

Definition ntpd : Proc :=
  mk_proc 200 (name_buf $"ntpd") (Some (name_buf $"/usr/sbin/ntpd"))
    (Some [udp_file (sa4 0 0 0 0 123) sa_none; udp_file (sa4 10 0 0 2 123) sa_none]).
Definition other_ntp (p : Z) : Proc :=
  mk_proc p (name_buf $"rogue") None (Some [udp_file (sa4 0 0 0 0 123) sa_none]).

Definition ntp_flow : Tuple := mk_tuple 17 (V4 167772162) 123 (V4 3326554699) 123.
Definition ntp_flow2 : Tuple := mk_tuple 17 (V4 167772163) 123 (V4 3326554699) 123.

(** The daemon on its own port is named; on an address it did not bind, by port only; a
    second process on the port makes that weakest tier refuse. *)
Example attribute_ntpd :
  get (snapshot (Some [ntpd])) ntp_flow true
    = Some (mk_attr (mk_owner 200 $"ntpd" $"/usr/sbin/ntpd") Local)
  /\ confidence <$> get (snapshot (Some [ntpd])) ntp_flow2 true = Some Port
  /\ get (snapshot (Some [ntpd; other_ntp 300])) ntp_flow2 true = None
  /\ get (snapshot (Some [ntpd])) ntp_flow false = None.
Proof. vm_compute. repeat split. Qed.

Lemma resolve_spec_witness :
  let r := resolve 5 6 (Some [ntpd]) resolver_new ntp_flow true in
  r.1.2 = get (tables r.1.1) ntp_flow true /\ r.2 = true.
Proof.
  intros r. split; [|vm_compute; reflexivity].
  refine (proj1 (resolve_spec 5 6 (Some [ntpd]) resolver_new ntp_flow true r.1.1 r.1.2 r.2 _)).
  vm_compute. reflexivity.
Defined.

(** Two unattributable flows that alternate make it rescan at every packet, however young
    the last scan is: a rescan forgets every other miss. *)
Example alternating_misses_rescan :
  let r1 := (resolve 0 0 (Some []) resolver_new ntp_flow true).1.1 in
  let r2 := resolve 1 1 (Some []) r1 ntp_flow2 true in
  let r3 := resolve 2 2 (Some []) r2.1.1 ntp_flow true in
  let r4 := resolve 3 3 (Some []) r3.1.1 ntp_flow2 true in
  (r2.2, r3.2, r4.2) = (true, true, true).
Proof. vm_compute. reflexivity. Qed.
