(* ===== verification/Abi.v ===== *)
(** Memory layout of C structures ([#[repr(C)]] in Rust): sizes, alignments, field offsets,
    and the bytes of a structure on a 64-bit little-endian machine.  Shared by the device
    interface (kernattr.rs) and the libprocstat bindings (procstat_sys.rs). *)
From S2P Require Import Prelude.

(** Integers by their width in bytes, pointers, arrays, nested structures and unions; a
    structure under [repr(align(n))]. *)
Inductive ctype : Type :=
| CInt (w : nat)
| CPtr
| CArr (n : nat) (t : ctype)
| CStruct (fs : list ctype)
| CUnion (fs : list ctype)
| CAligned (n : nat) (t : ctype).

Definition align_up (off a : nat) : nat := ((off + a - 1) / a * a)%nat.

Fixpoint calign (t : ctype) : nat :=
  match t with
  | CInt w => w
  | CPtr => 8
  | CArr _ t => calign t
  | CStruct fs | CUnion fs => (fix go fs := match fs with [] => 1 | f :: fs' => Nat.max (calign f) (go fs') end)%nat fs
  | CAligned n t => Nat.max n (calign t)
  end.

Fixpoint csize (t : ctype) : nat :=
  match t with
  | CInt w => w
  | CPtr => 8
  | CArr n t => n * csize t
  | CStruct fs =>
      align_up
        ((fix go off fs := match fs with
                           | [] => off
                           | f :: fs' => go (align_up off (calign f) + csize f) fs'
                           end) 0 fs)
        (calign (CStruct fs))
  | CUnion fs =>
      align_up ((fix go fs := match fs with [] => 0 | f :: fs' => Nat.max (csize f) (go fs') end) fs) (calign (CUnion fs))
  | CAligned n t => align_up (csize t) (Nat.max n (calign t))
  end%nat.

(** The offsets of the fields, the first one placed at or after [off]. *)
Fixpoint offsets (off : nat) (fs : list ctype) : list nat :=
  match fs with
  | [] => []
  | f :: fs' => let o := align_up off (calign f) in o :: offsets (o + csize f) fs'
  end.

(** Where the last field ends. *)
Fixpoint end_of (off : nat) (fs : list ctype) : nat :=
  match fs with [] => off | f :: fs' => end_of (align_up off (calign f) + csize f) fs' end.

(** The bytes of a structure, from the bytes of its fields; padding is zero. *)
Fixpoint put (off : nat) (fs : list ctype) (vals : list (list Z)) : list Z :=
  match fs, vals with
  | f :: fs', v :: vals' =>
      let o := align_up off (calign f) in replicate (o - off) 0 ++ v ++ put (o + csize f) fs' vals'
  | _, _ => []
  end.
Definition encode (fs : list ctype) (vals : list (list Z)) : list Z :=
  let b := put 0 fs vals in b ++ replicate (csize (CStruct fs) - length b) 0.

(** The bytes of the [i]-th field. *)
Definition field (fs : list ctype) (i : nat) (b : list Z) : list Z :=
  match offsets 0 fs !! i, fs !! i with
  | Some o, Some f => take (csize f) (drop o b)
  | _, _ => []
  end.

Definition fits (fs : list ctype) (vals : list (list Z)) : Prop :=
  Forall2 (fun f v => length v = csize f) fs vals.

#[export] Instance fits_dec fs vals : Decision (fits fs vals).
Proof. unfold fits. apply _. Defined.

Lemma align_up_ge off a : (0 < a)%nat -> (off <= align_up off a)%nat.
Proof.
  intros Ha. unfold align_up. pose proof (Nat.div_mod (off + a - 1) a ltac:(lia)).
  pose proof (Nat.mod_upper_bound (off + a - 1) a ltac:(lia)). nia.
Qed.


(** Every integer of the type has a width. *)
Fixpoint sane (t : ctype) : bool :=
  match t with
  | CInt w => (0 <? w)%nat
  | CPtr => true
  | CArr _ t => sane t
  | CStruct fs | CUnion fs => (fix go fs := match fs with [] => true | f :: fs' => sane f && go fs' end) fs
  | CAligned _ t => sane t
  end.

Lemma calign_sane t : sane t = true -> (0 < calign t)%nat.
Proof.
  revert t. fix IH 1. intros [w| |n t|fs|fs|n t] H.
  - destruct w; [done|]. cbn. lia.
  - cbn. lia.
  - by apply (IH t).
  - destruct fs as [|f fs]; [cbn; lia|]. cbn in *. apply andb_true_iff in H as [H _]. specialize (IH f H). lia.
  - destruct fs as [|f fs]; [cbn; lia|]. cbn in *. apply andb_true_iff in H as [H _]. specialize (IH f H). lia.
  - cbn in *. specialize (IH t H). lia.
Qed.

Lemma put_field fs : forall off vals i o f v,
  Forall (fun t => sane t = true) fs -> fits fs vals ->
  offsets off fs !! i = Some o -> fs !! i = Some f -> vals !! i = Some v ->
  (off <= o)%nat /\ forall tail, take (csize f) (drop (o - off) (put off fs vals ++ tail)) = v.
Proof.
  induction fs as [|g fs IH]; intros off vals i o f v Hs Hf Ho Hg Hv; [done|].
  inversion Hf as [|? w ? vals' Hw Hrest]; subst. inversion_clear Hs as [|? ? Hsg Hs'].
  pose proof (align_up_ge off (calign g) (calign_sane g Hsg)) as Hge.
  destruct i as [|i]; cbn in Ho, Hg, Hv.
  - injection Ho as <-. injection Hg as <-. injection Hv as <-. split; [done|]. intros tail.
    cbn [put]. rewrite <- app_assoc, drop_app_ge by (rewrite length_replicate; lia).
    rewrite length_replicate, Nat.sub_diag, drop_0, <- Hw, <- app_assoc. by rewrite take_app_length.
  - destruct (IH _ _ _ _ _ _ Hs' Hrest Ho Hg Hv) as [Hlo Hg']. split; [lia|]. intros tail.
    cbn [put]. rewrite <- !app_assoc, drop_app_ge by (rewrite length_replicate; lia).
    rewrite length_replicate, drop_app_ge by lia. rewrite Hw.
    replace (o - off - (align_up off (calign g) - off) - csize g)%nat
      with (o - (align_up off (calign g) + csize g))%nat by lia.
    apply Hg'.
Qed.

(** A field written is the field read. *)
Lemma field_encode fs vals i v :
  Forall (fun t => sane t = true) fs -> fits fs vals -> vals !! i = Some v -> field fs i (encode fs vals) = v.
Proof.
  intros Hs Hf Hv. unfold field.
  assert (Hlen : length fs = length vals) by (by eapply Forall2_length).
  assert (Hi : (i < length fs)%nat) by (rewrite Hlen; by eapply lookup_lt_Some).
  destruct (lookup_lt_is_Some_2 fs i Hi) as [f Hg]. rewrite Hg.
  assert (Hol : forall fs off, length (offsets off fs) = length fs).
  { clear. induction fs as [|f fs IH]; intros off; cbn; [done|]. by rewrite IH. }
  destruct (lookup_lt_is_Some_2 (offsets 0 fs) i ltac:(by rewrite Hol)) as [o Ho]. rewrite Ho.
  destruct (put_field fs 0 vals i o f v Hs Hf Ho Hg Hv) as [_ H]. unfold encode.
  rewrite Nat.sub_0_r in H. apply H.
Qed.

Lemma put_length fs : forall off vals,
  Forall (fun t => sane t = true) fs -> fits fs vals -> (off + length (put off fs vals) = end_of off fs)%nat.
Proof.
  induction fs as [|f fs IH]; intros off vals Hs Hf; inversion Hf as [|? w ? vals' Hw Hrest]; subst;
    cbn [put end_of length]; [lia|]. inversion_clear Hs as [|? ? Hsg Hs'].
  pose proof (align_up_ge off (calign f) (calign_sane f Hsg)).
  rewrite !length_app, length_replicate, Hw. rewrite <- (IH _ _ Hs' Hrest). lia.
Qed.

Lemma csize_struct fs : csize (CStruct fs) = align_up (end_of 0 fs) (calign (CStruct fs)).
Proof. reflexivity. Qed.

(** The structure's bytes are as many as its size says. *)
Lemma encode_length fs vals :
  Forall (fun t => sane t = true) fs -> fits fs vals -> length (encode fs vals) = csize (CStruct fs).
Proof.
  intros Hs Hf. unfold encode. rewrite length_app, length_replicate.
  pose proof (put_length fs 0 vals Hs Hf) as Hp.
  assert (Hal : (0 < calign (CStruct fs))%nat).
  { apply calign_sane. cbn. clear -Hs. induction Hs as [|f fs Hf _ IH]; [done|]. by rewrite Hf. }
  pose proof (align_up_ge (end_of 0 fs) _ Hal). rewrite csize_struct. lia.
Qed.

(** ** Integers in memory *)

(** [w] bytes, little endian. *)
Definition le (w : nat) (z : Z) : list Z := rev (be_split 8 w z).
Definition of_le (b : list Z) : Z := be_join 8 (rev b).

Lemma le_length w z : length (le w z) = w.
Proof. unfold le. by rewrite length_rev, be_split_length. Qed.

Lemma of_le_le w z : 0 <= z < 2 ^ (8 * Z.of_nat w) -> of_le (le w z) = z.
Proof. intros Hz. unfold of_le, le. rewrite rev_involutive. by apply be_join_split. Qed.

(** An [i32] and its two's complement image. *)
Definition i32_ok (z : Z) : Prop := - 2 ^ 31 <= z < 2 ^ 31.
Definition of_i32 (z : Z) : Z := z mod 2 ^ 32.
Definition to_i32 (z : Z) : Z := if z <? 2 ^ 31 then z else z - 2 ^ 32.

Lemma to_of_i32 z : i32_ok z -> to_i32 (of_i32 z) = z.
Proof.
  unfold i32_ok, to_i32, of_i32. intros Hz. destruct (Z.ltb_spec z 0).
  - replace (z mod 2 ^ 32) with (z + 2 ^ 32) by (apply (Z.mod_unique _ _ (-1)); lia).
    rewrite (proj2 (Z.ltb_ge _ _)) by lia. lia.
  - rewrite Z.mod_small by lia. by rewrite (proj2 (Z.ltb_lt _ _)) by lia.
Qed.

(** Text in a fixed buffer: its bytes, then zeros. *)
Definition buffer (n : nat) (b : list Z) : list Z := b ++ replicate (n - length b) 0.

Lemma buffer_length n b : (length b <= n)%nat -> length (buffer n b) = n.
Proof. intros. unfold buffer. rewrite length_app, length_replicate. lia. Qed.
