(* ===== verification/ProcstatSys.v ===== *)
(** The structures of libprocstat the program reads (procstat_sys.rs, generated by bindgen
    from the system's headers): their fields in order, as C lays them out, against the
    sizes, alignments and offsets the bindings assert.  Only the structures whose bytes the
    program looks at, and what they contain, are here. *)
From S2P Require Import Prelude Abi.

Definition c_char : ctype := CInt 1.
Definition c_short : ctype := CInt 2.
Definition c_int : ctype := CInt 4.
Definition c_long : ctype := CInt 8.

(** ** The structures, and the types their fields are declared with *)

Definition __uint32_t : ctype := c_int.

Definition __sigset_fields : list ctype :=
  [CArr 4 __uint32_t (* __bits *)].
Definition __sigset : ctype := CStruct __sigset_fields.
Definition __int64_t : ctype := c_long.
Definition __time_t : ctype := __int64_t.
Definition time_t : ctype := __time_t.
Definition __suseconds_t : ctype := c_long.
Definition suseconds_t : ctype := __suseconds_t.

Definition timeval_fields : list ctype :=
  [time_t (* tv_sec *); suseconds_t (* tv_usec *)].
Definition timeval : ctype := CStruct timeval_fields.
Definition __uint8_t : ctype := c_char.
Definition __sa_family_t : ctype := __uint8_t.
Definition sa_family_t : ctype := __sa_family_t.

Definition sockaddr_storage_fields : list ctype :=
  [c_char (* ss_len *); sa_family_t (* ss_family *); CArr 6 c_char (* __ss_pad1 *);
   __int64_t (* __ss_align *); CArr 112 c_char (* __ss_pad2 *)].
Definition sockaddr_storage : ctype := CStruct sockaddr_storage_fields.

Definition rusage_fields : list ctype :=
  [timeval (* ru_utime *); timeval (* ru_stime *); c_long (* ru_maxrss *); c_long (* ru_ixrss *);
   c_long (* ru_idrss *); c_long (* ru_isrss *); c_long (* ru_minflt *); c_long (* ru_majflt *);
   c_long (* ru_nswap *); c_long (* ru_inblock *); c_long (* ru_oublock *); c_long (* ru_msgsnd *);
   c_long (* ru_msgrcv *); c_long (* ru_nsignals *); c_long (* ru_nvcsw *); c_long (* ru_nivcsw *)].
Definition rusage : ctype := CStruct rusage_fields.
Definition u_char : ctype := c_char.

Definition priority_fields : list ctype :=
  [u_char (* pri_class *); u_char (* pri_level *); u_char (* pri_native *); u_char (* pri_user *)].
Definition priority : ctype := CStruct priority_fields.
Definition __int32_t : ctype := c_int.
Definition __pid_t : ctype := __int32_t.
Definition pid_t : ctype := __pid_t.
Definition __sigset_t : ctype := __sigset.
Definition sigset_t : ctype := __sigset_t.
Definition __uid_t : ctype := __uint32_t.
Definition uid_t : ctype := __uid_t.
Definition __gid_t : ctype := __uint32_t.
Definition gid_t : ctype := __gid_t.
Definition __uint64_t : ctype := c_long.
Definition __vm_size_t : ctype := __uint64_t.
Definition vm_size_t : ctype := __vm_size_t.
Definition __segsz_t : ctype := __int64_t.
Definition segsz_t : ctype := __segsz_t.
Definition u_short : ctype := c_short.
Definition __fixpt_t : ctype := __uint32_t.
Definition fixpt_t : ctype := __fixpt_t.
Definition u_int : ctype := c_int.
Definition u_int64_t : ctype := __uint64_t.
Definition __lwpid_t : ctype := __int32_t.
Definition lwpid_t : ctype := __lwpid_t.

Definition kinfo_proc_fields : list ctype :=
  [c_int (* ki_structsize *); c_int (* ki_layout *); CPtr (* ki_args *); CPtr (* ki_paddr *);
   CPtr (* ki_addr *); CPtr (* ki_tracep *); CPtr (* ki_textvp *); CPtr (* ki_fd *);
   CPtr (* ki_vmspace *); CPtr (* ki_wchan *); pid_t (* ki_pid *); pid_t (* ki_ppid *);
   pid_t (* ki_pgid *); pid_t (* ki_tpgid *); pid_t (* ki_sid *); pid_t (* ki_tsid *);
   c_short (* ki_jobc *); c_short (* ki_spare_short1 *); c_int (* ki_tdev_freebsd11 *);
   sigset_t (* ki_siglist *); sigset_t (* ki_sigmask *); sigset_t (* ki_sigignore *);
   sigset_t (* ki_sigcatch *); uid_t (* ki_uid *); uid_t (* ki_ruid *); uid_t (* ki_svuid *);
   gid_t (* ki_rgid *); gid_t (* ki_svgid *); c_short (* ki_ngroups *); c_short (* ki_spare_short2 *);
   CArr 16 gid_t (* ki_groups *); vm_size_t (* ki_size *); segsz_t (* ki_rssize *);
   segsz_t (* ki_swrss *); segsz_t (* ki_tsize *); segsz_t (* ki_dsize *); segsz_t (* ki_ssize *);
   u_short (* ki_xstat *); u_short (* ki_acflag *); fixpt_t (* ki_pctcpu *); u_int (* ki_estcpu *);
   u_int (* ki_slptime *); u_int (* ki_swtime *); u_int (* ki_cow *); u_int64_t (* ki_runtime *);
   timeval (* ki_start *); timeval (* ki_childtime *); c_long (* ki_flag *); c_long (* ki_kiflag *);
   c_int (* ki_traceflag *); c_char (* ki_stat *); c_char (* ki_nice *); c_char (* ki_lock *);
   c_char (* ki_rqindex *); u_char (* ki_oncpu_old *); u_char (* ki_lastcpu_old *);
   CArr 17 c_char (* ki_tdname *); CArr 9 c_char (* ki_wmesg *); CArr 18 c_char (* ki_login *);
   CArr 9 c_char (* ki_lockname *); CArr 20 c_char (* ki_comm *); CArr 17 c_char (* ki_emul *);
   CArr 18 c_char (* ki_loginclass *); CArr 4 c_char (* ki_moretdname *);
   CArr 38 c_char (* ki_sparestrings *); CArr 2 c_int (* ki_spareints *); pid_t (* ki_reaper *);
   pid_t (* ki_reapsubtree *); c_long (* ki_tdev *); c_int (* ki_oncpu *); c_int (* ki_lastcpu *);
   c_int (* ki_tracer *); c_int (* ki_flag2 *); c_int (* ki_fibnum *); u_int (* ki_cr_flags *);
   c_int (* ki_jid *); c_int (* ki_numthreads *); lwpid_t (* ki_tid *); priority (* ki_pri *);
   rusage (* ki_rusage *); rusage (* ki_rusage_ch *); CPtr (* ki_pcb *); CPtr (* ki_kstack *);
   CPtr (* ki_udata *); CPtr (* ki_tdaddr *); CPtr (* ki_pd *); CPtr (* ki_uerrmsg *);
   CArr 4 CPtr (* ki_spareptrs *); CArr 12 c_long (* ki_sparelongs *); c_long (* ki_sflag *);
   c_long (* ki_tdflags *)].
Definition kinfo_proc : ctype := CStruct kinfo_proc_fields.

Definition cap_rights_fields : list ctype :=
  [CArr 2 c_long (* cr_rights *)].
Definition cap_rights : ctype := CStruct cap_rights_fields.

Definition filestat__bindgen_ty_1_fields : list ctype :=
  [CPtr (* stqe_next *)].
Definition filestat__bindgen_ty_1 : ctype := CStruct filestat__bindgen_ty_1_fields.
Definition __off_t : ctype := __int64_t.
Definition off_t : ctype := __off_t.
Definition cap_rights_t : ctype := cap_rights.

Definition filestat_fields : list ctype :=
  [c_int (* fs_type *); c_int (* fs_flags *); c_int (* fs_fflags *); c_int (* fs_uflags *);
   c_int (* fs_fd *); c_int (* fs_ref_count *); off_t (* fs_offset *); CPtr (* fs_typedep *);
   CPtr (* fs_path *); filestat__bindgen_ty_1 (* next *); cap_rights_t (* fs_cap_rights *)].
Definition filestat : ctype := CStruct filestat_fields.

Definition sockstat_fields : list ctype :=
  [c_long (* so_addr *); c_long (* so_pcb *); c_long (* unp_conn *); c_int (* dom_family *);
   c_int (* proto *); c_int (* so_rcv_sb_state *); c_int (* so_snd_sb_state *);
   sockaddr_storage (* sa_local *); sockaddr_storage (* sa_peer *); c_int (* type_ *);
   CArr 32 c_char (* dname *); c_int (* sendq *); c_int (* recvq *)].
Definition sockstat : ctype := CStruct sockstat_fields.

Definition filestat_list_fields : list ctype :=
  [CPtr (* stqh_first *); CPtr (* stqh_last *)].
Definition filestat_list : ctype := CStruct filestat_list_fields.

(** ** What the bindings assert: size, alignment, offsets *)

Definition __sigset_asserts : nat * nat * list nat :=
  (16, 4, [0])%nat.
Definition timeval_asserts : nat * nat * list nat :=
  (16, 8, [0; 8])%nat.
Definition sockaddr_storage_asserts : nat * nat * list nat :=
  (128, 8, [0; 1; 2; 8; 16])%nat.
Definition rusage_asserts : nat * nat * list nat :=
  (144, 8, [0; 16; 32; 40; 48; 56; 64; 72; 80; 88; 96; 104; 112; 120; 128; 136])%nat.
Definition priority_asserts : nat * nat * list nat :=
  (4, 1, [0; 1; 2; 3])%nat.
Definition kinfo_proc_asserts : nat * nat * list nat :=
  (1088, 8, [0; 4; 8; 16; 24; 32; 40; 48; 56; 64; 72; 76; 80; 84; 88; 92; 96; 98; 100; 104; 120;
  136; 152; 168; 172; 176; 180; 184; 188; 190; 192; 256; 264; 272; 280; 288; 296; 304; 306; 308;
  312; 316; 320; 324; 328; 336; 352; 368; 376; 384; 388; 389; 390; 391; 392; 393; 394; 411; 420;
  438; 447; 467; 484; 502; 506; 544; 552; 556; 560; 568; 572; 576; 580; 584; 588; 592; 596; 600;
  604; 608; 752; 896; 904; 912; 920; 928; 936; 944; 976; 1072; 1080])%nat.
Definition cap_rights_asserts : nat * nat * list nat :=
  (16, 8, [0])%nat.
Definition filestat__bindgen_ty_1_asserts : nat * nat * list nat :=
  (8, 8, [0])%nat.
Definition filestat_asserts : nat * nat * list nat :=
  (72, 8, [0; 4; 8; 12; 16; 20; 24; 32; 40; 48; 56])%nat.
Definition sockstat_asserts : nat * nat * list nat :=
  (344, 8, [0; 8; 16; 24; 28; 32; 36; 40; 168; 296; 300; 332; 336])%nat.
Definition filestat_list_asserts : nat * nat * list nat :=
  (16, 8, [0; 8])%nat.

(** ** Layout *)

(** Size, alignment and field offsets of a structure, by the rules of [repr(C)]. *)
Definition layout_of (fs : list ctype) : nat * nat * list nat :=
  (csize (CStruct fs), calign (CStruct fs), offsets 0 fs).

(** The layout C gives the declared fields is the layout the bindings assert, for every
    structure. *)
Lemma bindings_layout :
  layout_of __sigset_fields = __sigset_asserts
  /\ layout_of timeval_fields = timeval_asserts
  /\ layout_of sockaddr_storage_fields = sockaddr_storage_asserts
  /\ layout_of rusage_fields = rusage_asserts
  /\ layout_of priority_fields = priority_asserts
  /\ layout_of kinfo_proc_fields = kinfo_proc_asserts
  /\ layout_of cap_rights_fields = cap_rights_asserts
  /\ layout_of filestat__bindgen_ty_1_fields = filestat__bindgen_ty_1_asserts
  /\ layout_of filestat_fields = filestat_asserts
  /\ layout_of sockstat_fields = sockstat_asserts
  /\ layout_of filestat_list_fields = filestat_list_asserts.
Proof. repeat split. Qed.
