(* ===== verification/ProcstatTypes.v ===== *)
(** The rest of the bindings to libprocstat (procstat_sys.rs, generated by bindgen): every
    type and constant of the file that ProcstatSys.v does not have, with the size, the
    alignment and the offsets the file asserts for it.

    A pointer, and an optional function (bindgen's [Option] of a function pointer), is
    [CPtr] whatever it points to.  [repr(packed)] is on structures of bytes only, where it
    changes nothing; a unit of bit fields is its bytes here, and BindgenBits.v reads them;
    the trailing array of unknown length is an array of none.  The functions declared in
    the file are libprocstat's: those the program calls are in ProcScan.v. *)
From S2P Require Import Prelude Abi ProcstatSys.

(** Size, alignment, and the offset of each field the file asserts one for. *)
Definition asserted : Type := nat * nat * list (option nat).

(** ** Constants *)

Definition PS_FST_VTYPE_VNON : Z := 1.
Definition PS_FST_VTYPE_VREG : Z := 2.
Definition PS_FST_VTYPE_VDIR : Z := 3.
Definition PS_FST_VTYPE_VBLK : Z := 4.
Definition PS_FST_VTYPE_VCHR : Z := 5.
Definition PS_FST_VTYPE_VLNK : Z := 6.
Definition PS_FST_VTYPE_VSOCK : Z := 7.
Definition PS_FST_VTYPE_VFIFO : Z := 8.
Definition PS_FST_VTYPE_VBAD : Z := 9.
Definition PS_FST_VTYPE_UNKNOWN : Z := 255.
Definition PS_FST_TYPE_VNODE : Z := 1.
Definition PS_FST_TYPE_FIFO : Z := 2.
Definition PS_FST_TYPE_PIPE : Z := 4.
Definition PS_FST_TYPE_PTS : Z := 5.
Definition PS_FST_TYPE_KQUEUE : Z := 6.
Definition PS_FST_TYPE_MQUEUE : Z := 8.
Definition PS_FST_TYPE_SHM : Z := 9.
Definition PS_FST_TYPE_SEM : Z := 10.
Definition PS_FST_TYPE_UNKNOWN : Z := 11.
Definition PS_FST_TYPE_NONE : Z := 12.
Definition PS_FST_TYPE_PROCDESC : Z := 13.
Definition PS_FST_TYPE_DEV : Z := 14.
Definition PS_FST_TYPE_EVENTFD : Z := 15.
Definition PS_FST_TYPE_INOTIFY : Z := 16.
Definition PS_FST_UFLAG_RDIR : Z := 1.
Definition PS_FST_UFLAG_CDIR : Z := 2.
Definition PS_FST_UFLAG_JAIL : Z := 4.
Definition PS_FST_UFLAG_TRACE : Z := 8.
Definition PS_FST_UFLAG_TEXT : Z := 16.
Definition PS_FST_UFLAG_MMAP : Z := 32.
Definition PS_FST_UFLAG_CTTY : Z := 64.
Definition PS_FST_FFLAG_READ : Z := 1.
Definition PS_FST_FFLAG_WRITE : Z := 2.
Definition PS_FST_FFLAG_NONBLOCK : Z := 4.
Definition PS_FST_FFLAG_APPEND : Z := 8.
Definition PS_FST_FFLAG_SHLOCK : Z := 16.
Definition PS_FST_FFLAG_EXLOCK : Z := 32.
Definition PS_FST_FFLAG_ASYNC : Z := 64.
Definition PS_FST_FFLAG_SYNC : Z := 128.
Definition PS_FST_FFLAG_NOFOLLOW : Z := 256.
Definition PS_FST_FFLAG_CREAT : Z := 512.
Definition PS_FST_FFLAG_TRUNC : Z := 1024.
Definition PS_FST_FFLAG_EXCL : Z := 2048.
Definition PS_FST_FFLAG_DIRECT : Z := 4096.
Definition PS_FST_FFLAG_EXEC : Z := 8192.
Definition PS_FST_FFLAG_HASLOCK : Z := 16384.
Definition thread_td_states_TDS_INACTIVE : Z := 0.
Definition thread_td_states_TDS_INHIBITED : Z := 1.
Definition thread_td_states_TDS_CAN_RUN : Z := 2.
Definition thread_td_states_TDS_RUNQ : Z := 3.
Definition thread_td_states_TDS_RUNNING : Z := 4.
Definition proc_p_states_PRS_NEW : Z := 0.
Definition proc_p_states_PRS_NORMAL : Z := 1.
Definition proc_p_states_PRS_ZOMBIE : Z := 2.
Definition pmap_type_PT_X86 : Z := 0.
Definition pmap_type_PT_EPT : Z := 1.
Definition pmap_type_PT_RVI : Z := 2.

(** ** Types *)

Definition __uintptr_t : ctype := __uint64_t.
Definition __vm_offset_t : ctype := __uint64_t.
Definition __size_t : ctype := __uint64_t.
Definition __register_t : ctype := __int64_t.
Definition __ino_t : ctype := __uint64_t.
Definition __sbintime_t : ctype := __int64_t.
Definition __rlim_t : ctype := __int64_t.
Definition u_long : ctype := c_long.
Definition caddr_t : ctype := CPtr.
Definition ino_t : ctype := __ino_t.
Definition register_t : ctype := __register_t.
Definition rlim_t : ctype := __rlim_t.
Definition sbintime_t : ctype := __sbintime_t.
Definition vm_offset_t : ctype := __vm_offset_t.
Definition vm_ooffset_t : ctype := __uint64_t.
Definition syscallarg_t : ctype := __register_t.
Definition sigaltstack : ctype := CStruct [CPtr (* ss_sp *); __size_t (* ss_size *); c_int (* ss_flags *)].
Definition sigaltstack_asserts : asserted := (24, 8, [Some 0; Some 8; Some 16])%nat.
Definition stack_t : ctype := sigaltstack.
Definition sigval : ctype := CUnion
  [c_int (* sival_int *); CPtr (* sival_ptr *); c_int (* sigval_int *); CPtr (* sigval_ptr *)].
Definition sigval_asserts : asserted := (8, 8, [Some 0; Some 0; Some 0; Some 0])%nat.
Definition __sighandler_t : ctype := CPtr.
Definition __siginfo__bindgen_ty_1__bindgen_ty_1 : ctype := CStruct [c_int (* _trapno *)].
Definition __siginfo__bindgen_ty_1__bindgen_ty_1_asserts : asserted := (4, 4, [Some 0])%nat.
Definition __siginfo__bindgen_ty_1__bindgen_ty_2 : ctype := CStruct [c_int (* _timerid *); c_int (* _overrun *)].
Definition __siginfo__bindgen_ty_1__bindgen_ty_2_asserts : asserted := (8, 4, [Some 0; Some 4])%nat.
Definition __siginfo__bindgen_ty_1__bindgen_ty_3 : ctype := CStruct [c_int (* _mqd *)].
Definition __siginfo__bindgen_ty_1__bindgen_ty_3_asserts : asserted := (4, 4, [Some 0])%nat.
Definition __siginfo__bindgen_ty_1__bindgen_ty_4 : ctype := CStruct [c_long (* _band *)].
Definition __siginfo__bindgen_ty_1__bindgen_ty_4_asserts : asserted := (8, 8, [Some 0])%nat.
Definition __siginfo__bindgen_ty_1__bindgen_ty_5 : ctype := CStruct [c_int (* _syscall *)].
Definition __siginfo__bindgen_ty_1__bindgen_ty_5_asserts : asserted := (4, 4, [Some 0])%nat.
Definition __siginfo__bindgen_ty_1__bindgen_ty_6 : ctype := CStruct
  [c_long (* __spare1__ *); CArr 7 c_int (* __spare2__ *)].
Definition __siginfo__bindgen_ty_1__bindgen_ty_6_asserts : asserted := (40, 8, [Some 0; Some 8])%nat.
Definition __siginfo__bindgen_ty_1 : ctype := CUnion
  [__siginfo__bindgen_ty_1__bindgen_ty_1 (* _fault *); __siginfo__bindgen_ty_1__bindgen_ty_2 (* _timer *);
  __siginfo__bindgen_ty_1__bindgen_ty_3 (* _mesgq *); __siginfo__bindgen_ty_1__bindgen_ty_4 (* _poll *);
  __siginfo__bindgen_ty_1__bindgen_ty_5 (* _capsicum *); __siginfo__bindgen_ty_1__bindgen_ty_6 (* __spare__ *)].
Definition __siginfo__bindgen_ty_1_asserts : asserted :=
  (40, 8, [Some 0; Some 0; Some 0; Some 0; Some 0; Some 0])%nat.
Definition __siginfo : ctype := CStruct
  [c_int (* si_signo *); c_int (* si_errno *); c_int (* si_code *); __pid_t (* si_pid *); __uid_t (* si_uid *);
  c_int (* si_status *); CPtr (* si_addr *); sigval (* si_value *); __siginfo__bindgen_ty_1 (* _reason *)].
Definition __siginfo_asserts : asserted :=
  (80, 8, [Some 0; Some 4; Some 8; Some 12; Some 16; Some 20; Some 24; Some 32; Some 40])%nat.
Definition siginfo_t : ctype := __siginfo.
Definition sig_t : ctype := __sighandler_t.
Definition fpacc87 : ctype := CStruct [CArr 10 c_char (* fp_bytes *)].
Definition fpacc87_asserts : asserted := (10, 1, [Some 0])%nat.
Definition xmmacc : ctype := CStruct [CArr 16 c_char (* xmm_bytes *)].
Definition xmmacc_asserts : asserted := (16, 1, [Some 0])%nat.
Definition envxmm : ctype := CStruct
  [c_short (* en_cw *); c_short (* en_sw *); c_char (* en_tw *); c_char (* en_zero *); c_short (* en_opcode *);
  c_long (* en_rip *); c_long (* en_rdp *); c_int (* en_mxcsr *); c_int (* en_mxcsr_mask *)].
Definition envxmm_asserts : asserted :=
  (32, 8, [Some 0; Some 2; Some 4; Some 5; Some 6; Some 8; Some 16; Some 24; Some 28])%nat.
Definition savefpu__bindgen_ty_1 : ctype := CStruct [fpacc87 (* fp_acc *); CArr 6 c_char (* fp_pad *)].
Definition savefpu__bindgen_ty_1_asserts : asserted := (16, 1, [Some 0; Some 10])%nat.
Definition savefpu : ctype := CAligned 16 (CStruct
  [envxmm (* sv_env *); CArr 8 savefpu__bindgen_ty_1 (* sv_fp *); CArr 16 xmmacc (* sv_xmm *);
  CArr 96 c_char (* sv_pad *)]).
Definition savefpu_asserts : asserted := (512, 16, [Some 0; Some 32; Some 160; Some 416])%nat.
Definition system_segment_descriptor : ctype := CStruct
  [CArr 0 c_char (* _bitfield_align_1 *); CArr 16 c_char (* _bitfield_1 *)].
Definition system_segment_descriptor_asserts : asserted := (16, 1, [None; None])%nat.
Definition region_descriptor : ctype := CStruct
  [CArr 0 c_char (* _bitfield_align_1 *); CArr 10 c_char (* _bitfield_1 *)].
Definition region_descriptor_asserts : asserted := (10, 1, [None; None])%nat.
Definition pcb : ctype := CStruct
  [register_t (* pcb_r15 *); register_t (* pcb_r14 *); register_t (* pcb_r13 *); register_t (* pcb_r12 *);
  register_t (* pcb_rbp *); register_t (* pcb_rsp *); register_t (* pcb_rbx *); register_t (* pcb_rip *);
  register_t (* pcb_fsbase *); register_t (* pcb_gsbase *); register_t (* pcb_kgsbase *); register_t (* pcb_cr0 *);
  register_t (* pcb_cr2 *); register_t (* pcb_cr3 *); register_t (* pcb_cr4 *); register_t (* pcb_dr0 *);
  register_t (* pcb_dr1 *); register_t (* pcb_dr2 *); register_t (* pcb_dr3 *); register_t (* pcb_dr6 *);
  register_t (* pcb_dr7 *); region_descriptor (* pcb_gdt *); region_descriptor (* pcb_idt *);
  region_descriptor (* pcb_ldt *); c_short (* pcb_tr *); u_int (* pcb_flags *); c_short (* pcb_initial_fpucw *);
  caddr_t (* pcb_onfault *); c_long (* pcb_saved_ucr3 *); CPtr (* pcb_tssp *); register_t (* pcb_efer *);
  register_t (* pcb_star *); register_t (* pcb_lstar *); register_t (* pcb_cstar *); register_t (* pcb_sfmask *);
  CPtr (* pcb_save *); register_t (* pcb_tlsbase *); CArr 4 c_long (* pcb_pad *)].
Definition pcb_asserts : asserted :=
  (320, 8, [Some 0; Some 8; Some 16; Some 24; Some 32; Some 40; Some 48; Some 56; Some 64; Some 72; Some 80; Some 88;
  Some 96; Some 104; Some 112; Some 120; Some 128; Some 136; Some 144; Some 152; Some 160; Some 168; Some 178;
  Some 188; Some 198; Some 200; Some 204; Some 208; Some 216; Some 224; Some 232; Some 240; Some 248; Some 256;
  Some 264; Some 272; Some 280; Some 288])%nat.
Definition kevent : ctype := CStruct
  [__uintptr_t (* ident *); c_short (* filter *); c_short (* flags *); c_int (* fflags *); __int64_t (* data *);
  CPtr (* udata *); CArr 4 __uint64_t (* ext *)].
Definition kevent_asserts : asserted := (64, 8, [Some 0; Some 8; Some 10; Some 12; Some 16; Some 24; Some 32])%nat.
Definition knote : ctype := CStruct [CArr 0 c_char (* _unused *)].
Definition klist : ctype := CStruct [CPtr (* slh_first *)].
Definition klist_asserts : asserted := (8, 8, [Some 0])%nat.
Definition kqueue : ctype := CStruct [CArr 0 c_char (* _unused *)].
Definition kqlist : ctype := CStruct [CPtr (* tqh_first *); CPtr (* tqh_last *)].
Definition kqlist_asserts : asserted := (16, 8, [Some 0; Some 8])%nat.
Definition knlist : ctype := CStruct
  [klist (* kl_list *); CPtr (* kl_lock *); CPtr (* kl_unlock *); CPtr (* kl_assert_lock *); CPtr (* kl_lockarg *);
  c_int (* kl_autodestroy *)].
Definition knlist_asserts : asserted := (48, 8, [Some 0; Some 8; Some 16; Some 24; Some 32; Some 40])%nat.
Definition itimerval : ctype := CStruct [timeval (* it_interval *); timeval (* it_value *)].
Definition itimerval_asserts : asserted := (32, 8, [Some 0; Some 16])%nat.
Definition rlimit : ctype := CStruct [rlim_t (* rlim_cur *); rlim_t (* rlim_max *)].
Definition rlimit_asserts : asserted := (16, 8, [Some 0; Some 8])%nat.
Definition lock_object : ctype := CStruct
  [CPtr (* lo_name *); c_int (* lo_flags *); c_int (* lo_data *); CPtr (* lo_witness *)].
Definition lock_object_asserts : asserted := (24, 8, [Some 0; Some 8; Some 12; Some 16])%nat.
Definition mtx : ctype := CStruct [lock_object (* lock_object *); __uintptr_t (* mtx_lock *)].
Definition mtx_asserts : asserted := (32, 8, [Some 0; Some 24])%nat.
Definition callout_func_t : ctype := CPtr.
Definition callout__bindgen_ty_1__bindgen_ty_1 : ctype := CStruct [CPtr (* le_next *); CPtr (* le_prev *)].
Definition callout__bindgen_ty_1__bindgen_ty_1_asserts : asserted := (16, 8, [Some 0; Some 8])%nat.
Definition callout__bindgen_ty_1__bindgen_ty_2 : ctype := CStruct [CPtr (* sle_next *)].
Definition callout__bindgen_ty_1__bindgen_ty_2_asserts : asserted := (8, 8, [Some 0])%nat.
Definition callout__bindgen_ty_1__bindgen_ty_3 : ctype := CStruct [CPtr (* tqe_next *); CPtr (* tqe_prev *)].
Definition callout__bindgen_ty_1__bindgen_ty_3_asserts : asserted := (16, 8, [Some 0; Some 8])%nat.
Definition callout__bindgen_ty_1 : ctype := CUnion
  [callout__bindgen_ty_1__bindgen_ty_1 (* le *); callout__bindgen_ty_1__bindgen_ty_2 (* sle *);
  callout__bindgen_ty_1__bindgen_ty_3 (* tqe *)].
Definition callout__bindgen_ty_1_asserts : asserted := (16, 8, [Some 0; Some 0; Some 0])%nat.
Definition callout : ctype := CStruct
  [callout__bindgen_ty_1 (* c_links *); __sbintime_t (* c_time *); __sbintime_t (* c_precision *); CPtr (* c_arg *);
  callout_func_t (* c_func *); CPtr (* c_lock *); c_short (* c_flags *); c_short (* c_iflags *); c_int (* c_cpu *)].
Definition callout_asserts : asserted :=
  (64, 8, [Some 0; Some 16; Some 24; Some 32; Some 40; Some 48; Some 56; Some 58; Some 60])%nat.
Definition kexterr : ctype := CStruct
  [c_int (* error *); CPtr (* msg *); __uint64_t (* p1 *); __uint64_t (* p2 *); c_int (* cat *);
  c_int (* src_line *)].
Definition kexterr_asserts : asserted := (40, 8, [Some 0; Some 8; Some 16; Some 24; Some 32; Some 36])%nat.
Definition cv : ctype := CStruct [CPtr (* cv_description *); c_int (* cv_waiters *)].
Definition cv_asserts : asserted := (16, 8, [Some 0; Some 8])%nat.
Definition lock_list_entry : ctype := CStruct [CArr 0 c_char (* _unused *)].
Definition seqc_t : ctype := c_int.
Definition sx : ctype := CStruct [lock_object (* lock_object *); __uintptr_t (* sx_lock *)].
Definition sx_asserts : asserted := (32, 8, [Some 0; Some 24])%nat.
Definition smr : ctype := CStruct [CArr 0 c_char (* _unused *)].
Definition smr_t : ctype := CPtr.
Definition filecaps : ctype := CStruct
  [cap_rights_t (* fc_rights *); CPtr (* fc_ioctls *); c_short (* fc_nioctls *); c_int (* fc_fcntls *)].
Definition filecaps_asserts : asserted := (32, 8, [Some 0; Some 16; Some 24; Some 28])%nat.
Definition filedescent : ctype := CStruct
  [CPtr (* fde_file *); filecaps (* fde_caps *); c_char (* fde_flags *); seqc_t (* fde_seqc *)].
Definition filedescent_asserts : asserted := (48, 8, [Some 0; Some 8; Some 40; Some 44])%nat.
Definition fdescenttbl : ctype := CStruct [c_int (* fdt_nfiles *); CArr 0 filedescent (* fdt_ofiles *)].
Definition fdescenttbl_asserts : asserted := (8, 8, [Some 0; Some 8])%nat.
Definition pwd : ctype := CStruct
  [u_int (* pwd_refcount *); CPtr (* pwd_cdir *); CPtr (* pwd_rdir *); CPtr (* pwd_jdir *); CPtr (* pwd_adir *)].
Definition pwd_asserts : asserted := (40, 8, [Some 0; Some 8; Some 16; Some 24; Some 32])%nat.
Definition smrpwd_t : ctype := CStruct [CPtr (* __ptr *)].
Definition smrpwd_t_asserts : asserted := (8, 8, [Some 0])%nat.
Definition pwddesc : ctype := CStruct
  [mtx (* pd_lock *); smrpwd_t (* pd_pwd *); u_int (* pd_refcount *); u_short (* pd_cmask *)].
Definition pwddesc_asserts : asserted := (48, 8, [Some 0; Some 32; Some 40; Some 44])%nat.
Definition filedesc : ctype := CStruct
  [CPtr (* fd_files *); CPtr (* fd_map *); c_int (* fd_freefile *); c_int (* fd_refcnt *); c_int (* fd_holdcnt *);
  sx (* fd_sx *); kqlist (* fd_kqlist *); c_int (* fd_holdleaderscount *); c_int (* fd_holdleaderswakeup *)].
Definition filedesc_asserts : asserted :=
  (88, 8, [Some 0; Some 8; Some 16; Some 20; Some 24; Some 32; Some 64; Some 80; Some 84])%nat.
Definition filedesc_to_leader : ctype := CStruct
  [c_int (* fdl_refcount *); c_int (* fdl_holdcount *); c_int (* fdl_wakeup *); CPtr (* fdl_leader *);
  CPtr (* fdl_prev *); CPtr (* fdl_next *)].
Definition filedesc_to_leader_asserts : asserted := (40, 8, [Some 0; Some 4; Some 8; Some 16; Some 24; Some 32])%nat.
Definition lock_profile_object : ctype := CStruct [CArr 0 c_char (* _unused *)].
Definition lpohead : ctype := CStruct [CPtr (* lh_first *)].
Definition lpohead_asserts : asserted := (8, 8, [Some 0])%nat.
Definition osd__bindgen_ty_1 : ctype := CStruct [CPtr (* le_next *); CPtr (* le_prev *)].
Definition osd__bindgen_ty_1_asserts : asserted := (16, 8, [Some 0; Some 8])%nat.
Definition osd : ctype := CStruct [u_int (* osd_nslots *); CPtr (* osd_slots *); osd__bindgen_ty_1 (* osd_next *)].
Definition osd_asserts : asserted := (32, 8, [Some 0; Some 8; Some 16])%nat.
Definition sigio__bindgen_ty_1 : ctype := CUnion [CPtr (* siu_proc *); CPtr (* siu_pgrp *)].
Definition sigio__bindgen_ty_1_asserts : asserted := (8, 8, [Some 0; Some 0])%nat.
Definition sigio__bindgen_ty_2 : ctype := CStruct [CPtr (* sle_next *)].
Definition sigio__bindgen_ty_2_asserts : asserted := (8, 8, [Some 0])%nat.
Definition sigio : ctype := CStruct
  [sigio__bindgen_ty_1 (* sio_u *); sigio__bindgen_ty_2 (* sio_pgsigio *); CPtr (* sio_myref *); CPtr (* sio_ucred *);
  pid_t (* sio_pgid *)].
Definition sigio_asserts : asserted := (40, 8, [Some 0; Some 8; Some 16; Some 24; Some 32])%nat.
Definition sigiolst : ctype := CStruct [CPtr (* slh_first *)].
Definition sigiolst_asserts : asserted := (8, 8, [Some 0])%nat.
Definition sigacts : ctype := CStruct
  [CArr 128 sig_t (* ps_sigact *); CArr 128 sigset_t (* ps_catchmask *); sigset_t (* ps_sigonstack *);
  sigset_t (* ps_sigintr *); sigset_t (* ps_sigreset *); sigset_t (* ps_signodefer *); sigset_t (* ps_siginfo *);
  sigset_t (* ps_sigignore *); sigset_t (* ps_sigcatch *); sigset_t (* ps_freebsd4 *); sigset_t (* ps_osigset *);
  sigset_t (* ps_usertramp *); c_int (* ps_flag *); u_int (* ps_refcnt *); mtx (* ps_mtx *)].
Definition sigacts_asserts : asserted :=
  (3272, 8, [Some 0; Some 1024; Some 3072; Some 3088; Some 3104; Some 3120; Some 3136; Some 3152; Some 3168;
  Some 3184; Some 3200; Some 3216; Some 3232; Some 3236; Some 3240])%nat.
Definition ksiginfo__bindgen_ty_1 : ctype := CStruct [CPtr (* tqe_next *); CPtr (* tqe_prev *)].
Definition ksiginfo__bindgen_ty_1_asserts : asserted := (16, 8, [Some 0; Some 8])%nat.
Definition ksiginfo : ctype := CStruct
  [ksiginfo__bindgen_ty_1 (* ksi_link *); siginfo_t (* ksi_info *); c_int (* ksi_flags *); CPtr (* ksi_sigq *)].
Definition ksiginfo_asserts : asserted := (112, 8, [Some 0; Some 16; Some 96; Some 104])%nat.
Definition sigqueue__bindgen_ty_1 : ctype := CStruct [CPtr (* tqh_first *); CPtr (* tqh_last *)].
Definition sigqueue__bindgen_ty_1_asserts : asserted := (16, 8, [Some 0; Some 8])%nat.
Definition sigqueue : ctype := CStruct
  [sigset_t (* sq_signals *); sigset_t (* sq_kill *); sigset_t (* sq_ptrace *); sigqueue__bindgen_ty_1 (* sq_list *);
  CPtr (* sq_proc *); c_int (* sq_flags *)].
Definition sigqueue_asserts : asserted := (80, 8, [Some 0; Some 16; Some 32; Some 48; Some 64; Some 72])%nat.
Definition sigqueue_t : ctype := sigqueue.
Definition domainset : ctype := CStruct [CArr 0 c_char (* _unused *)].
Definition domainset_ref : ctype := CStruct [CPtr (* dr_policy *); c_int (* dr_iter *)].
Definition domainset_ref_asserts : asserted := (16, 8, [Some 0; Some 8])%nat.
Definition proc_ldt : ctype := CStruct [caddr_t (* ldt_base *); c_int (* ldt_refcnt *)].
Definition proc_ldt_asserts : asserted := (16, 8, [Some 0; Some 8])%nat.
Definition pmap_invl_gen__bindgen_ty_1__bindgen_ty_1 : ctype := CStruct [CPtr (* le_next *); CPtr (* le_prev *)].
Definition pmap_invl_gen__bindgen_ty_1__bindgen_ty_1_asserts : asserted := (16, 8, [Some 0; Some 8])%nat.
Definition pmap_invl_gen__bindgen_ty_1__bindgen_ty_2 : ctype := CStruct [CPtr (* next *); u_char (* saved_pri *)].
Definition pmap_invl_gen__bindgen_ty_1__bindgen_ty_2_asserts : asserted := (16, 8, [Some 0; Some 8])%nat.
Definition pmap_invl_gen__bindgen_ty_1 : ctype := CUnion
  [pmap_invl_gen__bindgen_ty_1__bindgen_ty_1 (* link *);
  pmap_invl_gen__bindgen_ty_1__bindgen_ty_2 (* __bindgen_anon_1 *)].
Definition pmap_invl_gen__bindgen_ty_1_asserts : asserted := (16, 8, [Some 0; None])%nat.
Definition pmap_invl_gen : ctype := CAligned 16 (CStruct
  [u_long (* gen_ *); pmap_invl_gen__bindgen_ty_1 (* __bindgen_anon_1 *)]).
Definition pmap_invl_gen_asserts : asserted := (32, 16, [Some 0; None])%nat.
Definition mdthread : ctype := CAligned 16 (CStruct
  [c_int (* md_spinlock_count *); register_t (* md_saved_flags *); register_t (* md_spurflt_addr *);
  c_long (* __bindgen_padding_0 *); pmap_invl_gen (* md_invl_gen *); register_t (* md_efirt_tmp *);
  c_int (* md_efirt_dis_pf *); pcb (* md_pcb *); vm_offset_t (* md_stack_base *); CPtr (* md_usr_fpu_save *)]).
Definition mdthread_asserts : asserted :=
  (416, 16, [Some 0; Some 8; Some 16; None; Some 32; Some 64; Some 72; Some 80; Some 400; Some 408])%nat.
Definition mdproc : ctype := CStruct
  [CPtr (* md_ldt *); system_segment_descriptor (* md_ldt_sd *); u_int (* md_flags *)].
Definition mdproc_asserts : asserted := (32, 8, [Some 0; Some 8; Some 24])%nat.
Definition session : ctype := CStruct
  [u_int (* s_count *); CPtr (* s_leader *); CPtr (* s_ttyvp *); CPtr (* s_ttydp *); CPtr (* s_ttyp *);
  pid_t (* s_sid *); CArr 40 c_char (* s_login *); mtx (* s_mtx *)].
Definition session_asserts : asserted :=
  (120, 8, [Some 0; Some 8; Some 16; Some 24; Some 32; Some 40; Some 44; Some 88])%nat.
Definition pgrp__bindgen_ty_1 : ctype := CStruct [CPtr (* le_next *); CPtr (* le_prev *)].
Definition pgrp__bindgen_ty_1_asserts : asserted := (16, 8, [Some 0; Some 8])%nat.
Definition pgrp__bindgen_ty_2 : ctype := CStruct [CPtr (* lh_first *)].
Definition pgrp__bindgen_ty_2_asserts : asserted := (8, 8, [Some 0])%nat.
Definition pgrp : ctype := CStruct
  [pgrp__bindgen_ty_1 (* pg_hash *); pgrp__bindgen_ty_2 (* pg_members *); CPtr (* pg_session *);
  sigiolst (* pg_sigiolst *); pid_t (* pg_id *); mtx (* pg_mtx *); c_int (* pg_flags *); sx (* pg_killsx *)].
Definition pgrp_asserts : asserted :=
  (120, 8, [Some 0; Some 16; Some 24; Some 32; Some 40; Some 48; Some 80; Some 88])%nat.
Definition pargs : ctype := CStruct [u_int (* ar_ref *); u_int (* ar_length *); CArr 1 u_char (* ar_args *)].
Definition pargs_asserts : asserted := (12, 4, [Some 0; Some 4; Some 8])%nat.
Definition cpuset : ctype := CStruct [CArr 0 c_char (* _unused *)].
Definition filemon : ctype := CStruct [CArr 0 c_char (* _unused *)].
Definition kaioinfo : ctype := CStruct [CArr 0 c_char (* _unused *)].
Definition kaudit_record : ctype := CStruct [CArr 0 c_char (* _unused *)].
Definition kcov_info : ctype := CStruct [CArr 0 c_char (* _unused *)].
Definition kdtrace_proc : ctype := CStruct [CArr 0 c_char (* _unused *)].
Definition kdtrace_thread : ctype := CStruct [CArr 0 c_char (* _unused *)].
Definition kmsan_td : ctype := CStruct [CArr 0 c_char (* _unused *)].
Definition kq_timer_cb_data : ctype := CStruct [CArr 0 c_char (* _unused *)].
Definition mqueue_notifier : ctype := CStruct [CArr 0 c_char (* _unused *)].
Definition procdesc : ctype := CStruct [CArr 0 c_char (* _unused *)].
Definition racct : ctype := CStruct [CArr 0 c_char (* _unused *)].
Definition sleepqueue : ctype := CStruct [CArr 0 c_char (* _unused *)].
Definition trapframe : ctype := CStruct [CArr 0 c_char (* _unused *)].
Definition turnstile : ctype := CStruct [CArr 0 c_char (* _unused *)].
Definition syscall_args : ctype := CStruct
  [u_int (* code *); u_int (* original_code *); CPtr (* callp *); CArr 8 register_t (* args *)].
Definition syscall_args_asserts : asserted := (80, 8, [Some 0; Some 4; Some 8; Some 16])%nat.
Definition rusage_ext : ctype := CStruct
  [c_long (* rux_runtime *); c_long (* rux_uticks *); c_long (* rux_sticks *); c_long (* rux_iticks *);
  c_long (* rux_uu *); c_long (* rux_su *); c_long (* rux_tu *)].
Definition rusage_ext_asserts : asserted :=
  (56, 8, [Some 0; Some 8; Some 16; Some 24; Some 32; Some 40; Some 48])%nat.
Definition thread__bindgen_ty_1 : ctype := CStruct [CPtr (* tqe_next *); CPtr (* tqe_prev *)].
Definition thread__bindgen_ty_1_asserts : asserted := (16, 8, [Some 0; Some 8])%nat.
Definition thread__bindgen_ty_2 : ctype := CStruct [CPtr (* tqe_next *); CPtr (* tqe_prev *)].
Definition thread__bindgen_ty_2_asserts : asserted := (16, 8, [Some 0; Some 8])%nat.
Definition thread__bindgen_ty_3__bindgen_ty_1 : ctype := CStruct [CPtr (* tqe_next *); CPtr (* tqe_prev *)].
Definition thread__bindgen_ty_3__bindgen_ty_1_asserts : asserted := (16, 8, [Some 0; Some 8])%nat.
Definition thread__bindgen_ty_3 : ctype := CUnion
  [thread__bindgen_ty_3__bindgen_ty_1 (* td_slpq *); CPtr (* td_zombie *)].
Definition thread__bindgen_ty_3_asserts : asserted := (16, 8, [Some 0; Some 0])%nat.
Definition thread__bindgen_ty_4 : ctype := CStruct [CPtr (* tqe_next *); CPtr (* tqe_prev *)].
Definition thread__bindgen_ty_4_asserts : asserted := (16, 8, [Some 0; Some 8])%nat.
Definition thread__bindgen_ty_5 : ctype := CStruct [CPtr (* le_next *); CPtr (* le_prev *)].
Definition thread__bindgen_ty_5_asserts : asserted := (16, 8, [Some 0; Some 8])%nat.
Definition thread__bindgen_ty_6 : ctype := CStruct [CPtr (* lh_first *)].
Definition thread__bindgen_ty_6_asserts : asserted := (8, 8, [Some 0])%nat.
Definition thread_td_states : ctype := c_int.
Definition thread__bindgen_ty_7 : ctype := CUnion [CArr 2 syscallarg_t (* tdu_retval *); off_t (* tdu_off *)].
Definition thread__bindgen_ty_7_asserts : asserted := (16, 8, [Some 0; Some 0])%nat.
Definition thread : ctype := CAligned 16 (CStruct
  [CPtr (* td_lock *); CPtr (* td_proc *); thread__bindgen_ty_1 (* td_plist *); thread__bindgen_ty_2 (* td_runq *);
  thread__bindgen_ty_3 (* __bindgen_anon_1 *); thread__bindgen_ty_4 (* td_lockq *);
  thread__bindgen_ty_5 (* td_hash *); CPtr (* td_cpuset *); domainset_ref (* td_domain *); CPtr (* td_sel *);
  CPtr (* td_sleepqueue *); CPtr (* td_turnstile *); CPtr (* td_pad1 *); CPtr (* td_umtxq *); lwpid_t (* td_tid *);
  sigqueue_t (* td_sigqueue *); u_char (* td_lend_user_pri *); u_char (* td_allocdomain *);
  u_char (* td_base_ithread_pri *); CPtr (* td_kmsan *); c_int (* td_flags *); c_int (* td_ast *);
  c_int (* td_inhibitors *); c_int (* td_pflags *); c_int (* td_pflags2 *); c_int (* td_dupfd *);
  c_int (* td_sqqueue *); CPtr (* td_wchan *); CPtr (* td_wmesg *); u_char (* td_owepreempt *);
  u_char (* td_tsqueue *); CArr 2 u_char (* _td_pad0 *); c_int (* td_locks *); c_int (* td_rw_rlocks *);
  c_int (* td_sx_slocks *); c_int (* td_lk_slocks *); CPtr (* td_wantedlock *); CPtr (* td_blocked *);
  CPtr (* td_lockname *); thread__bindgen_ty_6 (* td_contested *); CPtr (* td_sleeplocks *);
  c_int (* td_intr_nesting_level *); c_int (* td_pinned *); CPtr (* td_realucred *); CPtr (* td_ucred *);
  CPtr (* td_limit *); c_int (* td_slptick *); c_int (* td_blktick *); c_int (* td_swvoltick *);
  c_int (* td_swinvoltick *); u_int (* td_cow *); rusage (* td_ru *); rusage_ext (* td_rux *);
  c_long (* td_incruntime *); c_long (* td_runtime *); u_int (* td_pticks *); u_int (* td_sticks *);
  u_int (* td_iticks *); u_int (* td_uticks *); c_int (* td_intrval *); sigset_t (* td_oldsigmask *);
  u_int (* td_generation *); stack_t (* td_sigstk *); c_int (* td_xsig *); u_long (* td_profil_addr *);
  u_int (* td_profil_ticks *); CArr 20 c_char (* td_name *); CPtr (* td_fpop *); c_int (* td_dbgflags *);
  siginfo_t (* td_si *); c_int (* td_ng_outbound *); osd (* td_osd *); CPtr (* td_map_def_user *);
  pid_t (* td_dbg_forked *); u_int (* td_no_sleeping *); CPtr (* td_vp_reserved *); CPtr (* td_su *);
  sbintime_t (* td_sleeptimo *); c_int (* td_rtcgen *); c_int (* td_errno *); c_long (* td_vslock_sz *);
  CPtr (* td_kcov_info *); c_long (* td_ucredref *); kexterr (* td_kexterr *); sigset_t (* td_sigmask *);
  u_char (* td_rqindex *); u_char (* td_base_pri *); u_char (* td_priority *); u_char (* td_pri_class *);
  u_char (* td_user_pri *); u_char (* td_base_user_pri *); c_long (* td_rb_list *); c_long (* td_rbp_list *);
  c_long (* td_rb_inact *); syscall_args (* td_sa *); CPtr (* td_sigblock_ptr *); c_int (* td_sigblock_val *);
  CPtr (* td_exterr_ptr *); CPtr (* td_pcb *); thread_td_states (* td_state *); thread__bindgen_ty_7 (* td_uretoff *);
  u_int (* td_cowgen *); callout (* td_slpcallout *); CPtr (* td_frame *); vm_offset_t (* td_kstack *);
  u_short (* td_kstack_pages *); u_short (* td_kstack_domain *); u_int (* td_critnest *); mdthread (* td_md *);
  CPtr (* td_ar *); CArr 2 lpohead (* td_lprof *); CPtr (* td_dtrace *); CPtr (* td_vnet *); CPtr (* td_vnet_lpush *);
  CPtr (* td_intr_frame *); CPtr (* td_rfppwait_p *); CPtr (* td_ma *); c_int (* td_ma_cnt *); CPtr (* td_emuldata *);
  c_int (* td_lastcpu *); c_int (* td_oncpu *); CPtr (* td_lkpi_task *); c_int (* td_pmcpend *);
  CPtr (* td_remotereq *); off_t (* td_ktr_io_lim *)]).
Definition thread_asserts : asserted :=
  (1824, 16, [Some 0; Some 8; Some 16; Some 32; None; Some 64; Some 80; Some 96; Some 104; Some 120; Some 128;
  Some 136; Some 144; Some 152; Some 160; Some 168; Some 248; Some 249; Some 250; Some 256; Some 264; Some 268;
  Some 272; Some 276; Some 280; Some 284; Some 288; Some 296; Some 304; Some 312; Some 313; Some 314; Some 316;
  Some 320; Some 324; Some 328; Some 336; Some 344; Some 352; Some 360; Some 368; Some 376; Some 380; Some 384;
  Some 392; Some 400; Some 408; Some 412; Some 416; Some 420; Some 424; Some 432; Some 576; Some 632; Some 640;
  Some 648; Some 652; Some 656; Some 660; Some 664; Some 668; Some 684; Some 688; Some 712; Some 720; Some 728;
  Some 732; Some 752; Some 760; Some 768; Some 848; Some 856; Some 888; Some 896; Some 900; Some 904; Some 912;
  Some 920; Some 928; Some 932; Some 936; Some 944; Some 952; Some 960; Some 1000; Some 1016; Some 1017; Some 1018;
  Some 1019; Some 1020; Some 1021; Some 1024; Some 1032; Some 1040; Some 1048; Some 1128; Some 1136; Some 1144;
  Some 1152; Some 1160; Some 1168; Some 1184; Some 1192; Some 1256; Some 1264; Some 1272; Some 1274; Some 1276;
  Some 1280; Some 1696; Some 1704; Some 1720; Some 1728; Some 1736; Some 1744; Some 1752; Some 1760; Some 1768;
  Some 1776; Some 1784; Some 1788; Some 1792; Some 1800; Some 1808; Some 1816])%nat.
Definition proc__bindgen_ty_1 : ctype := CStruct [CPtr (* le_next *); CPtr (* le_prev *)].
Definition proc__bindgen_ty_1_asserts : asserted := (16, 8, [Some 0; Some 8])%nat.
Definition proc__bindgen_ty_2 : ctype := CStruct [CPtr (* tqh_first *); CPtr (* tqh_last *)].
Definition proc__bindgen_ty_2_asserts : asserted := (16, 8, [Some 0; Some 8])%nat.
Definition proc_p_states : ctype := c_int.
Definition proc__bindgen_ty_3 : ctype := CStruct [CPtr (* le_next *); CPtr (* le_prev *)].
Definition proc__bindgen_ty_3_asserts : asserted := (16, 8, [Some 0; Some 8])%nat.
Definition proc__bindgen_ty_4 : ctype := CStruct [CPtr (* le_next *); CPtr (* le_prev *)].
Definition proc__bindgen_ty_4_asserts : asserted := (16, 8, [Some 0; Some 8])%nat.
Definition proc__bindgen_ty_5 : ctype := CStruct [CPtr (* le_next *); CPtr (* le_prev *)].
Definition proc__bindgen_ty_5_asserts : asserted := (16, 8, [Some 0; Some 8])%nat.
Definition proc__bindgen_ty_6 : ctype := CStruct [CPtr (* lh_first *)].
Definition proc__bindgen_ty_6_asserts : asserted := (8, 8, [Some 0])%nat.
Definition proc__bindgen_ty_7 : ctype := CStruct [CPtr (* lh_first *)].
Definition proc__bindgen_ty_7_asserts : asserted := (8, 8, [Some 0])%nat.
Definition proc__bindgen_ty_8 : ctype := CStruct [CPtr (* le_next *); CPtr (* le_prev *)].
Definition proc__bindgen_ty_8_asserts : asserted := (16, 8, [Some 0; Some 8])%nat.
Definition proc__bindgen_ty_9 : ctype := CStruct [CPtr (* stqh_first *); CPtr (* stqh_last *)].
Definition proc__bindgen_ty_9_asserts : asserted := (16, 8, [Some 0; Some 8])%nat.
Definition proc__bindgen_ty_10 : ctype := CStruct [CPtr (* lh_first *)].
Definition proc__bindgen_ty_10_asserts : asserted := (8, 8, [Some 0])%nat.
Definition proc__bindgen_ty_11 : ctype := CStruct [CPtr (* le_next *); CPtr (* le_prev *)].
Definition proc__bindgen_ty_11_asserts : asserted := (16, 8, [Some 0; Some 8])%nat.
Definition proc__bindgen_ty_12 : ctype := CStruct [CPtr (* lh_first *)].
Definition proc__bindgen_ty_12_asserts : asserted := (8, 8, [Some 0])%nat.
Definition proc__bindgen_ty_13 : ctype := CStruct [CPtr (* tqh_first *); CPtr (* tqh_last *)].
Definition proc__bindgen_ty_13_asserts : asserted := (16, 8, [Some 0; Some 8])%nat.
Definition proc__bindgen_ty_14 : ctype := CStruct [CPtr (* le_next *); CPtr (* le_prev *)].
Definition proc__bindgen_ty_14_asserts : asserted := (16, 8, [Some 0; Some 8])%nat.
Definition proc_ : ctype := CStruct
  [proc__bindgen_ty_1 (* p_list *); proc__bindgen_ty_2 (* p_threads *); mtx (* p_slock *); CPtr (* p_ucred *);
  CPtr (* p_fd *); CPtr (* p_fdtol *); CPtr (* p_pd *); CPtr (* p_stats *); CPtr (* p_limit *); callout (* p_limco *);
  CPtr (* p_sigacts *); c_int (* p_flag *); c_int (* p_flag2 *); proc_p_states (* p_state *); pid_t (* p_pid *);
  proc__bindgen_ty_3 (* p_hash *); proc__bindgen_ty_4 (* p_pglist *); CPtr (* p_pptr *);
  proc__bindgen_ty_5 (* p_sibling *); proc__bindgen_ty_6 (* p_children *); CPtr (* p_reaper *);
  proc__bindgen_ty_7 (* p_reaplist *); proc__bindgen_ty_8 (* p_reapsibling *); mtx (* p_mtx *); mtx (* p_statmtx *);
  mtx (* p_itimmtx *); mtx (* p_profmtx *); CPtr (* p_ksi *); sigqueue_t (* p_sigqueue *); pid_t (* p_oppid *);
  CPtr (* p_vmspace *); u_int (* p_swtick *); u_int (* p_cowgen *); itimerval (* p_realtimer *); rusage (* p_ru *);
  rusage_ext (* p_rux *); rusage_ext (* p_crux *); c_int (* p_profthreads *); c_int (* p_exitthreads *);
  c_int (* p_traceflag *); CPtr (* p_ktrioparms *); CPtr (* p_textvp *); CPtr (* p_textdvp *); CPtr (* p_binname *);
  u_int (* p_lock *); sigiolst (* p_sigiolst *); c_int (* p_sigparent *); c_int (* p_sig *); u_int (* p_ptevents *);
  CPtr (* p_aioinfo *); CPtr (* p_singlethread *); c_int (* p_suspcount *); CPtr (* p_xthread *);
  c_int (* p_boundary_count *); c_int (* p_pendingcnt *); CPtr (* p_itimers *); CPtr (* p_procdesc *);
  u_int (* p_treeflag *); c_int (* p_pendingexits *); CPtr (* p_filemon *); c_int (* p_pdeathsig *);
  u_int (* p_magic *); c_int (* p_osrel *); c_int (* p_fctl0 *); CArr 20 c_char (* p_comm *); CPtr (* p_sysent *);
  CPtr (* p_args *); rlim_t (* p_cpulimit *); c_char (* p_nice *); c_int (* p_fibnum *); pid_t (* p_reapsubtree *);
  c_long (* p_elf_flags *); CPtr (* p_elf_brandinfo *); sbintime_t (* p_umtx_min_timeout *); u_int (* p_xexit *);
  u_int (* p_xsig *); CPtr (* p_pgrp *); CPtr (* p_klist *); c_int (* p_numthreads *); mdproc (* p_md *);
  callout (* p_itcallout *); u_short (* p_acflag *); CPtr (* p_peers *); CPtr (* p_leader *); CPtr (* p_emuldata *);
  CPtr (* p_label *); proc__bindgen_ty_9 (* p_ktr *); proc__bindgen_ty_10 (* p_mqnotifier *); CPtr (* p_dtrace *);
  cv (* p_pwait *); CPtr (* p_racct *); c_int (* p_throttled *); proc__bindgen_ty_11 (* p_orphan *);
  proc__bindgen_ty_12 (* p_orphans *); proc__bindgen_ty_13 (* p_kqtim_stop *); proc__bindgen_ty_14 (* p_jaillist *);
  u_int (* p_execblock *)].
Definition proc__asserts : asserted :=
  (1376, 8, [Some 0; Some 16; Some 32; Some 64; Some 72; Some 80; Some 88; Some 96; Some 104; Some 112; Some 176;
  Some 184; Some 188; Some 192; Some 196; Some 200; Some 216; Some 232; Some 240; Some 256; Some 264; Some 272;
  Some 280; Some 296; Some 328; Some 360; Some 392; Some 424; Some 432; Some 512; Some 520; Some 528; Some 532;
  Some 536; Some 568; Some 712; Some 768; Some 824; Some 828; Some 832; Some 840; Some 848; Some 856; Some 864;
  Some 872; Some 880; Some 888; Some 892; Some 896; Some 904; Some 912; Some 920; Some 928; Some 936; Some 940;
  Some 944; Some 952; Some 960; Some 964; Some 968; Some 976; Some 980; Some 984; Some 988; Some 992; Some 1016;
  Some 1024; Some 1032; Some 1040; Some 1044; Some 1048; Some 1056; Some 1064; Some 1072; Some 1080; Some 1084;
  Some 1088; Some 1096; Some 1104; Some 1112; Some 1144; Some 1208; Some 1216; Some 1224; Some 1232; Some 1240;
  Some 1248; Some 1264; Some 1272; Some 1280; Some 1296; Some 1304; Some 1312; Some 1328; Some 1336; Some 1352;
  Some 1368])%nat.
Definition vm_inherit_t : ctype := c_char.
Definition vm_prot_t : ctype := u_char.
Definition vm_map_entry_t : ctype := CPtr.
Definition vm_object : ctype := CStruct [CArr 0 c_char (* _unused *)].
Definition vm_page : ctype := CStruct [CArr 0 c_char (* _unused *)].
Definition pmap_statistics : ctype := CStruct [c_long (* resident_count *); c_long (* wired_count *)].
Definition pmap_statistics_asserts : asserted := (16, 8, [Some 0; Some 8])%nat.
Definition _cpuset : ctype := CStruct [CArr 16 c_long (* __bits *)].
Definition _cpuset_asserts : asserted := (128, 8, [Some 0])%nat.
Definition cpuset_t : ctype := _cpuset.
Definition pctrie_node : ctype := CStruct [CArr 0 c_char (* _unused *)].
Definition pctrie : ctype := CStruct [CPtr (* pt_root *)].
Definition pctrie_asserts : asserted := (8, 8, [Some 0])%nat.
Definition pmap_pcid : ctype := CStruct [c_int (* pm_pcid *); c_int (* pm_gen *)].
Definition pmap_pcid_asserts : asserted := (8, 4, [Some 0; Some 4])%nat.
Definition pv_entry__bindgen_ty_1 : ctype := CStruct [CPtr (* tqe_next *); CPtr (* tqe_prev *)].
Definition pv_entry__bindgen_ty_1_asserts : asserted := (16, 8, [Some 0; Some 8])%nat.
Definition pv_entry : ctype := CStruct [vm_offset_t (* pv_va *); pv_entry__bindgen_ty_1 (* pv_next *)].
Definition pv_entry_asserts : asserted := (24, 8, [Some 0; Some 8])%nat.
Definition pv_chunk__bindgen_ty_1 : ctype := CStruct [CPtr (* tqe_next *); CPtr (* tqe_prev *)].
Definition pv_chunk__bindgen_ty_1_asserts : asserted := (16, 8, [Some 0; Some 8])%nat.
Definition pv_chunk__bindgen_ty_2 : ctype := CStruct [CPtr (* tqe_next *); CPtr (* tqe_prev *)].
Definition pv_chunk__bindgen_ty_2_asserts : asserted := (16, 8, [Some 0; Some 8])%nat.
Definition pv_chunk : ctype := CStruct
  [CPtr (* pc_pmap *); pv_chunk__bindgen_ty_1 (* pc_list *); CArr 3 c_long (* pc_map *);
  pv_chunk__bindgen_ty_2 (* pc_lru *); CArr 168 pv_entry (* pc_pventry *); CArr 0 c_long (* pc_pad *)].
Definition pv_chunk_asserts : asserted := (4096, 8, [Some 0; Some 8; Some 24; Some 48; Some 64; Some 4096])%nat.
Definition rs_dup_data_t : ctype := CPtr.
Definition rs_free_data_t : ctype := CPtr.
Definition rangeset : ctype := CStruct
  [pctrie (* rs_trie *); rs_dup_data_t (* rs_dup_data *); rs_free_data_t (* rs_free_data *); CPtr (* rs_data_ctx *);
  u_int (* rs_alloc_flags *)].
Definition rangeset_asserts : asserted := (40, 8, [Some 0; Some 8; Some 16; Some 24; Some 32])%nat.
Definition vm_radix : ctype := CStruct [pctrie (* rt_trie *)].
Definition vm_radix_asserts : asserted := (8, 8, [Some 0])%nat.
Definition pml4_entry_t : ctype := u_int64_t.
Definition pmap_type : ctype := c_int.
Definition pmap__bindgen_ty_1 : ctype := CStruct [CPtr (* tqh_first *); CPtr (* tqh_last *)].
Definition pmap__bindgen_ty_1_asserts : asserted := (16, 8, [Some 0; Some 8])%nat.
Definition pmap : ctype := CStruct
  [mtx (* pm_mtx *); CPtr (* pm_pmltop *); CPtr (* pm_pmltopu *); c_long (* pm_cr3 *); c_long (* pm_ucr3 *);
  pmap__bindgen_ty_1 (* pm_pvchunk *); cpuset_t (* pm_active *); pmap_type (* pm_type *);
  pmap_statistics (* pm_stats *); vm_radix (* pm_root *); c_long (* pm_eptgen *); smr_t (* pm_eptsmr *);
  c_int (* pm_flags *); CPtr (* pm_pcidp *); rangeset (* pm_pkru *)].
Definition pmap_asserts : asserted :=
  (312, 8, [Some 0; Some 32; Some 40; Some 48; Some 56; Some 64; Some 80; Some 208; Some 216; Some 232; Some 240;
  Some 248; Some 256; Some 264; Some 272])%nat.
Definition pmap_t : ctype := CPtr.
Definition vm_eflags_t : ctype := u_int.
Definition vm_map_object : ctype := CUnion [CPtr (* vm_object *); CPtr (* sub_map *)].
Definition vm_map_object_asserts : asserted := (8, 8, [Some 0; Some 0])%nat.
Definition vm_map_entry : ctype := CStruct
  [CPtr (* left *); CPtr (* right *); vm_offset_t (* start *); vm_offset_t (* end *); vm_offset_t (* next_read *);
  vm_size_t (* max_free *); vm_map_object (* object *); vm_ooffset_t (* offset *); vm_eflags_t (* eflags *);
  vm_prot_t (* protection *); vm_prot_t (* max_protection *); vm_inherit_t (* inheritance *); c_char (* read_ahead *);
  c_int (* wired_count *); CPtr (* cred *); CPtr (* wiring_thread *)].
Definition vm_map_entry_asserts : asserted :=
  (96, 8, [Some 0; Some 8; Some 16; Some 24; Some 32; Some 40; Some 48; Some 56; Some 64; Some 68; Some 69; Some 70;
  Some 71; Some 72; Some 80; Some 88])%nat.
Definition vm_map__bindgen_ty_1 : ctype := CUnion [sx (* lock *); mtx (* system_mtx *)].
Definition vm_map__bindgen_ty_1_asserts : asserted := (32, 8, [Some 0; Some 0])%nat.
Definition vm_map : ctype := CStruct
  [vm_map_entry (* header *); vm_map__bindgen_ty_1 (* __bindgen_anon_1 *); c_int (* nentries *); vm_size_t (* size *);
  u_int (* timestamp *); u_int (* flags *); vm_map_entry_t (* root *); pmap_t (* pmap *); vm_offset_t (* anon_loc *);
  c_int (* busy *)].
Definition vm_map_asserts : asserted :=
  (184, 8, [Some 0; None; Some 128; Some 136; Some 144; Some 148; Some 152; Some 160; Some 168; Some 176])%nat.
Definition vmspace : ctype := CStruct
  [vm_map (* vm_map *); CPtr (* vm_shm *); segsz_t (* vm_swrss *); segsz_t (* vm_tsize *); segsz_t (* vm_dsize *);
  segsz_t (* vm_ssize *); caddr_t (* vm_taddr *); caddr_t (* vm_daddr *); caddr_t (* vm_maxsaddr *);
  vm_offset_t (* vm_stacktop *); vm_offset_t (* vm_shp_base *); u_int (* vm_refcnt *); pmap (* vm_pmap *)].
Definition vmspace_asserts : asserted :=
  (584, 8, [Some 0; Some 184; Some 192; Some 200; Some 208; Some 216; Some 224; Some 232; Some 240; Some 248;
  Some 256; Some 264; Some 272])%nat.
Definition pstats_uprof : ctype := CStruct
  [caddr_t (* pr_base *); u_long (* pr_size *); u_long (* pr_off *); u_long (* pr_scale *)].
Definition pstats_uprof_asserts : asserted := (32, 8, [Some 0; Some 8; Some 16; Some 24])%nat.
Definition pstats : ctype := CStruct
  [rusage (* p_cru *); CArr 3 itimerval (* p_timer *); pstats_uprof (* p_prof *); timeval (* p_start *)].
Definition pstats_asserts : asserted := (288, 8, [Some 0; Some 144; Some 240; Some 272])%nat.
Definition user : ctype := CStruct [pstats (* u_stats *); kinfo_proc (* u_kproc *)].
Definition user_asserts : asserted := (1376, 8, [Some 0; Some 288])%nat.
Definition kinfo_vmentry__bindgen_ty_1 : ctype := CUnion [c_long (* _kve_vn_fsid *); c_long (* _kve_obj *)].
Definition kinfo_vmentry__bindgen_ty_1_asserts : asserted := (8, 8, [Some 0; Some 0])%nat.
Definition kinfo_vmentry : ctype := CStruct
  [c_int (* kve_structsize *); c_int (* kve_type *); c_long (* kve_start *); c_long (* kve_end *);
  c_long (* kve_offset *); c_long (* kve_vn_fileid *); c_int (* kve_vn_fsid_freebsd11 *); c_int (* kve_flags *);
  c_int (* kve_resident *); c_int (* kve_private_resident *); c_int (* kve_protection *); c_int (* kve_ref_count *);
  c_int (* kve_shadow_count *); c_int (* kve_vn_type *); c_long (* kve_vn_size *); c_int (* kve_vn_rdev_freebsd11 *);
  c_short (* kve_vn_mode *); c_short (* kve_status *); kinfo_vmentry__bindgen_ty_1 (* kve_type_spec *);
  c_long (* kve_vn_rdev *); CArr 8 c_int (* _kve_ispare *); CArr 1024 c_char (* kve_path *)].
Definition kinfo_vmentry_asserts : asserted :=
  (1160, 8, [Some 0; Some 4; Some 8; Some 16; Some 24; Some 32; Some 40; Some 44; Some 48; Some 52; Some 56; Some 60;
  Some 64; Some 68; Some 72; Some 80; Some 84; Some 86; Some 88; Some 96; Some 104; Some 136])%nat.
Definition kinfo_kstack : ctype := CStruct
  [lwpid_t (* kkst_tid *); c_int (* kkst_state *); CArr 1024 c_char (* kkst_trace *);
  CArr 16 c_int (* _kkst_ispare *)].
Definition kinfo_kstack_asserts : asserted := (1096, 4, [Some 0; Some 4; Some 8; Some 1032])%nat.
Definition kinfo_knote__bindgen_ty_1__bindgen_ty_1 : ctype := CStruct
  [c_int (* knt_vnode_type *); c_long (* knt_vnode_fsid *); c_long (* knt_vnode_fileid *);
  CArr 1024 c_char (* knt_vnode_fullpath *)].
Definition kinfo_knote__bindgen_ty_1__bindgen_ty_1_asserts : asserted :=
  (1048, 8, [Some 0; Some 8; Some 16; Some 24])%nat.
Definition kinfo_knote__bindgen_ty_1__bindgen_ty_2 : ctype := CStruct [ino_t (* knt_pipe_ino *)].
Definition kinfo_knote__bindgen_ty_1__bindgen_ty_2_asserts : asserted := (8, 8, [Some 0])%nat.
Definition kinfo_knote__bindgen_ty_1 : ctype := CUnion
  [kinfo_knote__bindgen_ty_1__bindgen_ty_1 (* knt_vnode *); kinfo_knote__bindgen_ty_1__bindgen_ty_2 (* knt_pipe *)].
Definition kinfo_knote__bindgen_ty_1_asserts : asserted := (1048, 8, [Some 0; Some 0])%nat.
Definition kinfo_knote : ctype := CStruct
  [c_int (* knt_kq_fd *); kevent (* knt_event *); c_int (* knt_status *); c_int (* knt_extdata *);
  CArr 4 c_long (* knt_spare0 *); kinfo_knote__bindgen_ty_1 (* __bindgen_anon_1 *)].
Definition kinfo_knote_asserts : asserted := (1160, 8, [Some 0; Some 8; Some 72; Some 76; Some 80; None])%nat.
Definition Elf64_Auxinfo__bindgen_ty_1 : ctype := CUnion [c_long (* a_val *); CPtr (* a_ptr *); CPtr (* a_fcn *)].
Definition Elf64_Auxinfo__bindgen_ty_1_asserts : asserted := (8, 8, [Some 0; Some 0; Some 0])%nat.
Definition Elf64_Auxinfo : ctype := CStruct [c_long (* a_type *); Elf64_Auxinfo__bindgen_ty_1 (* a_un *)].
Definition Elf64_Auxinfo_asserts : asserted := (16, 8, [Some 0; Some 8])%nat.
Definition Elf_Auxinfo : ctype := Elf64_Auxinfo.
Definition procstat : ctype := CStruct [CArr 0 c_char (* _unused *)].
Definition ptrace_lwpinfo : ctype := CStruct [CArr 0 c_char (* _unused *)].
Definition vnstat : ctype := CStruct
  [c_long (* vn_fileid *); c_long (* vn_size *); c_long (* vn_dev *); c_long (* vn_fsid *); CPtr (* vn_mntdir *);
  c_int (* vn_type *); c_short (* vn_mode *); CArr 256 c_char (* vn_devname *)].
Definition vnstat_asserts : asserted :=
  (304, 8, [Some 0; Some 8; Some 16; Some 24; Some 32; Some 40; Some 44; Some 46])%nat.
Definition ptsstat : ctype := CStruct [c_long (* dev *); CArr 256 c_char (* devname *)].
Definition ptsstat_asserts : asserted := (264, 8, [Some 0; Some 8])%nat.
Definition pipestat : ctype := CStruct [c_long (* buffer_cnt *); c_long (* addr *); c_long (* peer *)].
Definition pipestat_asserts : asserted := (24, 8, [Some 0; Some 8; Some 16])%nat.
Definition semstat : ctype := CStruct [c_int (* value *); c_short (* mode *)].
Definition semstat_asserts : asserted := (8, 4, [Some 0; Some 4])%nat.
Definition shmstat : ctype := CStruct [c_long (* size *); c_short (* mode *)].
Definition shmstat_asserts : asserted := (16, 8, [Some 0; Some 8])%nat.
Definition advlock__bindgen_ty_1 : ctype := CStruct [CPtr (* stqe_next *)].
Definition advlock__bindgen_ty_1_asserts : asserted := (8, 8, [Some 0])%nat.
Definition advlock : ctype := CStruct
  [c_int (* rw *); c_int (* type_ *); c_int (* pid *); c_int (* sysid *); c_long (* file_fsid *);
  c_long (* file_rdev *); c_long (* file_fileid *); off_t (* start *); off_t (* len *); CPtr (* path *);
  advlock__bindgen_ty_1 (* next *)].
Definition advlock_asserts : asserted :=
  (72, 8, [Some 0; Some 4; Some 8; Some 12; Some 16; Some 24; Some 32; Some 40; Some 48; Some 56; Some 64])%nat.
Definition advlock_list : ctype := CStruct [CPtr (* stqh_first *); CPtr (* stqh_last *)].
Definition advlock_list_asserts : asserted := (16, 8, [Some 0; Some 8])%nat.
Definition amd64tss : ctype := CStruct [c_char (* _address *)].
Definition witness : ctype := CStruct [c_char (* _address *)].
Definition file : ctype := CStruct [c_char (* _address *)].
Definition vnode : ctype := CStruct [c_char (* _address *)].
Definition ucred : ctype := CStruct [c_char (* _address *)].
Definition cdev_priv : ctype := CStruct [c_char (* _address *)].
Definition tty : ctype := CStruct [c_char (* _address *)].
Definition sysent : ctype := CStruct [c_char (* _address *)].
Definition seltd : ctype := CStruct [c_char (* _address *)].
Definition umtx_q : ctype := CStruct [c_char (* _address *)].
Definition plimit : ctype := CStruct [c_char (* _address *)].
Definition vnet : ctype := CStruct [c_char (* _address *)].
Definition ktr_io_params : ctype := CStruct [c_char (* _address *)].
Definition itimers : ctype := CStruct [c_char (* _address *)].
Definition sysentvec : ctype := CStruct [c_char (* _address *)].
Definition label : ctype := CStruct [c_char (* _address *)].
Definition ktr_request : ctype := CStruct [c_char (* _address *)].
Definition shmmap_state : ctype := CStruct [c_char (* _address *)].

(** ** Layout *)

Definition fields_of (t : ctype) : list ctype :=
  match t with CStruct fs | CUnion fs | CAligned _ (CStruct fs) => fs | _ => [] end.
Definition is_union (t : ctype) : bool := match t with CUnion _ => true | _ => false end.

(** Where [repr(C)] puts the fields: in a union, all at its start. *)
Definition offsets_of (t : ctype) : list nat := if is_union t then map (fun _ => 0%nat) (fields_of t) else offsets 0 (fields_of t).

Definition offset_holds (o : nat) (a : option nat) : bool := match a with Some n => (o =? n)%nat | None => true end.
Fixpoint offsets_hold (os : list nat) (asr : list (option nat)) : bool :=
  match os, asr with
  | [], [] => true
  | o :: os', a :: asr' => offset_holds o a && offsets_hold os' asr'
  | _, _ => false
  end.

(** The constant blocks of the file: an assertion that fails is a compile error there. *)
Definition assertions_hold (t : ctype) (a : asserted) : bool :=
  (csize t =? a.1.1)%nat && (calign t =? a.1.2)%nat && offsets_hold (offsets_of t) a.2.

Definition all_asserted (a : nat * nat * list nat) : asserted := (a.1, map Some a.2).

(** Every structure and union of the file with what is asserted of it. *)
Definition structures : list (ctype * asserted) :=
  [(__sigset, all_asserted __sigset_asserts); (timeval, all_asserted timeval_asserts);
   (sockaddr_storage, all_asserted sockaddr_storage_asserts); (rusage, all_asserted rusage_asserts);
   (priority, all_asserted priority_asserts); (kinfo_proc, all_asserted kinfo_proc_asserts);
   (cap_rights, all_asserted cap_rights_asserts);
   (filestat__bindgen_ty_1, all_asserted filestat__bindgen_ty_1_asserts); (filestat, all_asserted filestat_asserts);
   (sockstat, all_asserted sockstat_asserts); (filestat_list, all_asserted filestat_list_asserts);
   (sigaltstack, sigaltstack_asserts); (sigval, sigval_asserts);
   (__siginfo__bindgen_ty_1__bindgen_ty_1, __siginfo__bindgen_ty_1__bindgen_ty_1_asserts);
   (__siginfo__bindgen_ty_1__bindgen_ty_2, __siginfo__bindgen_ty_1__bindgen_ty_2_asserts);
   (__siginfo__bindgen_ty_1__bindgen_ty_3, __siginfo__bindgen_ty_1__bindgen_ty_3_asserts);
   (__siginfo__bindgen_ty_1__bindgen_ty_4, __siginfo__bindgen_ty_1__bindgen_ty_4_asserts);
   (__siginfo__bindgen_ty_1__bindgen_ty_5, __siginfo__bindgen_ty_1__bindgen_ty_5_asserts);
   (__siginfo__bindgen_ty_1__bindgen_ty_6, __siginfo__bindgen_ty_1__bindgen_ty_6_asserts);
   (__siginfo__bindgen_ty_1, __siginfo__bindgen_ty_1_asserts); (__siginfo, __siginfo_asserts);
   (fpacc87, fpacc87_asserts); (xmmacc, xmmacc_asserts); (envxmm, envxmm_asserts);
   (savefpu__bindgen_ty_1, savefpu__bindgen_ty_1_asserts); (savefpu, savefpu_asserts);
   (system_segment_descriptor, system_segment_descriptor_asserts); (region_descriptor, region_descriptor_asserts);
   (pcb, pcb_asserts); (kevent, kevent_asserts); (klist, klist_asserts); (kqlist, kqlist_asserts);
   (knlist, knlist_asserts); (itimerval, itimerval_asserts); (rlimit, rlimit_asserts);
   (lock_object, lock_object_asserts); (mtx, mtx_asserts);
   (callout__bindgen_ty_1__bindgen_ty_1, callout__bindgen_ty_1__bindgen_ty_1_asserts);
   (callout__bindgen_ty_1__bindgen_ty_2, callout__bindgen_ty_1__bindgen_ty_2_asserts);
   (callout__bindgen_ty_1__bindgen_ty_3, callout__bindgen_ty_1__bindgen_ty_3_asserts);
   (callout__bindgen_ty_1, callout__bindgen_ty_1_asserts); (callout, callout_asserts); (kexterr, kexterr_asserts);
   (cv, cv_asserts); (sx, sx_asserts); (filecaps, filecaps_asserts); (filedescent, filedescent_asserts);
   (fdescenttbl, fdescenttbl_asserts); (pwd, pwd_asserts); (smrpwd_t, smrpwd_t_asserts); (pwddesc, pwddesc_asserts);
   (filedesc, filedesc_asserts); (filedesc_to_leader, filedesc_to_leader_asserts); (lpohead, lpohead_asserts);
   (osd__bindgen_ty_1, osd__bindgen_ty_1_asserts); (osd, osd_asserts);
   (sigio__bindgen_ty_1, sigio__bindgen_ty_1_asserts); (sigio__bindgen_ty_2, sigio__bindgen_ty_2_asserts);
   (sigio, sigio_asserts); (sigiolst, sigiolst_asserts); (sigacts, sigacts_asserts);
   (ksiginfo__bindgen_ty_1, ksiginfo__bindgen_ty_1_asserts); (ksiginfo, ksiginfo_asserts);
   (sigqueue__bindgen_ty_1, sigqueue__bindgen_ty_1_asserts); (sigqueue, sigqueue_asserts);
   (domainset_ref, domainset_ref_asserts); (proc_ldt, proc_ldt_asserts);
   (pmap_invl_gen__bindgen_ty_1__bindgen_ty_1, pmap_invl_gen__bindgen_ty_1__bindgen_ty_1_asserts);
   (pmap_invl_gen__bindgen_ty_1__bindgen_ty_2, pmap_invl_gen__bindgen_ty_1__bindgen_ty_2_asserts);
   (pmap_invl_gen__bindgen_ty_1, pmap_invl_gen__bindgen_ty_1_asserts); (pmap_invl_gen, pmap_invl_gen_asserts);
   (mdthread, mdthread_asserts); (mdproc, mdproc_asserts); (session, session_asserts);
   (pgrp__bindgen_ty_1, pgrp__bindgen_ty_1_asserts); (pgrp__bindgen_ty_2, pgrp__bindgen_ty_2_asserts);
   (pgrp, pgrp_asserts); (pargs, pargs_asserts); (syscall_args, syscall_args_asserts);
   (rusage_ext, rusage_ext_asserts); (thread__bindgen_ty_1, thread__bindgen_ty_1_asserts);
   (thread__bindgen_ty_2, thread__bindgen_ty_2_asserts);
   (thread__bindgen_ty_3__bindgen_ty_1, thread__bindgen_ty_3__bindgen_ty_1_asserts);
   (thread__bindgen_ty_3, thread__bindgen_ty_3_asserts); (thread__bindgen_ty_4, thread__bindgen_ty_4_asserts);
   (thread__bindgen_ty_5, thread__bindgen_ty_5_asserts); (thread__bindgen_ty_6, thread__bindgen_ty_6_asserts);
   (thread__bindgen_ty_7, thread__bindgen_ty_7_asserts); (thread, thread_asserts);
   (proc__bindgen_ty_1, proc__bindgen_ty_1_asserts); (proc__bindgen_ty_2, proc__bindgen_ty_2_asserts);
   (proc__bindgen_ty_3, proc__bindgen_ty_3_asserts); (proc__bindgen_ty_4, proc__bindgen_ty_4_asserts);
   (proc__bindgen_ty_5, proc__bindgen_ty_5_asserts); (proc__bindgen_ty_6, proc__bindgen_ty_6_asserts);
   (proc__bindgen_ty_7, proc__bindgen_ty_7_asserts); (proc__bindgen_ty_8, proc__bindgen_ty_8_asserts);
   (proc__bindgen_ty_9, proc__bindgen_ty_9_asserts); (proc__bindgen_ty_10, proc__bindgen_ty_10_asserts);
   (proc__bindgen_ty_11, proc__bindgen_ty_11_asserts); (proc__bindgen_ty_12, proc__bindgen_ty_12_asserts);
   (proc__bindgen_ty_13, proc__bindgen_ty_13_asserts); (proc__bindgen_ty_14, proc__bindgen_ty_14_asserts);
   (proc_, proc__asserts); (pmap_statistics, pmap_statistics_asserts); (_cpuset, _cpuset_asserts);
   (pctrie, pctrie_asserts); (pmap_pcid, pmap_pcid_asserts); (pv_entry__bindgen_ty_1, pv_entry__bindgen_ty_1_asserts);
   (pv_entry, pv_entry_asserts); (pv_chunk__bindgen_ty_1, pv_chunk__bindgen_ty_1_asserts);
   (pv_chunk__bindgen_ty_2, pv_chunk__bindgen_ty_2_asserts); (pv_chunk, pv_chunk_asserts);
   (rangeset, rangeset_asserts); (vm_radix, vm_radix_asserts); (pmap__bindgen_ty_1, pmap__bindgen_ty_1_asserts);
   (pmap, pmap_asserts); (vm_map_object, vm_map_object_asserts); (vm_map_entry, vm_map_entry_asserts);
   (vm_map__bindgen_ty_1, vm_map__bindgen_ty_1_asserts); (vm_map, vm_map_asserts); (vmspace, vmspace_asserts);
   (pstats_uprof, pstats_uprof_asserts); (pstats, pstats_asserts); (user, user_asserts);
   (kinfo_vmentry__bindgen_ty_1, kinfo_vmentry__bindgen_ty_1_asserts); (kinfo_vmentry, kinfo_vmentry_asserts);
   (kinfo_kstack, kinfo_kstack_asserts);
   (kinfo_knote__bindgen_ty_1__bindgen_ty_1, kinfo_knote__bindgen_ty_1__bindgen_ty_1_asserts);
   (kinfo_knote__bindgen_ty_1__bindgen_ty_2, kinfo_knote__bindgen_ty_1__bindgen_ty_2_asserts);
   (kinfo_knote__bindgen_ty_1, kinfo_knote__bindgen_ty_1_asserts); (kinfo_knote, kinfo_knote_asserts);
   (Elf64_Auxinfo__bindgen_ty_1, Elf64_Auxinfo__bindgen_ty_1_asserts); (Elf64_Auxinfo, Elf64_Auxinfo_asserts);
   (vnstat, vnstat_asserts); (ptsstat, ptsstat_asserts); (pipestat, pipestat_asserts); (semstat, semstat_asserts);
   (shmstat, shmstat_asserts); (advlock__bindgen_ty_1, advlock__bindgen_ty_1_asserts); (advlock, advlock_asserts);
   (advlock_list, advlock_list_asserts)].

(** Members of a union start together and none is larger than it. *)
Definition members_fit (t : ctype) : bool := forallb (fun f => (csize f <=? csize t)%nat) (fields_of t).

(** Everything the file asserts of its structures and unions is what C's rules give. *)
Lemma structures_hold : forallb (fun ta => assertions_hold ta.1 ta.2 && sane ta.1 && members_fit ta.1) structures = true.
Proof. vm_compute. reflexivity. Qed.

Lemma fields_sane t : sane t = true -> Forall (fun f => sane f = true) (fields_of t).
Proof.
  assert (Hgo : forall fs, (fix go fs := match fs with [] => true | f :: fs' => sane f && go fs' end) fs = true ->
            Forall (fun f => sane f = true) fs).
  { induction fs as [|f fs IH]; [constructor|]. intros [Hf Hr]%andb_true_iff. constructor; [done|by apply IH]. }
  destruct t as [w| |n t|fs|fs|n t]; cbn; intros Hs; try (constructor; fail); [by apply Hgo..|].
  destruct t; try (constructor; fail). by apply Hgo.
Qed.
