(* ===== verification/BindgenBits.v ===== *)
(** Bit fields of the bindings (procstat_sys.rs): [__BindgenBitfieldUnit], its bits and its
    fields, by reference and through raw pointers, and the two descriptors of amd64 that are
    made of them.

    Which way the target numbers bits and whether debug assertions are compiled in is the
    class [Build].  A unit behind a reference is its bytes; behind a raw pointer, the bytes
    of a memory from an address on.  [None] is a panic, or an access to memory that is not
    there.  [transmute] between types of 64 bits and [#[inline]] do nothing. *)
From S2P Require Import Prelude Abi.

Class Build : Type := { big_endian : bool; debug_assertions : bool }.

Section unit_.
Context `{Build}.

(** ** Arithmetic, with the overflow checks of a debug build *)

Definition debug_assert (c : bool) : option unit := if debug_assertions && negb c then None else Some tt.
Definition usize_add (a b : Z) : option Z :=
  if a + b <? 2 ^ 64 then Some (a + b) else if debug_assertions then None else Some ((a + b) mod 2 ^ 64).
Definition shl_one (i : Z) : option Z :=
  if i <? 64 then Some (Z.shiftl 1 i) else if debug_assertions then None else Some (Z.shiftl 1 (i mod 64)).

(** ** Single bits *)

Definition bit_index (index : Z) : Z := if big_endian then 7 - index mod 8 else index mod 8.
Definition extract_bit (byte index : Z) : bool := let mask := Z.shiftl 1 (bit_index index) in Z.land byte mask =? mask.
Definition change_bit (byte index : Z) (val : bool) : Z :=
  let mask := Z.shiftl 1 (bit_index index) in if val then Z.lor byte mask else Z.land byte (Z.lxor 255 mask).

Definition get_bit (storage : list Z) (index : Z) : option bool :=
  _ ← debug_assert (index / 8 <? Z.of_nat (length storage));
  byte ← storage !! Z.to_nat (index / 8);
  Some (extract_bit byte index).

Definition set_bit (storage : list Z) (index : Z) (val : bool) : option (list Z) :=
  _ ← debug_assert (index / 8 <? Z.of_nat (length storage));
  byte ← storage !! Z.to_nat (index / 8);
  Some (<[Z.to_nat (index / 8) := change_bit byte index val]> storage).

(** [n] is the size of the storage. *)
Definition raw_get_bit (this : Z) (n : nat) (mem : gmap Z Z) (index : Z) : option bool :=
  _ ← debug_assert (index / 8 <? Z.of_nat n);
  byte ← mem !! (this + index / 8);
  Some (extract_bit byte index).

Definition raw_set_bit (this : Z) (n : nat) (mem : gmap Z Z) (index : Z) (val : bool) : option (gmap Z Z) :=
  _ ← debug_assert (index / 8 <? Z.of_nat n);
  byte ← mem !! (this + index / 8);
  Some (<[this + index / 8 := change_bit byte index val]> mem).

(** ** Fields *)

(** Where the loops of all four find the bits: [index]. *)
Definition mirror (w i : Z) : Z := if big_endian then w - 1 - i else i.

(** The three assertions they open with. *)
Definition field_asserts (len : nat) (bit_offset bit_width : Z) : option unit :=
  if debug_assertions then
    _ ← debug_assert (bit_width <=? 64);
    _ ← debug_assert (bit_offset / 8 <? Z.of_nat len);
    e ← usize_add bit_offset bit_width;
    debug_assert (e / 8 <=? Z.of_nat len)
  else Some tt.

(** [n] turns are left; [bit] is [get_bit] or [raw_get_bit]. *)
Fixpoint get_loop (bit : Z -> option bool) (bit_offset w i : Z) (n : nat) (val : Z) : option Z :=
  match n with
  | O => Some val
  | S n' =>
      p ← usize_add i bit_offset; b ← bit p;
      val' ← (if b : bool then m ← shl_one (mirror w i); Some (Z.lor val m) else Some val);
      get_loop bit bit_offset w (i + 1) n' val'
  end.

Fixpoint set_loop {T} (put : T -> Z -> bool -> option T) (bit_offset w val i : Z) (n : nat) (s : T) : option T :=
  match n with
  | O => Some s
  | S n' =>
      mask ← shl_one i; p ← usize_add (mirror w i) bit_offset;
      s' ← put s p (Z.land val mask =? mask);
      set_loop put bit_offset w val (i + 1) n' s'
  end.

Definition get (storage : list Z) (bit_offset bit_width : Z) : option Z :=
  _ ← field_asserts (length storage) bit_offset bit_width;
  get_loop (get_bit storage) bit_offset bit_width 0 (Z.to_nat bit_width) 0.

Definition raw_get (this : Z) (n : nat) (mem : gmap Z Z) (bit_offset bit_width : Z) : option Z :=
  _ ← field_asserts n bit_offset bit_width;
  get_loop (raw_get_bit this n mem) bit_offset bit_width 0 (Z.to_nat bit_width) 0.

Definition set (storage : list Z) (bit_offset bit_width val : Z) : option (list Z) :=
  _ ← field_asserts (length storage) bit_offset bit_width;
  set_loop set_bit bit_offset bit_width val 0 (Z.to_nat bit_width) storage.

Definition raw_set (this : Z) (n : nat) (mem : gmap Z Z) (bit_offset bit_width val : Z) : option (gmap Z Z) :=
  _ ← field_asserts n bit_offset bit_width;
  set_loop (raw_set_bit this n) bit_offset bit_width val 0 (Z.to_nat bit_width) mem.

(** ** Bits of a byte *)

Lemma test_mask v i : 0 <= i -> (Z.land v (Z.shiftl 1 i) =? Z.shiftl 1 i) = Z.testbit v i.
Proof.
  intros Hi. rewrite Z.shiftl_1_l. destruct (Z.testbit v i) eqn:E.
  - apply Z.eqb_eq, Z.bits_inj'. intros j Hj. rewrite Z.land_spec, Z.pow2_bits_eqb by done. destruct (Z.eqb_spec i j) as [->|]; [by rewrite E|apply andb_false_r].
  - apply Z.eqb_neq. intros He. apply (f_equal (fun z => Z.testbit z i)) in He.
    rewrite Z.land_spec, Z.pow2_bits_true, E in He by done. discriminate He.
Qed.

Lemma bit_index_bounds k : 0 <= bit_index k < 8.
Proof. unfold bit_index. pose proof (Z.mod_pos_bound k 8 ltac:(lia)). destruct big_endian; lia. Qed.

Lemma extract_change byte j k b :
  0 <= byte < 256 -> extract_bit (change_bit byte k b) j = if j mod 8 =? k mod 8 then b else extract_bit byte j.
Proof.
  intros Hb. unfold extract_bit, change_bit. pose proof (bit_index_bounds j) as Hj. pose proof (bit_index_bounds k) as Hk.
  rewrite !test_mask by lia. assert (E : (j mod 8 =? k mod 8) = (bit_index k =? bit_index j)).
  { unfold bit_index. destruct big_endian; destruct (Z.eqb_spec (j mod 8) (k mod 8)); symmetry; (apply Z.eqb_eq || apply Z.eqb_neq); lia. }
  rewrite E. rewrite Z.shiftl_1_l. destruct b.
  - rewrite Z.lor_spec, Z.pow2_bits_eqb by lia. destruct (bit_index k =? bit_index j); [apply orb_true_r|apply orb_false_r].
  - rewrite Z.land_spec, Z.lxor_spec, Z.pow2_bits_eqb by lia. change 255 with (Z.ones 8). rewrite Z.ones_spec_low by lia.
    destruct (bit_index k =? bit_index j); [apply andb_false_r|apply andb_true_r].
Qed.

Lemma change_bit_ok byte k b : 0 <= byte < 256 -> 0 <= change_bit byte k b < 256.
Proof.
  intros Hb. pose proof (bit_index_bounds k) as Hk. unfold change_bit. rewrite Z.shiftl_1_l.
  assert (Hlow : forall z, 0 <= z -> (forall n, 8 <= n -> Z.testbit z n = false) -> 0 <= z < 256).
  { intros z Hz Hn. split; [done|]. destruct (Z.ltb_spec z 256); [done|]. exfalso.
    assert (8 <= Z.log2 z) by (apply Z.log2_le_pow2; lia). pose proof (Hn _ H1). rewrite Z.bit_log2 in H2 by lia. done. }
  assert (Hhigh : forall n, 8 <= n -> Z.testbit byte n = false).
  { intros n Hn. destruct (Z.eqb_spec byte 0) as [->|]; [apply Z.bits_0|]. apply Z.bits_above_log2; [lia|].
    assert (Z.log2 byte < 8); [apply Z.log2_lt_pow2; lia|lia]. }
  destruct b; apply Hlow.
  - apply Z.lor_nonneg. lia.
  - intros n Hn. rewrite Z.lor_spec, Hhigh, Z.pow2_bits_false by lia. done.
  - apply Z.land_nonneg. lia.
  - intros n Hn. by rewrite Z.land_spec, Hhigh.
Qed.

Lemma byte_of_bit k len : 0 <= k < 8 * Z.of_nat len -> 0 <= k / 8 < Z.of_nat len.
Proof. intros Hk. split; [apply Z.div_pos; lia|apply Z.div_lt_upper_bound; lia]. Qed.

Lemma assert_in_range len k : 0 <= k < 8 * Z.of_nat len -> debug_assert (k / 8 <? Z.of_nat len) = Some tt.
Proof. intros Hk%byte_of_bit. unfold debug_assert. rewrite (proj2 (Z.ltb_lt _ _)) by lia. cbn. by rewrite andb_false_r. Qed.

(** Two bits are the same one, or in other bytes, or at other places of a byte. *)
Lemma same_bit j k : (j =? k) = (j / 8 =? k / 8) && (j mod 8 =? k mod 8).
Proof.
  pose proof (Z.div_mod j 8 ltac:(lia)). pose proof (Z.div_mod k 8 ltac:(lia)).
  destruct (Z.eqb_spec j k) as [->|]; [by rewrite !Z.eqb_refl|]. symmetry. apply andb_false_iff.
  destruct (Z.eqb_spec (j / 8) (k / 8)); [right|by left]. apply Z.eqb_neq. lia.
Qed.

(** ** Bits of a unit *)

Definition bytes_ok (len : nat) (st : list Z) : Prop := length st = len /\ Forall (fun b => 0 <= b < 256) st.
Definition list_bit (st : list Z) (k : Z) : bool := extract_bit (st !!! Z.to_nat (k / 8)) k.

Lemma list_rd len st k : bytes_ok len st -> 0 <= k < 8 * Z.of_nat len -> get_bit st k = Some (list_bit st k).
Proof.
  intros [Hl _] Hk. unfold get_bit, list_bit. rewrite Hl, assert_in_range by done. cbn. apply byte_of_bit in Hk.
  by rewrite list_lookup_lookup_total_lt by lia.
Qed.

Lemma list_wr len st k b :
  bytes_ok len st -> 0 <= k < 8 * Z.of_nat len ->
  exists st', set_bit st k b = Some st' /\ bytes_ok len st'
    /\ forall j, 0 <= j < 8 * Z.of_nat len -> list_bit st' j = if j =? k then b else list_bit st j.
Proof.
  intros [Hl Hf] Hk. unfold set_bit. rewrite Hl, assert_in_range by done. cbn. pose proof (byte_of_bit _ _ Hk) as Hb.
  rewrite list_lookup_lookup_total_lt by lia. cbn. set (byte := st !!! Z.to_nat (k / 8)).
  assert (Hbyte : 0 <= byte < 256) by (rewrite Forall_forall in Hf; apply Hf, list_elem_of_lookup_total_2; lia).
  eexists. split; [reflexivity|]. split.
  - split; [by rewrite length_insert|]. apply Forall_insert; [done|by apply change_bit_ok].
  - intros j Hj. pose proof (byte_of_bit _ _ Hj). unfold list_bit. rewrite same_bit. destruct (Z.eqb_spec (j / 8) (k / 8)) as [->|Hne]; cbn [andb].
    + rewrite list_lookup_total_insert_eq by lia. by rewrite extract_change.
    + by rewrite list_lookup_total_insert_ne by lia.
Qed.

(** ** The loops *)

Lemma usize_add_fits a b : 0 <= a -> 0 <= b -> a + b < 2 ^ 64 -> usize_add a b = Some (a + b).
Proof. intros. unfold usize_add. by rewrite (proj2 (Z.ltb_lt _ _)) by lia. Qed.

Lemma shl_one_fits i : 0 <= i < 64 -> shl_one i = Some (Z.shiftl 1 i).
Proof. intros. unfold shl_one. by rewrite (proj2 (Z.ltb_lt _ _)) by lia. Qed.

Lemma mirror_bounds w i : 0 <= i < w -> 0 <= mirror w i < w.
Proof. unfold mirror. destruct big_endian; lia. Qed.

Lemma mirror_swap w i j : mirror w i = j <-> i = mirror w j.
Proof. unfold mirror. destruct big_endian; lia. Qed.

Section loops.
Context (len : nat) (off w : Z).
Hypothesis Hlen : 8 * Z.of_nat len < 2 ^ 64.
Hypothesis Hoff : 0 <= off.
Hypothesis Hw : 1 <= w <= 64.
Hypothesis Hfit : off + w <= 8 * Z.of_nat len.

Lemma asserts_hold : field_asserts len off w = Some tt.
Proof using All.
  unfold field_asserts. destruct debug_assertions eqn:E; [|done]. unfold debug_assert. rewrite E. cbn [andb].
  rewrite (proj2 (Z.leb_le _ _)) by lia. cbn. rewrite (proj2 (Z.ltb_lt _ _)) by (apply Z.div_lt_upper_bound; lia). cbn.
  rewrite usize_add_fits by lia. cbn. by rewrite (proj2 (Z.leb_le _ _)) by (apply Z.div_le_upper_bound; lia).
Qed.

(** After [i] turns the bits at the mirrored positions below [i] are in place. *)
Definition got (s : list Z) (i v : Z) : Prop :=
  forall j, 0 <= j -> Z.testbit v j = (j <? w) && (mirror w j <? i) && list_bit s (mirror w j + off).

Lemma get_loop_ok s : bytes_ok len s -> forall n i val,
  0 <= i -> i + Z.of_nat n = w -> got s i val -> exists v, get_loop (get_bit s) off w i n val = Some v /\ got s w v.
Proof using All.
  intros Hs. induction n as [|n IH]; intros i val Hi Hn Hg; cbn [get_loop].
  - replace w with i by lia. by eexists.
  - rewrite usize_add_fits by lia. cbn. rewrite (list_rd len) by (done || lia). cbn.
    assert (Hi' : 0 <= mirror w i < w) by (apply mirror_bounds; lia). rewrite shl_one_fits by lia.
    assert (Hstep : forall val', (forall j, 0 <= j -> Z.testbit val' j = Z.testbit val j || (j =? mirror w i) && list_bit s (i + off)) ->
              exists v, get_loop (get_bit s) off w (i + 1) n val' = Some v /\ got s w v).
    { intros val' Hv. apply IH; [lia|lia|]. intros j Hj. rewrite Hv, Hg by done. destruct (Z.eqb_spec j (mirror w i)) as [->|Hne].
      - assert (mirror w (mirror w i) = i) as E by (symmetry; by apply mirror_swap). rewrite E.
        rewrite (proj2 (Z.ltb_lt (mirror w i) w)), (proj2 (Z.ltb_ge i i)), (proj2 (Z.ltb_lt i (i + 1))) by lia. done.
      - cbn [andb]. rewrite orb_false_r. f_equal. f_equal. assert (mirror w j <> i) by (intros E; apply Hne; symmetry; by apply mirror_swap).
        destruct (Z.ltb_spec (mirror w j) i); symmetry; [apply Z.ltb_lt|apply Z.ltb_ge]; lia. }
    destruct (list_bit s (i + off)) eqn:Eb; cbn; apply Hstep; intros j Hj.
    + rewrite Z.lor_spec, Z.shiftl_1_l, Z.pow2_bits_eqb by lia. by rewrite andb_true_r, Z.eqb_sym.
    + by rewrite andb_false_r, orb_false_r.
Qed.

(** After [i] turns the mirrored positions below [i] of the field hold the bits of [val]. *)
Definition written (s s' : list Z) (i val : Z) : Prop :=
  bytes_ok len s' /\ forall k, 0 <= k < 8 * Z.of_nat len ->
    list_bit s' k = if (off <=? k) && (k <? off + w) && (mirror w (k - off) <? i) then Z.testbit val (mirror w (k - off)) else list_bit s k.

Lemma set_loop_ok s val : forall n i s1,
  0 <= i -> i + Z.of_nat n = w -> written s s1 i val -> exists s', set_loop set_bit off w val i n s1 = Some s' /\ written s s' w val.
Proof using All.
  induction n as [|n IH]; intros i s1 Hi Hn (Ho & Hb); cbn [set_loop].
  - replace w with i by lia. by eexists.
  - rewrite shl_one_fits by lia. cbn. pose proof (mirror_bounds w i ltac:(lia)). rewrite usize_add_fits by lia. cbn.
    rewrite test_mask by lia.
    destruct (list_wr len s1 (mirror w i + off) (Z.testbit val i) Ho ltac:(lia)) as (s2 & -> & Ho2 & Hb2). cbn.
    apply IH; [lia|lia|]. split; [done|]. intros k Hk. rewrite Hb2, Hb by done.
    destruct (Z.eqb_spec k (mirror w i + off)) as [->|Hne].
    + rewrite Z.add_simpl_r. assert (mirror w (mirror w i) = i) as -> by (symmetry; by apply mirror_swap).
      rewrite (proj2 (Z.leb_le off (mirror w i + off))), (proj2 (Z.ltb_lt (mirror w i + off) (off + w))), (proj2 (Z.ltb_lt i (i + 1))) by lia. done.
    + destruct (off <=? k) eqn:E1; [|done]. destruct (k <? off + w) eqn:E2; [|done]. cbn [andb].
      assert (mirror w (k - off) <> i) by (intros E; apply Hne; apply mirror_swap in E; lia).
      by replace (mirror w (k - off) <? i + 1) with (mirror w (k - off) <? i) by (destruct (Z.ltb_spec (mirror w (k - off)) i); symmetry; [apply Z.ltb_lt|apply Z.ltb_ge]; lia).
Qed.
End loops.

(** ** Reading and writing a field *)

(** The field lies in a storage of [len] bytes and in 64 bits. *)
Definition field_fits (len : nat) (off w : Z) : Prop :=
  8 * Z.of_nat len < 2 ^ 64 /\ 0 <= off /\ 1 <= w <= 64 /\ off + w <= 8 * Z.of_nat len.

Lemma get_bits len st off w :
  bytes_ok len st -> field_fits len off w ->
  exists v, get st off w = Some v /\ forall j, 0 <= j -> Z.testbit v j = (j <? w) && list_bit st (mirror w j + off).
Proof.
  intros Hs (Hl & Ho & Hw & Hf). unfold get. rewrite (proj1 Hs), asserts_hold by done. cbn.
  destruct (get_loop_ok len off w Hl Ho Hw Hf st Hs (Z.to_nat w) 0 0) as (v & Ev & Hv); [lia|lia| |].
  - intros j Hj. rewrite Z.bits_0. destruct (j <? w) eqn:E; [|done]. pose proof (mirror_bounds w j ltac:(lia)).
    by rewrite (proj2 (Z.ltb_ge _ _)) by lia.
  - exists v. split; [done|]. intros j Hj. rewrite (Hv j Hj). destruct (j <? w) eqn:E; [|done]. pose proof (mirror_bounds w j ltac:(lia)).
    by rewrite (proj2 (Z.ltb_lt (mirror w j) w)) by lia.
Qed.

Lemma set_bits len st off w val :
  bytes_ok len st -> field_fits len off w ->
  exists st', set st off w val = Some st' /\ bytes_ok len st' /\ forall k, 0 <= k < 8 * Z.of_nat len ->
    list_bit st' k = if (off <=? k) && (k <? off + w) then Z.testbit val (mirror w (k - off)) else list_bit st k.
Proof.
  intros Hs (Hl & Ho & Hw & Hf). unfold set. rewrite (proj1 Hs), asserts_hold by done. cbn.
  destruct (set_loop_ok len off w Hl Ho Hw Hf st val (Z.to_nat w) 0 st) as (st' & E' & Hs' & Hv); [lia|lia| |].
  - split; [done|]. intros k Hk. destruct (off <=? k) eqn:E1; [|done]. destruct (k <? off + w) eqn:E2; [|done].
    pose proof (mirror_bounds w (k - off) ltac:(lia)). by rewrite (proj2 (Z.ltb_ge _ _)) by lia.
  - exists st'. split; [done|]. split; [done|]. intros k Hk. rewrite (Hv k Hk).
    destruct (off <=? k) eqn:E1; [|done]. destruct (k <? off + w) eqn:E2; [|done].
    pose proof (mirror_bounds w (k - off) ltac:(lia)). by rewrite (proj2 (Z.ltb_lt (mirror w (k - off)) w)) by lia.
Qed.

Lemma get_eq len st st' off w off' :
  bytes_ok len st -> bytes_ok len st' -> field_fits len off w -> field_fits len off' w ->
  (forall j, 0 <= j < w -> list_bit st (j + off) = list_bit st' (j + off')) -> get st off w = get st' off' w.
Proof.
  intros Hs Hs' Hf Hf' He. destruct (get_bits len st off w Hs Hf) as (v & -> & Hv). destruct (get_bits len st' off' w Hs' Hf') as (v' & -> & Hv').
  f_equal. apply Z.bits_inj'. intros j Hj. rewrite Hv, Hv' by done. destruct (Z.ltb_spec j w); [|done]. cbn. apply He. by apply mirror_bounds.
Qed.

(** What is set is got, what is not is left. *)
Lemma set_get len st off w val :
  bytes_ok len st -> field_fits len off w ->
  exists st', set st off w val = Some st' /\ bytes_ok len st' /\ get st' off w = Some (val mod 2 ^ w)
    /\ forall off' w', field_fits len off' w' -> off' + w' <= off \/ off + w <= off' -> get st' off' w' = get st off' w'.
Proof.
  intros Hs Hf. destruct (set_bits len st off w val Hs Hf) as (st' & E & Hs' & Hb). exists st'. split; [done|]. split; [done|]. split.
  - destruct (get_bits len st' off w Hs' Hf) as (v & -> & Hv). f_equal. apply Z.bits_inj'. intros j Hj. destruct Hf as (Hl & Ho & Hw & Hf).
    rewrite Hv by done. destruct (Z.ltb_spec j w); [|by rewrite Z.mod_pow2_bits_high by lia].
    pose proof (mirror_bounds w j ltac:(lia)). rewrite Z.mod_pow2_bits_low, Hb by lia. rewrite Z.add_simpl_r.
    rewrite (proj2 (Z.leb_le off (mirror w j + off))), (proj2 (Z.ltb_lt (mirror w j + off) (off + w))) by lia. cbn.
    f_equal. symmetry. by apply mirror_swap.
  - intros off' w' Hf' Hd. apply (get_eq len); [done..|]. intros j Hj. destruct Hf as (Hl & Ho & Hw & Hf), Hf' as (_ & Ho' & Hw' & Hf').
    rewrite Hb by lia. destruct (Z.leb_spec off (j + off')); [|done]. rewrite (proj2 (Z.ltb_ge _ _)) by lia. done.
Qed.

(** ** Through raw pointers *)

(** The memory holds these bytes at [this]. *)
Definition holds (this : Z) (st : list Z) (mem : gmap Z Z) : Prop :=
  forall i, (i < length st)%nat -> mem !! (this + Z.of_nat i) = st !! i.
Definition unchanged_outside (this : Z) (len : nat) (m1 m2 : gmap Z Z) : Prop :=
  forall a, a < this \/ this + Z.of_nat len <= a -> m2 !! a = m1 !! a.

Lemma raw_get_bit_eq this st mem k b :
  holds this st mem -> 0 <= k -> get_bit st k = Some b -> raw_get_bit this (length st) mem k = Some b.
Proof.
  unfold get_bit, raw_get_bit. intros Hh Hk Hg. destruct (debug_assert _); [|done]. cbn in *.
  pose proof (Z.div_pos k 8 ltac:(lia) ltac:(lia)). destruct (st !! Z.to_nat (k / 8)) as [byte|] eqn:E; [|done].
  pose proof (Hh (Z.to_nat (k / 8)) ltac:(by eapply lookup_lt_Some)) as Hm. rewrite Z2Nat.id, E in Hm by done. by rewrite Hm.
Qed.

Lemma raw_set_bit_eq this st mem k b st' :
  holds this st mem -> 0 <= k -> set_bit st k b = Some st' ->
  exists mem', raw_set_bit this (length st) mem k b = Some mem' /\ holds this st' mem' /\ length st' = length st
    /\ unchanged_outside this (length st) mem mem'.
Proof.
  unfold set_bit, raw_set_bit. intros Hh Hk Hg. destruct (debug_assert _); [|done]. cbn in *.
  pose proof (Z.div_pos k 8 ltac:(lia) ltac:(lia)). destruct (st !! Z.to_nat (k / 8)) as [byte|] eqn:E; [|done].
  pose proof (lookup_lt_Some _ _ _ E) as Hlt. pose proof (Hh _ Hlt) as Hm. rewrite Z2Nat.id, E in Hm by done. rewrite Hm. cbn in *.
  injection Hg as <-. eexists. split; [reflexivity|]. rewrite length_insert. split; [|split; [done|]].
  - intros i Hi. rewrite length_insert in Hi. destruct (decide (i = Z.to_nat (k / 8))) as [->|Hne].
    + by rewrite Z2Nat.id, lookup_insert_eq, list_lookup_insert_eq by done.
    + rewrite lookup_insert_ne, list_lookup_insert_ne by lia. by apply Hh.
  - intros a Ha. by rewrite lookup_insert_ne by lia.
Qed.

Lemma usize_add_nonneg a b c : 0 <= a -> 0 <= b -> usize_add a b = Some c -> 0 <= c.
Proof.
  unfold usize_add. intros Ha Hb. destruct (_ <? _); [intros [= <-]; lia|]. destruct debug_assertions; [done|]. intros [= <-].
  apply Z.mod_pos_bound. lia.
Qed.

Lemma get_loop_raw this st mem off w : holds this st mem -> 0 <= off -> forall n i val v,
  0 <= i -> get_loop (get_bit st) off w i n val = Some v -> get_loop (raw_get_bit this (length st) mem) off w i n val = Some v.
Proof.
  intros Hh Ho. induction n as [|n IH]; intros i val v Hi Hg; [done|]. cbn [get_loop] in *.
  destruct (usize_add i off) as [p|] eqn:Ep; [|done]. cbn in *. apply usize_add_nonneg in Ep; [|lia..].
  destruct (get_bit st p) as [b|] eqn:Eb; [|done]. rewrite (raw_get_bit_eq this st mem p b Hh Ep Eb). cbn in *.
  destruct (if b then _ else _) as [val'|]; [|done]. cbn in *. by apply IH; [lia|].
Qed.

Lemma set_loop_raw this len mem0 off w val : 0 <= off -> forall n i st mem st',
  holds this st mem -> length st = len -> unchanged_outside this len mem0 mem -> 0 <= i -> i + Z.of_nat n = w ->
  set_loop set_bit off w val i n st = Some st' ->
  exists mem', set_loop (raw_set_bit this len) off w val i n mem = Some mem' /\ holds this st' mem' /\ unchanged_outside this len mem0 mem'.
Proof.
  intros Ho. induction n as [|n IH]; intros i st mem st' Hh Hlen Hu Hi Hw Hg; cbn [set_loop] in *; [injection Hg as <-; by eexists|].
  destruct (shl_one i) as [m|]; [|done]. cbn in *. destruct (usize_add (mirror w i) off) as [p|] eqn:Ep; [|done]. cbn in *.
  pose proof (mirror_bounds w i ltac:(lia)). apply usize_add_nonneg in Ep; [|lia..].
  destruct (set_bit st p _) as [st1|] eqn:Es; [|done]. destruct (raw_set_bit_eq this st mem p _ st1 Hh Ep Es) as (mem1 & E1 & Hh1 & Hl1 & Hu1).
  rewrite Hlen in E1, Hl1, Hu1. rewrite E1. cbn in *. apply (IH (i + 1) st1); [done|done| |lia|lia|done].
  intros a Ha. by rewrite Hu1, Hu.
Qed.

(** By reference or through a pointer to the same bytes: the same, where the first does not
    panic; and no other byte is written. *)
Lemma raw_get_eq this st mem off w v :
  holds this st mem -> 0 <= off -> get st off w = Some v -> raw_get this (length st) mem off w = Some v.
Proof.
  unfold get, raw_get. intros Hh Ho Hg. destruct (field_asserts _ _ _); [|done]. by apply get_loop_raw.
Qed.

Lemma raw_set_eq this st mem off w val st' :
  holds this st mem -> 0 <= off -> 0 <= w -> set st off w val = Some st' ->
  exists mem', raw_set this (length st) mem off w val = Some mem' /\ holds this st' mem' /\ unchanged_outside this (length st) mem mem'.
Proof.
  unfold set, raw_set. intros Hh Ho Hw Hg. destruct (field_asserts _ _ _); [|done]. cbn in *.
  by apply (set_loop_raw this (length st) mem off w val Ho _ 0 st); [..|lia|lia|].
Qed.

Lemma bitfield_use st off w val this mem :
  bytes_ok (length st) st -> field_fits (length st) off w -> holds this st mem ->
  exists v, get st off w = Some v /\ raw_get this (length st) mem off w = Some v
    /\ exists st' mem', set st off w val = Some st' /\ raw_set this (length st) mem off w val = Some mem' /\ holds this st' mem'
         /\ unchanged_outside this (length st) mem mem'.
Proof.
  intros Hs Hf Hm. destruct (get_bits _ st off w Hs Hf) as (v & Ev & _). destruct (set_bits _ st off w val Hs Hf) as (st' & Es & _ & _).
  destruct Hf as (_ & Ho & Hw & _). exists v. split_and!; [done|by apply (raw_get_eq this st mem)|].
  destruct (raw_set_eq this st mem off w val st' Hm Ho ltac:(lia) Es) as (mem' & Em & Hh & Hu). by exists st', mem'.
Qed.

(** ** A unit as a number *)

Lemma of_le_cons b st : of_le (b :: st) = b + 256 * of_le st.
Proof.
  unfold of_le. cbn [rev]. generalize (rev st) as l. induction l as [|d l IH]; cbn [app be_join length]; [lia|].
  rewrite IH, length_app. cbn [length]. replace (8 * Z.of_nat (length l + 1)) with (8 + 8 * Z.of_nat (length l)) by lia.
  rewrite Z.pow_add_r by lia. lia.
Qed.

(** On a little-endian target the bits are those of the number the bytes make. *)
Lemma list_bit_number st k :
  big_endian = false -> Forall (fun b => 0 <= b < 256) st -> 0 <= k < 8 * Z.of_nat (length st) -> list_bit st k = Z.testbit (of_le st) k.
Proof.
  intros He Hf. revert k. induction Hf as [|b st Hb Hf IH]; intros k Hk; [cbn in Hk; lia|]. cbn [length] in Hk.
  rewrite of_le_cons. unfold list_bit, extract_bit. pose proof (bit_index_bounds k) as Hbi. rewrite test_mask by lia.
  assert (Hlow : forall j, 0 <= j < 8 -> Z.testbit (b + 256 * of_le st) j = Z.testbit b j).
  { intros j Hj. rewrite <- (Z.mod_pow2_bits_low _ 8 j) by lia. f_equal. change (2 ^ 8) with 256.
    rewrite Z.mul_comm, Z_mod_plus_full. by apply Z.mod_small. }
  unfold bit_index in *. rewrite He in *. destruct (Z.ltb_spec k 8).
  - rewrite Z.div_small, Z.mod_small by lia. cbn. by rewrite Hlow by lia.
  - replace (Z.testbit (b + 256 * of_le st) k) with (Z.testbit (of_le st) (k - 8)).
    + rewrite <- IH by lia. unfold list_bit, extract_bit, bit_index. rewrite He, test_mask by (apply Z.mod_pos_bound; lia).
      replace (k / 8) with (1 + (k - 8) / 8) by (rewrite <- Z.div_add_l by lia; f_equal; lia).
      assert (0 <= (k - 8) / 8) by (apply Z.div_pos; lia). rewrite Z2Nat.inj_add by lia.
      replace ((k - 8) mod 8) with (k mod 8) by (rewrite <- (Z_mod_plus_full (k - 8) 1 8); f_equal; lia). done.
    + replace k with ((k - 8) + 8) at 2 by lia. rewrite <- Z.div_pow2_bits by lia. f_equal. change (2 ^ 8) with 256.
      rewrite Z.mul_comm, Z.div_add by lia. rewrite Z.div_small by lia. lia.
Qed.

Lemma get_slice len st off w :
  big_endian = false -> bytes_ok len st -> field_fits len off w -> get st off w = Some (of_le st / 2 ^ off mod 2 ^ w).
Proof.
  intros He Hs Hf. destruct (get_bits len st off w Hs Hf) as (v & -> & Hv). f_equal. apply Z.bits_inj'. intros j Hj.
  destruct Hf as (Hl & Ho & Hw & Hf). destruct Hs as [Hlen Hb]. rewrite Hv by done. destruct (Z.ltb_spec j w); [|by rewrite Z.mod_pow2_bits_high by lia].
  rewrite Z.mod_pow2_bits_low, Z.div_pow2_bits by lia. cbn. unfold mirror. rewrite He. apply list_bit_number; [done|done|lia].
Qed.
End unit_.

(** C39. A bit field read back is what was written, cut to its width: for every storage, every
    field of one to 64 bits that lies in it, whichever way the target numbers bits and
    whether or not assertions are on, [set] does not panic, [get] then returns the value
    modulo 2^width, and no field that does not overlap has changed.  Through a raw pointer
    to the same bytes both do the same, and no byte outside the storage is written.  On a
    little-endian target the field is that slice of the number the bytes make. *)
Theorem bitfield_roundtrip `{Build} st off w val :
  bytes_ok (length st) st -> field_fits (length st) off w ->
  exists st', set st off w val = Some st' /\ bytes_ok (length st) st' /\ get st' off w = Some (val mod 2 ^ w)
    /\ (forall off' w', field_fits (length st) off' w' -> off' + w' <= off \/ off + w <= off' -> get st' off' w' = get st off' w')
    /\ (forall this mem, holds this st mem ->
         raw_get this (length st) mem off w = get st off w
         /\ exists mem', raw_set this (length st) mem off w val = Some mem' /\ holds this st' mem'
              /\ unchanged_outside this (length st) mem mem')
    /\ (big_endian = false -> get st off w = Some (of_le st / 2 ^ off mod 2 ^ w)).
Proof.
  intros Hs Hf. destruct (set_get _ st off w val Hs Hf) as (st' & E & Hs' & Hg & Hr). exists st'. split_and!; [done..| |].
  - intros this mem Hm. destruct (bitfield_use st off w val this mem Hs Hf Hm) as (v & -> & -> & st1 & mem' & Es & Em & Hh & Hu).
    split; [done|]. rewrite E in Es. injection Es as <-. by exists mem'.
  - intros He. by apply (get_slice (length st)).
Qed.

(** The third assertion divides the end of the field by eight and rounds down: a field that
    runs into the byte after the storage passes, and the access itself panics - or, through
    a raw pointer in a release build, reads that byte. *)
Lemma assertion_rounds_down :
  (let _ := {| big_endian := false; debug_assertions := true |} in
     field_asserts 1 4 5 = Some tt /\ get [0] 4 5 = None)
  /\ (let _ := {| big_endian := false; debug_assertions := false |} in
     raw_get 0 1 (<[0 := 0]> (<[1 := 1]> ∅)) 4 5 = Some 16).
Proof. by vm_compute. Qed.

#[local] Instance amd64_debug : Build := {| big_endian := false; debug_assertions := true |}.

Lemma bitfield_roundtrip_witness :
  bytes_ok 2 [170; 85] /\ exists st', set [170; 85] 5 6 77 = Some st' /\ get st' 5 6 = Some 13 /\ get st' 0 5 = Some 10.
Proof.
  assert (Hs : bytes_ok (length [170; 85]) [170; 85]) by (split; [reflexivity|repeat constructor; lia]).
  assert (Hf : field_fits (length [170; 85]) 5 6) by (unfold field_fits; cbn; lia). split; [exact Hs|].
  destruct (bitfield_roundtrip [170; 85] 5 6 77 Hs Hf) as (st' & E & _ & Hg & Hr & _). exists st'. split; [exact E|]. split; [exact Hg|].
  rewrite (Hr 0 5); [vm_compute; reflexivity|unfold field_fits; cbn; lia|lia].
Defined.
