(* ===== verification/Descriptors.v ===== *)
(** The descriptors of amd64 among the bindings (procstat_sys.rs): every accessor bindgen made
    for their bit fields, by reference and through a raw pointer, and the constructors. *)
From S2P Require Import Prelude Abi BindgenBits.

Section descriptors.
Context `{Build}.

(** ** [system_segment_descriptor], 16 bytes *)

Definition sd_lolimit (self : list Z) : option Z := get self 0 16.
Definition set_sd_lolimit (self : list Z) (val : Z) : option (list Z) := set self 0 16 val.
Definition sd_lolimit_raw (this : Z) (mem : gmap Z Z) : option Z := raw_get this 16 mem 0 16.
Definition set_sd_lolimit_raw (this : Z) (mem : gmap Z Z) (val : Z) : option (gmap Z Z) := raw_set this 16 mem 0 16 val.
Definition sd_lobase (self : list Z) : option Z := get self 16 24.
Definition set_sd_lobase (self : list Z) (val : Z) : option (list Z) := set self 16 24 val.
Definition sd_lobase_raw (this : Z) (mem : gmap Z Z) : option Z := raw_get this 16 mem 16 24.
Definition set_sd_lobase_raw (this : Z) (mem : gmap Z Z) (val : Z) : option (gmap Z Z) := raw_set this 16 mem 16 24 val.
Definition sd_type (self : list Z) : option Z := get self 40 5.
Definition set_sd_type (self : list Z) (val : Z) : option (list Z) := set self 40 5 val.
Definition sd_type_raw (this : Z) (mem : gmap Z Z) : option Z := raw_get this 16 mem 40 5.
Definition set_sd_type_raw (this : Z) (mem : gmap Z Z) (val : Z) : option (gmap Z Z) := raw_set this 16 mem 40 5 val.
Definition sd_dpl (self : list Z) : option Z := get self 45 2.
Definition set_sd_dpl (self : list Z) (val : Z) : option (list Z) := set self 45 2 val.
Definition sd_dpl_raw (this : Z) (mem : gmap Z Z) : option Z := raw_get this 16 mem 45 2.
Definition set_sd_dpl_raw (this : Z) (mem : gmap Z Z) (val : Z) : option (gmap Z Z) := raw_set this 16 mem 45 2 val.
Definition sd_p (self : list Z) : option Z := get self 47 1.
Definition set_sd_p (self : list Z) (val : Z) : option (list Z) := set self 47 1 val.
Definition sd_p_raw (this : Z) (mem : gmap Z Z) : option Z := raw_get this 16 mem 47 1.
Definition set_sd_p_raw (this : Z) (mem : gmap Z Z) (val : Z) : option (gmap Z Z) := raw_set this 16 mem 47 1 val.
Definition sd_hilimit (self : list Z) : option Z := get self 48 4.
Definition set_sd_hilimit (self : list Z) (val : Z) : option (list Z) := set self 48 4 val.
Definition sd_hilimit_raw (this : Z) (mem : gmap Z Z) : option Z := raw_get this 16 mem 48 4.
Definition set_sd_hilimit_raw (this : Z) (mem : gmap Z Z) (val : Z) : option (gmap Z Z) := raw_set this 16 mem 48 4 val.
Definition sd_xx0 (self : list Z) : option Z := get self 52 3.
Definition set_sd_xx0 (self : list Z) (val : Z) : option (list Z) := set self 52 3 val.
Definition sd_xx0_raw (this : Z) (mem : gmap Z Z) : option Z := raw_get this 16 mem 52 3.
Definition set_sd_xx0_raw (this : Z) (mem : gmap Z Z) (val : Z) : option (gmap Z Z) := raw_set this 16 mem 52 3 val.
Definition sd_gran (self : list Z) : option Z := get self 55 1.
Definition set_sd_gran (self : list Z) (val : Z) : option (list Z) := set self 55 1 val.
Definition sd_gran_raw (this : Z) (mem : gmap Z Z) : option Z := raw_get this 16 mem 55 1.
Definition set_sd_gran_raw (this : Z) (mem : gmap Z Z) (val : Z) : option (gmap Z Z) := raw_set this 16 mem 55 1 val.
Definition sd_hibase (self : list Z) : option Z := get self 56 40.
Definition set_sd_hibase (self : list Z) (val : Z) : option (list Z) := set self 56 40 val.
Definition sd_hibase_raw (this : Z) (mem : gmap Z Z) : option Z := raw_get this 16 mem 56 40.
Definition set_sd_hibase_raw (this : Z) (mem : gmap Z Z) (val : Z) : option (gmap Z Z) := raw_set this 16 mem 56 40 val.
Definition sd_xx1 (self : list Z) : option Z := get self 96 8.
Definition set_sd_xx1 (self : list Z) (val : Z) : option (list Z) := set self 96 8 val.
Definition sd_xx1_raw (this : Z) (mem : gmap Z Z) : option Z := raw_get this 16 mem 96 8.
Definition set_sd_xx1_raw (this : Z) (mem : gmap Z Z) (val : Z) : option (gmap Z Z) := raw_set this 16 mem 96 8 val.
Definition sd_mbz (self : list Z) : option Z := get self 104 5.
Definition set_sd_mbz (self : list Z) (val : Z) : option (list Z) := set self 104 5 val.
Definition sd_mbz_raw (this : Z) (mem : gmap Z Z) : option Z := raw_get this 16 mem 104 5.
Definition set_sd_mbz_raw (this : Z) (mem : gmap Z Z) (val : Z) : option (gmap Z Z) := raw_set this 16 mem 104 5 val.
Definition sd_xx2 (self : list Z) : option Z := get self 109 19.
Definition set_sd_xx2 (self : list Z) (val : Z) : option (list Z) := set self 109 19 val.
Definition sd_xx2_raw (this : Z) (mem : gmap Z Z) : option Z := raw_get this 16 mem 109 19.
Definition set_sd_xx2_raw (this : Z) (mem : gmap Z Z) (val : Z) : option (gmap Z Z) := raw_set this 16 mem 109 19 val.
Definition system_segment_descriptor_new_bitfield_1
    (sd_lolimit sd_lobase sd_type sd_dpl sd_p sd_hilimit sd_xx0 sd_gran sd_hibase sd_xx1 sd_mbz sd_xx2 : Z) : option (list Z) :=
  let u := replicate 16 0 in
  u ← set u 0 16 sd_lolimit;
  u ← set u 16 24 sd_lobase;
  u ← set u 40 5 sd_type;
  u ← set u 45 2 sd_dpl;
  u ← set u 47 1 sd_p;
  u ← set u 48 4 sd_hilimit;
  u ← set u 52 3 sd_xx0;
  u ← set u 55 1 sd_gran;
  u ← set u 56 40 sd_hibase;
  u ← set u 96 8 sd_xx1;
  u ← set u 104 5 sd_mbz;
  set u 109 19 sd_xx2.

(** ** [region_descriptor], 10 bytes *)

Definition rd_limit (self : list Z) : option Z := get self 0 16.
Definition set_rd_limit (self : list Z) (val : Z) : option (list Z) := set self 0 16 val.
Definition rd_limit_raw (this : Z) (mem : gmap Z Z) : option Z := raw_get this 10 mem 0 16.
Definition set_rd_limit_raw (this : Z) (mem : gmap Z Z) (val : Z) : option (gmap Z Z) := raw_set this 10 mem 0 16 val.
Definition rd_base (self : list Z) : option Z := get self 16 64.
Definition set_rd_base (self : list Z) (val : Z) : option (list Z) := set self 16 64 val.
Definition rd_base_raw (this : Z) (mem : gmap Z Z) : option Z := raw_get this 10 mem 16 64.
Definition set_rd_base_raw (this : Z) (mem : gmap Z Z) (val : Z) : option (gmap Z Z) := raw_set this 10 mem 16 64 val.
Definition region_descriptor_new_bitfield_1 (rd_limit rd_base : Z) : option (list Z) :=
  let u := replicate 10 0 in
  u ← set u 0 16 rd_limit;
  set u 16 64 rd_base.

(** ** The fields of a descriptor *)

Record Accessors : Type := mk_accessors {
  a_off : Z; a_width : Z;
  a_get : list Z -> option Z; a_set : list Z -> Z -> option (list Z);
  a_get_raw : Z -> gmap Z Z -> option Z; a_set_raw : Z -> gmap Z Z -> Z -> option (gmap Z Z)
}.

Definition sd_accessors : list Accessors :=
  [mk_accessors 0 16 sd_lolimit set_sd_lolimit sd_lolimit_raw set_sd_lolimit_raw;
   mk_accessors 16 24 sd_lobase set_sd_lobase sd_lobase_raw set_sd_lobase_raw;
   mk_accessors 40 5 sd_type set_sd_type sd_type_raw set_sd_type_raw;
   mk_accessors 45 2 sd_dpl set_sd_dpl sd_dpl_raw set_sd_dpl_raw;
   mk_accessors 47 1 sd_p set_sd_p sd_p_raw set_sd_p_raw;
   mk_accessors 48 4 sd_hilimit set_sd_hilimit sd_hilimit_raw set_sd_hilimit_raw;
   mk_accessors 52 3 sd_xx0 set_sd_xx0 sd_xx0_raw set_sd_xx0_raw;
   mk_accessors 55 1 sd_gran set_sd_gran sd_gran_raw set_sd_gran_raw;
   mk_accessors 56 40 sd_hibase set_sd_hibase sd_hibase_raw set_sd_hibase_raw;
   mk_accessors 96 8 sd_xx1 set_sd_xx1 sd_xx1_raw set_sd_xx1_raw;
   mk_accessors 104 5 sd_mbz set_sd_mbz sd_mbz_raw set_sd_mbz_raw;
   mk_accessors 109 19 sd_xx2 set_sd_xx2 sd_xx2_raw set_sd_xx2_raw].

Definition rd_accessors : list Accessors :=
  [mk_accessors 0 16 rd_limit set_rd_limit rd_limit_raw set_rd_limit_raw;
   mk_accessors 16 64 rd_base set_rd_base rd_base_raw set_rd_base_raw].

(** The accessors of the field [a_width] bits from [a_off] of a unit of [n] bytes. *)
Record is_field (n : nat) (a : Accessors) : Prop := mk_is_field {
  if_fits : field_fits n (a_off a) (a_width a);
  if_get st : a_get a st = get st (a_off a) (a_width a);
  if_set st val : a_set a st val = set st (a_off a) (a_width a) val;
  if_get_raw this mem : a_get_raw a this mem = raw_get this n mem (a_off a) (a_width a);
  if_set_raw this mem val : a_set_raw a this mem val = raw_set this n mem (a_off a) (a_width a) val
}.

Lemma sd_fields : Forall (is_field 16) sd_accessors.
Proof. repeat constructor; cbn; lia. Qed.

Lemma rd_fields : Forall (is_field 10) rd_accessors.
Proof. repeat constructor; cbn; lia. Qed.

(** The fields tile the unit: each begins where the one before it ends. *)
Fixpoint tile (at_ : Z) (accs : list Accessors) (total : Z) : bool :=
  match accs with [] => at_ =? total | a :: accs' => (a_off a =? at_) && (0 <=? a_width a) && tile (at_ + a_width a) accs' total end.

Lemma tile_after accs : forall at_ total i a, tile at_ accs total = true -> accs !! i = Some a -> at_ <= a_off a.
Proof.
  induction accs as [|x accs IH]; intros at_ total i a Ht Hi; [done|]. cbn in Ht.
  apply andb_true_iff in Ht as [[E%Z.eqb_eq Hw%Z.leb_le]%andb_true_iff Ht]. destruct i as [|i]; cbn in Hi; [injection Hi as <-; lia|].
  pose proof (IH _ _ _ _ Ht Hi). lia.
Qed.

Lemma tile_apart accs : forall at_ total i j a b, tile at_ accs total = true -> accs !! i = Some a -> accs !! j = Some b -> i <> j ->
  a_off a + a_width a <= a_off b \/ a_off b + a_width b <= a_off a.
Proof.
  induction accs as [|x accs IH]; intros at_ total i j a b Ht Hi Hj Hne; [done|]. cbn in Ht.
  apply andb_true_iff in Ht as [[E%Z.eqb_eq _]%andb_true_iff Ht]. destruct i as [|i], j as [|j]; cbn in Hi, Hj; [done| | |].
  - injection Hi as <-. pose proof (tile_after _ _ _ _ _ Ht Hj). lia.
  - injection Hj as <-. pose proof (tile_after _ _ _ _ _ Ht Hi). lia.
  - apply (IH _ _ i j a b Ht Hi Hj). congruence.
Qed.

(** Writing through one accessor, then reading through all of them. *)
Lemma write_field n accs total st i a val :
  Forall (is_field n) accs -> tile 0 accs total = true -> bytes_ok n st -> accs !! i = Some a ->
  exists st', a_set a st val = Some st' /\ bytes_ok n st' /\ a_get a st' = Some (val mod 2 ^ a_width a)
    /\ forall j b, accs !! j = Some b -> j <> i -> a_get b st' = a_get b st.
Proof.
  intros Hf Ht Hs Hi. pose proof (Forall_lookup_1 _ _ _ _ Hf Hi) as Fa. destruct (set_get n st _ _ val Hs (if_fits _ _ Fa)) as (st' & E & Hs' & Hg & Hr).
  exists st'. rewrite (if_set _ _ Fa), (if_get _ _ Fa). split_and!; [done..|]. intros j b Hj Hne.
  pose proof (Forall_lookup_1 _ _ _ _ Hf Hj) as Fb. rewrite !(if_get _ _ Fb). apply Hr; [apply Fb|].
  destruct (tile_apart _ _ _ _ _ _ _ Ht Hj Hi Hne); lia.
Qed.

(** What the constructors do: a value for each field, in order. *)
Fixpoint write_all (accs : list Accessors) (vals : list Z) (st : list Z) : option (list Z) :=
  match accs, vals with a :: accs', v :: vals' => st' ← a_set a st v; write_all accs' vals' st' | _, _ => Some st end.

Lemma write_all_reads n accs total : forall done_ todo vals st old,
  accs = done_ ++ todo -> Forall (is_field n) accs -> tile 0 accs total = true -> bytes_ok n st -> length vals = length todo ->
  Forall2 (fun a v => a_get a st = Some v) done_ old ->
  exists st', write_all todo vals st = Some st' /\ bytes_ok n st'
    /\ Forall2 (fun a v => a_get a st' = Some v) accs (old ++ zip_with (fun a v => v mod 2 ^ a_width a) todo vals).
Proof.
  intros done_ todo. revert done_. induction todo as [|a todo IH]; intros done_ vals st old Ea Hf Ht Hs Hl Ho.
  - exists st. destruct vals; [|done]. cbn. rewrite Ea. by rewrite !app_nil_r.
  - destruct vals as [|v vals]; [done|]. injection Hl as Hl. assert (Hi : accs !! length done_ = Some a) by (rewrite Ea; by apply list_lookup_middle).
    destruct (write_field n _ total st _ a v Hf Ht Hs Hi) as (st1 & E & Hs1 & Hg & Hr). cbn [write_all]. rewrite E. cbn.
    destruct (IH (done_ ++ [a]) vals st1 (old ++ [v mod 2 ^ a_width a])) as (st' & E' & Hs' & H2); [by rewrite <- app_assoc|done..| |].
    + apply Forall2_app; [|by repeat constructor]. apply Forall2_same_length_lookup. split; [by eapply Forall2_length|].
      intros j b x Hj Hx. pose proof (lookup_lt_Some _ _ _ Hj).
      rewrite (Hr j b); [by apply (Forall2_lookup_lr _ _ _ j b x Ho)|rewrite Ea; by apply lookup_app_l_Some|lia].
    + exists st'. rewrite E'. split_and!; [done..|]. by rewrite <- app_assoc in H2.
Qed.
End descriptors.

(** The constructors write all the fields into zeros. *)
Lemma sd_new_eq `{Build} a1 a2 a3 a4 a5 a6 a7 a8 a9 a10 a11 a12 :
  system_segment_descriptor_new_bitfield_1 a1 a2 a3 a4 a5 a6 a7 a8 a9 a10 a11 a12
  = write_all sd_accessors [a1; a2; a3; a4; a5; a6; a7; a8; a9; a10; a11; a12] (replicate 16 0).
Proof.
  unfold system_segment_descriptor_new_bitfield_1. cbn [write_all sd_accessors a_set]. do 11 (apply option_bind_ext_fun; intros ?). by destruct (set_sd_xx2 _ _) eqn:E.
Qed.

Lemma rd_new_eq `{Build} a1 a2 : region_descriptor_new_bitfield_1 a1 a2 = write_all rd_accessors [a1; a2] (replicate 10 0).
Proof.
  unfold region_descriptor_new_bitfield_1. cbn [write_all rd_accessors a_set]. apply option_bind_ext_fun; intros ?. by destruct (set_rd_base _ _) eqn:E.
Qed.

(** The descriptors' bit fields.  A descriptor made by its constructor reads back, field
    by field, what it was made of, each cut to the width of its field; a setter changes its
    field and no other, whatever the descriptor's bytes; and the accessors through a raw
    pointer are those by reference, on the bytes that are there. *)
Theorem descriptors_read_back `{Build} :
  (forall a1 a2 a3 a4 a5 a6 a7 a8 a9 a10 a11 a12,
     exists st, system_segment_descriptor_new_bitfield_1 a1 a2 a3 a4 a5 a6 a7 a8 a9 a10 a11 a12 = Some st /\ bytes_ok 16 st
       /\ [sd_lolimit st; sd_lobase st; sd_type st; sd_dpl st; sd_p st; sd_hilimit st; sd_xx0 st; sd_gran st; sd_hibase st; sd_xx1 st;
           sd_mbz st; sd_xx2 st]
          = map Some [a1 mod 2 ^ 16; a2 mod 2 ^ 24; a3 mod 2 ^ 5; a4 mod 2 ^ 2; a5 mod 2 ^ 1; a6 mod 2 ^ 4; a7 mod 2 ^ 3; a8 mod 2 ^ 1;
                      a9 mod 2 ^ 40; a10 mod 2 ^ 8; a11 mod 2 ^ 5; a12 mod 2 ^ 19])
  /\ (forall a1 a2, exists st, region_descriptor_new_bitfield_1 a1 a2 = Some st /\ bytes_ok 10 st
       /\ [rd_limit st; rd_base st] = map Some [a1 mod 2 ^ 16; a2 mod 2 ^ 64])
  /\ forall n accs, (n, accs) ∈ [(16%nat, sd_accessors); (10%nat, rd_accessors)] ->
      forall st i a val, bytes_ok n st -> accs !! i = Some a ->
      exists st', a_set a st val = Some st' /\ bytes_ok n st' /\ a_get a st' = Some (val mod 2 ^ a_width a)
        /\ (forall j b, accs !! j = Some b -> j <> i -> a_get b st' = a_get b st)
        /\ forall this mem, holds this st mem ->
             a_get_raw a this mem = a_get a st
             /\ exists mem', a_set_raw a this mem val = Some mem' /\ holds this st' mem' /\ unchanged_outside this n mem mem'.
Proof.
  assert (Hzero : forall n, bytes_ok n (replicate n 0)) by (intros n; split; [apply length_replicate|by apply Forall_replicate; lia]).
  assert (Hnew : forall n accs total vals, Forall (is_field n) accs -> tile 0 accs total = true -> length vals = length accs ->
    exists st, write_all accs vals (replicate n 0) = Some st /\ bytes_ok n st
      /\ map (fun a => a_get a st) accs = map Some (zip_with (fun a v => v mod 2 ^ a_width a) accs vals)).
  { intros n accs total vals Hf Ht Hl.
    destruct (write_all_reads n accs total [] accs vals (replicate n 0) [] eq_refl Hf Ht (Hzero n) Hl ltac:(constructor)) as (st & E & Hs & H2).
    exists st. split_and!; [done..|]. clear -H2. cbn [app] in H2. by induction H2 as [|a v accs l Ha _ IH]; [|cbn; rewrite Ha, IH]. }
  split; [|split].
  - intros a1 a2 a3 a4 a5 a6 a7 a8 a9 a10 a11 a12.
    rewrite sd_new_eq. exact (Hnew 16%nat sd_accessors 128 [a1; a2; a3; a4; a5; a6; a7; a8; a9; a10; a11; a12] sd_fields eq_refl eq_refl).
  - intros a1 a2. rewrite rd_new_eq. exact (Hnew 10%nat rd_accessors 80 [a1; a2] rd_fields eq_refl eq_refl).
  - intros n accs Hin st i a val Hs Hi.
    assert (Hf : Forall (is_field n) accs /\ tile 0 accs (8 * Z.of_nat n) = true).
    { apply list_elem_of_In in Hin as [[= <- <-]|[[= <- <-]|[]]]; [split; [apply sd_fields|done]|split; [apply rd_fields|done]]. }
    destruct Hf as [Hf Ht]. destruct (write_field n accs _ st i a val Hf Ht Hs Hi) as (st' & E & Hs' & Hg & Hr). exists st'. split_and!; [done..|].
    intros this mem Hm. pose proof (Forall_lookup_1 _ _ _ _ Hf Hi) as Fa. pose proof (if_fits _ _ Fa) as Hfit. destruct Hs as [<- Hb].
    destruct (bitfield_use st _ _ val this mem (conj eq_refl Hb) Hfit Hm) as (v & Ev & Er & st1 & mem' & Es & Em & Hh & Hu).
    rewrite (if_get_raw _ _ Fa), (if_set_raw _ _ Fa), (if_get _ _ Fa), Ev. split; [done|]. rewrite (if_set _ _ Fa), Es in E.
    injection E as ->. by exists mem'.
Qed.

#[local] Instance amd64_release : Build := {| big_endian := false; debug_assertions := false |}.

(** Setting the base of a region leaves its limit. *)
Lemma descriptors_read_back_witness :
  exists st st', region_descriptor_new_bitfield_1 4095 1 = Some st /\ set_rd_base st 81985529216486895 = Some st' /\ rd_limit st' = rd_limit st.
Proof.
  destruct (proj1 (proj2 descriptors_read_back) 4095 1) as (st & E & Hs & _). exists st.
  destruct (proj2 (proj2 descriptors_read_back) 10%nat rd_accessors (list_elem_of_lookup_2 [(16%nat, sd_accessors); (10%nat, rd_accessors)] 1 _ eq_refl)
              st 1%nat _ 81985529216486895 Hs eq_refl) as (st' & E' & _ & _ & Hr & _).
  exists st'. split; [exact E|]. split; [exact E'|]. exact (Hr 0%nat _ eq_refl (fun H => O_S _ H)).
Defined.
