(* ===== verification/ProcScan.v ===== *)
(** How the process table is read (procinfo.rs, [snapshot] and [daemon_running]): the calls
    to libprocstat in their order, the structures read from the memory it returns, and the
    lists and handles given back.

    The library is the class [Lib]: what a call returns and what memory holds may depend on
    the calls made so far.  Walking the list of files takes fuel, which the theorems show
    only limits lists longer than it. *)
From S2P Require Import Prelude Unicode RustStr IpAddr Procinfo Abi ProcstatSys.

(** ** The library *)

Inductive libcall : Type :=
| OpenSysctl
| GetProcs (ps : Z)
| GetPathname (ps p : Z)
| GetFiles (ps p : Z)
| SocketInfo (ps fst : Z)
| GetArgv (ps p : Z)
| FreeFiles (ps files : Z)
| FreeArgv (ps : Z)
| FreeProcs (ps procs : Z)
| ClosePs (ps : Z).

(** What a call returns (a pointer, null being 0, or a status), the count it stores, and
    the bytes it writes to the buffer it was given. *)
Record librep : Type := mk_librep { lr_ret : Z; lr_count : Z; lr_bytes : list Z }.
Abbreviation libhist := (list (libcall * Z)).
Class Lib : Type := mk_lib {
  lib_answer : libhist -> libcall -> librep;
  lib_mem : libhist -> Z -> nat -> list Z;      (* so many bytes at an address *)
  lib_str : libhist -> Z -> list Z              (* the C string at an address *)
}.

Definition libm (A : Type) : Type := libhist -> A * libhist.
#[export] Instance libm_ret : MRet libm := fun A a h => (a, h).
#[export] Instance libm_bind : MBind libm := fun A B f m h => let '(a, h') := m h in f a h'.

Section scan.
Context `{Lib}.

Definition lcall (c : libcall) : libm librep :=
  fun h => let r := lib_answer h c in (r, h ++ [(c, lr_ret r)]).
Definition read_mem (p : Z) (n : nat) : libm (list Z) := fun h => (lib_mem h p n, h).
Definition read_str (p : Z) : libm (list Z) := fun h => (lib_str h p, h).

(** ** The structures read *)

Definition kinfo_size : nat := csize kinfo_proc.
Definition kinfo_pid (b : list Z) : Z := to_i32 (of_le (field kinfo_proc_fields 10 b)).
Definition kinfo_comm (b : list Z) : list Z := field kinfo_proc_fields 60 b.
Definition filestat_type (b : list Z) : Z := to_i32 (of_le (field filestat_fields 0 b)).
Definition filestat_next (b : list Z) : Z := of_le (field filestat_fields 9 b).
Definition files_first (b : list Z) : Z := of_le (field filestat_list_fields 0 b).
Definition read_sock (b : list Z) : Sock :=
  mk_sock (to_i32 (of_le (field sockstat_fields 4 b))) (field sockstat_fields 7 b) (field sockstat_fields 8 b).

(** The list of files, from the entry at [fst]; [None] is out of fuel. *)
Fixpoint walk_files (fuel : nat) (ps fst : Z) : libm (option (list FileStat)) :=
  if fst =? 0 then mret (Some [])
  else match fuel with
       | O => mret None
       | S fuel =>
           b ← read_mem fst (csize filestat);
           let ty := filestat_type b in
           s ← (if ty =? PS_FST_TYPE_SOCKET then
                  r ← lcall (SocketInfo ps fst);
                  mret (if lr_ret r =? 0 then Some (read_sock (lr_bytes r)) else None)
                else mret None);
           b ← read_mem fst (csize filestat);
           rest ← walk_files fuel ps (filestat_next b);
           mret (cons (mk_file ty s) <$> rest)
       end.

(** One process. *)
Definition scan_proc (fuel : nat) (ps p : Z) : libm (option Proc) :=
  k ← read_mem p kinfo_size;
  r ← lcall (GetPathname ps p);
  let path := if lr_ret r =? 0 then Some (lr_bytes r) else None in
  f ← lcall (GetFiles ps p);
  if lr_ret f =? 0 then mret (Some (mk_proc (kinfo_pid k) (kinfo_comm k) path None))
  else
    l ← read_mem (lr_ret f) (csize filestat_list);
    fs ← walk_files fuel ps (files_first l);
    lcall (FreeFiles ps (lr_ret f)) ;;
    mret (mk_proc (kinfo_pid k) (kinfo_comm k) path ∘ Some <$> fs).

(** [for i in 0..n] over the table at [procs]. *)
Definition proc_at (procs : Z) (i : nat) : Z := procs + Z.of_nat (i * kinfo_size).
Fixpoint scan_all (fuel : nat) (ps procs : Z) (ix : list nat) : libm (option (list Proc)) :=
  match ix with
  | [] => mret (Some [])
  | i :: ix' =>
      p ← scan_proc fuel ps (proc_at procs i);
      rest ← scan_all fuel ps procs ix';
      mret (p ≫= (fun p => cons p <$> rest))
  end.

(** The process table, [None] when it cannot be read; what [snapshot] inserts is the
    snapshot of it, in this order. *)
Definition scan (fuel : nat) : libm (option (option (list Proc))) :=
  h ← lcall OpenSysctl;
  let ps := lr_ret h in
  if ps =? 0 then mret (Some None)
  else
    r ← lcall (GetProcs ps);
    if lr_ret r =? 0 then lcall (ClosePs ps) ;; mret (Some None)
    else
      l ← scan_all fuel ps (lr_ret r) (seq 0 (Z.to_nat (lr_count r)));
      lcall (FreeProcs ps (lr_ret r)) ;;
      lcall (ClosePs ps) ;;
      mret (Some <$> l).

Definition snapshot_scan (fuel : nat) : libm (option Tables) :=
  l ← scan fuel; mret (snapshot <$> l).

(** ** [daemon_running] *)

(** [while !argv[j].is_null() && j < 8] *)
Fixpoint read_words (n : nat) (argv : Z) : libm (list (list Z)) :=
  b ← read_mem argv 8;
  if of_le b =? 0 then mret []
  else match n with
       | O => mret []
       | S n => w ← read_str (of_le b); ws ← read_words n (argv + 8); mret (w :: ws)
       end.

(** The loop over the processes, left at the first daemon found. *)
Fixpoint find_daemon (ps procs me : Z) (ix : list nat) : libm bool :=
  match ix with
  | [] => mret false
  | i :: ix' =>
      k ← read_mem (proc_at procs i) kinfo_size;
      if kinfo_pid k =? me then find_daemon ps procs me ix'
      else
        a ← lcall (GetArgv ps (proc_at procs i));
        if lr_ret a =? 0 then find_daemon ps procs me ix'
        else
          ws ← read_words 8 (lr_ret a);
          lcall (FreeArgv ps) ;;
          if is_daemon_argv ws then mret true else find_daemon ps procs me ix'
  end.

Definition daemon_running_scan (me : Z) : libm bool :=
  h ← lcall OpenSysctl;
  let ps := lr_ret h in
  if ps =? 0 then mret false
  else
    r ← lcall (GetProcs ps);
    if lr_ret r =? 0 then lcall (ClosePs ps) ;; mret false
    else
      found ← find_daemon ps (lr_ret r) me (seq 0 (Z.to_nat (lr_count r)));
      lcall (FreeProcs ps (lr_ret r)) ;;
      lcall (ClosePs ps) ;;
      mret found.
End scan.

(** ** What was given out, and given back *)

Inductive resource : Type := RHandle (ps : Z) | RProcs (p : Z) | RFiles (f : Z) | RArgv (ps : Z).
#[export] Instance resource_eq_dec : EqDecision resource.
Proof. solve_decision. Defined.
#[export] Instance resource_countable : Countable resource.
Proof.
  refine (inj_countable' (fun r => match r with RHandle p => (0, p) | RProcs p => (1, p) | RFiles p => (2, p) | RArgv p => (3, p) end)
    (fun x => match x.1 with 0 => RHandle x.2 | 1 => RProcs x.2 | 2 => RFiles x.2 | _ => RArgv x.2 end) _).
  by intros [].
Defined.

(** What a call gives out, what it takes back, and what it needs besides. *)
Definition gives (c : libcall) (r : Z) : option resource :=
  if r =? 0 then None
  else match c with
       | OpenSysctl => Some (RHandle r)
       | GetProcs _ => Some (RProcs r)
       | GetFiles _ _ => Some (RFiles r)
       | GetArgv ps _ => Some (RArgv ps)
       | _ => None
       end.
Definition takes (c : libcall) : option resource :=
  match c with
  | FreeFiles _ f => Some (RFiles f)
  | FreeArgv ps => Some (RArgv ps)
  | FreeProcs _ p => Some (RProcs p)
  | ClosePs ps => Some (RHandle ps)
  | _ => None
  end.
Definition needs (c : libcall) : option resource :=
  match c with
  | OpenSysctl => None
  | GetProcs ps | GetPathname ps _ | GetFiles ps _ | SocketInfo ps _ | GetArgv ps _ | FreeFiles ps _ | FreeArgv ps
  | FreeProcs ps _ | ClosePs ps => Some (RHandle ps)
  end.

Definition has (s : gset resource) (o : option resource) : bool :=
  match o with Some r => bool_decide (r ∈ s) | None => true end.
Definition without (s : gset resource) (o : option resource) : gset resource :=
  match o with Some r => s ∖ {[r]} | None => s end.
Definition with_ (s : gset resource) (o : option resource) : gset resource :=
  match o with Some r => {[r]} ∪ s | None => s end.

(** The resources held after a history, [None] when a call used or freed something that was
    not held, or when something was given out twice. *)
Definition account (s : option (gset resource)) (c : libcall * Z) : option (gset resource) :=
  s ← s;
  if has s (needs c.1) && has s (takes c.1) then
    match gives c.1 c.2 with
    | Some r => if bool_decide (r ∈ s) then None else Some (with_ s (Some r))
    | None => Some (without s (takes c.1))
    end
  else None.
Definition held_after (h : libhist) : option (gset resource) := foldl account (Some ∅) h.

(** A library never gives out what it has not been given back. *)
Definition lib_fresh `{Lib} : Prop :=
  forall h c s r, held_after h = Some s -> gives c (lr_ret (lib_answer h c)) = Some r -> r ∉ s.

(** ** Everything is given back *)

(** A call of a kind that gives nothing out. *)
Ltac gives_nothing := intros w; unfold gives; destruct (w =? 0); done.

Lemma has_in s r : (r ∈ s) -> has s (Some r) = true.
Proof. intros Hr. by apply bool_decide_eq_true_2. Qed.

Section balance.
Context `{Lib} (fresh : lib_fresh).

(** Run with [s] held, [m] keeps to what is held and leaves [s]. *)
Definition balanced {A} (s : gset resource) (m : libm A) : Prop :=
  forall h, held_after h = Some s -> held_after (m h).2 = Some s.

Lemma balanced_ret {A} s (a : A) : balanced s (mret a).
Proof. by intros h. Qed.
Lemma balanced_mem s p n : balanced s (read_mem p n).
Proof. by intros h. Qed.
Lemma balanced_str s p : balanced s (read_str p).
Proof. by intros h. Qed.

Lemma balanced_bind {A B} s (m : libm A) (f : A -> libm B) :
  balanced s m -> (forall a, balanced s (f a)) -> balanced s (m ≫= f).
Proof.
  intros Hm Hf h Hh. unfold mbind, libm_bind. pose proof (Hm h Hh) as H1. destruct (m h) as [a h1]. by apply Hf.
Qed.

Lemma held_snoc h c s : held_after h = Some s -> held_after (h ++ [c]) = account (Some s) c.
Proof. intros Hh. unfold held_after. rewrite foldl_app. unfold held_after in Hh. by rewrite Hh. Qed.

(** A call that gives nothing and takes nothing. *)
Lemma balanced_call s c :
  (forall r, gives c r = None) -> takes c = None -> has s (needs c) = true -> balanced s (lcall c).
Proof.
  intros Hg Ht Hn h Hh. cbn [lcall snd]. rewrite (held_snoc h _ s Hh). cbn. by rewrite Hn, Ht, Hg.
Qed.

(** A call that gives something out, or null. *)
Lemma give_call s c h :
  held_after h = Some s -> takes c = None -> has s (needs c) = true ->
  held_after (lcall c h).2 = Some (with_ s (gives c (lr_ret (lib_answer h c))))
  /\ match gives c (lr_ret (lib_answer h c)) with Some r => r ∉ s | None => True end.
Proof using fresh.
  intros Hh Ht Hn. cbn [lcall snd]. rewrite (held_snoc h _ s Hh). cbn. rewrite Hn, Ht. cbn.
  destruct (gives c _) as [r|] eqn:E; [|done]. pose proof (fresh h c s r Hh E) as Hr.
  by rewrite bool_decide_eq_false_2.
Qed.

(** A call that takes something back. *)
Lemma take_call s c r h :
  (forall v, gives c v = None) -> takes c = Some r -> has ({[r]} ∪ s) (needs c) = true -> (r ∉ s) ->
  held_after h = Some ({[r]} ∪ s) -> held_after (lcall c h).2 = Some s.
Proof using fresh.
  intros Hg Ht Hn Hr Hh. cbn [lcall snd]. rewrite (held_snoc h _ _ Hh). cbn. rewrite Hn, Ht, Hg. cbn.
  rewrite bool_decide_eq_true_2 by set_solver. cbn. f_equal. apply set_eq. set_solver.
Qed.

(** What is given out is used with it held and then taken back. *)
Lemma balanced_scope {A B} s c (body : Z -> libm A) (free : Z -> libcall) (nil_ : libm B) (k : A -> libm B) :
  takes c = None -> has s (needs c) = true ->
  (forall v, v <> 0 -> exists r, gives c v = Some r /\ takes (free v) = Some r
      /\ (forall w, gives (free v) w = None) /\ has ({[r]} ∪ s) (needs (free v)) = true
      /\ balanced ({[r]} ∪ s) (body v)) ->
  balanced s nil_ -> (forall a, balanced s (k a)) ->
  balanced s (r ← lcall c; if lr_ret r =? 0 then nil_ else a ← body (lr_ret r); lcall (free (lr_ret r)) ;; k a).
Proof using fresh.
  intros Ht Hn Hb Hnil Hk h Hh. destruct (give_call s c h Hh Ht Hn) as [Hg Hr].
  unfold mbind at 1, libm_bind at 1. destruct (lcall c h) as [rep h1] eqn:E.
  assert (lr_ret (lib_answer h c) = lr_ret rep) as Hrep by (by injection E as <- _).
  rewrite Hrep in Hg, Hr. cbn [snd] in Hg.
  destruct (Z.eqb_spec (lr_ret rep) 0) as [Hz|Hz].
  { apply Hnil. rewrite Hg. unfold gives. by rewrite Hz. }
  destruct (Hb _ Hz) as (r & Eg & Et & Hgf & Hnf & Hbody). rewrite Eg in Hg, Hr. cbn [with_] in Hg.
  unfold mbind, libm_bind. pose proof (Hbody h1 Hg) as H2. destruct (body (lr_ret rep) h1) as [a h2]. cbn [snd] in H2.
  pose proof (take_call s (free (lr_ret rep)) r h2 Hgf Et Hnf Hr H2) as H3.
  destruct (lcall (free (lr_ret rep)) h2) as [rep3 h3]. by apply Hk.
Qed.

Lemma balanced_walk s fuel ps : (RHandle ps ∈ s) -> forall fst, balanced s (walk_files fuel ps fst).
Proof.
  intros Hps. induction fuel as [|fuel IH]; intros fst; cbn [walk_files]; (destruct (fst =? 0); [apply balanced_ret|]).
  { apply balanced_ret. }
  apply balanced_bind; [apply balanced_mem|]. intros b. apply balanced_bind.
  { destruct (_ =? _); [|apply balanced_ret]. apply balanced_bind; [|intros; apply balanced_ret].
    apply balanced_call; [gives_nothing|done|]. by apply has_in. }
  intros x. apply balanced_bind; [apply balanced_mem|]. intros b'. apply balanced_bind; [apply IH|].
  intros. apply balanced_ret.
Qed.

Lemma balanced_proc s fuel ps p : (RHandle ps ∈ s) -> balanced s (scan_proc fuel ps p).
Proof using fresh.
  intros Hps. unfold scan_proc. apply balanced_bind; [apply balanced_mem|]. intros k.
  apply balanced_bind; [apply balanced_call; [gives_nothing|done|by apply has_in]|]. intros r.
  cbv zeta.
  pose proof (balanced_scope s (GetFiles ps p)
    (fun f => l ← read_mem f (csize filestat_list); walk_files fuel ps (files_first l)) (FreeFiles ps)
    (mret (Some (mk_proc (kinfo_pid k) (kinfo_comm k) (if lr_ret r =? 0 then Some (lr_bytes r) else None) None)))
    (fun fs => mret (mk_proc (kinfo_pid k) (kinfo_comm k) (if lr_ret r =? 0 then Some (lr_bytes r) else None) ∘ Some <$> fs))) as Hsc.
  apply Hsc; [done|by apply has_in| |apply balanced_ret|intros; apply balanced_ret].
  intros v Hv. exists (RFiles v). unfold gives at 1. rewrite (proj2 (Z.eqb_neq _ _) Hv).
  split_and!; [done|done|gives_nothing|apply has_in; set_solver|].
  apply balanced_bind; [apply balanced_mem|]. intros l. apply balanced_walk. set_solver.
Qed.

Lemma balanced_all s fuel ps procs ix : (RHandle ps ∈ s) -> balanced s (scan_all fuel ps procs ix).
Proof using fresh.
  intros Hps. induction ix as [|i ix IH]; cbn [scan_all]; [apply balanced_ret|].
  apply balanced_bind; [by apply balanced_proc|]. intros p. apply balanced_bind; [done|]. intros. apply balanced_ret.
Qed.

Lemma balanced_words s n : forall argv, balanced s (read_words n argv).
Proof.
  induction n as [|n IH]; intros argv; cbn [read_words]; (apply balanced_bind; [apply balanced_mem|]; intros b);
    (destruct (_ =? 0); [apply balanced_ret|]); [apply balanced_ret|].
  apply balanced_bind; [apply balanced_str|]. intros w. apply balanced_bind; [apply IH|]. intros. apply balanced_ret.
Qed.

Lemma balanced_find s ps procs me ix :
  (RHandle ps ∈ s) -> (RArgv ps ∉ s) -> balanced s (find_daemon ps procs me ix).
Proof using fresh.
  intros Hps Hav. induction ix as [|i ix IH]; cbn [find_daemon]; [apply balanced_ret|].
  apply balanced_bind; [apply balanced_mem|]. intros k. destruct (_ =? me); [done|].
  apply (balanced_scope s (GetArgv ps (proc_at procs i)) (read_words 8) (fun _ => FreeArgv ps)
           (find_daemon ps procs me ix)
           (fun ws => if is_daemon_argv ws then mret true else find_daemon ps procs me ix));
    [done|by apply has_in| |done|intros ws; destruct (is_daemon_argv ws); [apply balanced_ret|done]].
  intros v Hv. exists (RArgv ps). unfold gives at 1. rewrite (proj2 (Z.eqb_neq _ _) Hv).
  split_and!; [done|done|gives_nothing|apply has_in; set_solver|apply balanced_words].
Qed.

(** Opening the library, listing the processes, and closing both after [body]. *)
Lemma balanced_session {A B} s (body : Z -> librep -> libm A) (nil_ : libm B) (k : A -> B) :
  (forall ps r, (RHandle ps ∉ s) -> balanced ({[RProcs (lr_ret r)]} ∪ ({[RHandle ps]} ∪ s)) (body ps r)) ->
  balanced s nil_ ->
  balanced s (h ← lcall OpenSysctl;
              if lr_ret h =? 0 then nil_
              else r ← lcall (GetProcs (lr_ret h));
                   if lr_ret r =? 0 then lcall (ClosePs (lr_ret h)) ;; nil_
                   else a ← body (lr_ret h) r; lcall (FreeProcs (lr_ret h) (lr_ret r)) ;;
                        lcall (ClosePs (lr_ret h)) ;; mret (k a)).
Proof using fresh.
  intros Hbody Hnil h Hh. destruct (give_call s OpenSysctl h Hh eq_refl eq_refl) as [Hg Hr].
  unfold mbind, libm_bind. destruct (lcall OpenSysctl h) as [rep h1] eqn:E.
  assert (lr_ret (lib_answer h OpenSysctl) = lr_ret rep) as Hrep by (by injection E as <- _).
  rewrite Hrep in Hg, Hr. cbn [snd] in Hg. set (ps := lr_ret rep) in *.
  destruct (Z.eqb_spec ps 0) as [Hz|Hz]; [apply Hnil; by rewrite Hg, Hz|].
  unfold gives in Hg, Hr. rewrite (proj2 (Z.eqb_neq _ _) Hz) in Hg, Hr. cbn [with_] in Hg.
  assert (Hclose : forall h', held_after h' = Some ({[RHandle ps]} ∪ s) -> held_after (lcall (ClosePs ps) h').2 = Some s).
  { intros h' Hh'. apply (take_call s (ClosePs ps) (RHandle ps)); [gives_nothing|done|apply has_in; set_solver|done|done]. }
  destruct (give_call _ (GetProcs ps) h1 Hg eq_refl ltac:(apply has_in; set_solver)) as [Hg2 Hr2].
  destruct (lcall (GetProcs ps) h1) as [rep2 h2] eqn:E2.
  assert (lr_ret (lib_answer h1 (GetProcs ps)) = lr_ret rep2) as Hrep2 by (by injection E2 as <- _).
  rewrite Hrep2 in Hg2, Hr2. cbn [snd] in Hg2.
  destruct (Z.eqb_spec (lr_ret rep2) 0) as [Hz2|Hz2].
  { rewrite Hz2 in Hg2. pose proof (Hclose h2 Hg2) as H3. destruct (lcall (ClosePs ps) h2) as [? h3]. by apply Hnil. }
  unfold gives in Hg2, Hr2. rewrite (proj2 (Z.eqb_neq _ _) Hz2) in Hg2, Hr2. cbn [with_] in Hg2.
  pose proof (Hbody ps rep2 Hr h2 Hg2) as H3. destruct (body ps rep2 h2) as [a h3]. cbn [snd] in H3.
  assert (held_after (lcall (FreeProcs ps (lr_ret rep2)) h3).2 = Some ({[RHandle ps]} ∪ s)) as H4.
  { apply (take_call _ (FreeProcs ps (lr_ret rep2)) (RProcs (lr_ret rep2))); [gives_nothing|done|apply has_in; set_solver|done|done]. }
  destruct (lcall (FreeProcs ps (lr_ret rep2)) h3) as [? h4]. cbn [snd] in H4.
  pose proof (Hclose h4 H4) as H5. by destruct (lcall (ClosePs ps) h4) as [? h5].
Qed.
End balance.

(** Reading the process table leaks nothing: whatever the library answers - it cannot
    be opened, the table cannot be read, a process is gone before its files are listed, a
    socket cannot be described - and however many processes and files there are, both
    [snapshot] and [daemon_running] (which leaves its loop early) give back every handle,
    table, file list and argument vector exactly once, and never use one that is not held. *)
Theorem scan_gives_back `{Lib} fuel me h s :
  lib_fresh -> held_after h = Some s -> (forall ps, RArgv ps ∈ s -> RHandle ps ∈ s) ->
  held_after (snapshot_scan fuel h).2 = Some s /\ held_after (daemon_running_scan me h).2 = Some s.
Proof.
  intros fresh Hh Hav. split.
  - unfold snapshot_scan. apply balanced_bind; [|intros; apply balanced_ret|done].
    apply (balanced_session fresh s (fun ps r => scan_all fuel ps (lr_ret r) (seq 0 (Z.to_nat (lr_count r))))
             (mret (Some None)) (fun l => Some <$> l)); [|apply balanced_ret].
    intros ps r Hps. apply balanced_all; [done|set_solver].
  - apply (balanced_session fresh s (fun ps r => find_daemon ps (lr_ret r) me (seq 0 (Z.to_nat (lr_count r))))
             (mret false) (fun b => b)); [|apply balanced_ret|done].
    intros ps r Hps. apply balanced_find; [done|set_solver|]. intros Hin. apply Hps, Hav. set_solver.
Qed.

(** ** What is read is what is there *)

Section reads.
Context `{Lib}.

(** The list of files at [a], wherever the calls made meanwhile have got to: each entry has
    the type the library stores, and a socket is described by [SocketInfo] or not at all. *)
Inductive chain (ps : Z) : Z -> list FileStat -> Prop :=
| chain_nil : chain ps 0 []
| chain_cons a f fs next :
    a <> 0 ->
    (forall h, filestat_type (lib_mem h a (csize filestat)) = fs_type f
               /\ filestat_next (lib_mem h a (csize filestat)) = next) ->
    (if fs_type f =? PS_FST_TYPE_SOCKET then
       forall h, match fs_sock f with
                 | Some s => lr_ret (lib_answer h (SocketInfo ps a)) = 0
                             /\ read_sock (lr_bytes (lib_answer h (SocketInfo ps a))) = s
                 | None => lr_ret (lib_answer h (SocketInfo ps a)) <> 0
                 end
     else fs_sock f = None) ->
    chain ps next fs -> chain ps a (f :: fs).

(** The library describes the process [p] at [a]. *)
Record describes (ps a : Z) (p : Proc) : Prop := mk_describes {
  ds_kinfo : forall h, kinfo_pid (lib_mem h a kinfo_size) = ki_pid p /\ kinfo_comm (lib_mem h a kinfo_size) = ki_comm p;
  ds_path : forall h, match pathbuf p with
                      | Some b => lr_ret (lib_answer h (GetPathname ps a)) = 0 /\ lr_bytes (lib_answer h (GetPathname ps a)) = b
                      | None => lr_ret (lib_answer h (GetPathname ps a)) <> 0
                      end;
  ds_files : forall h, match files p with
                       | Some fs => lr_ret (lib_answer h (GetFiles ps a)) <> 0
                           /\ (forall h', chain ps (files_first (lib_mem h' (lr_ret (lib_answer h (GetFiles ps a)))
                                                                 (csize filestat_list))) fs)
                       | None => lr_ret (lib_answer h (GetFiles ps a)) = 0
                       end
}.

Lemma walk_reads ps a fs : chain ps a fs -> forall fuel h, (length fs <= fuel)%nat ->
  (walk_files fuel ps a h).1 = Some fs.
Proof.
  induction 1 as [|a f fs next Ha Hmem Hsock _ IH]; intros fuel h Hf.
  { by destruct fuel. }
  destruct fuel as [|fuel]; [cbn in Hf; lia|]. cbn [walk_files length] in *.
  rewrite (proj2 (Z.eqb_neq _ _) Ha). unfold mbind, libm_bind, read_mem. destruct (Hmem h) as [-> _].
  destruct (fs_type f =? PS_FST_TYPE_SOCKET).
  - unfold lcall at 1. specialize (Hsock h). set (rep := lib_answer h (SocketInfo ps a)) in *. cbn [mret libm_ret].
    assert (Hs : (if lr_ret rep =? 0 then Some (read_sock (lr_bytes rep)) else None) = fs_sock f).
    { destruct (fs_sock f) as [s|]; [by destruct Hsock as [-> ->]|]. by rewrite (proj2 (Z.eqb_neq _ _) Hsock). }
    rewrite Hs. destruct (Hmem (h ++ [(SocketInfo ps a, lr_ret rep)])) as [_ ->].
    specialize (IH fuel (h ++ [(SocketInfo ps a, lr_ret rep)]) ltac:(lia)).
    destruct (walk_files fuel ps next _) as [r h']. cbn [fst] in IH. subst r. by destruct f.
  - cbn [mret libm_ret]. destruct (Hmem h) as [_ ->]. specialize (IH fuel h ltac:(lia)).
    destruct (walk_files fuel ps next h) as [r h']. cbn [fst] in IH. subst r. destruct f. cbn in *. by subst.
Qed.

Lemma proc_reads fuel ps a p h :
  describes ps a p -> (length (default [] (files p)) <= fuel)%nat -> (scan_proc fuel ps a h).1 = Some p.
Proof.
  intros [Hk Hp Hf] Hl. unfold scan_proc, mbind, libm_bind, read_mem. destruct (Hk h) as [-> ->].
  unfold lcall at 1. specialize (Hp h). set (rep := lib_answer h (GetPathname ps a)) in *.
  assert (Hpath : (if lr_ret rep =? 0 then Some (lr_bytes rep) else None) = pathbuf p).
  { destruct (pathbuf p) as [b|]; [by destruct Hp as [-> ->]|]. by rewrite (proj2 (Z.eqb_neq _ _) Hp). }
  rewrite Hpath. unfold lcall at 1. set (h1 := h ++ _). specialize (Hf h1).
  set (rep2 := lib_answer h1 (GetFiles ps a)) in *. destruct (files p) as [fs|] eqn:E.
  - destruct Hf as [Hz Hc]. rewrite (proj2 (Z.eqb_neq _ _) Hz). set (h2 := h1 ++ _).
    pose proof (walk_reads ps _ fs (Hc h2) fuel h2 Hl) as Hw. destruct (walk_files fuel ps _ h2) as [r h3].
    cbn [fst] in Hw. subst r. destruct p. cbn in *. by subst.
  - rewrite Hf. destruct p. cbn in *. by subst.
Qed.

Lemma all_reads fuel ps procs l : forall i h,
  (forall j p, l !! j = Some p -> describes ps (proc_at procs (i + j)) p) ->
  Forall (fun p => (length (default [] (files p)) <= fuel)%nat) l ->
  (scan_all fuel ps procs (seq i (length l)) h).1 = Some l.
Proof.
  induction l as [|p l IH]; intros i h Hd Hl; [done|]. cbn [length seq scan_all]. inversion_clear Hl as [|? ? Hp Hl'].
  unfold mbind, libm_bind.
  pose proof (proc_reads fuel ps (proc_at procs i) p h) as Hr. rewrite <- (Nat.add_0_r i) in Hr at 1.
  specialize (Hr (Hd 0%nat p eq_refl) Hp). destruct (scan_proc fuel ps (proc_at procs i) h) as [r h1]. cbn [fst] in Hr. subst r.
  assert (Hd' : forall j q, l !! j = Some q -> describes ps (proc_at procs (S i + j)) q).
  { intros j q Hq. replace (S i + j)%nat with (i + S j)%nat by lia. by apply Hd. }
  specialize (IH (S i) h1 Hd' Hl'). destruct (scan_all fuel ps procs (seq (S i) (length l)) h1) as [r h2].
  cbn [fst] in IH. by subst r.
Qed.

(** C35. The snapshot is of the process table that is there: when the library opens and
    describes the processes [l] - each by its structure, its path and its list of files,
    each socket by its structure - and the fuel covers the longest list of files, reading
    the memory it returns, structure by structure and pointer by pointer, ends and builds
    exactly the tables of [l]; when it cannot be opened, or has no table, the snapshot is
    empty. *)
Theorem scan_reads fuel l h :
  let open := lib_answer h OpenSysctl in
  let ps := lr_ret open in
  let h1 := h ++ [(OpenSysctl, ps)] in
  let table := lib_answer h1 (GetProcs ps) in
  (ps = 0 \/ lr_ret table = 0 -> (snapshot_scan fuel h).1 = Some no_tables)
  /\ (ps <> 0 -> lr_ret table <> 0 -> lr_count table = Z.of_nat (length l) ->
      (forall i p, l !! i = Some p -> describes ps (proc_at (lr_ret table) i) p) ->
      Forall (fun p => (length (default [] (files p)) <= fuel)%nat) l ->
      (snapshot_scan fuel h).1 = Some (snapshot (Some l))).
Proof.
  intros open ps h1 table. split.
  - intros Hz. unfold snapshot_scan, scan, mbind, libm_bind. unfold lcall at 1. fold open ps h1.
    destruct (Z.eqb_spec ps 0) as [|Hps]; [done|]. destruct Hz as [|Hz]; [done|].
    unfold lcall at 1. fold table. by rewrite Hz.
  - intros Hps Ht Hn Hd Hl. unfold snapshot_scan, scan, mbind, libm_bind. unfold lcall at 1. fold open ps h1.
    rewrite (proj2 (Z.eqb_neq _ _) Hps). unfold lcall at 1. fold table.
    rewrite (proj2 (Z.eqb_neq _ _) Ht), Hn, Nat2Z.id. set (h2 := h1 ++ _).
    pose proof (all_reads fuel ps (lr_ret table) l 0 h2 Hd Hl) as Ha.
    destruct (scan_all fuel ps (lr_ret table) (seq 0 (length l)) h2) as [r h3]. cbn [fst] in Ha. subst r. done.
Qed.
End reads.

(** ** A library with one process and one socket *)

Definition one_comm : list Z := buffer 20 (utf8 $"curl").
Definition one_path : list Z := name_buf $"/usr/local/bin/curl".
Definition one_sock : Sock := mk_sock 6 (buffer 128 (sa4 1 2 3 4 40000)) (buffer 128 (sa4 5 6 7 8 443)).
Definition one_proc : Proc := mk_proc 300 one_comm (Some one_path) (Some [mk_file 3 (Some one_sock)]).

Definition one_answer (c : libcall) : librep :=
  match c with
  | OpenSysctl => mk_librep 1 0 []
  | GetProcs _ => mk_librep 4096 1 []
  | GetPathname _ _ => mk_librep 0 0 one_path
  | GetFiles _ _ => mk_librep 8192 0 []
  | SocketInfo _ _ =>
      mk_librep 0 0 (replicate 28 0 ++ le 4 6 ++ replicate 8 0 ++ buffer 128 (sa4 1 2 3 4 40000)
                     ++ buffer 128 (sa4 5 6 7 8 443) ++ replicate 48 0)
  | GetArgv _ _ => mk_librep 16384 0 []
  | _ => mk_librep 0 0 []
  end.
Definition one_mem (a : Z) : list Z :=
  if a =? 4096 then replicate 72 0 ++ le 4 300 ++ replicate 371 0 ++ one_comm ++ replicate 621 0
  else if a =? 8192 then le 8 12288 ++ le 8 0
  else if a =? 12288 then le 4 3 ++ replicate 68 0
  else replicate 8 0.

#[local] Instance lib_one : Lib := mk_lib (fun _ => one_answer) (fun _ a n => take n (one_mem a)) (fun _ _ => []).

(** The same, giving nothing out twice. *)
Definition lib_once : Lib :=
  mk_lib (fun h c => match held_after h, gives c (lr_ret (one_answer c)) with
                     | Some s, Some r => if bool_decide (r ∈ s) then mk_librep 0 0 [] else one_answer c
                     | _, _ => one_answer c
                     end)
    (fun _ a n => take n (one_mem a)) (fun _ _ => []).

Lemma lib_once_fresh : @lib_fresh lib_once.
Proof.
  intros h c s r Hs Hg. cbn [lib_answer lib_once] in Hg. rewrite Hs in Hg.
  destruct (gives c (lr_ret (one_answer c))) as [r'|] eqn:E; [|congruence].
  case_bool_decide as Hin; [by unfold gives in Hg|]. congruence.
Qed.

Lemma one_described : describes 1 4096 one_proc.
Proof.
  constructor; intros h; [by vm_compute|by vm_compute|]. split; [done|]. intros h'.
  apply (chain_cons 1 _ (mk_file 3 (Some one_sock)) [] 0); [by vm_compute|intros; by vm_compute| |apply chain_nil].
  intros h''. by vm_compute.
Qed.

Lemma scan_reads_witness : (snapshot_scan 1 []).1 = Some (snapshot (Some [one_proc])).
Proof.
  apply (scan_reads 1 [one_proc] []); [done|done|done| |repeat constructor].
  intros [|i] p Hp; [|done]. injection Hp as <-. apply one_described.
Defined.

Lemma scan_gives_back_witness :
  held_after (@snapshot_scan lib_once 1 []).2 = Some ∅ /\ held_after (@daemon_running_scan lib_once 7 []).2 = Some ∅.
Proof. apply (@scan_gives_back lib_once 1 7 [] ∅ lib_once_fresh eq_refl). intros ps H. set_solver. Defined.
