(* ===== verification/KernAttr.v ===== *)
(** The kernel's own attribution and its verdict cache (kernattr.rs), through ioctls on
    /dev/pfsnitch.

    The device is the kernel module (KernModule.v); here the class [Device] says what an
    ioctl answers.  The theorems are about the bytes that cross the boundary: what the
    daemon writes is found by the module at the offsets of its own header
    (kmod/pfsnitch_ioctl.h), and what the module answers is what the daemon reads. *)
From S2P Require Import Prelude Unicode RustStr IpAddr Procinfo Abi.

Definition PFSNITCH_ATTR_VERSION : Z := 1.
Definition PFSNITCH_MISS : Z := 0.
Definition PFSNITCH_V_ALLOW : Z := 1.
Definition PFSNITCH_V_DENY : Z := 2.

Abbreviation u8 := (CInt 1).
Abbreviation u16 := (CInt 2).
Abbreviation u32 := (CInt 4).
Abbreviation u64 := (CInt 8).

(** ** The four structures, field for field *)

Record PfsnitchAttr : Type := mk_pattr {
  a_version : Z; a_af : Z; a_proto : Z; a_lport : Z; a_fport : Z; a_laddr : list Z; a_faddr : list Z;
  a_found : Z; a_pid : Z; a_uid : Z; a_comm : list Z; a_path : list Z
}.
Definition attr_fields : list ctype :=
  [u32; u8; u8; u16; u16; CArr 2 u8; CArr 16 u8; CArr 16 u8; u8; CArr 3 u8; u32; u32; CArr 4 u8;
   CArr 24 u8; CArr 1024 u8].
(** Ports are already in network order in the structure ([to_be]). *)
Definition attr_bytes (q : PfsnitchAttr) : list Z :=
  encode attr_fields
    [le 4 (a_version q); le 1 (a_af q); le 1 (a_proto q); to_be16 (a_lport q); to_be16 (a_fport q);
     replicate 2 0; a_laddr q; a_faddr q; le 1 (a_found q); replicate 3 0; le 4 (of_i32 (a_pid q));
     le 4 (a_uid q); replicate 4 0; a_comm q; a_path q].

Record PfsnitchVerdict : Type := mk_pverdict {
  v_version : Z; v_af : Z; v_proto : Z; v_fport : Z; v_faddr : list Z; v_verdict : Z; v_path : list Z
}.
Definition verdict_fields : list ctype :=
  [u32; u8; u8; u16; CArr 16 u8; u8; CArr 3 u8; CArr 1024 u8].
Definition verdict_bytes (v : PfsnitchVerdict) : list Z :=
  encode verdict_fields
    [le 4 (v_version v); le 1 (v_af v); le 1 (v_proto v); to_be16 (v_fport v); v_faddr v;
     le 1 (v_verdict v); replicate 3 0; v_path v].

Definition event_fields : list ctype :=
  [u64; u8; u8; u16; CArr 16 u8; u8; CArr 3 u8; u32; u32; CArr 1024 u8].

Record PfsnitchResolve : Type := mk_presolve { r_version : Z; r_verdict : Z; r_id : Z }.
Definition resolve_fields : list ctype := [u32; u8; CArr 3 u8; u64].
Definition resolve_bytes (r : PfsnitchResolve) : list Z :=
  encode resolve_fields [le 4 (r_version r); le 1 (r_verdict r); replicate 3 0; le 8 (r_id r)].

(** A pending upcall, as the daemon reads it. *)
Record KernEvent : Type := mk_event {
  ev_id : Z; ev_proto : Z; ev_dst : IpAddr; ev_dport : Z; ev_nonblock : bool; ev_pid : Z; ev_uid : Z;
  ev_path : str
}.

(** ** Commands *)

Definition IOC_VOID : Z := 536870912.    (* 0x2000_0000 *)
Definition IOC_IN : Z := 2147483648.     (* 0x8000_0000 *)
Definition IOC_INOUT : Z := 3221225472.  (* 0xC000_0000 *)
Definition IOCPARM_MASK : Z := 8191.     (* 0x1fff *)

Definition ioc (inout num len : Z) : Z :=
  Z.lor (Z.lor (Z.lor inout (Z.shiftl (Z.land len IOCPARM_MASK) 16)) (Z.shiftl 70 8)) num.

Definition size_z (fs : list ctype) : Z := Z.of_nat (csize (CStruct fs)).
Definition attr_query_cmd : Z := ioc IOC_INOUT 1 (size_z attr_fields).
Definition verdict_push_cmd : Z := ioc IOC_IN 2 (size_z verdict_fields).
Definition verdict_flush_cmd : Z := ioc IOC_VOID 3 0.
Definition resolve_cmd : Z := ioc IOC_IN 4 (size_z resolve_fields).
Definition upcall_set_cmd : Z := ioc IOC_IN 5 4.

(** What the device answers to an ioctl: an errno, or the argument as the kernel left it. *)
Class Device : Type := ioctl : Z -> list Z -> Z + list Z.

(** ENOTTY, ENXIO, EBADF, ENODEV: the descriptor is not coming back. *)
Definition fatal_errno (e : Z) : bool := bool_decide (e ∈ [25; 6; 9; 19]).

(** [KernAttr]: the flag the reconnect logic polls. *)
Record KernAttr : Type := mk_kern { dead : bool }.

(** [note_errno] *)
Definition note_errno (k : KernAttr) (e : Z) : KernAttr := if fatal_errno e then mk_kern true else k.

Definition cstr (b : list Z) : str := utf8_lossy (until_nul b).

Section device.
Context `{Device}.

(** [query] *)
Definition query_request (t : Tuple) : option PfsnitchAttr :=
  if negb (t_proto t =? 6) && negb (t_proto t =? 17) then None
  else
    match t_src t, t_dst t with
    | V4 _, V4 _ =>
        Some (mk_pattr PFSNITCH_ATTR_VERSION 4 (t_proto t) (t_sport t) (t_dport t)
                (octets (t_src t) ++ replicate 12 0) (octets (t_dst t) ++ replicate 12 0)
                0 0 0 (replicate 24 0) (replicate 1024 0))
    | V6 _, V6 _ =>
        Some (mk_pattr PFSNITCH_ATTR_VERSION 6 (t_proto t) (t_sport t) (t_dport t)
                (octets (t_src t)) (octets (t_dst t)) 0 0 0 (replicate 24 0) (replicate 1024 0))
    | _, _ => None
    end.

Definition query_answer (b : list Z) : option Attribution :=
  if of_le (field attr_fields 8 b) =? PFSNITCH_MISS then None
  else
    let command := cstr (field attr_fields 13 b) in
    let path := match cstr (field attr_fields 14 b) with [] => unknown_path command | s => s end in
    Some (mk_attr (mk_owner (to_i32 (of_le (field attr_fields 10 b))) command path) Kernel).

Definition query (k : KernAttr) (t : Tuple) : KernAttr * option Attribution :=
  match query_request t with
  | None => (k, None)
  | Some q =>
      match ioctl attr_query_cmd (attr_bytes q) with
      | inl e => (note_errno k e, None)
      | inr b => (k, query_answer b)
      end
  end.

(** [push_verdict]: the bytes handed to the device, when any are. *)
Definition push_request (k : KernAttr) (proto : Z) (dst : IpAddr) (dport : Z) (path : str) (allow : bool)
  : option (list Z) :=
  if dead k || (negb (proto =? 6) && negb (proto =? 17)) then None
  else
    let pb := utf8 path in
    if bool_decide (pb = []) || (1024 <=? length pb)%nat then None
    else
      let '(af, addr) := match dst with
                         | V4 _ => (4, octets dst ++ replicate 12 0)
                         | V6 _ => (6, octets dst)
                         end in
      Some (verdict_bytes (mk_pverdict PFSNITCH_ATTR_VERSION af proto dport addr
              (if allow then PFSNITCH_V_ALLOW else PFSNITCH_V_DENY) (buffer 1024 pb))).

(** An ioctl whose answer is only its success. *)
Definition send (k : KernAttr) (cmd : Z) (b : list Z) : KernAttr :=
  match ioctl cmd b with inl e => note_errno k e | inr _ => k end.

Definition push_verdict (k : KernAttr) (proto : Z) (dst : IpAddr) (dport : Z) (path : str) (allow : bool)
  : KernAttr :=
  match push_request k proto dst dport path allow with
  | Some b => send k verdict_push_cmd b
  | None => k
  end.

(** [flush_verdicts] *)
Definition flush_verdicts (k : KernAttr) : KernAttr :=
  if dead k then k else send k verdict_flush_cmd [].

(** [resolve] *)
Definition resolve_request (id : Z) (allow : bool) : list Z :=
  resolve_bytes (mk_presolve PFSNITCH_ATTR_VERSION (if allow then PFSNITCH_V_ALLOW else PFSNITCH_V_DENY) id).
Definition resolve_event (k : KernAttr) (id : Z) (allow : bool) : KernAttr :=
  if dead k then k else send k resolve_cmd (resolve_request id allow).

(** [set_upcall] *)
Definition set_upcall (k : KernAttr) (on : bool) : KernAttr :=
  if dead k then k else send k upcall_set_cmd (le 4 (if on then 1 else 0)).
End device.

(** ** Reading an event *)

(** What [read_event] returns: an event, end of file, or an error. *)
Inductive read_result : Type := Event (e : KernEvent) | Eof | ReadErr.

(** [read_event], from what the read call returned: [inl] an error, [inr] the bytes. *)
Definition read_event (r : unit + list Z) : read_result :=
  match r with
  | inl _ => ReadErr
  | inr [] => Eof
  | inr b =>
      if negb (bool_decide (length b = csize (CStruct event_fields))) then ReadErr
      else
        let addr := field event_fields 4 b in
        let dst := match of_le (field event_fields 1 b) with
                   | 4 => Some (v4_of (take 4 addr))
                   | 6 => Some (v6_of addr)
                   | _ => None
                   end in
        match dst with
        | None => ReadErr
        | Some dst =>
            Event (mk_event (of_le (field event_fields 0 b)) (of_le (field event_fields 2 b)) dst
                     (be_join 8 (field event_fields 3 b))
                     (negb (of_le (field event_fields 5 b) =? 0))
                     (to_i32 (of_le (field event_fields 7 b))) (of_le (field event_fields 8 b))
                     (cstr (field event_fields 9 b)))
        end
  end.

(** ** The module's header, declaration for declaration *)

(** [struct pfsnitch_attr], [pfsnitch_verdict], [pfsnitch_event] and [pfsnitch_resolve] of
    kmod/pfsnitch_ioctl.h; [uint8_t] and [char] are one byte. *)
Definition header_attr : ctype :=
  CStruct [CInt 4 (* version *); CInt 1 (* af *); CInt 1 (* proto *); CInt 2 (* lport *);
           CInt 2 (* fport *); CArr 2 (CInt 1); CArr 16 (CInt 1) (* laddr *); CArr 16 (CInt 1) (* faddr *);
           CInt 1 (* found *); CArr 3 (CInt 1); CInt 4 (* pid *); CInt 4 (* uid *); CArr 4 (CInt 1);
           CArr 24 (CInt 1) (* comm *); CArr 1024 (CInt 1) (* path *)].
Definition header_verdict : ctype :=
  CStruct [CInt 4 (* version *); CInt 1 (* af *); CInt 1 (* proto *); CInt 2 (* fport *);
           CArr 16 (CInt 1) (* faddr *); CInt 1 (* verdict *); CArr 3 (CInt 1);
           CArr 1024 (CInt 1) (* path *)].
Definition header_event : ctype :=
  CStruct [CInt 8 (* id *); CInt 1 (* af *); CInt 1 (* proto *); CInt 2 (* fport *);
           CArr 16 (CInt 1) (* faddr *); CInt 1 (* nonblock *); CArr 3 (CInt 1); CInt 4 (* pid *);
           CInt 4 (* uid *); CArr 1024 (CInt 1) (* path *)].
Definition header_resolve : ctype :=
  CStruct [CInt 4 (* version *); CInt 1 (* verdict *); CArr 3 (CInt 1); CInt 8 (* id *)].

Definition struct_offsets (t : ctype) : list nat := match t with CStruct fs => offsets 0 fs | _ => [] end.

(** The boundary with the kernel module: the four structures have the sizes and the
    field offsets of the module's header, and the ioctl numbers computed from them are the
    ones the header's macros give. *)
Theorem kernel_abi :
  (map csize [CStruct attr_fields; CStruct verdict_fields; CStruct event_fields; CStruct resolve_fields]
   = map csize [header_attr; header_verdict; header_event; header_resolve])
  /\ map csize [CStruct attr_fields; CStruct verdict_fields; CStruct event_fields; CStruct resolve_fields]
     = [1108; 1052; 1064; 16]%nat
  /\ struct_offsets (CStruct attr_fields) = struct_offsets header_attr
  /\ struct_offsets (CStruct verdict_fields) = struct_offsets header_verdict
  /\ struct_offsets (CStruct event_fields) = struct_offsets header_event
  /\ struct_offsets (CStruct resolve_fields) = struct_offsets header_resolve
  /\ struct_offsets header_attr = [0; 4; 5; 6; 8; 10; 12; 28; 44; 45; 48; 52; 56; 60; 84]%nat
  /\ [attr_query_cmd; verdict_push_cmd; verdict_flush_cmd; resolve_cmd; upcall_set_cmd]
     = [3293857281; 2216445442; 536888835; 2148550148; 2147763717].
Proof. vm_compute. repeat split. Qed.

(** ** What the daemon writes is what the module reads *)

Lemma attr_sane : Forall (fun t => sane t = true) attr_fields.
Proof. by repeat constructor. Qed.
Lemma verdict_sane : Forall (fun t => sane t = true) verdict_fields.
Proof. by repeat constructor. Qed.
Lemma event_sane : Forall (fun t => sane t = true) event_fields.
Proof. by repeat constructor. Qed.
Lemma resolve_sane : Forall (fun t => sane t = true) resolve_fields.
Proof. by repeat constructor. Qed.

Lemma to_be16_length z : length (to_be16 z) = 2%nat.
Proof. apply be_split_length. Qed.
Lemma octets_length a : length (octets a) = match a with V4 _ => 4%nat | V6 _ => 16%nat end.
Proof. destruct a; apply be_split_length. Qed.

Ltac fields_fit :=
  repeat (constructor; [rewrite ?le_length, ?to_be16_length, ?length_replicate, ?length_app, ?length_replicate,
                          ?octets_length; reflexivity || (cbn; lia)|]); constructor.

Lemma attr_fits q :
  length (a_laddr q) = 16%nat -> length (a_faddr q) = 16%nat -> length (a_comm q) = 24%nat ->
  length (a_path q) = 1024%nat ->
  fits attr_fields
    [le 4 (a_version q); le 1 (a_af q); le 1 (a_proto q); to_be16 (a_lport q); to_be16 (a_fport q);
     replicate 2 0; a_laddr q; a_faddr q; le 1 (a_found q); replicate 3 0; le 4 (of_i32 (a_pid q));
     le 4 (a_uid q); replicate 4 0; a_comm q; a_path q].
Proof.
  intros H1 H2 H3 H4. unfold fits, attr_fields.
  repeat (constructor; [rewrite ?le_length, ?to_be16_length, ?length_replicate; done|]). constructor.
Qed.

Lemma field_attr q i v :
  length (a_laddr q) = 16%nat -> length (a_faddr q) = 16%nat -> length (a_comm q) = 24%nat ->
  length (a_path q) = 1024%nat ->
  [le 4 (a_version q); le 1 (a_af q); le 1 (a_proto q); to_be16 (a_lport q); to_be16 (a_fport q);
     replicate 2 0; a_laddr q; a_faddr q; le 1 (a_found q); replicate 3 0; le 4 (of_i32 (a_pid q));
     le 4 (a_uid q); replicate 4 0; a_comm q; a_path q] !! i = Some v ->
  field attr_fields i (attr_bytes q) = v.
Proof. intros. apply field_encode; [apply attr_sane|by apply attr_fits|done]. Qed.

Lemma query_request_inv t q :
  query_request t = Some q ->
  (t_proto t = 6 \/ t_proto t = 17)
  /\ a_version q = 1 /\ a_proto q = t_proto t /\ a_lport q = t_sport t /\ a_fport q = t_dport t
  /\ length (a_laddr q) = 16%nat /\ length (a_faddr q) = 16%nat /\ length (a_comm q) = 24%nat
  /\ length (a_path q) = 1024%nat
  /\ ((exists s d, t_src t = V4 s /\ t_dst t = V4 d /\ a_af q = 4
         /\ take 4 (a_laddr q) = octets (V4 s) /\ take 4 (a_faddr q) = octets (V4 d))
      \/ (exists s d, t_src t = V6 s /\ t_dst t = V6 d /\ a_af q = 6
         /\ a_laddr q = octets (V6 s) /\ a_faddr q = octets (V6 d))).
Proof.
  unfold query_request. destruct (negb (t_proto t =? 6) && negb (t_proto t =? 17)) eqn:Ep; [done|].
  assert (t_proto t = 6 \/ t_proto t = 17).
  { apply andb_false_iff in Ep as [Ep|Ep]; apply negb_false_iff, Z.eqb_eq in Ep; auto. }
  destruct (t_src t) as [s|s], (t_dst t) as [d|d]; try done; intros [= <-];
    cbn [a_version a_proto a_lport a_fport a_laddr a_faddr a_comm a_path a_af];
    rewrite ?length_app, ?length_replicate, ?octets_length.
  - split_and!; try done. left. exists s, d. split_and!; try done;
      rewrite <- (octets_length (V4 s)) at 1 || rewrite <- (octets_length (V4 d)) at 1; apply take_app_length.
  - split_and!; try done. right. by exists s, d.
Qed.

(** Asking the kernel: only an outbound TCP or UDP flow between addresses of one
    family is asked about, and the request the module receives has, at the offsets of its
    header, the protocol version, the family, the protocol, both ports in network order
    and both addresses; an answer that says "found" becomes an attribution of kernel
    confidence with the process, the name and the path the module wrote (a marked
    placeholder for an empty path), a miss becomes none, and an error becomes none and
    marks the device dead exactly when the descriptor cannot come back. *)
Theorem query_correct `{Device} k t :
  match query_request t with
  | None => query k t = (k, None)
  | Some q =>
      let b := attr_bytes q in
      (t_proto t = 6 \/ t_proto t = 17) /\ length b = 1108%nat
      /\ field attr_fields 0 b = le 4 1 /\ field attr_fields 2 b = le 1 (t_proto t)
      /\ field attr_fields 3 b = to_be16 (t_sport t) /\ field attr_fields 4 b = to_be16 (t_dport t)
      /\ ((exists s d, t_src t = V4 s /\ t_dst t = V4 d /\ field attr_fields 1 b = le 1 4
             /\ take 4 (field attr_fields 6 b) = octets (V4 s) /\ take 4 (field attr_fields 7 b) = octets (V4 d))
          \/ (exists s d, t_src t = V6 s /\ t_dst t = V6 d /\ field attr_fields 1 b = le 1 6
             /\ field attr_fields 6 b = octets (V6 s) /\ field attr_fields 7 b = octets (V6 d)))
      /\ (forall e, ioctl attr_query_cmd b = inl e -> query k t = (note_errno k e, None))
      /\ (forall a, ioctl attr_query_cmd b = inr (attr_bytes a) ->
            length (a_laddr a) = 16%nat -> length (a_faddr a) = 16%nat -> length (a_comm a) = 24%nat ->
            length (a_path a) = 1024%nat -> i32_ok (a_pid a) -> byte_ok (a_found a) ->
            query k t = (k, if a_found a =? 0 then None
                            else Some (mk_attr (mk_owner (a_pid a) (cstr (a_comm a))
                                   (match cstr (a_path a) with [] => unknown_path (cstr (a_comm a)) | s => s end))
                                   Kernel)))
  end.
Proof.
  destruct (query_request t) as [q|] eqn:E; [|unfold query; by rewrite E].
  destruct (query_request_inv t q E) as (Hp & Hv & Hpr & Hl & Hf & L1 & L2 & L3 & L4 & Hfam). cbv zeta.
  pose proof (fun i v => field_attr q i v L1 L2 L3 L4) as Hfield.
  rewrite (Hfield 0%nat _ eq_refl), (Hfield 2%nat _ eq_refl), (Hfield 3%nat _ eq_refl), (Hfield 4%nat _ eq_refl),
    (Hfield 1%nat _ eq_refl), (Hfield 6%nat _ eq_refl), (Hfield 7%nat _ eq_refl).
  rewrite Hv, Hpr, Hl, Hf. split; [done|]. split.
  { unfold attr_bytes. rewrite encode_length; [reflexivity|apply attr_sane|by apply attr_fits]. }
  do 4 (split; [done|]). split.
  { destruct Hfam as [(s & d & ? & ? & -> & ? & ?)|(s & d & ? & ? & -> & ? & ?)]; [left|right]; by exists s, d. }
  split; [intros e He; unfold query; by rewrite E, He|].
  intros a Ha M1 M2 M3 M4 Hpid Hfound. unfold query. rewrite E, Ha. f_equal. unfold query_answer.
  pose proof (fun i v => field_attr a i v M1 M2 M3 M4) as Hfa.
  rewrite (Hfa 8%nat _ eq_refl), (Hfa 10%nat _ eq_refl), (Hfa 13%nat _ eq_refl), (Hfa 14%nat _ eq_refl).
  rewrite of_le_le by exact Hfound. unfold PFSNITCH_MISS. destruct (a_found a =? 0); [done|].
  rewrite of_le_le by (cbn; apply Z.mod_pos_bound; lia). by rewrite to_of_i32.
Qed.

(** A C string written in a buffer that has room for its terminator is read back whole. *)
Lemma until_nul_buffer n b : lacks 0 b -> (length b < n)%nat -> until_nul (buffer n b) = b.
Proof.
  intros Hb Hn. unfold until_nul, buffer. destruct (n - length b)%nat as [|m] eqn:E; [lia|].
  cbn [replicate]. rewrite break_on_app; [done| |done]. by apply lacks_is_char.
Qed.

(** Handing verdicts to the kernel.  A verdict is pushed only while the device lives,
    for TCP or UDP, and for a binary whose path fits with its terminator (a longer one is
    skipped, never cut to another binary's); the module then finds, at the offsets of its
    header, the version, the family, the protocol, the destination port in network order,
    the destination address, allow as 1 and deny as 2, and the path, terminated and whole.
    An answer to an event carries the event's id and the verdict the same way. *)
Theorem push_correct k proto dst dport path allow id :
  match push_request k proto dst dport path allow with
  | None => dead k = true \/ (proto <> 6 /\ proto <> 17) \/ path = [] \/ (1024 <= length (utf8 path))%nat
  | Some b =>
      dead k = false /\ (proto = 6 \/ proto = 17) /\ (length (utf8 path) < 1024)%nat
      /\ length b = 1052%nat
      /\ field verdict_fields 0 b = le 4 1
      /\ field verdict_fields 1 b = le 1 (match dst with V4 _ => 4 | V6 _ => 6 end)
      /\ field verdict_fields 2 b = le 1 proto
      /\ field verdict_fields 3 b = to_be16 dport
      /\ take (length (octets dst)) (field verdict_fields 4 b) = octets dst
      /\ field verdict_fields 5 b = le 1 (if allow then 1 else 2)
      /\ (lacks 0 (utf8 path) -> until_nul (field verdict_fields 7 b) = utf8 path)
  end
  /\ length (resolve_request id allow) = 16%nat
  /\ field resolve_fields 0 (resolve_request id allow) = le 4 1
  /\ field resolve_fields 1 (resolve_request id allow) = le 1 (if allow then 1 else 2)
  /\ field resolve_fields 3 (resolve_request id allow) = le 8 id.
Proof.
  split.
  - unfold push_request. destruct (dead k); [by left|]. cbn [orb].
    destruct (negb (proto =? 6) && negb (proto =? 17)) eqn:Ep.
    { apply andb_true_iff in Ep as [E1 E2]. bool_to_prop. auto. }
    assert (Hp : proto = 6 \/ proto = 17).
    { apply andb_false_iff in Ep as [Ep|Ep]; apply negb_false_iff, Z.eqb_eq in Ep; auto. }
    destruct (bool_decide (utf8 path = [])) eqn:Eb; cbn [orb].
    { right; right; left. apply bool_decide_eq_true in Eb. destruct path as [|c s]; [done|].
      change (utf8 (c :: s)) with (utf8_char c ++ utf8 s) in Eb. apply app_eq_nil in Eb as [Eb _].
      unfold utf8_char in Eb. by repeat case_match. }
    destruct (Nat.leb_spec 1024 (length (utf8 path))) as [Hl|Hl]; [auto|].
    set (af := match dst with V4 _ => 4 | V6 _ => 6 end).
    set (addr := match dst with V4 _ => octets dst ++ replicate 12 0 | V6 _ => octets dst end).
    replace (match dst with V4 _ => (4, octets dst ++ replicate 12 0) | V6 _ => (6, octets dst) end)
      with (af, addr) by (by destruct dst).
    assert (Haddr : length addr = 16%nat)
      by (unfold addr; destruct dst; rewrite ?length_app, ?length_replicate; apply octets_length || by rewrite octets_length).
    assert (Htake : take (length (octets dst)) addr = octets dst).
    { unfold addr. destruct dst; [apply take_app_length|]. by rewrite firstn_all. }
    cbn zeta. unfold verdict_bytes.
    cbn [v_version v_af v_proto v_fport v_faddr v_verdict v_path].
    match goal with |- context [encode verdict_fields ?vs] => set (vals := vs) end.
    assert (Hfit : fits verdict_fields vals).
    { unfold fits, verdict_fields, vals.
      repeat (constructor; [rewrite ?le_length, ?to_be16_length, ?length_replicate, ?buffer_length by lia; done|]).
      constructor. }
    pose proof (fun i v => field_encode verdict_fields vals i v verdict_sane Hfit) as Hfield.
    rewrite (Hfield 0%nat _ eq_refl), (Hfield 1%nat _ eq_refl), (Hfield 2%nat _ eq_refl), (Hfield 3%nat _ eq_refl),
      (Hfield 4%nat _ eq_refl), (Hfield 5%nat _ eq_refl), (Hfield 7%nat _ eq_refl).
    rewrite encode_length by (apply verdict_sane || done).
    split_and!; try done; try (by destruct allow). intros H0. by apply until_nul_buffer.
  - unfold resolve_request, resolve_bytes. cbn [r_version r_verdict r_id].
    match goal with |- context [encode resolve_fields ?vs] => set (vals := vs) end.
    assert (Hfit : fits resolve_fields vals).
    { unfold fits, resolve_fields, vals. repeat (constructor; [rewrite ?le_length, ?length_replicate; done|]). constructor. }
    pose proof (fun i v => field_encode resolve_fields vals i v resolve_sane Hfit) as Hfield.
    rewrite (Hfield 0%nat _ eq_refl), (Hfield 1%nat _ eq_refl), (Hfield 3%nat _ eq_refl).
    rewrite encode_length by (apply resolve_sane || done). split_and!; try done.
Qed.

(** The bytes the module writes for an event. *)
Definition event_bytes (id af proto fport : Z) (faddr : list Z) (nonblock p uid : Z) (path : list Z) : list Z :=
  encode event_fields
    [le 8 id; le 1 af; le 1 proto; to_be16 fport; faddr; le 1 nonblock; replicate 3 0; le 4 (of_i32 p);
     le 4 uid; path].

(** An event the module writes is the event the daemon reads. *)
Lemma read_event_bytes :
  forall id proto fport dst nonblock p uid path pad,
     0 <= id < 2 ^ 64 -> byte_ok proto -> 0 <= fport < 65536 -> ip_ok dst -> byte_ok nonblock ->
     i32_ok p -> 0 <= uid < 2 ^ 32 -> lacks 0 path -> (length path < 1024)%nat ->
     length pad = match dst with V4 _ => 12%nat | V6 _ => 0%nat end ->
     read_event (inr (event_bytes id (match dst with V4 _ => 4 | V6 _ => 6 end) proto fport
                        (octets dst ++ pad) nonblock p uid (buffer 1024 path)))
     = Event (mk_event id proto dst fport (negb (nonblock =? 0)) p uid (utf8_lossy path)).
Proof.
  intros id proto fport dst nonblock p uid path pad Hid Hpr Hfp Hdst Hnb Hp Huid Hpath Hlen Hpad.
  set (af := match dst with V4 _ => 4 | V6 _ => 6 end).
  unfold event_bytes. match goal with |- context [encode event_fields ?vs] => set (vals := vs) end.
  assert (Haddr : length (octets dst ++ pad) = 16%nat)
    by (rewrite length_app, Hpad, octets_length; by destruct dst).
  assert (Hfit : fits event_fields vals).
  { unfold fits, event_fields, vals.
    repeat (constructor; [rewrite ?le_length, ?to_be16_length, ?length_replicate, ?buffer_length by lia; done|]).
    constructor. }
  pose proof (fun i v => field_encode event_fields vals i v event_sane Hfit) as Hfield.
  pose proof (encode_length event_fields vals event_sane Hfit) as Hbl.
  unfold read_event. destruct (encode event_fields vals) as [|b0 bs] eqn:Eb; [done|].
  rewrite (bool_decide_eq_true_2 _ Hbl). cbn [negb].
  rewrite (Hfield 0%nat _ eq_refl), (Hfield 1%nat _ eq_refl), (Hfield 2%nat _ eq_refl), (Hfield 3%nat _ eq_refl),
    (Hfield 4%nat _ eq_refl), (Hfield 5%nat _ eq_refl), (Hfield 7%nat _ eq_refl), (Hfield 8%nat _ eq_refl),
    (Hfield 9%nat _ eq_refl).
  assert (Haf : 0 <= af < 2 ^ (8 * Z.of_nat 1)) by (unfold af; destruct dst; cbn; lia).
  rewrite (of_le_le 1 af Haf), (of_le_le 8 id), (of_le_le 1 proto), (of_le_le 1 nonblock), (of_le_le 4 uid),
    (of_le_le 4 (of_i32 p)) by (done || (cbn; apply Z.mod_pos_bound; lia)).
  rewrite to_of_i32 by done. unfold cstr. rewrite until_nul_buffer by done.
  unfold to_be16. rewrite (be_join_split 8 2 fport) by (done || lia).
  destruct dst as [d|d]; cbn [af].
  + change 4%nat with (length (octets (V4 d))). rewrite take_app_length. unfold v4_of, octets.
    by rewrite (be_join_split 8 4 d) by (done || lia).
  + destruct pad; [|done]. rewrite app_nil_r. unfold v6_of, octets.
    by rewrite (be_join_split 8 16 d) by (done || lia).
Qed.

(** Reading upcalls: an event written by the module (its header's layout, family 4 or
    6, port in network order, a terminated path) is read as the destination, the process
    and the path it names; end of file, a failed or short read and an unknown family are
    told apart and never produce an event. *)
Theorem read_event_correct :
  (forall id proto fport dst nonblock p uid path pad,
     0 <= id < 2 ^ 64 -> byte_ok proto -> 0 <= fport < 65536 -> ip_ok dst -> byte_ok nonblock ->
     i32_ok p -> 0 <= uid < 2 ^ 32 -> lacks 0 path -> (length path < 1024)%nat ->
     length pad = match dst with V4 _ => 12%nat | V6 _ => 0%nat end ->
     read_event (inr (event_bytes id (match dst with V4 _ => 4 | V6 _ => 6 end) proto fport
                        (octets dst ++ pad) nonblock p uid (buffer 1024 path)))
     = Event (mk_event id proto dst fport (negb (nonblock =? 0)) p uid (utf8_lossy path)))
  /\ read_event (inr []) = Eof
  /\ (forall u, read_event (inl u) = ReadErr)
  /\ (forall b, b <> [] -> length b <> 1064%nat -> read_event (inr b) = ReadErr)
  /\ (forall b, b <> [] -> of_le (field event_fields 1 b) <> 4 -> of_le (field event_fields 1 b) <> 6 ->
        read_event (inr b) = ReadErr).
Proof.
  split_and!; try done.
  - exact read_event_bytes.
  - intros b Hb Hl. unfold read_event. destruct b as [|x b]; [done|]. by rewrite bool_decide_eq_false_2.
  - intros b Hb H4 H6. unfold read_event. destruct b as [|x b]; [done|]. cbv zeta.
    destruct (negb _); [done|]. set (n := of_le _) in *. clearbody n.
    destruct n as [|n|n]; try done. do 3 (destruct n as [n|n|]; try done).
Qed.
