(* ===== verification/Handles.v ===== *)
(** Descriptors: the divert socket (divert.rs, [Divert]) and the two handles on the module's
    device (kernattr.rs, [KernAttr::open] and [KernReader]), as code over system calls.

    The kernel is the class [Os]: what each call returns, and the value it leaves in errno,
    may depend on everything that was called before.  The state a program threads is the
    history of its calls and errno; which descriptors are open is read off the history. *)
From S2P Require Import Prelude Unicode RustStr IpAddr Procinfo Abi KernAttr.

(** ** System calls *)

Inductive call : Type :=
| Socket (domain type protocol : Z)
| Fcntl (fd cmd arg : Z)
| Bind (fd : Z) (addr : list Z)
| Setsockopt (fd level name : Z) (value : list Z)
| Recvfrom (fd : Z) (len : nat) (flags : Z)
| Sendto (fd : Z) (msg : list Z) (flags : Z) (to : list Z)
| Open (path : list Z) (flags : Z)
| ReadFd (fd : Z) (len : nat)
| Close (fd : Z).

#[export] Instance call_eq_dec : EqDecision call.
Proof. solve_decision. Defined.

(** What a call answers: its return value, what errno holds afterwards (only a failed call
    gives it a meaning), and the bytes it wrote to the buffers it was given. *)
Record reply : Type := mk_reply { ret : Z; errno_after : Z; data : list Z; peer : list Z }.

Abbreviation history := (list (call * Z)).
Class Os : Type := answer : history -> call -> reply.

Record Sys : Type := mk_sys { hist : history; errno : Z }.

(** The state monad of code that makes system calls. *)
Definition sysm (A : Type) : Type := Sys -> A * Sys.
#[export] Instance sysm_ret : MRet sysm := fun A a s => (a, s).
#[export] Instance sysm_bind : MBind sysm := fun A B f m s => let '(a, s') := m s in f a s'.

Definition syscall `{Os} (c : call) : sysm reply :=
  fun s => let r := answer (hist s) c in (r, mk_sys (hist s ++ [(c, ret r)]) (errno_after r)).

(** [io::Error::last_os_error()] *)
Definition last_os_error : sysm Z := fun s => (errno s, s).

(** [io::Result<A>], an error being its errno. *)
Abbreviation io_result := (sum Z).

(** ** Which descriptors are open *)

(** The descriptor a call is made on. *)
Definition call_fd (c : call) : option Z :=
  match c with
  | Socket _ _ _ | Open _ _ => None
  | Fcntl fd _ _ | Bind fd _ | Setsockopt fd _ _ _ | Recvfrom fd _ _ | Sendto fd _ _ _ | ReadFd fd _
  | Close fd => Some fd
  end.

Definition held_step (fds : gset Z) (c : call * Z) : gset Z :=
  match c.1 with
  | Socket _ _ _ | Open _ _ => if c.2 <? 0 then fds else {[c.2]} ∪ fds
  | Close fd => fds ∖ {[fd]}
  | _ => fds
  end.
Definition held (h : history) : gset Z := foldl held_step ∅ h.

(** Every call was made on a descriptor that was open then: nothing is used after it was
    closed, and nothing is closed twice. *)
Fixpoint well_used_from (fds : gset Z) (h : history) : bool :=
  match h with
  | [] => true
  | c :: h' => match call_fd c.1 with Some fd => bool_decide (fd ∈ fds) | None => true end
               && well_used_from (held_step fds c) h'
  end.
Definition well_used (h : history) : bool := well_used_from ∅ h.

(** POSIX: a new descriptor is not one the process has open. *)
Definition os_fresh `{Os} : Prop :=
  forall h c, (exists d t p, c = Socket d t p) \/ (exists p f, c = Open p f) ->
              0 <= ret (answer h c) -> ret (answer h c) ∉ held h.

Lemma held_app h1 h2 : held (h1 ++ h2) = foldl held_step (held h1) h2.
Proof. apply foldl_app. Qed.

Lemma well_used_from_app h1 : forall fds h2,
  well_used_from fds (h1 ++ h2) = well_used_from fds h1 && well_used_from (foldl held_step fds h1) h2.
Proof. induction h1 as [|c h1 IH]; intros fds h2; cbn; [done|]. by rewrite IH, andb_assoc. Qed.

Lemma well_used_app h1 h2 : well_used (h1 ++ h2) = well_used h1 && well_used_from (held h1) h2.
Proof. apply well_used_from_app. Qed.

(** ** [struct sockaddr_in] and [struct timeval] (FreeBSD) *)

Record sockaddr_in : Type := mk_sockaddr { sin_len : Z; sin_family : Z; sin_port : Z; sin_addr : Z }.
(** [sin_len], [sin_family], [sin_port] (network order), [sin_addr], [sin_zero]. *)
Definition sockaddr_fields : list ctype := [CInt 1; CInt 1; CInt 2; CInt 4; CArr 8 (CInt 1)].
Definition sockaddr_bytes (a : sockaddr_in) : list Z :=
  encode sockaddr_fields
    [le 1 (sin_len a); le 1 (sin_family a); to_be16 (sin_port a); le 4 (sin_addr a); replicate 8 0].
Definition sockaddr_size : nat := csize (CStruct sockaddr_fields).

(** [s_addr] as the program reads it, a 32-bit load. *)
Definition s_addr (from : list Z) : Z := of_le (field sockaddr_fields 3 from).

(** [time_t] and [suseconds_t] are 64 bits. *)
Definition tv_fields : list ctype := [CInt 8; CInt 8].
Definition tv_bytes (sec usec : Z) : list Z := encode tv_fields [le 8 sec; le 8 usec].

(** ** The divert socket *)

Definition PF_DIVERT : Z := 44.
Definition SOCK_RAW : Z := 3.
Definition SOCK_CLOEXEC : Z := 268435456.   (* 0x1000_0000 *)
Definition F_SETFD : Z := 2.
Definition FD_CLOEXEC : Z := 1.
Definition INADDR_ANY : Z := 0.
Definition SOL_SOCKET : Z := 65535.         (* 0xffff *)
Definition SO_RCVTIMEO : Z := 4102.         (* 0x1006 *)
Definition O_RDWR : Z := 2.
Definition O_CLOEXEC : Z := 1048576.        (* 0x0010_0000 *)

Record Divert : Type := mk_divert { d_fd : Z }.

Section calls.
Context `{Os}.

(** [return Err(io::Error::last_os_error())] when a call failed. *)
Definition or_errno {A} (r : reply) (k : sysm (io_result A)) : sysm (io_result A) :=
  if ret r <? 0 then e ← last_os_error; mret (inl e) else k.

(** The same, closing the descriptor after errno was read. *)
Definition or_close {A} (fd : Z) (r : reply) (k : sysm (io_result A)) : sysm (io_result A) :=
  if ret r <? 0 then e ← last_os_error; syscall (Close fd) ;; mret (inl e) else k.

(** [Divert::bind] *)
Definition divert_bind (port : Z) : sysm (io_result Divert) :=
  r ← syscall (Socket PF_DIVERT (Z.lor SOCK_RAW SOCK_CLOEXEC) 0);
  or_errno r (
    let fd := ret r in
    r ← syscall (Fcntl fd F_SETFD FD_CLOEXEC);
    or_close fd r (
      r ← syscall (Bind fd (sockaddr_bytes (mk_sockaddr 0 AF_INET port INADDR_ANY)));
      or_close fd r (mret (inr (mk_divert fd))))).

(** [set_read_timeout] *)
Definition set_read_timeout (d : Divert) (ms : Z) : sysm (io_result unit) :=
  r ← syscall (Setsockopt (d_fd d) SOL_SOCKET SO_RCVTIMEO (tv_bytes (ms / 1000) (ms mod 1000 * 1000)));
  or_errno r (mret (inr tt)).

(** [recv]: the buffer as it is afterwards comes with the result; the address was zeroed
    before the call. *)
Definition recv (d : Divert) (buf : list Z) : sysm (io_result (nat * list Z) * list Z) :=
  r ← syscall (Recvfrom (d_fd d) (length buf) 0);
  let buf' := take (length buf) (data r) ++ drop (length (data r)) buf in
  v ← or_errno r (mret (inr (Z.to_nat (ret r), buffer sockaddr_size (take sockaddr_size (peer r)))));
  mret (v, buf').

(** [reinject] *)
Definition reinject (d : Divert) (pkt to : list Z) : sysm (io_result unit) :=
  r ← syscall (Sendto (d_fd d) pkt 0 to);
  or_errno r (mret (inr tt)).

(** [reinject_inbound]: 127.0.0.1, a direction flag. *)
Definition inbound_addr : list Z :=
  sockaddr_bytes (mk_sockaddr (Z.of_nat sockaddr_size) AF_INET 0 (of_le [127; 0; 0; 1])).
Definition reinject_inbound (d : Divert) (pkt : list Z) : sysm (io_result unit) := reinject d pkt inbound_addr.

(** [Drop for Divert], [KernAttr], [KernReader] *)
Definition drop_fd (fd : Z) : sysm unit := syscall (Close fd) ;; mret tt.

(** ** The device *)

(** The constant carries its terminator; [open] reads the path up to it. *)
Definition PFSNITCH_DEV : str := ($"/dev/pfsnitch") ++ [0].

(** [KernAttr::open]; the descriptor, and the handle's flag. *)
Definition kern_open : sysm (io_result (Z * KernAttr)) :=
  r ← syscall (Open (until_nul (utf8 PFSNITCH_DEV)) (Z.lor O_RDWR O_CLOEXEC));
  or_errno r (mret (inr (ret r, mk_kern false))).

Record KernReader : Type := mk_reader { rd_fd : Z }.

(** [KernReader::open] *)
Definition reader_open : sysm (io_result KernReader) :=
  r ← syscall (Open (until_nul (utf8 PFSNITCH_DEV)) (Z.lor O_RDWR O_CLOEXEC));
  or_errno r (mret (inr (mk_reader (ret r)))).

(** [KernReader::read_event], the call and what is made of its answer. *)
Definition event_size : nat := csize (CStruct event_fields).
Definition reader_read (rd : KernReader) : sysm read_result :=
  r ← syscall (ReadFd (rd_fd rd) event_size);
  mret (read_event (if ret r <? 0 then inl tt else inr (take (Z.to_nat (ret r)) (data r)))).
End calls.

(** ** What the address is made of *)

(** The address [bind] is given: the port in network order, every interface. *)
Lemma bind_addr_bytes port :
  sockaddr_bytes (mk_sockaddr 0 AF_INET port INADDR_ANY) = 0 :: 2 :: (to_be16 port ++ replicate 12 0).
Proof. reflexivity. Qed.

Lemma sockaddr_sane : Forall (fun t => sane t = true) sockaddr_fields.
Proof. by repeat constructor. Qed.

(** ** Programs that leave the descriptors alone *)

Section frames.
Context `{Os}.

(** Run with [fd] open, [m] uses only open descriptors and opens and closes none. *)
Definition keeps {A} (fd : Z) (m : sysm A) : Prop :=
  forall s, fd ∈ held (hist s) -> well_used (hist s) = true ->
            held (hist (m s).2) = held (hist s) /\ well_used (hist (m s).2) = true.

Lemma keeps_ret {A} fd (a : A) : keeps fd (mret a).
Proof. by intros s. Qed.

Lemma keeps_errno fd : keeps fd last_os_error.
Proof. by intros s. Qed.

Lemma keeps_bind {A B} fd (m : sysm A) (f : A -> sysm B) :
  keeps fd m -> (forall a, keeps fd (f a)) -> keeps fd (m ≫= f).
Proof.
  intros Hm Hf s Hin Hw. unfold mbind, sysm_bind. destruct (Hm s Hin Hw) as [Hh Hw'].
  destruct (m s) as [a s1] eqn:E. cbn [snd] in *.
  destruct (Hf a s1 ltac:(by rewrite Hh) Hw') as [Hh2 Hw2]. by rewrite Hh2, Hh.
Qed.

Lemma keeps_syscall fd c :
  call_fd c = Some fd -> c <> Close fd -> keeps fd (syscall c).
Proof.
  intros Hc Hn s Hin Hw. cbn [syscall snd hist]. rewrite held_app, well_used_app, Hw. cbn [foldl well_used_from fst].
  rewrite Hc, bool_decide_eq_true_2 by done. split; [|done]. destruct c; try done. cbn in Hc. congruence.
Qed.

Lemma keeps_or_errno {A} fd r (k : sysm (io_result A)) : keeps fd k -> keeps fd (or_errno r k).
Proof.
  intros Hk. unfold or_errno. case_match; [|done]. apply keeps_bind; [apply keeps_errno|]. intros. apply keeps_ret.
Qed.

Lemma keeps_call_then {A} fd c (k : sysm (io_result A)) :
  call_fd c = Some fd -> c <> Close fd -> keeps fd k -> keeps fd (r ← syscall c; or_errno r k).
Proof. intros. apply keeps_bind; [by apply keeps_syscall|]. intros. by apply keeps_or_errno. Qed.

Lemma keeps_timeout d ms : keeps (d_fd d) (set_read_timeout d ms).
Proof. apply keeps_call_then; [done..|]. apply keeps_ret. Qed.
Lemma keeps_reinject d pkt to : keeps (d_fd d) (reinject d pkt to).
Proof. apply keeps_call_then; [done..|]. apply keeps_ret. Qed.
Lemma keeps_recv d buf : keeps (d_fd d) (recv d buf).
Proof.
  apply keeps_bind; [by apply keeps_syscall|]. intros. apply keeps_bind; [apply keeps_or_errno, keeps_ret|].
  intros. apply keeps_ret.
Qed.
Lemma keeps_read rd : keeps (rd_fd rd) (reader_read rd).
Proof. apply keeps_bind; [by apply keeps_syscall|]. intros. apply keeps_ret. Qed.

(** Dropping the handle gives its descriptor back. *)
Lemma drop_closes fd s :
  fd ∈ held (hist s) -> well_used (hist s) = true ->
  held (hist (drop_fd fd s).2) = held (hist s) ∖ {[fd]} /\ well_used (hist (drop_fd fd s).2) = true.
Proof.
  intros Hin Hw.
  change (hist (drop_fd fd s).2) with (hist s ++ [(Close fd, ret (answer (hist s) (Close fd)))]).
  rewrite held_app, well_used_app, Hw. cbn [foldl well_used_from call_fd fst].
  by rewrite bool_decide_eq_true_2.
Qed.

(** Closing what was just opened. *)
Lemma open_close (fds : gset Z) fd : fd ∉ fds -> ({[fd]} ∪ fds) ∖ {[fd]} = fds.
Proof. intros. set_solver. Qed.
End frames.

(** ** Opening and closing *)

Section lifetimes.
Context `{Os} (fresh : os_fresh).

(** A call that opens. *)
Lemma open_call c s :
  (exists d t p, c = Socket d t p) \/ (exists p f, c = Open p f) ->
  well_used (hist s) = true ->
  let fd := ret (answer (hist s) c) in
  well_used (hist (syscall c s).2) = true
  /\ held (hist (syscall c s).2) = (if fd <? 0 then held (hist s) else {[fd]} ∪ held (hist s))
  /\ (0 <= fd -> fd ∉ held (hist s)).
Proof using fresh.
  intros Hc Hw fd. cbn [syscall snd hist]. rewrite held_app, well_used_app, Hw. split_and!.
  - by destruct Hc as [(d & t & p & ->)|(p & f & ->)].
  - by destruct Hc as [(d & t & p & ->)|(p & f & ->)].
  - intros Hfd. by apply fresh.
Qed.
End lifetimes.

(** What [bind] does, call by call. *)
Section binding.
Context `{Os} (port : Z) (s : Sys).

Let c1 := Socket 44 (Z.lor 3 (2 ^ 28)) 0.
Let a1 := answer (hist s) c1.
Let h1 := hist s ++ [(c1, ret a1)].
Let c2 := Fcntl (ret a1) 2 1.
Let a2 := answer h1 c2.
Let h2 := h1 ++ [(c2, ret a2)].
Let c3 := Bind (ret a1) (0 :: 2 :: (to_be16 port ++ replicate 12 0)).
Let a3 := answer h2 c3.
Let h3 := h2 ++ [(c3, ret a3)].
Let closed (h : history) : Sys :=
  let a := answer h (Close (ret a1)) in mk_sys (h ++ [(Close (ret a1), ret a)]) (errno_after a).

Lemma divert_bind_eq :
  divert_bind port s
  = if ret a1 <? 0 then (inl (errno_after a1), mk_sys h1 (errno_after a1))
    else if ret a2 <? 0 then (inl (errno_after a2), closed h2)
    else if ret a3 <? 0 then (inl (errno_after a3), closed h3)
    else (inr (mk_divert (ret a1)), mk_sys h3 (errno_after a3)).
Proof.
  unfold divert_bind, or_errno, or_close, mbind, sysm_bind, syscall. cbn [hist].
  change (Socket PF_DIVERT (Z.lor SOCK_RAW SOCK_CLOEXEC) 0) with c1. fold a1. fold h1.
  case_match; [done|]. cbn zeta. change (Fcntl (ret a1) F_SETFD FD_CLOEXEC) with c2. cbn [hist]. fold a2 h2.
  case_match; [done|]. cbn [hist]. rewrite bind_addr_bytes. fold c3. fold a3. fold h3. by case_match.
Qed.
End binding.

(** Compute [held] and [well_used] on a history that grew. *)
Ltac on_history :=
  cbn [hist fst snd];
  repeat match goal with
  | |- context [held (_ ++ _)] => rewrite held_app
  | |- context [well_used (_ ++ _)] => rewrite well_used_app
  end;
  unfold held_step; cbn [foldl well_used_from call_fd fst snd].

(** What [bind] leaves, as far as descriptors go. *)
Lemma divert_bind_spec `{Os} port s :
  os_fresh -> well_used (hist s) = true ->
  let '(r, s') := divert_bind port s in
  well_used (hist s') = true
  /\ match r with
     | inl _ => held (hist s') = held (hist s)
     | inr d => (d_fd d ∉ held (hist s)) /\ held (hist s') = {[d_fd d]} ∪ held (hist s)
     end.
Proof.
  intros fresh Hw. rewrite divert_bind_eq. cbn zeta.
  set (c1 := Socket _ _ _). set (fd := ret (answer (hist s) c1)). set (h1 := hist s ++ _).
  set (a2 := answer h1 (Fcntl _ _ _)). set (h2 := h1 ++ _). set (a3 := answer h2 (Bind _ _)).
  assert (Hfd : 0 <= fd -> fd ∉ held (hist s)) by (intros; apply fresh; [left; by eexists _, _, _|done]).
  assert (Hh1 : held h1 = if fd <? 0 then held (hist s) else {[fd]} ∪ held (hist s)) by (unfold h1; by on_history).
  assert (Hw1 : well_used h1 = true) by (unfold h1; on_history; by rewrite Hw).
  destruct (Z.ltb_spec fd 0) as [Hneg|Hpos]; [done|]. specialize (Hfd Hpos).
  assert (Hin : fd ∈ held h1) by (rewrite Hh1; set_solver).
  assert (Hh2 : held h2 = held h1) by (unfold h2; by on_history).
  assert (Hw2 : well_used h2 = true)
    by (unfold h2; on_history; by rewrite Hw1, bool_decide_eq_true_2).
  destruct (ret a2 <? 0).
  { on_history. rewrite Hw2, Hh2, bool_decide_eq_true_2, Hh1 by done. split; [done|]. by apply open_close. }
  destruct (ret a3 <? 0); on_history; rewrite Hw2, Hh2, bool_decide_eq_true_2, Hh1 by done; [|done].
  split; [done|by apply open_close].
Qed.

(** C27. Binding the divert socket, whatever the kernel answers: the socket is asked for as
    PF_DIVERT, close-on-exec twice over, and bound to the port on every interface; the
    first call that fails ends it with the errno that call left (not the one a later close
    leaves) and with the descriptors the process had before - nothing leaks on any error
    path - and success yields the one new descriptor.  No call is made on a descriptor that
    is not open. *)
Theorem bind_error `{Os} port s :
  os_fresh -> well_used (hist s) = true ->
  let a1 := answer (hist s) (Socket 44 (Z.lor 3 (2 ^ 28)) 0) in
  let fd := ret a1 in
  let h1 := hist s ++ [(Socket 44 (Z.lor 3 (2 ^ 28)) 0, fd)] in
  let a2 := answer h1 (Fcntl fd 2 1) in
  let h2 := h1 ++ [(Fcntl fd 2 1, ret a2)] in
  let addr := 0 :: 2 :: (to_be16 port ++ replicate 12 0) in
  let a3 := answer h2 (Bind fd addr) in
  let '(r, s') := divert_bind port s in
  well_used (hist s') = true
  /\ (if (fd <? 0) || (ret a2 <? 0) || (ret a3 <? 0)
      then r = inl (errno_after (if fd <? 0 then a1 else if ret a2 <? 0 then a2 else a3))
           /\ held (hist s') = held (hist s)
      else r = inr (mk_divert fd) /\ (fd ∉ held (hist s)) /\ held (hist s') = {[fd]} ∪ held (hist s)
           /\ hist s' = h2 ++ [(Bind fd addr, ret a3)]).
Proof.
  intros fresh Hw a1 fd h1 a2 h2 addr a3. pose proof (divert_bind_spec port s fresh Hw) as Hs.
  rewrite divert_bind_eq in *. cbn zeta in *. fold a1 fd h1 a2 h2 addr a3 in Hs |- *.
  destruct (fd <? 0); cbn [orb]; [by destruct Hs|]. destruct (ret a2 <? 0); cbn [orb]; [by destruct Hs|].
  destruct (ret a3 <? 0); [by destruct Hs|]. by destruct Hs as (? & ? & ?).
Qed.

(** What bounds a receive: any timeout in milliseconds becomes the seconds and the
    microseconds that add up to it, the microseconds below a second and the seconds far
    inside a 64-bit [time_t]; the structure the kernel reads holds them. *)
Lemma split_ms ms : ms = 1000 * (ms / 1000) + ms mod 1000.
Proof. apply Z.div_mod. lia. Qed.

Lemma tv_sane : Forall (fun t => sane t = true) tv_fields.
Proof. by repeat constructor. Qed.

(** The receive timeout: any number of milliseconds a [u64] can hold becomes seconds
    and microseconds that add up to it exactly, with the microseconds below a second and
    the seconds inside a signed 64-bit [time_t], so neither cast wraps; the 16 bytes handed
    to SO_RCVTIMEO on the socket hold these two numbers, and a refusal is reported with its
    errno. *)
Theorem timeout_bounds `{Os} d ms s :
  0 <= ms < 2 ^ 64 ->
  let sec := ms / 1000 in
  let usec := ms mod 1000 * 1000 in
  0 <= sec < 2 ^ 63 /\ 0 <= usec < 1000000 /\ sec * 1000000 + usec = ms * 1000
  /\ exists v,
       let c := Setsockopt (d_fd d) 65535 4102 v in
       length v = 16%nat /\ of_le (field tv_fields 0 v) = sec /\ of_le (field tv_fields 1 v) = usec
       /\ set_read_timeout d ms s
          = ((if ret (answer (hist s) c) <? 0 then inl (errno_after (answer (hist s) c)) else inr tt),
             mk_sys (hist s ++ [(c, ret (answer (hist s) c))]) (errno_after (answer (hist s) c))).
Proof.
  intros Hms sec usec. pose proof (Z.mod_pos_bound ms 1000 ltac:(lia)). pose proof (split_ms ms).
  assert (0 <= sec < 2 ^ 63) by (subst sec; split; [apply Z.div_pos; lia|apply Z.div_lt_upper_bound; lia]).
  split; [done|]. split; [lia|]. split; [lia|]. exists (tv_bytes sec usec). cbv zeta.
  assert (Hfit : fits tv_fields [le 8 sec; le 8 usec])
    by (unfold fits; repeat (constructor; [by rewrite le_length|]); constructor).
  unfold tv_bytes. rewrite (field_encode tv_fields _ 0 (le 8 sec) tv_sane Hfit eq_refl),
    (field_encode tv_fields _ 1 (le 8 usec) tv_sane Hfit eq_refl).
  rewrite !of_le_le by lia. split; [exact (encode_length _ _ tv_sane Hfit)|].
  split; [done|]. split; [done|].
  unfold set_read_timeout, or_errno, mbind, sysm_bind, syscall. fold sec usec.
  by destruct (ret _ <? 0).
Qed.

(** ** The life of a handle *)

(** What can be asked of a divert socket. *)
Inductive divert_op : Type :=
| OpTimeout (ms : Z)
| OpRecv (buf : list Z)
| OpReinject (pkt to : list Z)
| OpInbound (pkt : list Z).

Section life.
Context `{Os}.

Definition divert_do (d : Divert) (o : divert_op) : sysm unit :=
  match o with
  | OpTimeout ms => set_read_timeout d ms ;; mret tt
  | OpRecv buf => recv d buf ;; mret tt
  | OpReinject pkt to => reinject d pkt to ;; mret tt
  | OpInbound pkt => reinject_inbound d pkt ;; mret tt
  end.

Definition repeat_on {A} (f : A -> sysm unit) : list A -> sysm unit :=
  fix go os := match os with [] => mret tt | o :: os' => f o ;; go os' end.

(** Open a handle, use it, drop it. *)
Definition scoped_handle {D A} (open : sysm (io_result D)) (fd : D -> Z) (f : D -> A -> sysm unit) (os : list A)
  : sysm (io_result unit) :=
  r ← open;
  match r with
  | inl e => mret (inl e)
  | inr d => repeat_on (f d) os ;; drop_fd (fd d) ;; mret (inr tt)
  end.

Lemma keeps_repeat {A} fd (f : A -> sysm unit) os : (forall o, keeps fd (f o)) -> keeps fd (repeat_on f os).
Proof.
  intros Hf. induction os as [|o os IH]; cbn [repeat_on]; [apply keeps_ret|]. apply keeps_bind; [done|].
  intros _. apply IH.
Qed.

Lemma keeps_do d o : keeps (d_fd d) (divert_do d o).
Proof.
  destruct o; (apply keeps_bind; [apply keeps_timeout || apply keeps_recv || apply keeps_reinject|]);
    intros; apply keeps_ret.
Qed.

(** A handle whose opening either adds its descriptor or nothing, and whose operations keep
    to it, leaves the descriptors as they were. *)
Lemma scoped_handle_balanced {D A} (open : sysm (io_result D)) fd (f : D -> A -> sysm unit) os s :
  (forall d o, keeps (fd d) (f d o)) ->
  (let '(r, s') := open s in
   well_used (hist s') = true
   /\ match r with
      | inl _ => held (hist s') = held (hist s)
      | inr d => (fd d ∉ held (hist s)) /\ held (hist s') = {[fd d]} ∪ held (hist s)
      end) ->
  let s' := (scoped_handle open fd f os s).2 in
  held (hist s') = held (hist s) /\ well_used (hist s') = true.
Proof.
  intros Hf Hopen. cbv zeta. unfold scoped_handle, mbind, sysm_bind. destruct (open s) as [[e|d] s1]; cbn [fst snd].
  { destruct Hopen as [Hw Hh]. done. }
  destruct Hopen as (Hw & Hn & Hh).
  assert (Hin : fd d ∈ held (hist s1)) by (rewrite Hh; set_solver).
  destruct (keeps_repeat (fd d) (f d) os (Hf d) s1 Hin Hw) as [Hh2 Hw2].
  destruct (repeat_on (f d) os s1) as [[] s2]. cbn [snd] in *.
  destruct (drop_closes (fd d) s2 ltac:(by rewrite Hh2) Hw2) as [Hh3 Hw3].
  destruct (drop_fd (fd d) s2) as [[] s3]. cbn [snd mret sysm_ret] in *.
  rewrite Hh3, Hh2, Hh. split; [by apply open_close|done].
Qed.

(** Opening the device, by either handle. *)
Lemma device_open_spec s :
  os_fresh -> well_used (hist s) = true ->
  (let '(r, s') := kern_open s in
   well_used (hist s') = true
   /\ match r with
      | inl _ => held (hist s') = held (hist s)
      | inr (fd, k) => (fd ∉ held (hist s)) /\ held (hist s') = {[fd]} ∪ held (hist s) /\ dead k = false
      end)
  /\ (let '(r, s') := reader_open s in
      well_used (hist s') = true
      /\ match r with
         | inl _ => held (hist s') = held (hist s)
         | inr rd => (rd_fd rd ∉ held (hist s)) /\ held (hist s') = {[rd_fd rd]} ∪ held (hist s)
         end).
Proof.
  intros fresh Hw. set (c := Open (until_nul (utf8 PFSNITCH_DEV)) (Z.lor O_RDWR O_CLOEXEC)).
  destruct (open_call fresh c s ltac:(right; by eexists _, _) Hw) as (Hw1 & Hh1 & Hfd).
  unfold kern_open, reader_open, or_errno, mbind, sysm_bind. fold c.
  destruct (syscall c s) as [r s1] eqn:E.
  assert (r = answer (hist s) c) as -> by (by injection E). cbn [snd] in *.
  destruct (Z.ltb_spec (ret (answer (hist s) c)) 0); cbn; [done|]. specialize (Hfd ltac:(lia)). by split_and!.
Qed.
End life.

(** The thread that reads upcalls: events are sent on until a read is end of file or an
    error, and the reader is dropped. *)
Inductive reader_loop `{Os} (rd : KernReader) : Sys -> list KernEvent -> Sys -> Prop :=
| loop_event s e s1 es s2 :
    reader_read rd s = (Event e, s1) -> reader_loop rd s1 es s2 -> reader_loop rd s (e :: es) s2
| loop_stop s r s1 :
    reader_read rd s = (r, s1) -> (forall e, r <> Event e) ->
    reader_loop rd s [] (drop_fd (rd_fd rd) s1).2.

Lemma reader_loop_balanced `{Os} rd s es s' :
  reader_loop rd s es s' -> rd_fd rd ∈ held (hist s) -> well_used (hist s) = true ->
  held (hist s') = held (hist s) ∖ {[rd_fd rd]} /\ well_used (hist s') = true.
Proof.
  induction 1 as [s e s1 es s2 Hr _ IH|s r s1 Hr _]; intros Hin Hw;
    destruct (keeps_read rd s Hin Hw) as [Hh Hw1]; rewrite Hr in Hh, Hw1; cbn [snd] in *.
  - rewrite <- Hh. apply IH; [by rewrite Hh|done].
  - rewrite <- Hh. apply drop_closes; [by rewrite Hh|done].
Qed.

(** The life of a handle: whatever is done through it - timeouts, receives, sends, in
    any order and however often they fail - a divert socket opened, used and dropped leaves
    the process with the descriptors it had, every call in between was made on an open
    descriptor, and so is the one close; the same holds of the two handles on the module's
    device and of the thread that reads upcalls until the module ends it. *)
Theorem handles_balanced `{Os} s :
  os_fresh -> well_used (hist s) = true ->
  let balanced (s' : Sys) := held (hist s') = held (hist s) /\ well_used (hist s') = true in
  (forall port ops, balanced (scoped_handle (divert_bind port) d_fd divert_do ops s).2)
  /\ balanced (scoped_handle kern_open fst (fun _ (_ : unit) => mret tt) [] s).2
  /\ (forall rd s1 es s2, reader_open s = (inr rd, s1) -> reader_loop rd s1 es s2 -> balanced s2)
  /\ (forall e s1, reader_open s = (inl e, s1) -> balanced s1).
Proof.
  intros fresh Hw balanced. destruct (device_open_spec s fresh Hw) as [Hk Hr]. split; [|split; [|split]].
  - intros port ops. apply scoped_handle_balanced; [apply keeps_do|by apply divert_bind_spec].
  - apply scoped_handle_balanced; [intros; apply keeps_ret|]. destruct (kern_open s) as [[e|[fd k]] s']; [done|].
    by destruct Hk as (? & ? & ? & _).
  - intros rd s1 es s2 E Hloop. rewrite E in Hr. destruct Hr as (Hw1 & Hn & Hh).
    destruct (reader_loop_balanced rd s1 es s2 Hloop) as [Hh2 Hw2]; [rewrite Hh; set_solver|done|].
    split; [|done]. rewrite Hh2, Hh. by apply open_close.
  - intros e s1 E. rewrite E in Hr. by destruct Hr.
Qed.
