(* ===== verification/Identity.v ===== *)
(** Whether a binary is still the one that was approved (identity.rs): a cache of content
    hashes keyed on modification time and size.

    What the file system and sha256(1) answer are arguments: [stat] is the result of the
    metadata calls (seconds and bytes), [sha] the exit status and output of the command. *)
From S2P Require Import Prelude Unicode RustStr.

Abbreviation IdEntry := (Z * Z * str)%type.
Abbreviation Identity := (gmap str IdEntry).

Definition identity_new : Identity := ∅.
Definition id_limit : nat := 2048.

(** [hash]: the cache after it and its result. *)
Definition hash (stat : option (Z * Z)) (sha : option (bool * list Z)) (path : str) (c : Identity)
  : Identity * option str :=
  match stat with
  | None => (c, None)
  | Some (mtime, size_) =>
      let run :=
        match sha with
        | Some (true, stdout) =>
            match trim (utf8_lossy stdout) with
            | [] => (c, None)
            | h => (<[path := (mtime, size_, h)]> (if (id_limit <? size c)%nat then ∅ else c), Some h)
            end
        | _ => (c, None)
        end in
      match c !! path with
      | Some (m, s, h) => if (m =? mtime) && (s =? size_) then (c, Some h) else run
      | None => run
      end
  end.

(** Does the call run sha256(1)? *)
Definition hash_runs (stat : option (Z * Z)) (path : str) (c : Identity) : bool :=
  match stat with
  | None => false
  | Some (mtime, size_) =>
      match c !! path with Some (m, s, _) => negb ((m =? mtime) && (s =? size_)) | None => true end
  end.

(** What sha256(1) says of a file with these facts. *)
Definition hash_of (content : str -> Z -> Z -> list Z) (path : str) (m s : Z) : str :=
  trim (utf8_lossy (content path m s)).

(** Every cached hash is the one of the file as it was when it had the cached facts. *)
Definition cache_ok (content : str -> Z -> Z -> list Z) (c : Identity) : Prop :=
  forall path m s h, c !! path = Some (m, s, h) -> h = hash_of content path m s.

(** The cache never answers for another binary: as long as a path, a modification
    time and a size determine what sha256(1) prints, every hash returned is the current
    file's, in particular after the file was replaced; an unreadable file or a failed
    command is "no answer" and leaves the cache alone; an unchanged file is never hashed
    twice; and the cache stays bounded. *)
Theorem hash_current (content : str -> Z -> Z -> list Z) stat sha path c c' r :
  cache_ok content c -> (size c <= S id_limit)%nat ->
  (forall m s out, stat = Some (m, s) -> sha = Some (true, out) -> out = content path m s) ->
  hash stat sha path c = (c', r) ->
  cache_ok content c' /\ (size c' <= S id_limit)%nat
  /\ (forall h, r = Some h -> exists m s, stat = Some (m, s) /\ h = hash_of content path m s
        /\ hash_runs stat path c' = false)
  /\ (r = None -> c' = c)
  /\ (stat = None -> r = None).
Proof.
  intros Hc Hsz Hsha. unfold hash. destruct stat as [[mtime sz]|]; [|by intros [= <- <-]].
  assert (Hrun : forall c0 r0, match sha with
        | Some (true, stdout) =>
            match trim (utf8_lossy stdout) with
            | [] => (c, None)
            | h => (<[path := (mtime, sz, h)]> (if (id_limit <? size c)%nat then ∅ else c), Some h)
            end
        | _ => (c, None)
        end = (c0, r0) ->
    cache_ok content c0 /\ (size c0 <= S id_limit)%nat
    /\ (forall h, r0 = Some h -> exists m s, Some (mtime, sz) = Some (m, s) /\ h = hash_of content path m s
          /\ hash_runs (Some (mtime, sz)) path c0 = false)
    /\ (r0 = None -> c0 = c) /\ (Some (mtime, sz) = None -> r0 = None)).
  { intros c0 r0. destruct sha as [[[|] out]|]; [|by intros [= <- <-]|by intros [= <- <-]].
    specialize (Hsha mtime sz out eq_refl eq_refl). subst out.
    fold (hash_of content path mtime sz). destruct (hash_of content path mtime sz) as [|x h] eqn:Eh;
      [by intros [= <- <-]|]. rewrite <- Eh. intros [= <- <-].
    set (base := if (id_limit <? size c)%nat then ∅ else c).
    assert (Hbase : cache_ok content base /\ (size base <= id_limit)%nat).
    { unfold base. destruct (Nat.ltb_spec id_limit (size c)); [|done]. split.
      - intros ????. by rewrite lookup_empty.
      - rewrite map_size_empty. unfold id_limit. lia. }
    destruct Hbase as [Hb1 Hb2]. split_and!; try done.
    - intros q m s h0 Hq. destruct (decide (q = path)) as [->|Hne].
      + rewrite lookup_insert_eq in Hq. by injection Hq as <- <- <-.
      + rewrite lookup_insert_ne in Hq by done. by eapply Hb1.
    - rewrite map_size_insert. destruct (base !! path); cbn; lia.
    - intros h0 [= <-]. exists mtime, sz. split_and!; try done.
      unfold hash_runs. rewrite lookup_insert_eq, !Z.eqb_refl. done. }
  destruct (c !! path) as [[[m s] h]|] eqn:E; [|apply Hrun].
  destruct ((m =? mtime) && (s =? sz)) eqn:Ems; [|apply Hrun]. bool_to_prop. subst m s.
  intros [= <- <-]. split_and!; try done. intros h0 [= <-]. exists mtime, sz.
  split_and!; [done|by eapply Hc|]. unfold hash_runs. by rewrite E, !Z.eqb_refl.
Qed.

Lemma hash_current_witness :
  let content := fun (p : str) (m s : Z) => if m =? 1 then utf8 $"aa" else utf8 $"bb" in
  let c := (hash (Some (1, 10)) (Some (true, utf8 $"aa")) $"/bin/x" identity_new).1 in
  cache_ok content (hash (Some (2, 10)) (Some (true, utf8 $"bb")) $"/bin/x" c).1.
Proof.
  intros content c.
  assert (H0 : cache_ok content identity_new) by (intros ????; unfold identity_new; by rewrite lookup_empty).
  assert (H1 : cache_ok content c).
  { refine (proj1 (hash_current content (Some (1, 10)) (Some (true, utf8 $"aa")) $"/bin/x" identity_new
      _ _ H0 _ _ (surjective_pairing _))); [vm_compute; lia|]. by intros m s out [= <- <-] [= <-]. }
  refine (proj1 (hash_current content (Some (2, 10)) (Some (true, utf8 $"bb")) $"/bin/x" c
    _ _ H1 _ _ (surjective_pairing _))); [vm_compute; lia|]. by intros m s out [= <- <-] [= <-].
Defined.
