(* ===== verification/Seen.v ===== *)
(** When each binary last contacted each destination (seen.rs): the table the daemon keeps,
    the file it is written to, and its reading back.

    A HashMap lists its entries in no particular order: [flush] takes the order as an
    argument, any permutation of the entries. *)
From S2P Require Import Prelude Unicode RustStr IpAddr Target Policy PolicyFile RuleText.

(** (binary, destination) -> unix seconds *)
Abbreviation SeenMap := (gmap (str * str) Z).

Record Seen : Type := mk_seen { seen_map : SeenMap; dirty : bool; last_flush : option Z }.

Definition PATH : str := $"/var/run/pfsnitch/lastseen".
Definition TMP : str := with_extension PATH $"tmp".

Definition seen_limit : nat := 4096.

(** [touch] at the unix time [now]. *)
Definition touch (now : Z) (exe dest : str) (s : Seen) : Seen :=
  if bool_decide (exe = []) || bool_decide (dest = []) || str_eqb dest $"-" then s
  else
    let m := if (seen_limit <? size (seen_map s))%nat then ∅ else seen_map s in
    mk_seen (<[(exe, to_lowercase dest) := now]> m) true (last_flush s).

(** One line of the table. *)
Definition seen_line (e : str * str * Z) : str :=
  let '((exe, dest), ts) := e in show_dec ts ++ [9] ++ dest ++ [9] ++ exe ++ [10].

Definition seen_text (order : list (str * str * Z)) : str := concat (map seen_line order).

(** Is a flush due? *)
Definition flush_due (now every : Z) (s : Seen) : bool :=
  dirty s && match last_flush s with Some t => negb (now - t <? every) | None => true end.

(** [splitn(3, '\t')] and the match on its three parts. *)
Definition parse_seen (line : str) : option (str * str * Z) :=
  match break_on (is_char 9) line with
  | (ts, Some rest) =>
      match break_on (is_char 9) rest with
      | (dest, Some exe) => t ← parse_u64 ts; Some ((exe, to_lowercase dest), t)
      | (_, None) => None
      end
  | (_, None) => None
  end.

Definition load_text_seen (text : str) : SeenMap :=
  foldl (fun m l => match parse_seen l with Some (k, t) => <[k := t]> m | None => m end) ∅ (lines text).

Section seen.
Context `{Io}.

(** [flush] at the instant [now], at most once per [every]: the file is replaced only when
    the temporary was written in full. *)
Definition flush (now every : Z) (order : list (str * str * Z)) (fs : Fs) (s : Seen) : Fs * Seen :=
  if flush_due now every s then
    let s' := mk_seen (seen_map s) false (Some now) in
    let '(fs1, ok) := fs_write fs TMP (seen_text order) in
    (if ok then (fs_rename fs1 TMP PATH).1 else fs1, s')
  else (fs, s).

(** [load] *)
Definition seen_load (fs : Fs) : SeenMap :=
  match read_to_string fs PATH with Some t => load_text_seen t | None => ∅ end.

Definition seen_new (fs : Fs) : Seen := mk_seen (seen_load fs) false None.
End seen.

(** [ago], the current time being [n]. *)
Definition ago (n : Z) (ts : option Z) : str :=
  match ts with
  | Some t =>
      if 0 <? t then
        if n <? t then $"just now"
        else
          let d := n - t in
          if d <=? 59 then show_dec d ++ $"s ago"
          else if d <=? 3599 then show_dec (d / 60) ++ $"m ago"
          else if d <=? 86399 then show_dec (d / 3600) ++ $"h ago"
          else show_dec (d / 86400) ++ $"d ago"
      else $"never"
  | None => $"never"
  end.

(** ** A table that survives being written *)

(** What the table can carry: destinations without tabs or line feeds, spelled in lower
    case; binaries without line feeds and without a carriage return at the end; times that
    fit 64 bits. *)
Definition entry_ok (e : str * str * Z) : Prop :=
  let '((exe, dest), ts) := e in
  lacks 10 exe /\ strip_cr exe = exe /\ lacks 9 dest /\ lacks 10 dest /\ to_lowercase dest = dest
  /\ 0 <= ts <= u64_max.

Lemma seen_line_back e :
  entry_ok e -> exists body, seen_line e = body ++ [10] /\ lacks 10 body /\ parse_seen (strip_cr body) = Some e.
Proof.
  destruct e as [[exe dest] ts]. intros (H1 & H2 & H3 & H4 & H5 & H6).
  exists (show_dec ts ++ 9 :: dest ++ 9 :: exe).
  destruct (show_dec_plain ts ltac:(lia)) as (Hw & _ & _ & Hnl & _).
  assert (Hts9 : lacks 9 (show_dec ts)) by (by apply no_ws_lacks).
  assert (Hcr : strip_cr (show_dec ts ++ 9 :: dest ++ 9 :: exe) = show_dec ts ++ 9 :: dest ++ 9 :: exe).
  { clear -H2. unfold strip_cr in *.
    replace (show_dec ts ++ 9 :: dest ++ 9 :: exe) with ((show_dec ts ++ 9 :: dest ++ [9]) ++ exe)
      by (rewrite <- !app_assoc; cbn; by rewrite <- app_assoc).
    rewrite rev_app_distr. destruct (rev exe) as [|c u] eqn:E.
    - rewrite !rev_app_distr. cbn. rewrite rev_app_distr. cbn.
      apply (f_equal (@rev _)) in E. rewrite rev_involutive in E. subst exe. done.
    - cbn [app]. destruct (Z.eqb_spec c 13) as [->|]; [|done].
      apply (f_equal length) in H2. apply (f_equal length) in E. rewrite length_rev in E.
      rewrite length_rev in H2. cbn in E. lia. }
  split; [unfold seen_line; rewrite <- !app_assoc; cbn; by rewrite <- !app_assoc|].
  split.
  { apply lacks_app; [done|]. constructor; [lia|]. apply lacks_app; [done|]. by constructor. }
  rewrite Hcr. unfold parse_seen. rewrite break_on_app by (done || by apply lacks_is_char).
  rewrite break_on_app by (done || by apply lacks_is_char).
  unfold parse_u64. rewrite parse_show_dec by lia. cbn [mbind option_bind]. by rewrite H5.
Qed.

Lemma seen_text_lines order :
  Forall entry_ok order ->
  omap parse_seen (lines (seen_text order)) = order.
Proof.
  induction 1 as [|e order He _ IH]; [done|]. unfold seen_text. cbn [map concat].
  destruct (seen_line_back e He) as (body & -> & Hb & Hp).
  rewrite <- app_assoc. cbn [app]. rewrite lines_cons by done. cbn [omap list_omap].
  rewrite Hp. f_equal. exact IH.
Qed.

Lemma load_text_omap text :
  load_text_seen text = foldl (fun m (kt : str * str * Z) => <[kt.1 := kt.2]> m) ∅ (omap parse_seen (lines text)).
Proof.
  unfold load_text_seen. generalize (∅ : SeenMap) as m. induction (lines text) as [|l ls IH]; intros m; [done|].
  cbn [foldl omap list_omap]. rewrite IH. destruct (parse_seen l) as [[k t]|]; done.
Qed.

Lemma foldl_insert_union (order : list (str * str * Z)) (m : SeenMap) :
  NoDup (order.*1) ->
  foldl (fun m (kt : str * str * Z) => <[kt.1 := kt.2]> m) m order = list_to_map order ∪ m.
Proof.
  revert m. induction order as [|[k t] order IH]; intros m Hnd; cbn [foldl].
  - cbn. by rewrite map_empty_union.
  - cbn [fmap list_fmap] in Hnd. apply NoDup_cons in Hnd as [Hk Hnd]. rewrite IH by done. cbn [list_to_map foldr].
    rewrite <- insert_union_r by (by apply not_elem_of_list_to_map_1). by rewrite insert_union_l.
Qed.

Lemma foldl_insert_map (order : list (str * str * Z)) (m : SeenMap) :
  order ≡ₚ map_to_list m ->
  foldl (fun m (kt : str * str * Z) => <[kt.1 := kt.2]> m) ∅ order = m.
Proof.
  intros Hperm. assert (Hnd : NoDup (order.*1)) by (rewrite Hperm; apply NoDup_fst_map_to_list).
  rewrite foldl_insert_union by done. rewrite map_union_empty.
  rewrite (list_to_map_proper _ _ Hnd Hperm). apply list_to_map_to_list.
Qed.

(** The table survives a restart: when a flush that is due succeeds, reading the file
    back gives exactly the table, in whatever order its entries were written; the table on
    disk is replaced only as a whole (whatever call fails, the file holds the old table or
    the new one), and a flush that is not due does nothing. *)
Theorem flush_load `{Io} (now every : Z) (order : list (str * str * Z)) (fs : Fs) (s : Seen) (fs' : Fs) (s' : Seen) :
  order ≡ₚ map_to_list (seen_map s) -> Forall entry_ok order ->
  flush now every order fs s = (fs', s') ->
  seen_map s' = seen_map s
  /\ (flush_due now every s = false -> fs' = fs /\ s' = s)
  /\ (fs' !! PATH = fs !! PATH \/ fs' !! PATH = Some (seen_text order))
  /\ (flush_due now every s = true -> write_fault TMP = None -> rename_ok TMP PATH = true ->
      read_ok PATH = true -> seen_load fs' = seen_map s)
  /\ (forall q, q <> PATH -> q <> TMP -> fs' !! q = fs !! q).
Proof.
  intros Hperm Hok. unfold flush. assert (Hne : PATH <> TMP) by (by vm_compute).
  destruct (flush_due now every s); [|intros [= <- <-]; by split_and!; auto].
  unfold fs_write, fs_rename.
  destruct (write_fault TMP) as [[n|]|]; [| |rewrite lookup_insert_eq; destruct (rename_ok TMP PATH)];
    intros [= <- <-]; (split; [done|]); (split; [done|]).
  - rewrite lookup_insert_ne by done. split; [by left|]. split; [done|]. intros q Hq Ht. by rewrite lookup_insert_ne.
  - split; [by left|]. done.
  - cbn [fst]. rewrite lookup_insert_eq. split; [by right|]. split.
    + intros _ _ _ Hr. unfold seen_load, read_to_string. rewrite Hr, lookup_insert_eq.
      rewrite load_text_omap, seen_text_lines by done. by apply foldl_insert_map.
    + intros q Hq Ht. by rewrite lookup_insert_ne, lookup_delete_ne, lookup_insert_ne by done.
  - cbn [fst]. rewrite lookup_insert_ne by done. split; [by left|]. split; [done|].
    intros q Hq Ht. by rewrite lookup_insert_ne.
Qed.

(** Noting a contact: the entry is stamped with the current time under the lower-case
    spelling rules use, nothing is noted for an unknown binary or destination, no other
    entry changes except that a full table starts over, and the table stays bounded. *)
Theorem touch_spec now exe dest s :
  (exe = [] \/ dest = [] \/ dest = $"-" -> touch now exe dest s = s)
  /\ (exe <> [] -> dest <> [] -> dest <> $"-" ->
      seen_map (touch now exe dest s) !! (exe, to_lowercase dest) = Some now
      /\ dirty (touch now exe dest s) = true
      /\ (forall k, k <> (exe, to_lowercase dest) ->
            seen_map (touch now exe dest s) !! k
            = if (seen_limit <? size (seen_map s))%nat then None else seen_map s !! k))
  /\ ((size (seen_map s) <= S seen_limit)%nat -> (size (seen_map (touch now exe dest s)) <= S seen_limit)%nat).
Proof.
  unfold touch. split_and!.
  - intros [->|[->| ->]]; [done| |].
    + by destruct (bool_decide (exe = [])).
    + by destruct (bool_decide (exe = [])), (bool_decide (_ = [])).
  - intros H1 H2 H3. rewrite !bool_decide_eq_false_2, str_eqb_neq by done. cbn [orb seen_map dirty].
    split; [apply lookup_insert_eq|]. split; [done|]. intros k Hk.
    rewrite lookup_insert_ne by congruence. by destruct (seen_limit <? _)%nat; rewrite ?lookup_empty.
  - intros Hs. destruct (_ || _ || _); [done|]. cbn [seen_map]. rewrite map_size_insert.
    destruct (Nat.ltb_spec seen_limit (size (seen_map s))).
    + rewrite lookup_empty, map_size_empty. cbn. unfold seen_limit. lia.
    + destruct (seen_map s !! _); cbn; lia.
Qed.

Lemma flush_load_witness :
  let s := touch 7 $"/bin/x" $"Example.com" (mk_seen ∅ false None) in
  @seen_load io_fine (@flush io_fine 1 30 [(($"/bin/x", $"example.com"), 7)] ∅ s).1 = seen_map s.
Proof.
  intros s. refine (proj1 (proj2 (proj2 (proj2 (@flush_load io_fine 1 30 [(($"/bin/x", $"example.com"), 7)] ∅ s
    _ _ _ _ (surjective_pairing _))))) _ eq_refl eq_refl eq_refl).
  - unfold s, touch. vm_compute. done.
  - constructor; [|constructor]. split_and!; try (vm_compute; done);
      apply Forall_forall; intros c Hc; intros ->; vm_compute in Hc;
      repeat (apply elem_of_cons in Hc as [Hc|Hc]; [discriminate|]); by apply not_elem_of_nil in Hc.
  - vm_compute. reflexivity.
Defined.

(** [ago] never claims a negative age. *)
Lemma ago_clock_back n t : 0 < t -> n < t -> ago n (Some t) = $"just now".
Proof. intros Ht Hn. unfold ago. by rewrite (proj2 (Z.ltb_lt 0 t) Ht), (proj2 (Z.ltb_lt n t) Hn). Qed.

(** A destination is a DNS name, whose labels are raw bytes: one with a tab is read back
    as another binary's. *)
Example tab_destination :
  let s := touch 7 $"/bin/x" ($"a" ++ [9] ++ $"b") (mk_seen ∅ false None) in
  let fs := (@flush io_fine 1 30 (map_to_list (seen_map s)) ∅ s).1 in
  map_to_list (@seen_load io_fine fs) = [(($"b" ++ [9] ++ $"/bin/x", $"a"), 7)].
Proof. vm_compute. reflexivity. Qed.
