(* ===== verification/Daemon.v ===== *)
(** The daemon (main.rs): its state, and one pass of its main loop as the handlers the loop
    runs in order - answers to prompts, upcalls of the kernel module, the once-a-second
    tick, one diverted packet, and shutdown.

    Everything outside the process is in [Env], the world during one handler: which
    system calls fail, what the device, the process table, sha256(1) and the clock answer.
    What the daemon does to the outside is the list of [effect]s it leaves; log lines are
    not modelled. *)
From S2P Require Import Prelude Unicode RustStr IpAddr Target Policy PolicyFile PolicyEdit PolicyRecord Packet Reset Dns Procinfo Abi KernAttr Identity Seen.

(** ** State *)

(** A question being asked: (binary, or nothing; name or address). *)
Abbreviation Key := (str * str)%type.
Abbreviation FlowKey := (Z * IpAddr * Z * IpAddr * Z)%type.

(** A prompt that has been raised and not yet answered. *)
Record Pending : Type := mk_pending { p_host : option str; p_exe : option str; p_dst : IpAddr; p_dport : Z }.

(** The variables of [run] that outlive a pass of the loop. *)
Record Daemon : Type := mk_daemon {
  pol : Policy;
  mode : Mode;
  kern : option KernAttr;
  pol_mtime : option Z;
  last_check : Z;
  prompt_exe : str;
  upcall_on : bool;
  pending_upcalls : gmap Key (list Z);
  resolver : Resolver;
  ident : Identity;
  seen : Seen;
  id_warned : gset str;
  names : DnsCache;
  asking : gset Key;
  logged : gset FlowKey;
  decided : gmap FlowKey Verdict;
  logged_cleared : Z
}.

(** Assigning one of them. *)
Definition set_pol (x : Policy) (d : Daemon) : Daemon :=
  mk_daemon x (mode d) (kern d) (pol_mtime d) (last_check d) (prompt_exe d) (upcall_on d) (pending_upcalls d) (resolver d) (ident d) (seen d) (id_warned d) (names d) (asking d) (logged d) (decided d) (logged_cleared d).
Definition set_mode (x : Mode) (d : Daemon) : Daemon :=
  mk_daemon (pol d) x (kern d) (pol_mtime d) (last_check d) (prompt_exe d) (upcall_on d) (pending_upcalls d) (resolver d) (ident d) (seen d) (id_warned d) (names d) (asking d) (logged d) (decided d) (logged_cleared d).
Definition set_kern (x : option KernAttr) (d : Daemon) : Daemon :=
  mk_daemon (pol d) (mode d) x (pol_mtime d) (last_check d) (prompt_exe d) (upcall_on d) (pending_upcalls d) (resolver d) (ident d) (seen d) (id_warned d) (names d) (asking d) (logged d) (decided d) (logged_cleared d).
Definition set_pol_mtime (x : option Z) (d : Daemon) : Daemon :=
  mk_daemon (pol d) (mode d) (kern d) x (last_check d) (prompt_exe d) (upcall_on d) (pending_upcalls d) (resolver d) (ident d) (seen d) (id_warned d) (names d) (asking d) (logged d) (decided d) (logged_cleared d).
Definition set_last_check (x : Z) (d : Daemon) : Daemon :=
  mk_daemon (pol d) (mode d) (kern d) (pol_mtime d) x (prompt_exe d) (upcall_on d) (pending_upcalls d) (resolver d) (ident d) (seen d) (id_warned d) (names d) (asking d) (logged d) (decided d) (logged_cleared d).
Definition set_prompt_exe (x : str) (d : Daemon) : Daemon :=
  mk_daemon (pol d) (mode d) (kern d) (pol_mtime d) (last_check d) x (upcall_on d) (pending_upcalls d) (resolver d) (ident d) (seen d) (id_warned d) (names d) (asking d) (logged d) (decided d) (logged_cleared d).
Definition set_upcall_on (x : bool) (d : Daemon) : Daemon :=
  mk_daemon (pol d) (mode d) (kern d) (pol_mtime d) (last_check d) (prompt_exe d) x (pending_upcalls d) (resolver d) (ident d) (seen d) (id_warned d) (names d) (asking d) (logged d) (decided d) (logged_cleared d).
Definition set_pending_upcalls (x : gmap Key (list Z)) (d : Daemon) : Daemon :=
  mk_daemon (pol d) (mode d) (kern d) (pol_mtime d) (last_check d) (prompt_exe d) (upcall_on d) x (resolver d) (ident d) (seen d) (id_warned d) (names d) (asking d) (logged d) (decided d) (logged_cleared d).
Definition set_resolver (x : Resolver) (d : Daemon) : Daemon :=
  mk_daemon (pol d) (mode d) (kern d) (pol_mtime d) (last_check d) (prompt_exe d) (upcall_on d) (pending_upcalls d) x (ident d) (seen d) (id_warned d) (names d) (asking d) (logged d) (decided d) (logged_cleared d).
Definition set_ident (x : Identity) (d : Daemon) : Daemon :=
  mk_daemon (pol d) (mode d) (kern d) (pol_mtime d) (last_check d) (prompt_exe d) (upcall_on d) (pending_upcalls d) (resolver d) x (seen d) (id_warned d) (names d) (asking d) (logged d) (decided d) (logged_cleared d).
Definition set_seen (x : Seen) (d : Daemon) : Daemon :=
  mk_daemon (pol d) (mode d) (kern d) (pol_mtime d) (last_check d) (prompt_exe d) (upcall_on d) (pending_upcalls d) (resolver d) (ident d) x (id_warned d) (names d) (asking d) (logged d) (decided d) (logged_cleared d).
Definition set_id_warned (x : gset str) (d : Daemon) : Daemon :=
  mk_daemon (pol d) (mode d) (kern d) (pol_mtime d) (last_check d) (prompt_exe d) (upcall_on d) (pending_upcalls d) (resolver d) (ident d) (seen d) x (names d) (asking d) (logged d) (decided d) (logged_cleared d).
Definition set_names (x : DnsCache) (d : Daemon) : Daemon :=
  mk_daemon (pol d) (mode d) (kern d) (pol_mtime d) (last_check d) (prompt_exe d) (upcall_on d) (pending_upcalls d) (resolver d) (ident d) (seen d) (id_warned d) x (asking d) (logged d) (decided d) (logged_cleared d).
Definition set_asking (x : gset Key) (d : Daemon) : Daemon :=
  mk_daemon (pol d) (mode d) (kern d) (pol_mtime d) (last_check d) (prompt_exe d) (upcall_on d) (pending_upcalls d) (resolver d) (ident d) (seen d) (id_warned d) (names d) x (logged d) (decided d) (logged_cleared d).
Definition set_logged (x : gset FlowKey) (d : Daemon) : Daemon :=
  mk_daemon (pol d) (mode d) (kern d) (pol_mtime d) (last_check d) (prompt_exe d) (upcall_on d) (pending_upcalls d) (resolver d) (ident d) (seen d) (id_warned d) (names d) (asking d) x (decided d) (logged_cleared d).
Definition set_decided (x : gmap FlowKey Verdict) (d : Daemon) : Daemon :=
  mk_daemon (pol d) (mode d) (kern d) (pol_mtime d) (last_check d) (prompt_exe d) (upcall_on d) (pending_upcalls d) (resolver d) (ident d) (seen d) (id_warned d) (names d) (asking d) (logged d) x (logged_cleared d).
Definition set_logged_cleared (x : Z) (d : Daemon) : Daemon :=
  mk_daemon (pol d) (mode d) (kern d) (pol_mtime d) (last_check d) (prompt_exe d) (upcall_on d) (pending_upcalls d) (resolver d) (ident d) (seen d) (id_warned d) (names d) (asking d) (logged d) (decided d) x.

(** What the daemon does to the outside. *)
Inductive effect : Type :=
| Reinject (pkt : list Z) (sin_addr : Z)
| ReinjectInbound (pkt : list Z)
| Prompt (argv : list str) (p : Pending)
| Ioctl (cmd : Z) (arg : list Z)
| SpawnReader
| UdpDivert (divert : bool)
| Exit.

Record World : Type := mk_world { dm : Daemon; files_ : Fs; eff : list effect }.

Definition upd (f : Daemon -> Daemon) (w : World) : World := mk_world (f (dm w)) (files_ w) (eff w).
Definition emit (es : list effect) (w : World) : World := mk_world (dm w) (files_ w) (eff w ++ es).
Definition set_fs (fs : Fs) (w : World) : World := mk_world (dm w) fs (eff w).

Record Env : Type := mk_env {
  e_io : Io;
  e_dev : Device;
  e_now : Z;                                  (* Instant::now(), nanoseconds *)
  e_unix : Z;                                 (* SystemTime, seconds *)
  e_mtime : Fs -> option Z;                   (* modification time of the policy file *)
  e_procs : option (list Proc);
  e_stat : str -> option (Z * Z);
  e_sha : str -> option (bool * list Z);
  e_open : bool;                              (* KernAttr::open succeeds *)
  e_reader : bool;                            (* KernReader::open succeeds *)
  e_order : list (str * str * Z)              (* the order [seen] lists its entries in *)
}.

Definition POLICY_PATH : str := $"/usr/local/etc/pfsnitch/policy.conf".
Definition PROMPT_BIN : str := $"/usr/local/libexec/pfsnitch-prompt".

Section handlers.
Context (env : Env).
#[local] Existing Instance e_io.
#[local] Instance dev : Device := e_dev env.
#[local] Instance io : Io := e_io env.

(** ** The kernel backend *)

Definition k_set_upcall (on : bool) (k : KernAttr) : KernAttr * list effect :=
  if dead k then (k, []) else (set_upcall k on, [Ioctl upcall_set_cmd (le 4 (if on then 1 else 0))]).
Definition k_flush (k : KernAttr) : KernAttr * list effect :=
  if dead k then (k, []) else (flush_verdicts k, [Ioctl verdict_flush_cmd []]).
Definition k_resolve (id : Z) (allow : bool) (k : KernAttr) : KernAttr * list effect :=
  if dead k then (k, []) else (resolve_event k id allow, [Ioctl resolve_cmd (resolve_request id allow)]).
Definition k_push (proto : Z) (dst : IpAddr) (dport : Z) (path : str) (allow : bool) (k : KernAttr)
  : KernAttr * list effect :=
  match push_request k proto dst dport path allow with
  | Some b => (push_verdict k proto dst dport path allow, [Ioctl verdict_push_cmd b])
  | None => (k, [])
  end.

(** [if let Some(k) = kern.as_ref() { k.op(..) }] *)
Definition with_kern (op : KernAttr -> KernAttr * list effect) (w : World) : World :=
  match kern (dm w) with
  | Some k => let '(k', es) := op k in emit es (upd (set_kern (Some k')) w)
  | None => w
  end.

(** [kern_backend]: open the device when the policy asks for it, and flush its cache. *)
Definition kern_backend (p : Policy) : option KernAttr * list effect :=
  if bool_decide (attribution p = Procstat) then (None, [])
  else if e_open env then let '(k, es) := k_flush (mk_kern false) in (Some k, es) else (None, []).

(** ** Shared pieces *)

(** [ask_key] *)
Definition ask_key (host : option str) (dst : IpAddr) : str :=
  match host with
  | Some h => if usable_host h then to_lowercase h else show_ip dst
  | None => show_ip dst
  end.

(** [if host.is_empty() { None } else { Some(&host) }] *)
Definition nonempty (s : str) : option str := match s with [] => None | _ => Some s end.

(** The identity check: is the binary behind this path not the one that was approved? *)
Definition check_identity (path : str) (w : World) : World * bool :=
  match expected_id (pol (dm w)) path with
  | None => (w, false)
  | Some expected =>
      let '(c, actual) := hash (e_stat env path) (e_sha env path) path (ident (dm w)) in
      let w := upd (set_ident c) w in
      match actual with
      | Some a =>
          if negb (str_eqb a expected)
          then (upd (fun d => set_id_warned ({[path]} ∪ id_warned d) d) w, true)
          else (w, false)
      | None => (w, false)
      end
  end.

(** [spawn_prompt]: the arguments of the prompt program, and what its answer will carry. *)
Definition show_int (z : Z) : str := if z <? 0 then 45 :: show_dec (- z) else show_dec z.
Definition prompt_argv (exe : option str) (p : Z) (cmd : str) (dst : IpAddr) (dport : Z) (host : str)
  (id_changed : bool) (scope : str) : list str :=
  [default $"<unknown>" exe; show_int p; match cmd with [] => $"<unknown>" | _ => cmd end; show_ip dst;
   show_dec dport; match host with [] => $"-" | _ => host end; if id_changed then $"changed" else $"ok"; scope].
Definition spawn_prompt (id_changed : bool) (exe : option str) (p : Z) (cmd : str) (dst : IpAddr)
  (dport : Z) (host : str) (scope : str) (w : World) : World :=
  emit [Prompt (prompt_exe (dm w) :: prompt_argv exe p cmd dst dport host id_changed scope)
          (mk_pending (nonempty host) exe dst dport)] w.

(** What the prompt thread sends back: the answer on its standard output, or a timeout. *)
Definition prompt_answer (stdout : option (list Z)) : Answer :=
  match stdout with
  | Some b => default Timeout (parse_answer (utf8_lossy b))
  | None => Timeout
  end.

Definition approves (ans : Answer) : bool :=
  match ans with AllowConn | AllowApp => true | _ => false end.

(** ** An answer *)

(** [for id in ids { k.resolve(id, allow) }] *)
Definition resolve_all (ids : list Z) (allow : bool) (w : World) : World :=
  foldl (fun w id => with_kern (k_resolve id allow) w) w ids.

Definition pending_key (p : Pending) : Key := (default [] (p_exe p), ask_key (p_host p) (p_dst p)).

Definition handle_answer (ans : Answer) (p : Pending) (w : World) : World :=
  let key := pending_key p in
  let w := upd (fun d => set_asking (asking d ∖ {[key]}) d) w in
  let w := match pending_upcalls (dm w) !! key with
           | Some ids =>
               resolve_all ids (approves ans)
                 (upd (fun d => set_pending_upcalls (delete key (pending_upcalls d)) d) w)
           | None => w
           end in
  let w := match p_exe p with
           | Some e =>
               if approves ans then
                 let w := upd (fun d => set_id_warned (id_warned d ∖ {[e]}) (set_pol (forget_id (pol d) e) d)) w in
                 let '(c, sha) := hash (e_stat env e) (e_sha env e) e (ident (dm w)) in
                 let w := upd (set_ident c) w in
                 match sha with
                 | Some sha =>
                     let '(p', fs') := record_id (pol (dm w)) (files_ w) POLICY_PATH e sha in
                     set_fs fs' (upd (set_pol p') w)
                 | None => w
                 end
               else w
           | None => w
           end in
  let '(p', fs') := record (pol (dm w)) (files_ w) POLICY_PATH ans (p_exe p) (p_dst p) (p_host p)
                      (p_dport p) Approved in
  set_fs fs' (upd (set_pol p') w).

(** ** An upcall *)

Definition handle_upcall (ev : KernEvent) (w : World) : World :=
  match ev_path ev with
  | [] => with_kern (k_resolve (ev_id ev) true) w
  | path =>
      let host := name_for (names (dm w)) (ev_dst ev) in
      let '(w, id_changed) := check_identity path w in
      let verdict := if id_changed then Ask
                     else decide_verdict (pol (dm w)) (Some path) (ev_dst ev) host (ev_dport ev) in
      match verdict with
      | Allow => with_kern (k_resolve (ev_id ev) true) w
      | Deny => with_kern (k_resolve (ev_id ev) false) w
      | Ask =>
          let hostname := default [] host in
          let key := (path, ask_key (nonempty hostname) (ev_dst ev)) in
          let w := if bool_decide (key ∈ asking (dm w)) then w
                   else spawn_prompt id_changed (Some path) (ev_pid ev) (basename path) (ev_dst ev)
                          (ev_dport ev) hostname $"kernel"
                          (upd (fun d => set_asking ({[key]} ∪ asking d) d) w) in
          upd (fun d => set_pending_upcalls
                 (<[key := default [] (pending_upcalls d !! key) ++ [ev_id ev]]> (pending_upcalls d)) d) w
      end
  end.

(** ** The tick *)

(** [seen.flush(Duration::from_secs(10))] *)
Definition flush_seen (w : World) : World :=
  let '(fs, s) := flush (e_now env) (seconds 10) (e_order env) (files_ w) (seen (dm w)) in
  set_fs fs (upd (set_seen s) w).

Definition forget_logged (w : World) : World :=
  let d := dm w in
  if (seconds 120 <=? e_now env - logged_cleared d) || (8192 <? Z.of_nat (size (logged d)))
  then upd (fun d => set_logged_cleared (e_now env) (set_logged ∅ d)) w
  else w.

(** A dead device handle is dropped; a missing one is opened again. *)
Definition reconnect (w : World) : World :=
  if bool_decide (attribution (pol (dm w)) = Policy.Kernel) then
    match kern (dm w) with
    | Some k => if dead k then upd (set_kern None) w else w
    | None =>
        if e_open env then
          let '(k, es) := k_flush (mk_kern false) in emit es (upd (set_kern (Some k)) w)
        else w
    end
  else w.

(** [upcall_on = false; pending_upcalls.clear(); set_udp_divert(true)], after telling the
    module through the handle there is. *)
Definition upcall_off (w : World) : World :=
  emit [UdpDivert true]
    (upd (fun d => set_pending_upcalls ∅ (set_upcall_on false d)) (with_kern (k_set_upcall false) w)).

(** What [run] does when the policy file's modification time moved. *)
Definition reload (fallback : Mode) (w : World) : World :=
  let m := e_mtime env (files_ w) in
  if bool_decide (m = pol_mtime (dm w)) then w
  else
    let was_attr := attribution (pol (dm w)) in
    let p := load (files_ w) POLICY_PATH in
    let w := upd (fun d => set_mode (policy_mode p fallback) (set_pol p (set_pol_mtime m d))) w in
    let w := if bool_decide (attribution p = was_attr) then w
             else
               let w := if upcall_on (dm w) then upcall_off w else w in
               let '(k, es) := kern_backend p in
               emit es (upd (set_kern k) w) in
    with_kern k_flush (upd (set_decided ∅) w).

(** The upcall is wanted with the kernel backend, in enforcement. *)
Definition reconcile (w : World) : World :=
  let want := bool_decide (is_Some (kern (dm w))) && enforcing (mode (dm w)) in
  if want && negb (upcall_on (dm w)) then
    if e_reader env then
      emit [SpawnReader; UdpDivert false]
        (upd (set_upcall_on true) (with_kern (k_set_upcall true) w))
    else w
  else if negb want && upcall_on (dm w) then upcall_off w
  else w.

Definition tick_due (w : World) : bool := seconds 1 <=? e_now env - last_check (dm w).

Definition handle_tick (fallback : Mode) (w : World) : World :=
  let w := forget_logged (flush_seen w) in
  if tick_due w
  then reconcile (reload fallback (reconnect (upd (set_last_check (e_now env)) w)))
  else w.

(** ** A packet *)

Definition flow_key (f : Flow) : FlowKey := (f_proto f, f_src f, f_sport f, f_dst f, f_dport f).
Definition flow_tuple (f : Flow) : Tuple := mk_tuple (f_proto f) (f_src f) (f_sport f) (f_dst f) (f_dport f).

(** The kernel is asked first, then the process table. *)
Definition attribute (t : Tuple) (w : World) : World * option Attribution :=
  let '(w, a) := match kern (dm w) with
                 | Some k => let '(k', a) := query k t in (upd (set_kern (Some k')) w, a)
                 | None => (w, None)
                 end in
  match a with
  | Some a => (w, Some a)
  | None =>
      let '(r, a, _) := resolve (e_now env) (e_now env) (e_procs env) (resolver (dm w)) t true in
      (upd (set_resolver r) w, a)
  end.

(** Attribution, identity and policy: what is known of the flow, and its verdict. *)
Record Judged : Type := mk_judged { j_att : option Attribution; j_changed : bool; j_verdict : Verdict }.

Definition j_exe (j : Judged) : option str := exe_path ∘ owner <$> j_att j.

Definition judge (f : Flow) (w : World) : World * Judged :=
  let '(w, att) := attribute (flow_tuple f) w in
  let exe := exe_path ∘ owner <$> att in
  let hostname := name_for (names (dm w)) (f_dst f) in
  let '(w, changed) := match exe with Some e => check_identity e w | None => (w, false) end in
  (w, mk_judged att changed
        (if changed then Ask else decide_verdict (pol (dm w)) exe (f_dst f) hostname (f_dport f))).

(** Enforcement asks, once per question. *)
Definition ask (f : Flow) (j : Judged) (w : World) : World :=
  let host := default [] (name_for (names (dm w)) (f_dst f)) in
  let key := (default [] (j_exe j), ask_key (nonempty host) (f_dst f)) in
  if bool_decide (key ∈ asking (dm w)) then w
  else spawn_prompt (j_changed j) (j_exe j)
         (match j_att j with Some a => pid (owner a) | None => 0 end)
         (match j_att j with Some a => command (owner a) | None => [] end)
         (f_dst f) (f_dport f) host
         (match j_att j with Some a => confidence_str (confidence a) | None => $"none" end)
         (upd (fun d => set_asking ({[key]} ∪ asking d) d) w).

(** Visibility writes the rule instead. *)
Definition learn (f : Flow) (j : Judged) (w : World) : World :=
  let '(p', fs') := record (pol (dm w)) (files_ w) POLICY_PATH AllowConn (j_exe j) (f_dst f)
                      (name_for (names (dm w)) (f_dst f)) (f_dport f) Learned in
  upd (set_pol_mtime (e_mtime env fs')) (set_fs fs' (upd (set_pol p') w)).

(** A settled verdict is remembered, and handed to the kernel while enforcing. *)
Definition remember (f : Flow) (v : Verdict) (exe : option str) (w : World) : World :=
  let w := upd (fun d => set_decided (<[flow_key f := v]>
                  (if 16384 <? Z.of_nat (size (decided d)) then ∅ else decided d)) d) w in
  if enforcing (mode (dm w)) then
    match exe with
    | Some p => with_kern (k_push (f_proto f) (f_dst f) (f_dport f) p (bool_decide (v = Allow))) w
    | None => w
    end
  else w.

(** The contact is noted, and the flow logged once. *)
Definition note_contact (f : Flow) (exe : option str) (w : World) : World :=
  let host := default $"-" (name_for (names (dm w)) (f_dst f)) in
  let dest := if str_eqb host $"-" then show_ip (f_dst f) else host in
  let w := match exe with
           | Some e => upd (fun d => set_seen (touch (e_unix env) e dest (seen d)) d) w
           | None => w
           end in
  upd (fun d => set_logged ({[flow_key f]} ∪ logged d) d) w.

(** The verdict path of one packet; the two flags are [allow] and [reject]. *)
Definition settle (f : Flow) (w : World) : World * bool * bool :=
  match decided (dm w) !! flow_key f with
  | Some Allow => (w, true, false)
  | Some Deny => (w, false, true)
  | Some Ask => (w, true, false)
  | None =>
      let '(w, j) := judge f w in
      match j_verdict j with
      | Allow => (note_contact f (j_exe j) (remember f Allow (j_exe j) w), true, false)
      | Deny => (note_contact f (j_exe j) (remember f Deny (j_exe j) w), false, true)
      | Ask =>
          if enforcing (mode (dm w))
          then (note_contact f (j_exe j) (ask f j w), false, false)
          else (note_contact f (j_exe j) (learn f j w), true, false)
      end
  end.

(** The end of the pass: the reset, and the packet itself. *)
Definition deliver (pkt : list Z) (sin_addr : Z) (allow reject : bool) (w : World) : World :=
  let w := if enforcing (mode (dm w)) && reject then
             match to_option (tcp_rst pkt) with Some rst => emit [ReinjectInbound rst] w | None => w end
           else w in
  if negb (enforcing (mode (dm w))) || allow then emit [Reinject pkt sin_addr] w else w.

(** A reply from port 53 teaches names. *)
Definition observe_dns (pkt : list Z) (w : World) : World :=
  match to_option (payload_offset pkt) with
  | Some off =>
      if (off <? length pkt)%nat
      then upd (fun d => set_names (observe (e_now env) (e_now env) (drop off pkt) (names d)) d) w
      else w
  | None => w
  end.

Definition is_dns_reply (f : Flow) : bool := (f_proto f =? 17) && (f_sport f =? 53).
Definition starts_flow (f : Flow) : bool := syn_only f || (f_proto f =? 17).

Definition handle_packet (pkt : list Z) (sin_addr : Z) (w : World) : World :=
  match to_option (parse pkt) with
  | Some f =>
      if is_dns_reply f then emit [Reinject pkt sin_addr] (observe_dns pkt w)
      else if negb (sin_addr =? 0) then emit [Reinject pkt sin_addr] w
      else if starts_flow f then
        let '(w, allow, reject) := settle f w in deliver pkt sin_addr allow reject w
      else deliver pkt sin_addr true false w
  | None => deliver pkt sin_addr true false w
  end.

(** ** Starting and stopping *)

Definition handle_shutdown (w : World) : World :=
  let w := with_kern k_flush (with_kern (k_set_upcall false) w) in
  emit [Exit] (if upcall_on (dm w) then emit [UdpDivert true] w else w).

(** The state [run] enters its loop with; [prompt_env] is the environment's override. *)
Definition start (fallback : Mode) (prompt_env : option str) (fs : Fs) : World :=
  let p := load fs POLICY_PATH in
  let '(k, es) := kern_backend p in
  mk_world (mk_daemon p (policy_mode p fallback) k (e_mtime env fs) (e_now env)
              (prompt_bin p prompt_env PROMPT_BIN) false ∅ resolver_new identity_new (seen_new fs)
              ∅ dns_new ∅ ∅ ∅ (e_now env)) fs es.
End handlers.

(** ** The loop *)

(** What one pass finds: the answers and upcalls waiting, and the packet, if one came
    before the receive timed out - each with the world its handler ran in. *)
Record Pass : Type := mk_pass {
  ps_answers : list (Env * Answer * Pending);
  ps_upcalls : list (Env * KernEvent);
  ps_tick : Env;
  ps_packet : option (Env * list Z * Z)
}.

Definition answer_event (w : World) (x : Env * Answer * Pending) : World :=
  let '(env, ans, p) := x in handle_answer env ans p w.
Definition upcall_event (w : World) (x : Env * KernEvent) : World := handle_upcall x.1 x.2 w.

Definition run_pass (fallback : Mode) (p : Pass) (w : World) : World :=
  let w := foldl answer_event w (ps_answers p) in
  let w := foldl upcall_event w (ps_upcalls p) in
  let w := handle_tick (ps_tick p) fallback w in
  match ps_packet p with
  | Some (env, pkt, sin_addr) => handle_packet env pkt sin_addr w
  | None => w
  end.
