(* ===== verification/DaemonSpec.v ===== *)
(** Correctness of the daemon's handlers (Daemon.v): what a packet, an upcall, an answer, a
    tick and a shutdown do to the outside, and the invariants of the loop over every
    reachable state. *)
From S2P Require Import Prelude Unicode RustStr IpAddr Target Policy PolicyFile PolicyEdit PolicyRecord Packet Reset Dns Procinfo Abi KernAttr Identity Seen Daemon.

#[local] Arguments record : simpl never.
#[local] Arguments record_id : simpl never.
#[local] Arguments decide_verdict : simpl never.
#[local] Arguments hash : simpl never.
#[local] Arguments load : simpl never.
#[local] Arguments POLICY_PATH : simpl never.

(** ** Pieces that change nothing a verdict depends on *)

(** Nothing is emitted, and the policy, the mode, the questions, the settled verdicts, the
    names and whether there is a kernel handle stay as they were. *)
Record quiet (w w' : World) : Prop := mk_quiet {
  q_pol : pol (dm w') = pol (dm w);
  q_mode : mode (dm w') = mode (dm w);
  q_kern : is_Some (kern (dm w')) <-> is_Some (kern (dm w));
  q_upcall : upcall_on (dm w') = upcall_on (dm w);
  q_pending : pending_upcalls (dm w') = pending_upcalls (dm w);
  q_asking : asking (dm w') = asking (dm w);
  q_decided : decided (dm w') = decided (dm w);
  q_names : names (dm w') = names (dm w);
  q_prompt : prompt_exe (dm w') = prompt_exe (dm w);
  q_eff : eff w' = eff w
}.

#[export] Instance quiet_preorder : PreOrder quiet.
Proof.
  split.
  - intros w. by constructor.
  - intros a b c [] []. constructor; try congruence. tauto.
Qed.

#[export] Hint Extern 0 (quiet ?w ?w) => reflexivity : pfs.

Ltac quiet_refl := constructor; cbn; try reflexivity; tauto.

Definition is_ioctl (e : effect) : Prop := match e with Ioctl _ _ => True | _ => False end.

(** The kernel operations of the daemon only make ioctls. *)
Definition kernel_op (op : KernAttr -> KernAttr * list effect) : Prop :=
  forall k, Forall is_ioctl (op k).2.

Section pieces.
Context (env : Env).

Lemma k_set_upcall_op on : kernel_op (k_set_upcall env on).
Proof. intros k. unfold k_set_upcall. destruct (dead k); repeat constructor. Qed.

Lemma k_flush_op : kernel_op (k_flush env).
Proof. intros k. unfold k_flush. destruct (dead k); repeat constructor. Qed.

Lemma k_resolve_op id allow : kernel_op (k_resolve env id allow).
Proof. intros k. unfold k_resolve. destruct (dead k); repeat constructor. Qed.

Lemma k_push_op proto dst dport p allow : kernel_op (k_push env proto dst dport p allow).
Proof. intros k. unfold k_push. destruct (push_request _ _ _ _ _ _); repeat constructor. Qed.

Lemma with_kern_spec op w :
  kernel_op op ->
  exists k es, with_kern op w = emit es (upd (set_kern k) w) /\ (is_Some k <-> is_Some (kern (dm w)))
    /\ Forall is_ioctl es.
Proof.
  intros Hop. unfold with_kern. destruct (kern (dm w)) as [k|] eqn:E.
  - pose proof (Hop k) as Hk. destruct (op k) as [k' es]. exists (Some k'), es. split_and!; [done| |done].
    split; eauto.
  - exists None, []. split_and!; [|done|constructor]. destruct w as [[] ? ?]; cbn in E |- *. subst.
    unfold emit, upd, set_kern; cbn. by rewrite app_nil_r.
Qed.

Lemma resolve_all_spec ids allow w :
  exists k es, resolve_all env ids allow w = emit es (upd (set_kern k) w)
    /\ (is_Some k <-> is_Some (kern (dm w))) /\ Forall is_ioctl es.
Proof.
  revert w. induction ids as [|id ids IH]; intros w; cbn.
  - exists (kern (dm w)), []. split_and!; [|done|constructor]. destruct w as [[] ? ?].
    unfold emit, upd, set_kern; cbn. by rewrite app_nil_r.
  - destruct (with_kern_spec _ w (k_resolve_op id allow)) as (k & es & -> & Hk & He).
    destruct (IH (emit es (upd (set_kern k) w))) as (k2 & es2 & IH2 & Hk2 & He2).
    exists k2, (es ++ es2). split_and!.
    + unfold resolve_all in IH2. rewrite IH2. unfold emit, upd, set_kern; cbn. by rewrite app_assoc.
    + cbn in Hk2. tauto.
    + by apply Forall_app.
Qed.

Lemma check_identity_quiet path w : quiet w (check_identity env path w).1.
Proof.
  unfold check_identity. destruct (expected_id _ _) as [x|]; [|reflexivity].
  destruct (hash _ _ _ _) as [c [a|]]; [|quiet_refl]. destruct (negb _); quiet_refl.
Qed.

Lemma attribute_quiet t w : quiet w (attribute env t w).1.
Proof.
  unfold attribute.
  assert (forall w0, quiet w w0 ->
    quiet w (let '(r, a, _) := resolve (e_now env) (e_now env) (e_procs env) (resolver (dm w0)) t true in
             (upd (set_resolver r) w0, a)).1) as Hr.
  { intros w0 Hq. destruct (resolve _ _ _ _ _ _) as [[r a] ?]. cbn.
    etransitivity; [exact Hq|]. quiet_refl. }
  destruct (kern (dm w)) as [k|] eqn:E.
  - destruct (query k t) as [k' a]. 
    assert (quiet w (upd (set_kern (Some k')) w)) as Hq.
    { constructor; cbn; try reflexivity. rewrite E. split; eauto. }
    destruct a; [exact Hq|]. by apply Hr.
  - by apply Hr.
Qed.

Lemma judge_quiet f w : quiet w (judge env f w).1.
Proof.
  unfold judge. pose proof (attribute_quiet (flow_tuple f) w) as H1.
  destruct (attribute env (flow_tuple f) w) as [w1 att]. cbn in H1.
  destruct (exe_path ∘ owner <$> att) as [e|]; [|done].
  pose proof (check_identity_quiet e w1) as H2. destruct (check_identity env e w1) as [w2 ch].
  cbn in *. by etransitivity.
Qed.

Lemma note_contact_quiet f exe w : quiet w (note_contact env f exe w).
Proof. unfold note_contact. destruct exe; quiet_refl. Qed.

Lemma flush_seen_quiet w : quiet w (flush_seen env w).
Proof. unfold flush_seen. destruct (flush _ _ _ _ _). quiet_refl. Qed.

Lemma forget_logged_quiet w : quiet w (forget_logged env w).
Proof. unfold forget_logged. destruct (_ || _); quiet_refl. Qed.
End pieces.

(** ** One packet *)

(** The reset a denied segment is answered with. *)
Definition reset_of (pkt : list Z) : list effect :=
  match tcp_rst pkt with Ok rst => [ReinjectInbound rst] | _ => [] end.

(** The question a flow raises. *)
Definition flow_question (f : Flow) (j : Judged) (w : World) : Key :=
  (default [] (j_exe j), ask_key (nonempty (default [] (name_for (names (dm w)) (f_dst f)))) (f_dst f)).

Definition is_reinject (e : effect) : bool := match e with Reinject _ _ => true | _ => false end.
Definition is_prompt (e : effect) : bool := match e with Prompt _ _ => true | _ => false end.

Lemma enforcing_true w : enforcing (mode (dm w)) = true <-> mode (dm w) = Enforcement.
Proof. unfold enforcing. apply bool_decide_eq_true. Qed.

Lemma enforcing_false w : enforcing (mode (dm w)) = false <-> mode (dm w) = Visibility.
Proof. unfold enforcing. rewrite bool_decide_eq_false. destruct (mode (dm w)); split; congruence. Qed.

Section packet.
Context (env : Env) (pkt : list Z) (sin_addr : Z).

Lemma eff_emit es w : eff (emit es w) = eff w ++ es.
Proof. done. Qed.

Lemma deliver_eq allow reject w :
  deliver pkt sin_addr allow reject w
  = emit ((if enforcing (mode (dm w)) && reject then reset_of pkt else [])
          ++ (if negb (enforcing (mode (dm w))) || allow then [Reinject pkt sin_addr] else [])) w.
Proof.
  unfold deliver, reset_of. destruct w as [d fs es]. cbn [dm].
  destruct (enforcing (mode d)) eqn:Em, reject, allow, (tcp_rst pkt); cbn [andb orb negb to_option];
    unfold emit; cbn [dm files_ eff mode]; rewrite ?Em; cbn [negb orb]; 
    rewrite <- ?app_assoc, ?app_nil_r; reflexivity.
Qed.

Lemma observe_dns_eff w : eff (observe_dns env pkt w) = eff w.
Proof. unfold observe_dns. by destruct (to_option _) as [o|]; [destruct (o <? length pkt)%nat|]. Qed.

(** What [remember] leaves. *)
Lemma remember_eq f v exe w :
  exists k es,
    remember env f v exe w
    = emit es (upd (set_kern k)
        (upd (fun d => set_decided (<[flow_key f := v]>
           (if 16384 <? Z.of_nat (size (decided d)) then ∅ else decided d)) d) w))
    /\ (is_Some k <-> is_Some (kern (dm w))) /\ Forall is_ioctl es
    /\ (enforcing (mode (dm w)) = false -> es = []).
Proof.
  unfold remember. set (w1 := upd _ w).
  assert (forall w0 : World, w0 = emit [] (upd (set_kern (kern (dm w0))) w0)) as Hid.
  { intros [[] ? ?]. unfold emit, upd, set_kern; cbn. by rewrite app_nil_r. }
  change (mode (dm w1)) with (mode (dm w)).
  destruct (enforcing (mode (dm w))) eqn:Em.
  - destruct exe as [p|].
    + destruct (with_kern_spec _ w1 (k_push_op env (f_proto f) (f_dst f) (f_dport f) p (bool_decide (v = Allow))))
        as (k & es & -> & Hk & He). exists k, es. split_and!; try done.
    + exists (kern (dm w1)), []. by split_and!.
  - exists (kern (dm w1)), []. by split_and!.
Qed.

Lemma ask_eff f j w :
  eff (ask f j w) = eff w
  \/ ((flow_question f j w ∉ asking (dm w)) /\ (exists argv,
      eff (ask f j w) = eff w ++ [Prompt (prompt_exe (dm w) :: argv)
        (mk_pending (nonempty (default [] (name_for (names (dm w)) (f_dst f)))) (j_exe j) (f_dst f) (f_dport f))])).
Proof.
  unfold ask, flow_question. case_bool_decide as Hk; [by left|]. right. split; [done|]. cbn. eauto.
Qed.

Lemma learn_eff f j w : eff (learn env f j w) = eff w.
Proof. unfold learn. by destruct (record _ _ _ _ _ _ _ _ _). Qed.
End packet.

(** The flags a settled verdict sets: [allow] and [reject]. *)
Definition flags (v : Verdict) : bool * bool := match v with Deny => (false, true) | _ => (true, false) end.

(** The prompts for one question: none when it is already being asked. *)
Definition prompts_for (f : Flow) (j : Judged) (w : World) (es : list effect) : Prop :=
  (flow_question f j w ∈ asking (dm w) /\ es = [])
  \/ ((flow_question f j w ∉ asking (dm w)) /\
      (exists argv, es = [Prompt (prompt_exe (dm w) :: argv)
        (mk_pending (nonempty (default [] (name_for (names (dm w)) (f_dst f)))) (j_exe j) (f_dst f) (f_dport f))])).

(** What the verdict path does on a flow that is not settled, by the verdict. *)
Definition fresh_outcome (env : Env) (w : World) (f : Flow) (j : Judged) (w' : World) (allow reject : bool) : Prop :=
  match j_verdict j with
  | Ask =>
      decided (dm w') = decided (dm w) /\ reject = false
      /\ (if enforcing (mode (dm w)) then
            allow = false /\ pol (dm w') = pol (dm w)
            /\ asking (dm w') = {[flow_question f j w]} ∪ asking (dm w)
            /\ (exists es, eff w' = eff w ++ es /\ prompts_for f j w es)
          else
            allow = true /\ asking (dm w') = asking (dm w) /\ eff w' = eff w
            /\ (exists fs fs', @record (e_io env) (pol (dm w)) fs POLICY_PATH AllowConn (j_exe j) (f_dst f)
                  (name_for (names (dm w)) (f_dst f)) (f_dport f) Learned  = (pol (dm w'), fs')))
  | v =>
      (allow, reject) = flags v /\ pol (dm w') = pol (dm w) /\ asking (dm w') = asking (dm w)
      /\ decided (dm w') = <[flow_key f := v]>
           (if 16384 <? Z.of_nat (size (decided (dm w))) then ∅ else decided (dm w))
      /\ (exists es, eff w' = eff w ++ es /\ Forall is_ioctl es /\ (enforcing (mode (dm w)) = false -> es = []))
  end.

(** Only what [quiet] says of [note_contact] matters. *)
Ltac generalize_contact :=
  match goal with |- context [note_contact ?env ?f ?exe ?w] => generalize (note_contact env f exe w) end.

Section settle.
Context (env : Env) (f : Flow) (w : World).

Record kept (w' : World) : Prop := mk_kept {
  kp_mode : mode (dm w') = mode (dm w);
  kp_kern : is_Some (kern (dm w')) <-> is_Some (kern (dm w));
  kp_upcall : upcall_on (dm w') = upcall_on (dm w);
  kp_pending : pending_upcalls (dm w') = pending_upcalls (dm w);
  kp_names : names (dm w') = names (dm w)
}.

Lemma quiet_kept w1 w2 : kept w1 -> quiet w1 w2 -> kept w2.
Proof. intros [] []. constructor; try congruence. tauto. Qed.

Lemma settled_outcome v exe w1 :
  quiet w w1 ->
  let w' := note_contact env f exe (remember env f v exe w1) in
  kept w' /\ pol (dm w') = pol (dm w) /\ asking (dm w') = asking (dm w)
  /\ decided (dm w') = <[flow_key f := v]>
       (if 16384 <? Z.of_nat (size (decided (dm w))) then ∅ else decided (dm w))
  /\ (exists es, eff w' = eff w ++ es /\ Forall is_ioctl es /\ (enforcing (mode (dm w)) = false -> es = [])).
Proof.
  intros Hq. cbn zeta.
  pose proof (note_contact_quiet env f exe (remember env f v exe w1)) as Hn. revert Hn.
  destruct (remember_eq env f v exe w1) as (k & es & -> & Hk & Hi & He). generalize_contact. intros w2 Hn.
  rewrite (q_mode _ _ Hq) in He. destruct Hq, Hn. cbn in *. split_and!.
  - constructor; try congruence; tauto.
  - congruence.
  - congruence.
  - by rewrite q_decided1, q_decided0.
  - exists es. split; [congruence|done].
Qed.

Lemma settle_spec w' allow reject :
  settle env f w = (w', allow, reject) ->
  match decided (dm w) !! flow_key f with
  | Some v => w' = w /\ (allow, reject) = flags v
  | None => kept w' /\ fresh_outcome env w f (judge env f w).2 w' allow reject
  end.
Proof.
  unfold settle, fresh_outcome. destruct (decided (dm w) !! flow_key f) as [[]|]; [by intros [= <- <- <-]..|].
  pose proof (judge_quiet env f w) as Hq. destruct (judge env f w) as [w1 j]. cbn [fst snd] in *.
  destruct (j_verdict j).
  - intros [= <- <- <-]. destruct (settled_outcome Allow (j_exe j) w1 Hq) as (? & ? & ? & ? & ?). by split_and!.
  - intros [= <- <- <-]. destruct (settled_outcome Deny (j_exe j) w1 Hq) as (? & ? & ? & ? & ?). by split_and!.
  - rewrite (q_mode _ _ Hq). destruct (enforcing (mode (dm w))) eqn:Em; intros [= <- <- <-].
    + pose proof (note_contact_quiet env f (j_exe j) (ask f j w1)) as Hn. revert Hn. unfold ask.
      rewrite (q_names _ _ Hq), (q_asking _ _ Hq). unfold prompts_for. fold (flow_question f j w).
      case_bool_decide as Hin; generalize_contact; intros w2 Hn; (split; [destruct Hq, Hn; cbn in *; constructor; try congruence; tauto|]);
        destruct Hq, Hn; cbn in *; split_and!; try congruence.
      * rewrite q_asking1, q_asking0. apply set_eq. set_solver.
      * exists []. rewrite app_nil_r. split; [congruence|]. by left.
      * rewrite q_eff1, q_eff0, q_prompt0. eexists. split; [done|]. right. split; [done|]. by eexists.
    + pose proof (note_contact_quiet env f (j_exe j) (learn env f j w1)) as Hn. revert Hn. unfold learn.
      rewrite (q_names _ _ Hq), (q_pol _ _ Hq).
      destruct (record _ _ _ _ _ _ _ _ _) as [p' fs'] eqn:Er. generalize_contact. intros w2 Hn.
      destruct Hq, Hn; cbn in *. split; [constructor; try congruence; tauto|]. split_and!; try congruence.
      exists (files_ w1), fs'. rewrite q_pol1. exact Er.
Qed.
End settle.

(** The end of a pass, as the effects it adds. *)
Definition delivery (enforce allow reject : bool) (pkt : list Z) (sin_addr : Z) : list effect :=
  (if enforce && reject then reset_of pkt else [])
  ++ (if negb enforce || allow then [Reinject pkt sin_addr] else []).

(** In visibility a packet is reinjected, and that is all. *)
Lemma visible_packet env pkt sin_addr w :
  mode (dm w) = Visibility ->
  eff (handle_packet env pkt sin_addr w) = eff w ++ [Reinject pkt sin_addr]
  /\ asking (dm (handle_packet env pkt sin_addr w)) = asking (dm w).
Proof.
  intros Hm. pose proof (proj2 (enforcing_false w) Hm) as He. unfold handle_packet.
  assert (forall a r, deliver pkt sin_addr a r w = emit [Reinject pkt sin_addr] w) as Hplain.
  { intros. by rewrite deliver_eq, He. }
  destruct (to_option (parse pkt)) as [f|]; [|by rewrite Hplain].
  destruct (is_dns_reply f).
  { rewrite eff_emit, observe_dns_eff. split; [done|]. unfold observe_dns.
    destruct (to_option _) as [o|]; [|done]. by destruct (o <? length pkt)%nat. }
  destruct (negb (sin_addr =? 0)); [done|].
  destruct (starts_flow f); [|by rewrite Hplain].
  destruct (settle env f w) as [[w' a] r] eqn:Es. apply settle_spec in Es.
  destruct (decided (dm w) !! flow_key f).
  { destruct Es as [-> _]. by rewrite Hplain. }
  destruct Es as [Hk Hf]. rewrite deliver_eq, (kp_mode _ _ Hk), He. cbn.
  unfold fresh_outcome in Hf. rewrite He in Hf.
  destruct (j_verdict _).
  - destruct Hf as (_ & _ & -> & _ & es & -> & _ & ->); [|done]. by rewrite app_nil_r.
  - destruct Hf as (_ & _ & -> & _ & es & -> & _ & ->); [|done]. by rewrite app_nil_r.
  - by destruct Hf as (_ & _ & _ & -> & -> & _).
Qed.

(** C2. Enforcement, on the first packet of an outbound flow that is not settled: the
    verdict is the policy's on what attribution and DNS know of the flow, or Ask when the
    binary is not the one that was approved.  Allow reinjects the packet and Deny answers
    it with a reset, when it is one that can be - both only after an ioctl at most - and
    both are remembered for the flow; Ask drops the packet silently, settles nothing, and
    raises one prompt, unless the same question is already being asked. *)
Theorem packet_enforced env pkt w f w1 j :
  mode (dm w) = Enforcement -> parse pkt = Ok f -> is_dns_reply f = false -> starts_flow f = true ->
  decided (dm w) !! flow_key f = None -> judge env f w = (w1, j) ->
  let w' := handle_packet env pkt 0 w in
  j_verdict j = (if j_changed j then Ask
                 else decide_verdict (pol (dm w)) (j_exe j) (f_dst f) (name_for (names (dm w)) (f_dst f)) (f_dport f))
  /\ exists es, eff w' = eff w ++ es
     /\ match j_verdict j with
        | Allow => decided (dm w') !! flow_key f = Some Allow /\ asking (dm w') = asking (dm w)
                   /\ (exists calls, es = calls ++ [Reinject pkt 0] /\ Forall is_ioctl calls)
        | Deny => decided (dm w') !! flow_key f = Some Deny /\ asking (dm w') = asking (dm w)
                  /\ (exists calls, es = calls ++ reset_of pkt /\ Forall is_ioctl calls)
        | Ask => decided (dm w') = decided (dm w)
                 /\ asking (dm w') = {[flow_question f j w]} ∪ asking (dm w)
                 /\ prompts_for f j w es
        end.
Proof.
  intros Hm Hp Hd Hs Hn Hj. pose proof (proj2 (enforcing_true w) Hm) as He. cbn zeta.
  split.
  { pose proof (attribute_quiet env (flow_tuple f) w) as Hq. unfold judge in Hj.
    destruct (attribute env (flow_tuple f) w) as [w0 att]. cbn [fst] in Hq.
    rewrite <- (q_names _ _ Hq), <- (q_pol _ _ Hq).
    destruct (exe_path ∘ owner <$> att) as [e|] eqn:Ee.
    - pose proof (check_identity_quiet env e w0) as Hc. destruct (check_identity env e w0) as [w2 ch].
      cbn [fst] in Hc. injection Hj as <- <-. unfold j_exe. cbn [j_att j_changed j_verdict]. rewrite Ee.
      by rewrite (q_pol _ _ Hc).
    - injection Hj as <- <-. unfold j_exe. cbn [j_att j_changed j_verdict]. by rewrite Ee. }
  unfold handle_packet. rewrite Hp. cbn [to_option]. rewrite Hd. cbn [Z.eqb negb]. rewrite Hs.
  destruct (settle env f w) as [[w' a] r] eqn:Es. apply settle_spec in Es. rewrite Hn in Es.
  destruct Es as [Hk Hf]. rewrite deliver_eq, (kp_mode _ _ Hk), He, eff_emit. cbn [negb orb andb emit dm].
  unfold fresh_outcome in Hf. rewrite He, Hj in Hf. cbn [snd] in Hf.
  destruct (j_verdict j).
  - destruct Hf as (Ha & _ & Hask & Hdec & es & Hes & Hi & _). injection Ha as -> ->.
    rewrite Hes, <- app_assoc. eexists. split; [done|]. rewrite Hdec, lookup_insert_eq. eauto.
  - destruct Hf as (Ha & _ & Hask & Hdec & es & Hes & Hi & _). injection Ha as -> ->.
    rewrite Hes, <- app_assoc. eexists. split; [done|]. rewrite Hdec, lookup_insert_eq, app_nil_r. eauto.
  - destruct Hf as (Hdec & -> & -> & _ & Hask & es & Hes & Hpr). rewrite Hes. cbn [app].
    rewrite app_nil_r. eauto.
Qed.

(** What is sent through the divert socket. *)
Definition is_send (e : effect) : bool :=
  match e with Reinject _ _ | ReinjectInbound _ => true | _ => false end.
Definition sends (es : list effect) : list effect := filter is_send es.

Lemma sends_ioctl es : Forall is_ioctl es -> sends es = [].
Proof. unfold sends. induction 1 as [|e es He _ IH]; [done|]. by destruct e. Qed.
Lemma sends_reset pkt : sends (reset_of pkt) = reset_of pkt.
Proof. unfold reset_of. by destruct (tcp_rst pkt). Qed.

(** A packet leads to at most one send: itself, or the reset that answers it. *)
Lemma packet_sends env pkt sin_addr w :
  exists es, eff (handle_packet env pkt sin_addr w) = eff w ++ es
    /\ (sends es = [Reinject pkt sin_addr] \/ sends es = reset_of pkt \/ sends es = []).
Proof.
  assert (Hplain : exists es, eff (deliver pkt sin_addr true false w) = eff w ++ es
    /\ (sends es = [Reinject pkt sin_addr] \/ sends es = reset_of pkt \/ sends es = [])).
  { rewrite deliver_eq, andb_false_r, orb_true_r. eexists. split; [done|]. by left. }
  unfold handle_packet. destruct (to_option (parse pkt)) as [f|]; [|done].
  destruct (is_dns_reply f).
  { rewrite eff_emit, observe_dns_eff. eexists. split; [done|]. by left. }
  destruct (negb (sin_addr =? 0)); [eexists; split; [done|]; by left|].
  destruct (starts_flow f); [|done].
  destruct (settle env f w) as [[w' a] r] eqn:Es. apply settle_spec in Es.
  assert (exists es, eff w' = eff w ++ es /\ sends es = [] /\ (a = true -> r = false)) as (es & He & Hs & Har).
  { destruct (decided (dm w) !! flow_key f) as [v|].
    { destruct Es as [-> Hf]. exists []. rewrite app_nil_r. destruct v; by injection Hf as -> ->. }
    destruct Es as [_ Hf]. unfold fresh_outcome in Hf. destruct (j_verdict _).
    1,2: destruct Hf as (Hf & _ & _ & _ & es & He & Hi & _); injection Hf as -> ->;
         exists es; by rewrite (sends_ioctl es Hi).
    destruct Hf as (_ & -> & Hf). destruct (enforcing _).
    - destruct Hf as (-> & _ & _ & es & He & Hp). exists es. split; [done|]. split; [|done].
      by destruct Hp as [[_ ->]|[_ [argv ->]]].
    - destruct Hf as (-> & _ & He & _). exists []. by rewrite app_nil_r. }
  rewrite deliver_eq, eff_emit, He, <- app_assoc. eexists. split; [done|]. unfold sends.
  rewrite !filter_app. fold (sends es). rewrite Hs. cbn [app].
  destruct (enforcing (mode (dm w'))), a, r; cbn [andb orb negb]; rewrite ?app_nil_r; auto;
    try (by specialize (Har eq_refl)).
  right; left. apply sends_reset.
Qed.

(** A settled flow costs nothing: its later packets are answered from the verdict
    that was remembered, with no state change at all, and with the same outcome for the
    packet as the first one had - reinjected, or reset, and never a second prompt. *)
Theorem settled_flow env pkt w f v :
  parse pkt = Ok f -> is_dns_reply f = false -> starts_flow f = true ->
  decided (dm w) !! flow_key f = Some v -> v <> Ask ->
  handle_packet env pkt 0 w
  = emit (delivery (enforcing (mode (dm w))) (bool_decide (v = Allow)) (bool_decide (v = Deny)) pkt 0) w.
Proof.
  intros Hp Hd Hs Hn Hv. unfold handle_packet. rewrite Hp. cbn [to_option]. rewrite Hd, Hs. cbn [Z.eqb negb].
  destruct (settle env f w) as [[w' a] r] eqn:Es. apply settle_spec in Es. rewrite Hn in Es.
  destruct Es as [-> Hf]. rewrite deliver_eq. by destruct v; [injection Hf as -> ->..|].
Qed.

(** ** The binary behind a path *)

(** The file at [path] is not the one that was approved, and sha256(1) says so. *)
Definition replaced (env : Env) (w : World) (path : str) : Prop :=
  exists expected c actual,
    expected_id (pol (dm w)) path = Some expected
    /\ hash (e_stat env path) (e_sha env path) path (ident (dm w)) = (c, Some actual) /\ actual <> expected.

Lemma check_identity_replaced env path w : replaced env w path <-> (check_identity env path w).2 = true.
Proof.
  unfold replaced, check_identity. destruct (expected_id _ _) as [x|].
  - destruct (hash _ _ _ _) as [c [a|]].
    + destruct (str_eqb a x) eqn:E; cbn [negb snd].
      * split; [|done]. intros (x' & c' & a' & [= <-] & [= <- <-] & Hne). 
        by apply str_eqb_eq in E.
      * split; [done|]. intros _. exists x, c, a. split_and!; try done. intros ->. by rewrite str_eqb_refl in E.
    + cbn. split; [|done]. by intros (? & ? & ? & _ & ? & _).
  - split; [|done]. by intros (? & ? & ? & ? & _).
Qed.

Lemma attribute_ident env t w :
  ident (dm (attribute env t w).1) = ident (dm w) /\ files_ (attribute env t w).1 = files_ w.
Proof.
  unfold attribute. destruct (kern (dm w)) as [k|].
  - destruct (query k t) as [k' [a|]]; [done|]. by destruct (resolve _ _ _ _ _ _) as [[] ?].
  - by destruct (resolve _ _ _ _ _ _) as [[] ?].
Qed.

(** The verdict on an upcall. *)
Definition upcall_verdict (env : Env) (ev : KernEvent) (w : World) : Verdict :=
  if (check_identity env (ev_path ev) w).2 then Ask
  else decide_verdict (pol (dm w)) (Some (ev_path ev)) (ev_dst ev) (name_for (names (dm w)) (ev_dst ev)) (ev_dport ev).

Definition upcall_question (ev : KernEvent) (w : World) : Key :=
  (ev_path ev, ask_key (nonempty (default [] (name_for (names (dm w)) (ev_dst ev)))) (ev_dst ev)).

(** The answer to one upcall. *)
Definition resolution (w : World) (id : Z) (allow : bool) : list effect :=
  match kern (dm w) with
  | Some k => if dead k then [] else [Ioctl resolve_cmd (resolve_request id allow)]
  | None => []
  end.

Lemma with_kern_resolve env id allow w :
  eff (with_kern (k_resolve env id allow) w) = eff w ++ resolution w id allow
  /\ pending_upcalls (dm (with_kern (k_resolve env id allow) w)) = pending_upcalls (dm w)
  /\ asking (dm (with_kern (k_resolve env id allow) w)) = asking (dm w).
Proof.
  unfold with_kern, resolution, k_resolve. destruct (kern (dm w)) as [k|]; [|by rewrite app_nil_r].
  by destruct (dead k).
Qed.

Lemma check_identity_kern env path w : kern (dm (check_identity env path w).1) = kern (dm w).
Proof.
  unfold check_identity. destruct (expected_id _ _); [|done]. destruct (hash _ _ _ _) as [c [a|]]; [|done].
  by destruct (negb _).
Qed.

(** An upcall that is not settled waits, and its question is asked. *)
Definition waits (ev : KernEvent) (w w' : World) (es : list effect) : Prop :=
  let q := upcall_question ev w in
  asking (dm w') = {[q]} ∪ asking (dm w)
  /\ pending_upcalls (dm w')
     = <[q := default [] (pending_upcalls (dm w) !! q) ++ [ev_id ev]]> (pending_upcalls (dm w))
  /\ ((q ∈ asking (dm w) /\ es = [])
      \/ ((q ∉ asking (dm w)) /\
          (exists argv, es = [Prompt (prompt_exe (dm w) :: argv)
             (mk_pending (nonempty (default [] (name_for (names (dm w)) (ev_dst ev))))
                (Some (ev_path ev)) (ev_dst ev) (ev_dport ev))]))).

Definition answers (env : Env) (ev : KernEvent) (w : World) (allow : bool) : Prop :=
  eff (handle_upcall env ev w) = eff w ++ resolution w (ev_id ev) allow
  /\ pending_upcalls (dm (handle_upcall env ev w)) = pending_upcalls (dm w)
  /\ asking (dm (handle_upcall env ev w)) = asking (dm w).

Lemma upcall_cases env ev w :
  if decide (ev_path ev = []) then answers env ev w true
  else match upcall_verdict env ev w with
       | Allow => answers env ev w true
       | Deny => answers env ev w false
       | Ask => exists es, eff (handle_upcall env ev w) = eff w ++ es /\ waits ev w (handle_upcall env ev w) es
       end.
Proof.
  unfold answers, waits, handle_upcall, upcall_verdict, upcall_question. destruct (ev_path ev) as [|c path] eqn:Ep.
  { destruct (with_kern_resolve env (ev_id ev) true w) as (-> & Hp & Ha). by destruct (decide _). }
  destruct (decide _) as [|_]; [done|].
  rewrite <- Ep. pose proof (check_identity_quiet env (ev_path ev) w) as Hq.
  pose proof (check_identity_kern env (ev_path ev) w) as Hkn.
  destruct (check_identity env (ev_path ev) w) as [w1 ch]. cbn [fst snd] in *.
  rewrite (q_pol _ _ Hq).
  assert (forall allow, resolution w1 (ev_id ev) allow = resolution w (ev_id ev) allow) as Hres.
  { intros. unfold resolution. by rewrite Hkn. }
  destruct (if ch then Ask else _).
  - destruct (with_kern_resolve env (ev_id ev) true w1) as (-> & Hp & Ha).
    by rewrite Hres, (q_eff _ _ Hq), Hp, Ha, (q_pending _ _ Hq), (q_asking _ _ Hq).
  - destruct (with_kern_resolve env (ev_id ev) false w1) as (-> & Hp & Ha).
    by rewrite Hres, (q_eff _ _ Hq), Hp, Ha, (q_pending _ _ Hq), (q_asking _ _ Hq).
  - rewrite (q_asking _ _ Hq). case_bool_decide as Hin; cbn [spawn_prompt emit upd dm eff set_asking
      asking set_pending_upcalls pending_upcalls prompt_exe]; rewrite ?(q_pending _ _ Hq), ?(q_asking _ _ Hq),
      ?(q_eff _ _ Hq), ?(q_prompt _ _ Hq).
    + exists []. rewrite app_nil_r. split_and!; [done| |done|by left]. apply set_eq; set_solver.
    + eexists. split_and!; [done..|]. right. split; [done|]. by eexists.
Qed.

(** Every upcall is answered or waits: an event of a binary with no path is allowed,
    a settled verdict is sent back at once as the answer to that very event and asks
    nothing, and otherwise nothing is sent to the module, the event waits under its
    question, the question is being asked, and a prompt was raised unless it already was. *)
Theorem upcall_answered_or_waiting env ev w :
  let verdict := if bool_decide (ev_path ev = []) then Allow else upcall_verdict env ev w in
  let w' := handle_upcall env ev w in
  exists es, eff w' = eff w ++ es
  /\ match verdict with
     | Ask => waits ev w w' es
     | v => es = resolution w (ev_id ev) (bool_decide (v = Allow))
            /\ pending_upcalls (dm w') = pending_upcalls (dm w) /\ asking (dm w') = asking (dm w)
     end.
Proof.
  cbn zeta. pose proof (upcall_cases env ev w) as H. case_bool_decide as Hp.
  - rewrite decide_True in H by done. destruct H as (? & ? & ?). by eexists.
  - rewrite decide_False in H by done.
    destruct (upcall_verdict env ev w); [destruct H as (? & ? & ?); by eexists..|done].
Qed.

(** C5. A replaced binary gets nothing through: in enforcement, the first packet of a flow
    of a binary that is not the approved one is neither reinjected nor remembered, and no
    verdict for it reaches the kernel's cache; an upcall of such a binary is not answered.
    All that happens, in both cases, is at most one prompt. *)
Theorem replaced_binary_held env pkt w f w1 att ev :
  mode (dm w) = Enforcement ->
  parse pkt = Ok f -> is_dns_reply f = false -> starts_flow f = true -> decided (dm w) !! flow_key f = None ->
  attribute env (flow_tuple f) w = (w1, Some att) -> replaced env w (exe_path (owner att)) ->
  ev_path ev <> [] -> replaced env w (ev_path ev) ->
  (exists es, eff (handle_packet env pkt 0 w) = eff w ++ es /\ Forall (fun e => is_prompt e = true) es
     /\ (length es <= 1)%nat)
  /\ decided (dm (handle_packet env pkt 0 w)) = decided (dm w)
  /\ (exists es, eff (handle_upcall env ev w) = eff w ++ es /\ Forall (fun e => is_prompt e = true) es
     /\ (length es <= 1)%nat).
Proof.
  intros Hm Hp Hd Hs Hn Ha Hr Hev Hre.
  assert (replaced env w1 (exe_path (owner att))) as Hr1.
  { destruct (attribute_ident env (flow_tuple f) w) as [Hi _]. pose proof (attribute_quiet env (flow_tuple f) w) as Hq.
    rewrite Ha in Hi, Hq. cbn [fst] in Hi, Hq. destruct Hr as (x & c & a & H1 & H2 & H3).
    exists x, c, a. by rewrite Hi, (q_pol _ _ Hq). }
  assert (j_verdict (judge env f w).2 = Ask) as Hv.
  { unfold judge. rewrite Ha. cbn [fmap option_fmap option_map compose]. apply check_identity_replaced in Hr1.
    unfold compose. destruct (check_identity env (exe_path (owner att)) w1) as [w2 ch]. cbn [snd] in *. by subst. }
  pose proof (proj2 (enforcing_true w) Hm) as He.
  assert (Hsmall : forall es f0 j0, prompts_for f0 j0 w es -> Forall (fun e => is_prompt e = true) es /\ (length es <= 1)%nat).
  { intros es f0 j0 [[_ ->]|(_ & argv & ->)]; split; cbn; try lia; repeat constructor. }
  unfold handle_packet. rewrite Hp. cbn [to_option]. rewrite Hd. cbn [Z.eqb negb]. rewrite Hs.
  destruct (settle env f w) as [[w' a] r] eqn:Es. apply settle_spec in Es. rewrite Hn in Es.
  destruct Es as [Hk Hf]. rewrite deliver_eq, (kp_mode _ _ Hk), He, eff_emit. cbn [negb orb andb emit dm].
  unfold fresh_outcome in Hf. rewrite He, Hv in Hf.
  destruct Hf as (Hdec & -> & -> & _ & _ & es & Hes & Hpr). split_and!.
  - exists es. rewrite Hes. cbn [app]. rewrite app_nil_r. split; [done|]. by eapply Hsmall.
  - done.
  - pose proof (upcall_cases env ev w) as Hu. rewrite decide_False in Hu by done.
    unfold upcall_verdict in Hu. apply check_identity_replaced in Hre. rewrite Hre in Hu.
    destruct Hu as (eu & Heu & _ & _ & Hu). exists eu. split; [done|].
    destruct Hu as [[_ ->]|(_ & argv & ->)]; split; cbn; try lia; repeat constructor.
Qed.

(** ** An answer *)

Section answer.
Context (env : Env).

(** The binary is pinned to what it is now. *)
Definition repin (e : str) (w : World) : World :=
  let w := upd (fun d => set_id_warned (id_warned d ∖ {[e]}) (set_pol (forget_id (pol d) e) d)) w in
  let '(c, sha) := hash (e_stat env e) (e_sha env e) e (ident (dm w)) in
  let w := upd (set_ident c) w in
  match sha with
  | Some sha =>
      let '(p', fs') := @record_id (e_io env) (pol (dm w)) (files_ w) POLICY_PATH e sha in
      set_fs fs' (upd (set_pol p') w)
  | None => w
  end.

Definition record_answer (ans : Answer) (p : Pending) (w : World) : World :=
  let '(p', fs') := @record (e_io env) (pol (dm w)) (files_ w) POLICY_PATH ans (p_exe p) (p_dst p) (p_host p)
                      (p_dport p) Approved in
  set_fs fs' (upd (set_pol p') w).

Definition release (ans : Answer) (p : Pending) (w : World) : World :=
  let key := pending_key p in
  let w := upd (fun d => set_asking (asking d ∖ {[key]}) d) w in
  match pending_upcalls (dm w) !! key with
  | Some ids =>
      resolve_all env ids (approves ans)
        (upd (fun d => set_pending_upcalls (delete key (pending_upcalls d)) d) w)
  | None => w
  end.

Lemma handle_answer_eq ans p w :
  handle_answer env ans p w
  = record_answer ans p
      (match p_exe p with
       | Some e => if approves ans then repin e (release ans p w) else release ans p w
       | None => release ans p w
       end).
Proof. done. Qed.
End answer.

(** Recording an answer leaves the settings alone. *)
Lemma record_settings `{Io} (p : Policy) (fs : Fs) path ans exe dst host dport origin p' fs' :
  record p fs path ans exe dst host dport origin = (p', fs') ->
  p_mode p' = p_mode p /\ p_attribution p' = p_attribution p /\ app_id p' = app_id p.
Proof.
  unfold record. destruct (record_entry _ _ _ _ _ _) as [[c line]|] eqn:E; [|by intros [= <- <-]].
  intros Hp. apply pair_eq in Hp as [<- _]. clear -E. unfold record_entry in E.
  destruct ans, exe as [e|]; try discriminate E; try (destruct (named host));
    apply some_pair in E as [-> _]; by destruct p.
Qed.

Lemma record_id_settings `{Io} (p : Policy) (fs : Fs) path exe sha p' fs' :
  record_id p fs path exe sha = (p', fs') -> p_mode p' = p_mode p /\ p_attribution p' = p_attribution p.
Proof.
  unfold record_id. destruct (app_id p !! exe); intros Hp; apply pair_eq in Hp as [<- _]; by destruct p.
Qed.

Lemma forget_id_settings p exe :
  p_mode (forget_id p exe) = p_mode p /\ p_attribution (forget_id p exe) = p_attribution p.
Proof. by destruct p. Qed.

(** Only the policy's rules, identities and the files change. *)
Record ruled (w w' : World) : Prop := mk_ruled {
  r_pmode : p_mode (pol (dm w')) = p_mode (pol (dm w));
  r_pattr : p_attribution (pol (dm w')) = p_attribution (pol (dm w));
  r_mode : mode (dm w') = mode (dm w);
  r_kern : kern (dm w') = kern (dm w);
  r_upcall : upcall_on (dm w') = upcall_on (dm w);
  r_pending : pending_upcalls (dm w') = pending_upcalls (dm w);
  r_asking : asking (dm w') = asking (dm w);
  r_decided : decided (dm w') = decided (dm w);
  r_names : names (dm w') = names (dm w);
  r_eff : eff w' = eff w
}.

#[export] Instance ruled_preorder : PreOrder ruled.
Proof.
  split.
  - intros w. by constructor.
  - intros a b c [] []. constructor; congruence.
Qed.

Section answer_facts.
Context (env : Env).

Lemma repin_ruled e w : ruled w (repin env e w).
Proof.
  unfold repin. destruct (hash _ _ _ _) as [c [sha|]].
  - destruct (record_id _ _ _ _ _) as [p' fs'] eqn:E. apply record_id_settings in E as [E1 E2].
    destruct (forget_id_settings (pol (dm w)) e) as [E3 E4].
    constructor; cbn; try reflexivity; [rewrite E1|rewrite E2]; done.
  - destruct (forget_id_settings (pol (dm w)) e) as [E3 E4]. by constructor.
Qed.

Lemma record_answer_ruled ans p w : ruled w (record_answer env ans p w).
Proof.
  unfold record_answer. destruct (record _ _ _ _ _ _ _ _ _) as [p' fs'] eqn:E.
  apply record_settings in E as (E1 & E2 & _). by constructor.
Qed.

Lemma handle_answer_ruled ans p w : ruled (release env ans p w) (handle_answer env ans p w).
Proof.
  rewrite handle_answer_eq. etransitivity; [|apply record_answer_ruled].
  destruct (p_exe p); [|done]. destruct (approves ans); [apply repin_ruled|done].
Qed.

(** The answers to the upcalls that waited: none of them is left out. *)
Definition accepts (k : KernAttr) : Prop :=
  dead k = false /\ forall b e, @ioctl (e_dev env) resolve_cmd b = inl e -> fatal_errno e = false.

Lemma resolve_all_live ids allow w k :
  kern (dm w) = Some k -> accepts k ->
  eff (resolve_all env ids allow w) = eff w ++ map (fun id => Ioctl resolve_cmd (resolve_request id allow)) ids.
Proof.
  intros Hk [Hd Ha]. revert w Hk. induction ids as [|id ids IH]; intros w Hk; cbn [resolve_all foldl map].
  { by rewrite app_nil_r. }
  unfold resolve_all in IH.
  assert (with_kern (k_resolve env id allow) w
          = emit [Ioctl resolve_cmd (resolve_request id allow)] (upd (set_kern (Some k)) w)) as ->.
  { unfold with_kern, k_resolve. rewrite Hk, Hd. unfold resolve_event, send. rewrite Hd.
    destruct (ioctl resolve_cmd _) as [e|b] eqn:E; [|done]. unfold note_errno.
    by rewrite (Ha _ _ E). }
  rewrite IH by done. cbn [eff emit upd]. by rewrite <- app_assoc.
Qed.

Lemma release_spec ans p w :
  let w' := release env ans p w in
  exists k es, w' = emit es (upd (set_kern k) (upd (fun d =>
      set_pending_upcalls (delete (pending_key p) (pending_upcalls d))
        (set_asking (asking d ∖ {[pending_key p]}) d)) w))
  /\ (is_Some k <-> is_Some (kern (dm w))) /\ Forall is_ioctl es.
Proof.
  cbn zeta. unfold release. cbn [upd dm pending_upcalls set_asking].
  destruct (pending_upcalls (dm w) !! pending_key p) as [ids|] eqn:E.
  - destruct (resolve_all_spec env ids (approves ans)
      (upd (fun d => set_pending_upcalls (delete (pending_key p) (pending_upcalls d)) d)
         (upd (fun d => set_asking (asking d ∖ {[pending_key p]}) d) w))) as (k & es & Hr & Hk & He).
    exists k, es. split_and!; [exact Hr|done|done].
  - exists (kern (dm w)), []. split_and!; [|done|constructor].
    destruct w as [[] ? ?]. unfold emit, upd, set_asking, set_pending_upcalls, set_kern in *; cbn in *.
    by rewrite app_nil_r, delete_id.
Qed.
End answer_facts.

(** An answer closes its question: the question is no longer being asked, no upcall
    waits for it, and with a device that takes it every event that waited - all of them, in
    the order they came, and no others - is answered, with "allow" exactly for the two
    approving answers; nothing else is emitted, and no flow that was settled changes. *)
Theorem answer_releases env ans p w k :
  kern (dm w) = Some k -> accepts env k ->
  let w' := handle_answer env ans p w in
  let ids := default [] (pending_upcalls (dm w) !! pending_key p) in
  let allow := bool_decide (ans = AllowConn \/ ans = AllowApp) in
  eff w' = eff w ++ map (fun id => Ioctl resolve_cmd (resolve_request id allow)) ids
  /\ asking (dm w') = asking (dm w) ∖ {[pending_key p]}
  /\ pending_upcalls (dm w') = delete (pending_key p) (pending_upcalls (dm w))
  /\ decided (dm w') = decided (dm w).
Proof.
  intros Hk Hacc. cbn zeta.
  assert (bool_decide (ans = AllowConn \/ ans = AllowApp) = approves ans) as ->.
  { destruct ans; case_bool_decide as H; cbn; try done; try (exfalso; apply H; tauto); destruct H; done. }
  pose proof (handle_answer_ruled env ans p w) as Hr.
  rewrite (r_eff _ _ Hr), (r_asking _ _ Hr), (r_pending _ _ Hr), (r_decided _ _ Hr).
  destruct (release_spec env ans p w) as (k' & es & Hw & _ & _). split_and!.
  - unfold release. cbn [upd dm pending_upcalls set_asking].
    destruct (pending_upcalls (dm w) !! pending_key p) as [ids|] eqn:E; cbn [default].
    + by erewrite resolve_all_live.
    + by rewrite app_nil_r.
  - by rewrite Hw.
  - by rewrite Hw.
  - by rewrite Hw.
Qed.

Lemma hash_again stat sha path c c' r : hash stat sha path c = (c', r) -> hash stat sha path c' = (c', r).
Proof.
  intros Hh. destruct stat as [[m s]|]; [|by injection Hh as <- <-].
  assert (forall h c0, c0 !! path = Some (m, s, h) -> hash (Some (m, s)) sha path c0 = (c0, Some h)) as Hhit.
  { intros h c0 Hc. unfold hash. rewrite Hc. by rewrite !Z.eqb_refl. }
  destruct (c !! path) as [[[m0 s0] h0]|] eqn:Ec.
  - unfold hash in Hh. rewrite Ec in Hh. destruct ((m0 =? m) && (s0 =? s)) eqn:Em.
    + injection Hh as <- <-. unfold hash. by rewrite Ec, Em.
    + destruct sha as [[[] out_]|]; [|by injection Hh as <- <-; unfold hash; rewrite Ec, Em..].
      destruct (trim (utf8_lossy out_)) eqn:Et; [injection Hh as <- <-; unfold hash; by rewrite Ec, Em, Et|].
      injection Hh as <- <-. apply Hhit. by rewrite lookup_insert_eq.
  - unfold hash in Hh. rewrite Ec in Hh.
    destruct sha as [[[] out_]|]; [|by injection Hh as <- <-; unfold hash; rewrite Ec..].
    destruct (trim (utf8_lossy out_)) eqn:Et; [injection Hh as <- <-; unfold hash; by rewrite Ec, Et|].
    injection Hh as <- <-. apply Hhit. by rewrite lookup_insert_eq.
Qed.

(** After an approval the binary is the approved one. *)
Lemma repin_pins env e w :
  (forall c a, hash (e_stat env e) (e_sha env e) e (ident (dm w)) = (c, Some a) -> to_lowercase a = a) ->
  let w' := repin env e w in
  exists c r, hash (e_stat env e) (e_sha env e) e (ident (dm w')) = (c, r)
    /\ (expected_id (pol (dm w')) e = r).
Proof.
  intros Hlow. cbn zeta. unfold repin. cbn [upd dm ident set_id_warned set_pol].
  destruct (hash (e_stat env e) (e_sha env e) e (ident (dm w))) as [c r] eqn:Eh.
  pose proof (hash_again _ _ _ _ _ _ Eh) as Ha. destruct r as [sha|].
  - destruct (record_id _ _ _ _ _) as [p' fs'] eqn:Er. exists c, (Some sha). split; [exact Ha|].
    cbn [upd set_fs dm set_pol pol files_ set_ident set_id_warned ident] in Er |- *. unfold record_id in Er.
    assert (app_id (forget_id (pol (dm w)) e) !! e = None) as Hn.
    { destruct (pol (dm w)). cbn. apply lookup_delete_eq. }
    rewrite Hn in Er. apply pair_eq in Er as [<- _]. unfold expected_id.
    rewrite (Hlow c sha eq_refl). destruct (forget_id (pol (dm w)) e). cbn. apply lookup_insert_eq.
  - exists c, None. split; [exact Ha|]. cbn. unfold expected_id. destruct (pol (dm w)). cbn. apply lookup_delete_eq.
Qed.

Lemma repin_denies env e w exe dst host dport :
  denies_b (pol (dm (repin env e w))) exe dst host dport = denies_b (pol (dm w)) exe dst host dport.
Proof.
  unfold repin. assert (denies_b (forget_id (pol (dm w)) e) exe dst host dport = denies_b (pol (dm w)) exe dst host dport) as Hf.
  { by destruct (pol (dm w)). }
  destruct (hash _ _ _ _) as [c [sha|]]; [|exact Hf].
  destruct (record_id _ _ _ _ _) as [p' fs'] eqn:Er. cbn. rewrite <- Hf. unfold record_id in Er.
  destruct (app_id _ !! e); apply pair_eq in Er as [<- _]; [done|]. cbn [upd dm set_pol pol set_ident set_id_warned].
  by destruct (forget_id (pol (dm w)) e).
Qed.

Lemma record_answer_ident env ans p w : ident (dm (record_answer env ans p w)) = ident (dm w).
Proof. unfold record_answer. by destruct (record _ _ _ _ _ _ _ _ _). Qed.

(** Recording an approval applies the rule it stands for and pins nothing new. *)
Lemma record_answer_approves env ans p e w :
  ans = AllowConn \/ ans = AllowApp -> p_exe p = Some e ->
  exists line c, record_entry ans (Some e) (p_dst p) (p_host p) (p_dport p) Approved = Some (c, line)
    /\ pol (dm (record_answer env ans p w)) = apply_change c (pol (dm w))
    /\ app_id (pol (dm (record_answer env ans p w))) = app_id (pol (dm w)).
Proof.
  intros Ha He. unfold record_answer. rewrite He. destruct (record _ _ _ _ _ _ _ _ _) as [p' fs'] eqn:Er.
  destruct (record_settings _ _ _ _ _ _ _ _ _ _ _ Er) as (_ & _ & Hi).
  cbn [upd set_fs dm pol set_pol]. rewrite Hi. unfold record in Er.
  destruct (record_entry ans (Some e) (p_dst p) (p_host p) (p_dport p) Approved) as [[c line]|] eqn:Ec.
  - apply pair_eq in Er as [<- _]. by exists line, c.
  - exfalso. clear -Ec Ha. unfold record_entry in Ec. destruct Ha as [-> | ->]; [|discriminate Ec].
    destruct (named _); discriminate Ec.
Qed.

(** An approval is the end of the question: when the user approves a binary, the
    binary now behind its path becomes the approved one, and the retried packet of the
    same connection is settled - allowed, or denied where a deny rule that was there all
    along covers it - even if the question was raised because the binary had changed. *)
Theorem approval_settles_retry env env2 ans p w e f w1 att :
  ans = AllowConn \/ ans = AllowApp -> p_exe p = Some e ->
  e_stat env2 e = e_stat env e -> e_sha env2 e = e_sha env e ->
  (forall c a, hash (e_stat env e) (e_sha env e) e (ident (dm w)) = (c, Some a) -> to_lowercase a = a) ->
  f_dst f = p_dst p -> f_dport f = p_dport p -> name_for (names (dm w)) (p_dst p) = p_host p ->
  attribute env2 (flow_tuple f) (handle_answer env ans p w) = (w1, Some att) -> exe_path (owner att) = e ->
  (judge env2 f (handle_answer env ans p w)).2
  = mk_judged (Some att) false
      (if bool_decide (denies (pol (dm w)) (Some e) (p_dst p) (p_host p) (p_dport p)) then Deny else Allow).
Proof.
  intros Ha He Hst Hsh Hlow Hd1 Hd2 Hn Hatt Hexe.
  assert (approves ans = true) as Hap by by destruct Ha as [-> | ->].
  assert (Hpins : let w2 := repin env e (release env ans p w) in
            exists c r, hash (e_stat env e) (e_sha env e) e (ident (dm w2)) = (c, r)
              /\ expected_id (pol (dm w2)) e = r).
  { apply repin_pins. destruct (release_spec env ans p w) as (k & es & -> & _). exact Hlow. }
  assert (denies_b (pol (dm (repin env e (release env ans p w)))) (Some e) (p_dst p) (p_host p) (p_dport p)
          = denies_b (pol (dm w)) (Some e) (p_dst p) (p_host p) (p_dport p)) as Hden.
  { rewrite repin_denies. by destruct (release_spec env ans p w) as (k & es & -> & _). }
  pose proof (handle_answer_ruled env ans p w) as Hru.
  rewrite handle_answer_eq, He, Hap in Hatt, Hru |- *.
  set (w2 := repin env e (release env ans p w)) in *.
  assert (names (dm (record_answer env ans p w2)) = names (dm w)) as Hnames.
  { rewrite (r_names _ _ Hru). by destruct (release_spec env ans p w) as (k & es & -> & _). }
  destruct (record_answer_approves env ans p e w2 Ha He) as (line & c & Hc & Hpol & Happ).
  pose proof (attribute_quiet env2 (flow_tuple f) (record_answer env ans p w2)) as Hq.
  pose proof (attribute_ident env2 (flow_tuple f) (record_answer env ans p w2)) as [Hi2 _].
  unfold judge. rewrite Hatt in Hq, Hi2 |- *. cbn [fst] in Hq, Hi2. cbn [fmap option_fmap option_map compose].
  unfold compose. rewrite Hexe.
  assert (exists w3, quiet w1 w3 /\ check_identity env2 e w1 = (w3, false)) as (w3 & Hq3 & ->).
  { pose proof (check_identity_quiet env2 e w1) as Hc1.
    assert ((check_identity env2 e w1).2 = false) as Hf.
    { apply not_true_iff_false. intros Ht. apply check_identity_replaced in Ht as (x & c0 & a & H1 & H2 & H3).
      rewrite (q_pol _ _ Hq), Hst, Hsh, Hi2, record_answer_ident in *. destruct Hpins as (c1 & r & Hp1 & Hp2).
      rewrite Hp1 in H2. unfold expected_id in H1, Hp2. rewrite Happ, Hp2 in H1. congruence. }
    destruct (check_identity env2 e w1) as [w3 ch]. cbn in *. subst. by exists w3. }
  cbn [snd]. f_equal.
  rewrite (q_pol _ _ Hq3), (q_pol _ _ Hq), (q_names _ _ Hq), Hnames, Hd1, Hd2, Hn, Hpol, decide_verdict_eq.
  destruct (proj1 (record_covers _ _ _ _ _ _ _ _ (pol (dm w2)) Hc) Ha) as [Hall Hdd].
  rewrite Hall, Hdd, Hden.
  case_bool_decide as Hb; [apply denies_b_spec in Hb; by rewrite Hb|].
  destruct (denies_b (pol (dm w)) (Some e) (p_dst p) (p_host p) (p_dport p)) eqn:E; [|done].
  by apply denies_b_spec in E.
Qed.
