(* ===== verification/DaemonIo.v ===== *)
(** One turn of the receive loop on the divert socket (main.rs, [run]): the packet the
    kernel hands over, the handler of Daemon.v, and what is sent back, as system calls. *)
From S2P Require Import Prelude Unicode RustStr IpAddr Packet Reset Abi KernAttr Handles Policy Daemon DaemonSpec.

Section io.
Context `{Os}.

(** A [recvfrom] that returns at most as many bytes as it was given room for. *)
Definition os_recv : Prop := forall h fd len flags, ret (answer h (Recvfrom fd len flags)) <= Z.of_nat len.

(** The effects of a handler that go through the socket; errors are only logged. *)
Definition send_effect (d : Divert) (from : list Z) (e : effect) : sysm unit :=
  match e with
  | Reinject pkt _ => reinject d pkt from ;; mret tt
  | ReinjectInbound pkt => reinject_inbound d pkt ;; mret tt
  | _ => mret tt
  end.

(** [match d.recv(&mut buf)]: any error is the end of the turn; otherwise the packet is
    [&buf[..n]], handled, and answered.  [None] is an index out of range. *)
Definition serve (env : Env) (d : Divert) (buf : list Z) (w : World) : sysm (option World) :=
  '(v, buf') ← recv d buf;
  match v with
  | inl _ => mret (Some w)
  | inr (n, from) =>
      match slice buf' 0 n with
      | Ok pkt =>
          let w' := handle_packet env pkt (s_addr from) w in
          repeat_on (send_effect d from) (drop (length (eff w)) (eff w')) ;;
          mret (Some w')
      | _ => mret None
      end
  end.

(** The packet and the address a [recvfrom] delivered. *)
Definition received (buf : list Z) (a : reply) : list Z :=
  take (Z.to_nat (ret a)) (take (length buf) (data a) ++ drop (length (data a)) buf).
Definition received_from (a : reply) : list Z := buffer sockaddr_size (take sockaddr_size (peer a)).

(** The call an effect is. *)
Definition send_call (d : Divert) (from : list Z) (e : effect) : list call :=
  match e with
  | Reinject pkt _ => [Sendto (d_fd d) pkt 0 from]
  | ReinjectInbound pkt => [Sendto (d_fd d) pkt 0 inbound_addr]
  | _ => []
  end.

Lemma send_effect_hist d from e s :
  map fst (hist (send_effect d from e s).2) = map fst (hist s) ++ send_call d from e.
Proof.
  destruct e; cbn [send_call]; try (by cbn; rewrite app_nil_r);
    unfold send_effect, reinject_inbound, reinject, or_errno, mbind, sysm_bind, syscall;
    destruct (ret _ <? 0); cbn; by rewrite map_app.
Qed.

Lemma send_effects_hist d from es : forall s,
  map fst (hist (repeat_on (send_effect d from) es s).2)
  = map fst (hist s) ++ concat (map (send_call d from) (sends es)).
Proof.
  induction es as [|e es IH]; intros s; cbn [repeat_on]; [by cbn; rewrite app_nil_r|].
  unfold mbind, sysm_bind. pose proof (send_effect_hist d from e s) as He.
  destruct (send_effect d from e s) as [[] s1]. cbn [snd] in He. rewrite IH, He, <- app_assoc. f_equal.
  by destruct e.
Qed.

Lemma concat_reset d from pkt :
  concat (map (send_call d from) (reset_of pkt))
  = match to_option (tcp_rst pkt) with Some rst => [Sendto (d_fd d) rst 0 inbound_addr] | None => [] end.
Proof. unfold reset_of. by destruct (tcp_rst pkt). Qed.

Lemma recv_eq d buf s :
  let a := answer (hist s) (Recvfrom (d_fd d) (length buf) 0) in
  recv d buf s
  = ((if ret a <? 0 then inl (errno_after a) else inr (Z.to_nat (ret a), received_from a),
      take (length buf) (data a) ++ drop (length (data a)) buf),
     mk_sys (hist s ++ [(Recvfrom (d_fd d) (length buf) 0, ret a)]) (errno_after a)).
Proof. unfold recv, or_errno, mbind, sysm_bind, syscall. cbn zeta. by destruct (ret _ <? 0). Qed.

Lemma buffer_kept (buf b : list Z) : length (take (length buf) b ++ drop (length b) buf) = length buf.
Proof. rewrite length_app, length_take, length_drop. lia. Qed.

(** What one turn does, from the effects of the handler. *)
Lemma serve_eq env d buf w s :
  os_recv ->
  let c := Recvfrom (d_fd d) (length buf) 0 in
  let a := answer (hist s) c in
  let '(r, s') := serve env d buf w s in
  if ret a <? 0 then r = Some w /\ map fst (hist s') = map fst (hist s) ++ [c]
  else
    let pkt := received buf a in
    let w' := handle_packet env pkt (s_addr (received_from a)) w in
    r = Some w' /\ length pkt = Z.to_nat (ret a)
    /\ map fst (hist s') = map fst (hist s) ++ c
         :: concat (map (send_call d (received_from a)) (sends (drop (length (eff w)) (eff w')))).
Proof.
  intros Hlaw c a. unfold serve. unfold mbind at 1, sysm_bind at 1. rewrite recv_eq. fold c a.
  destruct (Z.ltb_spec (ret a) 0) as [|Hpos]; [cbn; by rewrite map_app|].
  pose proof (Hlaw (hist s) (d_fd d) (length buf) 0) as Hmax. fold c a in Hmax.
  unfold slice. rewrite buffer_kept.
  replace ((0 <=? Z.to_nat (ret a))%nat) with true by (symmetry; apply Nat.leb_le; lia).
  replace ((Z.to_nat (ret a) <=? length buf)%nat) with true by (symmetry; apply Nat.leb_le; lia).
  cbn [andb]. rewrite Nat.sub_0_r, drop_0. fold (received buf a).
  cbv zeta. set (w' := handle_packet _ _ _ _). unfold mbind, sysm_bind.
  match goal with |- context [repeat_on ?f ?es ?s0] =>
    pose proof (send_effects_hist d (received_from a) es s0) as Hh; destruct (repeat_on f es s0) as [[] s1] end.
  cbn [snd mret sysm_ret] in *. split; [done|]. split.
  { unfold received. rewrite length_take, buffer_kept. lia. }
  rewrite Hh. cbn [hist]. by rewrite map_app, <- app_assoc.
Qed.
End io.

(** C1. Visibility never blocks, down to the system calls: whatever packet the divert
    socket hands over, whatever the policy and the state, the turn neither aborts nor drops
    it - exactly one call follows the receive, and it sends the same bytes back to the
    address they came with, which is what tells the kernel their direction; no reset, no
    prompt, no verdict handed to the module.  A receive that fails changes nothing. *)
Theorem visibility_never_blocks `{Os} env d buf w s :
  os_recv -> mode (dm w) = Visibility ->
  let c := Recvfrom (d_fd d) (length buf) 0 in
  let a := answer (hist s) c in
  let pkt := received buf a in
  let from := received_from a in
  let '(r, s') := serve env d buf w s in
  if ret a <? 0 then r = Some w /\ map fst (hist s') = map fst (hist s) ++ [c]
  else exists w', r = Some w' /\ length pkt = Z.to_nat (ret a)
       /\ eff w' = eff w ++ [Reinject pkt (s_addr from)] /\ asking (dm w') = asking (dm w)
       /\ map fst (hist s') = map fst (hist s) ++ [c; Sendto (d_fd d) pkt 0 from].
Proof.
  intros Hlaw Hm c a pkt from. pose proof (serve_eq env d buf w s Hlaw) as E. cbv zeta in E.
  fold c a pkt from in E. destruct (serve env d buf w s) as [r s']. destruct (ret a <? 0); [done|].
  destruct E as (-> & Hl & Hh). destruct (visible_packet env pkt (s_addr from) w Hm) as [He Ha].
  eexists. split; [done|]. split; [done|]. split; [done|]. split; [done|].
  rewrite Hh, He, drop_app_length. done.
Qed.

(** C14. What leaves through the divert socket, in any mode: a turn receives once and sends
    at most once - the packet it received, whole and unchanged, to the address it came
    with, or the reset that answers it, to a non-zero address, which the kernel delivers
    inbound.  Nothing the daemon was not handed, and no forged segment but that reset, can
    enter the network. *)
Theorem packet_io `{Os} env d buf w s :
  os_recv ->
  let c := Recvfrom (d_fd d) (length buf) 0 in
  let a := answer (hist s) c in
  let pkt := received buf a in
  let '(r, s') := serve env d buf w s in
  r <> None /\ s_addr inbound_addr <> 0 /\ length inbound_addr = 16%nat
  /\ exists calls, map fst (hist s') = map fst (hist s) ++ c :: calls
       /\ (calls = []
           \/ (0 <= ret a /\ calls = [Sendto (d_fd d) pkt 0 (received_from a)])
           \/ (0 <= ret a /\ exists rst, tcp_rst pkt = Ok rst /\ calls = [Sendto (d_fd d) rst 0 inbound_addr])).
Proof.
  intros Hlaw c a pkt. pose proof (serve_eq env d buf w s Hlaw) as E. cbv zeta in E.
  fold c a pkt in E. destruct (serve env d buf w s) as [r s'].
  destruct (Z.ltb_spec (ret a) 0) as [|Hpos].
  { destruct E as [-> Hh]. split_and!; [done|by vm_compute|done|]. exists []. auto. }
  destruct E as (-> & _ & Hh). split_and!; [done|by vm_compute|done|]. rewrite Hh.
  eexists. split; [done|].
  destruct (packet_sends env pkt (s_addr (received_from a)) w) as (es & -> & Hs). rewrite drop_app_length.
  destruct Hs as [-> | [-> | ->]]; [by right; left| |by left]. rewrite concat_reset.
  destruct (tcp_rst pkt) as [rst| |] eqn:Er; cbn; [|by left..]. right; right. eauto.
Qed.

(** ** A kernel that behaves *)

(** The smallest descriptor nothing else has; calls succeed, and a receive delivers
    [pkt] as outbound. *)
Definition new_fd (h : history) : Z := Z.of_nat (fresh (set_map (C := gset Z) (D := gset nat) Z.to_nat (held h))).
Definition os_wire (pkt : list Z) : Os := fun h c =>
  match c with
  | Socket _ _ _ | Open _ _ => mk_reply (new_fd h) 0 [] []
  | Recvfrom _ len _ =>
      if (length pkt <=? len)%nat then mk_reply (Z.of_nat (length pkt)) 0 pkt (replicate 16 0)
      else mk_reply (-1) 35 [] []
  | _ => mk_reply 0 0 [] []
  end.

Lemma os_wire_fresh pkt : @os_fresh (os_wire pkt).
Proof.
  intros h c Hc _. assert (ret (@answer (os_wire pkt) h c) = new_fd h) as ->
    by (destruct Hc as [(? & ? & ? & ->)|(? & ? & ->)]; done).
  intros Hin. unfold new_fd in Hin. pose proof (is_fresh (set_map (C := gset Z) (D := gset nat) Z.to_nat (held h))) as Hf.
  apply Hf. apply elem_of_map. eexists. split; [|exact Hin]. by rewrite Nat2Z.id.
Qed.

Lemma os_wire_recv pkt : @os_recv (os_wire pkt).
Proof.
  intros h fd len flags. unfold answer, os_wire. destruct (Nat.leb_spec (length pkt) len); cbn [ret]; lia.
Qed.

Definition at_start : Sys := mk_sys [] 0.

Lemma bind_error_witness :
  (@divert_bind (os_wire []) 3000 at_start).1 = inr (mk_divert 0)
  /\ held (hist (@divert_bind (os_wire []) 3000 at_start).2) = {[0]}.
Proof.
  pose proof (@bind_error (os_wire []) 3000 at_start (os_wire_fresh []) eq_refl) as H. cbv zeta in H.
  destruct (@divert_bind (os_wire []) 3000 at_start) as [r s'] eqn:E. destruct H as [_ H].
  destruct (_ || _) eqn:Eo in H; [by vm_compute in Eo|]. destruct H as (-> & _ & Hh & _). cbn [fst snd]. rewrite Hh. split; vm_compute; reflexivity.
Defined.

Lemma timeout_bounds_witness :
  0 <= 100 < 2 ^ 64
  /\ (@set_read_timeout (os_wire []) (mk_divert 0) 100 at_start).1 = inr tt.
Proof.
  split; [lia|].
  destruct (@timeout_bounds (os_wire []) (mk_divert 0) 100 at_start ltac:(lia)) as (_ & _ & _ & v & _ & _ & _ & E).
  cbv zeta in E. rewrite E. reflexivity.
Defined.

Lemma handles_balanced_witness :
  held (hist (@scoped_handle (os_wire []) _ _ (@divert_bind (os_wire []) 3000) d_fd (@divert_do (os_wire []))
                [OpTimeout 100; OpRecv (replicate 8 0); OpInbound [69]] at_start).2) = ∅.
Proof.
  destruct (@handles_balanced (os_wire []) at_start (os_wire_fresh []) eq_refl) as [H _].
  destruct (H 3000 [OpTimeout 100; OpRecv (replicate 8 0); OpInbound [69]]) as [Hh _]. exact Hh.
Defined.
