(* ===== verification/DaemonLoop.v ===== *)
(** The daemon's loop as a transition system: the state is the world and the prompts that
    are still open; a step is one handler of Daemon.v, or an edit of the files by others.  The invariants hold in every state
    the loop can reach, and a pass of the loop is a sequence of steps. *)
From S2P Require Import Prelude Unicode RustStr IpAddr Target Policy PolicyFile PolicyEdit PolicyRecord Packet Reset Dns Procinfo Abi KernAttr Identity Seen Daemon DaemonSpec.

#[local] Arguments record : simpl never.
#[local] Arguments load : simpl never.
#[local] Arguments flush : simpl never.
#[local] Arguments POLICY_PATH : simpl never.
#[local] Arguments seen_new : simpl never.
#[local] Arguments prompt_bin : simpl never.

(** ** The tick *)

(** The effects of a tick: nothing is reinjected and nobody is asked. *)
Definition is_admin (e : effect) : Prop :=
  match e with Ioctl _ _ | UdpDivert _ | SpawnReader => True | _ => False end.

(** Whether unconnected UDP goes through the divert socket, after these effects. *)
Definition diverted (es : list effect) : bool :=
  foldl (fun b e => match e with UdpDivert x => x | _ => b end) true es.

Lemma diverted_ioctls es l : Forall is_ioctl l -> diverted (es ++ l) = diverted es.
Proof.
  intros Hl. unfold diverted. rewrite foldl_app. generalize (foldl (fun b e => match e with UdpDivert x => x | _ => b end) true es).
  induction Hl as [|e l He Hl IH]; intros b; cbn; [done|]. by destruct e.
Qed.

Lemma diverted_last es b : diverted (es ++ [UdpDivert b]) = b.
Proof. unfold diverted. by rewrite foldl_app. Qed.

Lemma ioctl_admin es : Forall is_ioctl es -> Forall is_admin es.
Proof. intros H. eapply Forall_impl; [exact H|]. by intros []. Qed.

Section tick.
Context (env : Env).

Lemma upcall_off_spec w :
  exists k es,
    upcall_off env w
    = emit (es ++ [UdpDivert true])
        (upd (fun d => set_pending_upcalls ∅ (set_upcall_on false (set_kern k d))) w)
    /\ (is_Some k <-> is_Some (kern (dm w))) /\ Forall is_ioctl es.
Proof.
  unfold upcall_off. destruct (with_kern_spec _ w (k_set_upcall_op env false)) as (k & es & -> & Hk & He).
  exists k, es. split_and!; [|done|done]. unfold emit, upd; cbn. by rewrite app_assoc.
Qed.

Lemma kern_backend_spec p :
  Forall is_ioctl (kern_backend env p).2
  /\ ((kern_backend env p).1 = None \/ attribution p = Policy.Kernel).
Proof.
  unfold kern_backend. case_bool_decide as Ha; [split; [constructor|by left]|].
  destruct (e_open env); [|split; [constructor|by left]].
  pose proof (k_flush_op env (mk_kern false)) as H. destruct (k_flush env (mk_kern false)) as [k es]. 
  split; [done|]. right. by destruct (attribution p).
Qed.

Lemma reconnect_spec w :
  exists k es, reconnect env w = emit es (upd (set_kern k) w) /\ Forall is_ioctl es.
Proof.
  assert (forall w0 : World, w0 = emit [] (upd (set_kern (kern (dm w0))) w0)) as Hid.
  { intros [[] ? ?]. unfold emit, upd, set_kern; cbn. by rewrite app_nil_r. }
  unfold reconnect. case_bool_decide; [|eexists _, []; split; [apply Hid|constructor]].
  destruct (kern (dm w)) as [k|] eqn:E.
  - destruct (dead k); [|eexists _, []; split; [apply Hid|constructor]].
    exists None, []. split; [|constructor]. unfold emit, upd; cbn. by rewrite app_nil_r.
  - destruct (e_open env); [|eexists _, []; split; [apply Hid|constructor]].
    pose proof (k_flush_op env (mk_kern false)) as Hop. destruct (k_flush env (mk_kern false)) as [k es].
    by exists (Some k), es.
Qed.

(** The policy and everything derived from it, replaced. *)
Definition reloaded (fallback : Mode) (k : option KernAttr) (up : bool) (pend : gmap Key (list Z)) (w : World)
  (d : Daemon) : Daemon :=
  let p := @load (e_io env) (files_ w) POLICY_PATH in
  set_decided ∅ (set_pending_upcalls pend (set_upcall_on up (set_kern k
    (set_mode (policy_mode p fallback) (set_pol p (set_pol_mtime (e_mtime env (files_ w)) d)))))).

Lemma reload_cases fallback w :
  (e_mtime env (files_ w) = pol_mtime (dm w) /\ reload env fallback w = w)
  \/ (e_mtime env (files_ w) <> pol_mtime (dm w) /\
      exists k es,
        (reload env fallback w
         = emit es (upd (reloaded fallback k (upcall_on (dm w)) (pending_upcalls (dm w)) w) w)
         /\ Forall is_ioctl es)
        \/ (upcall_on (dm w) = true /\
            exists es2, reload env fallback w
              = emit (es ++ [UdpDivert true] ++ es2) (upd (reloaded fallback k false ∅ w) w)
            /\ Forall is_ioctl es /\ Forall is_ioctl es2)).
Proof.
  unfold reload. case_bool_decide as Hm; [by left|]. right. split; [done|].
  set (p := @load _ (files_ w) POLICY_PATH). set (m := e_mtime env (files_ w)).
  set (w0 := upd _ w). 
  case_bool_decide as Ha.
  - destruct (with_kern_spec _ (upd (set_decided ∅) w0) (k_flush_op env)) as (k & es & -> & Hk & He).
    exists k, es. left. split; [|done]. by destruct w as [[] ? ?].
  - change (upcall_on (dm w0)) with (upcall_on (dm w)). destruct (upcall_on (dm w)) eqn:Eu.
    + destruct (upcall_off_spec w0) as (k0 & es0 & -> & _ & He0).
      pose proof (kern_backend_spec p) as [Hb _]. destruct (kern_backend env p) as [kb eb]. cbn [fst snd] in Hb.
      match goal with |- context [with_kern (k_flush env) ?x] =>
        destruct (with_kern_spec _ x (k_flush_op env)) as (k & es & -> & Hk & He) end.
      exists k, es0. right. split; [done|]. exists (eb ++ es). split_and!; [|done|by apply Forall_app].
      subst w0 p m. destruct w as [[] ? ?]. unfold emit, upd, reloaded; cbn in *. subst. f_equal. rewrite <- !app_assoc. done.
    + pose proof (kern_backend_spec p) as [Hb _]. destruct (kern_backend env p) as [kb eb]. cbn [fst snd] in Hb.
      match goal with |- context [with_kern (k_flush env) ?x] =>
        destruct (with_kern_spec _ x (k_flush_op env)) as (k & es & -> & Hk & He) end.
      exists k, (eb ++ es). left. split; [|by apply Forall_app].
      subst w0 p m. destruct w as [[] ? ?]. unfold emit, upd, reloaded; cbn in *. subst. f_equal. by rewrite <- !app_assoc.
Qed.

Lemma reconcile_cases w :
  let want := bool_decide (is_Some (kern (dm w))) && enforcing (mode (dm w)) in
  (reconcile env w = w /\ (upcall_on (dm w) = true -> want = true)
   /\ (want = true -> upcall_on (dm w) = true \/ e_reader env = false))
  \/ (want = true /\ exists k es,
        reconcile env w = emit (es ++ [SpawnReader; UdpDivert false]) (upd (fun d => set_upcall_on true (set_kern k d)) w)
        /\ is_Some k /\ Forall is_ioctl es)
  \/ (want = false /\ exists k es,
        reconcile env w = emit (es ++ [UdpDivert true])
          (upd (fun d => set_pending_upcalls ∅ (set_upcall_on false (set_kern k d))) w) 
        /\ (is_Some k <-> is_Some (kern (dm w))) /\ Forall is_ioctl es).
Proof.
  cbn zeta. unfold reconcile. destruct (bool_decide (is_Some (kern (dm w))) && enforcing (mode (dm w))) eqn:Ew.
  - cbn [andb negb]. destruct (upcall_on (dm w)); cbn [negb]; [left; split_and!; auto|].
    destruct (e_reader env); [|left; split_and!; auto].
    right. left. split; [done|].
    destruct (with_kern_spec _ w (k_set_upcall_op env true)) as (k & es & -> & Hk & He).
    exists k, es. split_and!; [|apply Hk; by apply andb_true_iff in Ew as [Ew%bool_decide_eq_true _]|done].
    unfold emit, upd; cbn. by rewrite app_assoc.
  - cbn [andb negb]. destruct (upcall_on (dm w)); [|left; split_and!; auto; done].
    right. right. split; [done|]. apply upcall_off_spec.
Qed.
End tick.

Section reload.
Context (env : Env) (fallback : Mode).

Lemma flush_last w k :
  kern (dm (with_kern (k_flush env) w)) = Some k -> dead k = false ->
  eff (with_kern (k_flush env) w) = eff w ++ [Ioctl verdict_flush_cmd []].
Proof.
  unfold with_kern, k_flush. destruct (kern (dm w)) as [k0|] eqn:E; [|congruence].
  destruct (dead k0) eqn:Ed; [|done]. cbn. intros [= <-]. congruence.
Qed.

Lemma reload_flushes w :
  e_mtime env (files_ w) <> pol_mtime (dm w) ->
  exists w1 es, reload env fallback w = with_kern (k_flush env) w1 /\ eff w1 = eff w ++ es /\ Forall is_admin es.
Proof.
  intros Hm. unfold reload. rewrite bool_decide_eq_false_2 by done. cbn zeta.
  case_bool_decide; [eexists _, []; split; [done|]; split; [cbn; by rewrite app_nil_r|constructor]|].
  match goal with |- context [if ?b then upcall_off env ?w0 else ?w0] =>
    assert (exists es, eff (if b then upcall_off env w0 else w0) = eff w ++ es /\ Forall is_admin es) as (es & He & Ha) end.
  { cbn [upd dm upcall_on set_mode set_pol set_pol_mtime]. destruct (upcall_on (dm w)).
    - destruct (upcall_off_spec env (upd (fun d => set_mode (policy_mode (@load (e_io env) (files_ w) POLICY_PATH) fallback)
         (set_pol (@load (e_io env) (files_ w) POLICY_PATH) (set_pol_mtime (e_mtime env (files_ w)) d))) w)) as (k & es & Hw & _ & He).
      exists (es ++ [UdpDivert true]). split; [exact (f_equal eff Hw)|].
      apply Forall_app. split; [by apply ioctl_admin|by repeat constructor].
    - exists []. split; [cbn; by rewrite app_nil_r|constructor]. }
  pose proof (kern_backend_spec env (@load (e_io env) (files_ w) POLICY_PATH)) as [Hb _].
  destruct (kern_backend env _) as [kb eb]. cbn [fst snd] in Hb.
  eexists _, (es ++ eb). split; [done|]. cbn [upd eff emit]. rewrite He, <- app_assoc. split; [done|]. apply Forall_app. split; [done|by apply ioctl_admin].
Qed.
End reload.

(** Editing the policy takes effect as a whole: when its modification time has moved,
    the policy becomes what the file now says, the mode follows it, no verdict settled
    under the old policy is kept - neither by the daemon nor, where there is a live device,
    by the kernel, whose cache is flushed last - and the questions being asked stay open;
    when it has not moved, nothing happens. *)
Theorem reload_resets env fallback w :
  let w' := reload env fallback w in
  (e_mtime env (files_ w) = pol_mtime (dm w) -> w' = w)
  /\ (e_mtime env (files_ w) <> pol_mtime (dm w) ->
      pol (dm w') = @load (e_io env) (files_ w) POLICY_PATH
      /\ mode (dm w') = policy_mode (@load (e_io env) (files_ w) POLICY_PATH) fallback
      /\ pol_mtime (dm w') = e_mtime env (files_ w)
      /\ decided (dm w') = ∅ /\ asking (dm w') = asking (dm w)
      /\ (forall k, kern (dm w') = Some k -> dead k = false ->
            exists es, eff w' = eff w ++ es ++ [Ioctl verdict_flush_cmd []] /\ Forall is_admin es)).
Proof.
  cbn zeta. split.
  - intros Hm. by destruct (reload_cases env fallback w) as [[_ ->]|[? _]].
  - intros Hm. split_and!; [..|intros k Hk Hd].
    1-5: destruct (reload_cases env fallback w) as [[? _]|(_ & k & es & [[-> _]|(_ & es2 & -> & _)])]; done.
    destruct (reload_flushes env fallback w Hm) as (w1 & es & Hw & He & Ha). exists es. split; [|done].
    rewrite Hw in Hk |- *. erewrite flush_last by done. by rewrite He, <- app_assoc.
Qed.

(** The parts of a due tick only administer: what they leave alone, and what they emit. *)
Definition administers (w w' : World) : Prop :=
  asking (dm w') = asking (dm w) /\ last_check (dm w') = last_check (dm w) /\ files_ w' = files_ w
  /\ (exists es, eff w' = eff w ++ es /\ Forall is_admin es).

#[export] Instance administers_preorder : PreOrder administers.
Proof.
  split.
  - intros w. repeat split. exists []. by rewrite app_nil_r.
  - intros a b c (A1 & L1 & F1 & e1 & E1 & H1) (A2 & L2 & F2 & e2 & E2 & H2).
    split_and!; [congruence..|]. exists (e1 ++ e2). rewrite E2, E1, app_assoc. split; [done|]. by apply Forall_app.
Qed.

Lemma admin_app es es' : Forall is_ioctl es -> Forall is_admin es' -> Forall is_admin (es ++ es').
Proof. intros H H'. apply Forall_app. split; [by apply ioctl_admin|done]. Qed.

Lemma admin_emit w es f :
  Forall is_admin es -> asking (f (dm w)) = asking (dm w) -> last_check (f (dm w)) = last_check (dm w) ->
  administers w (emit es (upd f w)).
Proof. intros He Ha Hl. split_and!; [done..|]. by exists es. Qed.

#[local] Hint Resolve ioctl_admin : core.

Section administers.
Context (env : Env).

Lemma reconnect_administers w : administers w (reconnect env w).
Proof. destruct (reconnect_spec env w) as (k & es & -> & He). apply admin_emit; auto. Qed.

Lemma reload_administers fallback w : administers w (reload env fallback w).
Proof.
  destruct (reload_cases env fallback w) as [[_ ->]|(_ & k & es & [[-> He]|(_ & es2 & -> & He & He2)])].
  - reflexivity.
  - apply admin_emit; auto.
  - apply admin_emit; [|done..]. apply admin_app; [done|]. by repeat (constructor; auto).
Qed.

Lemma reconcile_administers w : administers w (reconcile env w).
Proof.
  destruct (reconcile_cases env w) as [(-> & _)|[(_ & k & es & -> & _ & He)|(_ & k & es & -> & _ & He)]].
  - reflexivity.
  - apply admin_emit; [|done..]. apply admin_app; [done|]. by repeat constructor.
  - apply admin_emit; [|done..]. apply admin_app; [done|]. by repeat constructor.
Qed.

Lemma reconcile_upcall w :
  let w' := reconcile env w in
  mode (dm w') = mode (dm w) /\ (is_Some (kern (dm w')) <-> is_Some (kern (dm w)))
  /\ pol_mtime (dm w') = pol_mtime (dm w)
  /\ (upcall_on (dm w') = true -> is_Some (kern (dm w')) /\ mode (dm w') = Enforcement)
  /\ (e_reader env = true -> is_Some (kern (dm w')) -> mode (dm w') = Enforcement -> upcall_on (dm w') = true).
Proof.
  cbn zeta. destruct (reconcile_cases env w) as [(-> & Hon & Hwant)|[(Hw & k & es & -> & Hk & _)|(Hw & k & es & -> & Hk & _)]].
  - split_and!; try done.
    + intros Hup. apply Hon in Hup. apply andb_true_iff in Hup as [H1%bool_decide_eq_true H2%enforcing_true]. done.
    + intros Hr Hk Hm. destruct Hwant as [H|H]; [|done|congruence].
      by rewrite bool_decide_eq_true_2, (proj2 (enforcing_true w)).
  - apply andb_true_iff in Hw as [H1%bool_decide_eq_true H2%enforcing_true]. cbn. split_and!; try done.
  - cbn. split_and!; try done. intros _ Hk' Hm. exfalso. apply not_true_iff_false in Hw. apply Hw.
    rewrite bool_decide_eq_true_2 by tauto. by apply enforcing_true.
Qed.
End administers.

(** A tick, due or not, only administers. *)
Lemma tick_adds env fallback w :
  exists es, eff (handle_tick env fallback w) = eff w ++ es /\ Forall is_admin es.
Proof.
  unfold handle_tick.
  assert (eff (forget_logged env (flush_seen env w)) = eff w) as He.
  { apply q_eff. etransitivity; [apply flush_seen_quiet|apply forget_logged_quiet]. }
  destruct (tick_due _ _); [|exists []; rewrite app_nil_r; by split; [|constructor]].
  set (w1 := upd _ _). assert (administers w1 (reconcile env (reload env fallback (reconnect env w1)))) as (_ & _ & _ & Ha).
  { etransitivity; [apply reconnect_administers|]. etransitivity; [apply reload_administers|]. apply reconcile_administers. }
  destruct Ha as (es & Hes & Ha). exists es. split; [|done]. by rewrite Hes, <- He.
Qed.

(** The tick keeps the kernel honest: after a tick that was due, the policy is the
    one of the file as it is, the kernel asks the daemon only with a device handle and in
    enforcement, and it does ask then, whenever its reader could be opened; a tick never
    touches a packet or asks the user. *)
Theorem tick_reconciles env fallback w :
  tick_due env w = true ->
  let w' := handle_tick env fallback w in
  last_check (dm w') = e_now env
  /\ pol_mtime (dm w') = e_mtime env (files_ w')
  /\ (upcall_on (dm w') = true -> is_Some (kern (dm w')) /\ mode (dm w') = Enforcement)
  /\ (e_reader env = true -> is_Some (kern (dm w')) -> mode (dm w') = Enforcement -> upcall_on (dm w') = true)
  /\ asking (dm w') = asking (dm w)
  /\ (exists es, eff w' = eff w ++ es /\ Forall is_admin es).
Proof.
  intros Hdue. cbn zeta. unfold handle_tick.
  assert (quiet w (forget_logged env (flush_seen env w))) as Hq.
  { etransitivity; [apply flush_seen_quiet|apply forget_logged_quiet]. }
  assert (last_check (dm (forget_logged env (flush_seen env w))) = last_check (dm w)) as Hl.
  { unfold forget_logged, flush_seen. destruct (flush _ _ _ _ _). by destruct (_ || _). }
  revert Hq Hl. generalize (forget_logged env (flush_seen env w)). intros w0 Hq Hl.
  unfold tick_due in *. rewrite Hl, Hdue.
  set (w1 := upd (set_last_check (e_now env)) w0).
  assert (Hadm : administers w1 (reconcile env (reload env fallback (reconnect env w1)))).
  { etransitivity; [apply reconnect_administers|]. etransitivity; [apply reload_administers|].
    apply reconcile_administers. }
  destruct (reconcile_upcall env (reload env fallback (reconnect env w1))) as (_ & _ & Hm & Hon & Hoff).
  destruct Hadm as (A1 & A2 & A3 & es & A4 & A5). split_and!; [exact A2| |done..| |].
  - rewrite Hm, A3. destruct (reconnect_administers env w1) as (_ & _ & F & _).
    destruct (reload_cases env fallback (reconnect env w1)) as [[Hsame ->]|(_ & k & es2 & [[-> _]|(_ & es3 & -> & _)])].
    + by rewrite <- Hsame, F.
    + cbn. by rewrite F.
    + cbn. by rewrite F.
  - rewrite A1. subst w1. cbn. apply (q_asking _ _ Hq).
  - exists es. split; [|done]. rewrite A4. subst w1. cbn. by rewrite (q_eff _ _ Hq).
Qed.

(** ** The transition system *)

(** The prompts among some effects, and those a handler raised. *)
Definition prompt_of (e : effect) : option Pending := match e with Prompt _ p => Some p | _ => None end.
Definition raised (w w' : World) : list Pending := omap prompt_of (drop (length (eff w)) (eff w')).

(** The world, and the prompts that are open. *)
Abbreviation State := (World * list Pending)%type.

(** A step is a handler, or an edit of files by anyone else. *)
Inductive step (fallback : Mode) : State -> State -> Prop :=
| step_answer env ans p w open rest :
    open ≡ₚ p :: rest -> step fallback (w, open) (handle_answer env ans p w, rest)
| step_upcall env ev w open :
    step fallback (w, open) (handle_upcall env ev w, open ++ raised w (handle_upcall env ev w))
| step_tick env w open :
    step fallback (w, open) (handle_tick env fallback w, open)
| step_packet env pkt sin_addr w open :
    step fallback (w, open) (handle_packet env pkt sin_addr w, open ++ raised w (handle_packet env pkt sin_addr w))
| step_edit fs w open : step fallback (w, open) (set_fs fs w, open).

Inductive reachable (fallback : Mode) : State -> Prop :=
| reach_start env prompt_env fs : reachable fallback (start env fallback prompt_env fs, [])
| reach_step s s' : reachable fallback s -> step fallback s s' -> reachable fallback s'.

Lemma raised_app w w' es : eff w' = eff w ++ es -> raised w w' = omap prompt_of es.
Proof. unfold raised. intros ->. by rewrite drop_app_length. Qed.

Lemma admin_no_prompt es : Forall is_admin es -> omap prompt_of es = [].
Proof. induction 1 as [|e es He _ IH]; [done|]. by destruct e. Qed.

Lemma ioctl_no_prompt es : Forall is_ioctl es -> omap prompt_of es = [].
Proof. intros H. by apply admin_no_prompt, ioctl_admin. Qed.

(** ** The invariant *)

Record inv (fallback : Mode) (s : State) : Prop := mk_inv {
  i_diverted : diverted (eff s.1) = negb (upcall_on (dm s.1));
  i_upcall : upcall_on (dm s.1) = true -> is_Some (kern (dm s.1)) /\ mode (dm s.1) = Enforcement;
  i_waiting : forall q, is_Some (pending_upcalls (dm s.1) !! q) -> q ∈ asking (dm s.1);
  i_decided : forall fl, decided (dm s.1) !! fl <> Some Ask;
  i_bound : Z.of_nat (size (decided (dm s.1))) <= 16385;
  i_mode : mode (dm s.1) = policy_mode (pol (dm s.1)) fallback;
  i_asking : asking (dm s.1) = list_to_set (map pending_key s.2);
  i_nodup : NoDup (map pending_key s.2)
}.

Lemma close_question (q : Key) (l : list Key) :
  q ∉ l -> ({[q]} ∪ list_to_set l) ∖ {[q]} =@{gset Key} list_to_set l.
Proof.
  intros Hq. apply set_eq. intros x.
  rewrite elem_of_difference, elem_of_union, elem_of_singleton, elem_of_list_to_set.
  split; [tauto|]. intros Hx. split; [by right|]. by intros ->.
Qed.

(** Raising a question that is not open opens exactly one. *)
Lemma open_question (q : Key) (open : list Pending) (asked asked' : gset Key) (es : list effect) :
  asked = list_to_set (map pending_key open) -> NoDup (map pending_key open) ->
  asked' = {[q]} ∪ asked ->
  (q ∈ asked /\ es = []) \/ ((q ∉ asked) /\ exists argv p, es = [Prompt argv p] /\ pending_key p = q) ->
  asked' = list_to_set (map pending_key (open ++ omap prompt_of es))
  /\ NoDup (map pending_key (open ++ omap prompt_of es)).
Proof.
  intros Ha Hn -> [[Hin ->]|(Hin & argv & p & -> & Hq)]; cbn [omap list_omap prompt_of].
  - rewrite app_nil_r. split; [|done]. rewrite <- Ha. apply set_eq. intros x.
    rewrite elem_of_union, elem_of_singleton. split; [|by right]. by intros [-> |].
  - rewrite map_app. cbn [map]. rewrite Hq. rewrite Ha, elem_of_list_to_set in Hin. split.
    + rewrite list_to_set_app_L, <- Ha. apply set_eq. intros x. rewrite !elem_of_union. cbn.
      rewrite elem_of_union, elem_of_empty. tauto.
    + apply NoDup_app. split; [done|]. split; [|apply NoDup_singleton].
      intros x Hx ->%list_elem_of_singleton. done.
Qed.

(** What a prompt carries is the question it was raised for. *)
Lemma pending_key_eq (e : option str) (host : str) dst dport :
  pending_key (mk_pending (nonempty host) e dst dport) = (default [] e, ask_key (nonempty host) dst).
Proof. done. Qed.

Section invariant.
Context (fallback : Mode).

Lemma inv_start env prompt_env fs : inv fallback (start env fallback prompt_env fs, []).
Proof.
  unfold start. pose proof (kern_backend_spec env (@load (e_io env) fs POLICY_PATH)) as [Hi _].
  destruct (kern_backend env _) as [k es]. cbn [fst snd] in *. constructor; cbn; try done.
  - by rewrite <- (app_nil_l es), diverted_ioctls.
  - intros q [? H]. by rewrite lookup_empty in H.
  - constructor.
Qed.

Lemma inv_quiet w w' open : inv fallback (w, open) -> quiet w w' -> inv fallback (w', open).
Proof.
  intros [] []. cbn [fst snd] in *.
  constructor; cbn [fst snd]; rewrite ?q_pol, ?q_mode, ?q_upcall, ?q_pending, ?q_asking, ?q_decided, ?q_eff; try done.
  intros Hu. rewrite q_kern. by apply i_upcall0.
Qed.

Lemma inv_answer env ans p w open rest :
  inv fallback (w, open) -> open ≡ₚ p :: rest -> inv fallback (handle_answer env ans p w, rest).
Proof.
  intros [] Hp. cbn [fst snd] in *.
  pose proof (handle_answer_ruled env ans p w) as []. 
  destruct (release_spec env ans p w) as (k & es & Hw & Hk & Hes).
  rewrite Hw in *. cbn [emit upd dm eff set_kern set_pending_upcalls set_asking asking pending_upcalls mode kern
    upcall_on decided pol] in *.
  rewrite Hp in i_nodup0. cbn [map] in i_nodup0. apply NoDup_cons in i_nodup0 as [Hnin Hnd].
  assert (asking (dm w) = {[pending_key p]} ∪ list_to_set (map pending_key rest)) as Hask.
  { rewrite i_asking0. apply set_eq. intros q. rewrite elem_of_list_to_set, Hp. cbn [map].
    rewrite elem_of_cons, elem_of_union, elem_of_singleton, elem_of_list_to_set. tauto. }
  constructor; cbn [fst snd]; rewrite ?r_eff, ?r_upcall, ?r_kern, ?r_mode, ?r_pending, ?r_asking, ?r_decided; try done.
  - by rewrite diverted_ioctls.
  - rewrite Hk. exact i_upcall0.
  - intros q [ids Hq]. apply lookup_delete_Some in Hq as [Hne Hq].
    apply elem_of_difference. split; [apply i_waiting0; eauto|]. by rewrite elem_of_singleton.
  - unfold policy_mode in *. by rewrite r_pmode.
  - rewrite Hask. by apply close_question.
Qed.

Lemma handle_upcall_frame env ev w :
  let w' := handle_upcall env ev w in
  pol (dm w') = pol (dm w) /\ mode (dm w') = mode (dm w) /\ upcall_on (dm w') = upcall_on (dm w)
  /\ decided (dm w') = decided (dm w) /\ (is_Some (kern (dm w')) <-> is_Some (kern (dm w))).
Proof.
  cbn zeta. unfold handle_upcall. destruct (ev_path ev) as [|c path].
  { destruct (with_kern_spec _ w (k_resolve_op env (ev_id ev) true)) as (k & es & -> & Hk & _). by split_and!. }
  pose proof (check_identity_quiet env (c :: path) w) as Hq.
  destruct (check_identity env (c :: path) w) as [w1 ch]. cbn [fst] in Hq.
  assert (forall op w', kernel_op op -> with_kern op w1 = w' ->
    pol (dm w') = pol (dm w) /\ mode (dm w') = mode (dm w) /\ upcall_on (dm w') = upcall_on (dm w)
    /\ decided (dm w') = decided (dm w) /\ (is_Some (kern (dm w')) <-> is_Some (kern (dm w)))) as Hres.
  { intros op w' Hop <-. destruct (with_kern_spec op w1 Hop) as (k & es & -> & Hk & _).
    destruct Hq. cbn. split_and!; try congruence; tauto. }
  destruct (if ch then Ask else _); [eapply Hres; [apply k_resolve_op|done]..|].
  destruct Hq. case_bool_decide; cbn; split_and!; try congruence; tauto.
Qed.

Lemma resolution_ioctl w id allow : Forall is_ioctl (resolution w id allow).
Proof. unfold resolution. destruct (kern (dm w)) as [k|]; [|constructor]. destruct (dead k); repeat constructor. Qed.

(** Effects that neither ask nor move UDP. *)
Definition is_plain (e : effect) : Prop := match e with UdpDivert _ | Prompt _ _ => False | _ => True end.

Lemma diverted_kept es l : Forall (fun e => match e with UdpDivert _ => False | _ => True end) l ->
  diverted (es ++ l) = diverted es.
Proof.
  intros Hl. unfold diverted. rewrite foldl_app.
  generalize (foldl (fun b e => match e with UdpDivert x => x | _ => b end) true es).
  induction Hl as [|e l He Hl IH]; intros b; cbn; [done|]. by destruct e.
Qed.

Lemma prompts_kept (open : list Pending) w w' es : eff w' = eff w ++ es -> Forall is_plain es -> open ++ raised w w' = open.
Proof.
  intros He Hp. rewrite (raised_app _ _ _ He).
  assert (omap prompt_of es = []) as -> by (clear He; induction Hp as [|e es H Hp IH]; [done|]; by destruct e).
  by rewrite app_nil_r.
Qed.

Lemma plain_diverted es l : Forall is_plain l -> diverted (es ++ l) = diverted es.
Proof. intros Hl. apply diverted_kept. eapply Forall_impl; [exact Hl|]. by intros []. Qed.

Lemma ioctl_plain es : Forall is_ioctl es -> Forall is_plain es.
Proof. intros H. eapply Forall_impl; [exact H|]. by intros []. Qed.

(** A handler that opens at most one question keeps the invariant. *)
Lemma inv_question w w' open q es :
  inv fallback (w, open) ->
  eff w' = eff w ++ es ->
  (q ∈ asking (dm w) /\ es = []) \/ ((q ∉ asking (dm w)) /\ exists argv p, es = [Prompt argv p] /\ pending_key p = q) ->
  asking (dm w') = {[q]} ∪ asking (dm w) ->
  (forall q', is_Some (pending_upcalls (dm w') !! q') -> q' = q \/ is_Some (pending_upcalls (dm w) !! q')) ->
  decided (dm w') = decided (dm w) -> mode (dm w') = mode (dm w) -> upcall_on (dm w') = upcall_on (dm w) ->
  (is_Some (kern (dm w')) <-> is_Some (kern (dm w))) -> p_mode (pol (dm w')) = p_mode (pol (dm w)) ->
  inv fallback (w', open ++ raised w w').
Proof.
  intros [] He Hes Hask Hpend Hdec Hmode Hup Hk Hpm. cbn [fst snd] in *.
  destruct (open_question q open _ _ es i_asking0 i_nodup0 Hask Hes) as [H1 H2].
  rewrite (raised_app _ _ _ He). constructor; cbn [fst snd]; rewrite ?Hdec, ?Hmode, ?Hup, ?He; try done.
  - rewrite diverted_kept; [done|]. destruct Hes as [[_ ->]|(_ & argv & p & -> & _)]; repeat constructor.
  - rewrite Hk. done.
  - intros q' Hq'. rewrite Hask. apply elem_of_union. destruct (Hpend q' Hq') as [-> |H]; [left|right; auto].
    by apply elem_of_singleton.
  - unfold policy_mode in *. by rewrite Hpm.
Qed.

Lemma inv_upcall env ev w open :
  inv fallback (w, open) ->
  inv fallback (handle_upcall env ev w, open ++ raised w (handle_upcall env ev w)).
Proof.
  intros Hinv. destruct (handle_upcall_frame env ev w) as (F1 & F2 & F3 & F4 & F5).
  assert (forall allow, answers env ev w allow ->
    inv fallback (handle_upcall env ev w, open ++ raised w (handle_upcall env ev w))) as Hans.
  { intros allow (He & Hp & Ha). pose proof (ioctl_plain _ (resolution_ioctl w (ev_id ev) allow)) as Hpl.
    rewrite (prompts_kept _ _ _ _ He Hpl).
    destruct Hinv. cbn [fst snd] in *.
    constructor; cbn [fst snd]; rewrite ?F1, ?F2, ?F3, ?F4, ?F5, ?He, ?Hp, ?Ha; try done.
    by rewrite plain_diverted. }
  pose proof (upcall_cases env ev w) as Hc. destruct (decide (ev_path ev = [])); [by eapply Hans|].
  destruct (upcall_verdict env ev w); [by eapply Hans..|].
  destruct Hc as (es & He & Hask & Hpend & Hes). eapply inv_question; try done.
  - destruct Hes as [H|(Hn & argv & ->)]; [by left|]. right. split; [done|]. eexists _, _. split; [done|].
    apply pending_key_eq.
  - intros q' Hq'. rewrite Hpend in Hq'. destruct (decide (q' = upcall_question ev w)); [by left|right].
    by rewrite lookup_insert_ne in Hq'.
  - by rewrite F1.
Qed.

(** A handler that opens no question and settles at most one flow keeps the invariant. *)
Lemma inv_settled w w' open es :
  inv fallback (w, open) -> eff w' = eff w ++ es -> Forall is_plain es ->
  asking (dm w') = asking (dm w) -> pending_upcalls (dm w') = pending_upcalls (dm w) ->
  (decided (dm w') = decided (dm w)
   \/ exists fl v, v <> Ask /\ decided (dm w') = <[fl := v]>
        (if 16384 <? Z.of_nat (size (decided (dm w))) then ∅ else decided (dm w))) ->
  mode (dm w') = mode (dm w) -> upcall_on (dm w') = upcall_on (dm w) ->
  (is_Some (kern (dm w')) <-> is_Some (kern (dm w))) -> p_mode (pol (dm w')) = p_mode (pol (dm w)) ->
  inv fallback (w', open ++ raised w w').
Proof.
  intros [] He Hpl Hask Hpend Hdec Hmode Hup Hk Hpm. cbn [fst snd] in *.
  rewrite (prompts_kept _ _ _ _ He Hpl).
  constructor; cbn [fst snd]; rewrite ?Hask, ?Hpend, ?Hmode, ?Hup, ?He; try done.
  - by rewrite plain_diverted.
  - by rewrite Hk.
  - destruct Hdec as [-> |(fl & v & Hv & ->)]; [done|]. intros fl'.
    destruct (decide (fl' = fl)) as [-> |Hne]; [rewrite lookup_insert_eq; congruence|].
    rewrite lookup_insert_ne by done. destruct (16384 <? _); [by rewrite lookup_empty|done].
  - destruct Hdec as [-> |(fl & v & Hv & ->)]; [done|]. rewrite map_size_insert.
    destruct (16384 <? _) eqn:E; [rewrite lookup_empty, map_size_empty; cbn; lia|].
    apply Z.ltb_ge in E. destruct (decided (dm w) !! fl); cbn; lia.
  - unfold policy_mode in *. by rewrite Hpm.
Qed.

Lemma delivery_plain enforce allow reject pkt sin_addr : Forall is_plain (delivery enforce allow reject pkt sin_addr).
Proof.
  unfold delivery, reset_of. apply Forall_app. split.
  - destruct (enforce && reject); [|constructor]. destruct (tcp_rst pkt); repeat constructor.
  - destruct (negb enforce || allow); repeat constructor.
Qed.

Lemma deliver_adds w w' es pkt sin_addr allow reject :
  eff w' = eff w ++ es -> 
  eff (deliver pkt sin_addr allow reject w') = eff w ++ es ++ delivery (enforcing (mode (dm w'))) allow reject pkt sin_addr
  /\ dm (deliver pkt sin_addr allow reject w') = dm w'.
Proof. intros He. rewrite deliver_eq. cbn [emit eff dm]. by rewrite He, <- app_assoc. Qed.

Lemma inv_packet env pkt sin_addr w open :
  inv fallback (w, open) ->
  inv fallback (handle_packet env pkt sin_addr w, open ++ raised w (handle_packet env pkt sin_addr w)).
Proof.
  intros Hinv.
  assert (forall w', eff w' = eff w ++ [Reinject pkt sin_addr] ->
    dm w' = dm w \/ (exists n, dm w' = set_names n (dm w)) -> inv fallback (w', open ++ raised w w')) as Hre.
  { intros w' He Hd. eapply inv_settled; [done|exact He|by repeat constructor|..];
      destruct Hd as [-> |[n ->]]; try done; by left. }
  assert (forall a r, inv fallback (deliver pkt sin_addr a r w, open ++ raised w (deliver pkt sin_addr a r w))) as Hdel.
  { intros a r. destruct (deliver_adds w w [] pkt sin_addr a r) as [He Hd]; [by rewrite app_nil_r|].
    eapply inv_settled; [done|exact He|apply delivery_plain|rewrite Hd..]; try done. by left. }
  unfold handle_packet. destruct (to_option (parse pkt)) as [f|]; [|apply Hdel].
  destruct (is_dns_reply f).
  { apply Hre; [by rewrite eff_emit, observe_dns_eff|]. unfold observe_dns.
    destruct (to_option _) as [o|]; [|by left]. destruct (o <? length pkt)%nat; [right; by eexists|by left]. }
  destruct (negb (sin_addr =? 0)); [apply Hre; [done|by left]|].
  destruct (starts_flow f); [|apply Hdel].
  destruct (settle env f w) as [[w' a] r] eqn:Es. apply settle_spec in Es.
  destruct (decided (dm w) !! flow_key f); [destruct Es as [-> _]; apply Hdel|].
  destruct Es as [Hk Hf]. unfold fresh_outcome in Hf.
  assert (Hfin : forall es, eff w' = eff w ++ es -> 
    eff (deliver pkt sin_addr a r w') = eff w ++ es ++ delivery (enforcing (mode (dm w))) a r pkt sin_addr
    /\ dm (deliver pkt sin_addr a r w') = dm w').
  { intros es He. rewrite <- (kp_mode _ _ Hk). by apply deliver_adds. }
  destruct Hk. destruct (j_verdict _) eqn:Ev.
  - destruct Hf as (_ & Hp & Ha & Hdec & es & He & Hi & _). destruct (Hfin es He) as [He2 Hd].
    eapply inv_settled; [done|exact He2| |rewrite Hd..]; try done; [|right; eexists _, _; split; [|exact Hdec]; done|by rewrite Hp].
    apply Forall_app. split; [by apply ioctl_plain|apply delivery_plain].
  - destruct Hf as (_ & Hp & Ha & Hdec & es & He & Hi & _). destruct (Hfin es He) as [He2 Hd].
    eapply inv_settled; [done|exact He2| |rewrite Hd..]; try done; [|right; eexists _, _; split; [|exact Hdec]; done|by rewrite Hp].
    apply Forall_app. split; [by apply ioctl_plain|apply delivery_plain].
  - destruct Hf as (Hdec & -> & Hf). destruct (enforcing (mode (dm w))) eqn:Em.
    + destruct Hf as (-> & Hp & Ha & es & He & Hes). destruct (Hfin es He) as [He2 Hd].
      unfold delivery in He2. cbn in He2. rewrite app_nil_r in He2.
      eapply inv_question; [done|exact He2| |rewrite Hd..]; try done.
      * destruct Hes as [H|(Hn & argv & ->)]; [by left|]. right. split; [done|]. eexists _, _. split; [done|].
        apply pending_key_eq.
      * intros q' Hq'. right. by rewrite kp_pending in Hq'.
      * by rewrite Hp.
    + destruct Hf as (-> & Ha & He & fs & fs' & Hrec). apply record_settings in Hrec as (Hpm & _).
      destruct (Hfin []) as [He2 Hd]; [by rewrite app_nil_r|].
      eapply inv_settled; [done|exact He2|apply delivery_plain|rewrite Hd..]; try done. by left.
Qed.

(** All of the invariant but what [reconcile] re-establishes. *)
Record settling (w : World) (open : list Pending) : Prop := mk_settling {
  g_diverted : diverted (eff w) = negb (upcall_on (dm w));
  g_waiting : forall q, is_Some (pending_upcalls (dm w) !! q) -> q ∈ asking (dm w);
  g_decided : forall fl, decided (dm w) !! fl <> Some Ask;
  g_bound : Z.of_nat (size (decided (dm w))) <= 16385;
  g_mode : mode (dm w) = policy_mode (pol (dm w)) fallback;
  g_asking : asking (dm w) = list_to_set (map pending_key open);
  g_nodup : NoDup (map pending_key open)
}.

Lemma settling_reconnect env w open : settling w open -> settling (reconnect env w) open.
Proof.
  intros []. destruct (reconnect_spec env w) as (k & es & -> & He). constructor; cbn; try done.
  by rewrite diverted_ioctls.
Qed.

Lemma settling_reload env w open : settling w open -> settling (reload env fallback w) open.
Proof.
  intros Hs. destruct (reload_cases env fallback w) as [[_ ->]|(_ & k & es & [[-> He]|(Hu & es2 & -> & He & He2)])]; [done| |];
    destruct Hs; constructor; cbn; try done.
  - by rewrite diverted_ioctls.
  - assert (eff w ++ es ++ UdpDivert true :: es2 = (((eff w ++ es) ++ [UdpDivert true]) ++ es2)) as ->.
    { by rewrite <- !app_assoc. }
    by rewrite diverted_ioctls, diverted_last.
  - intros q [? Hq]. by rewrite lookup_empty in Hq.
Qed.

Lemma settling_reconcile env w open : settling w open -> inv fallback (reconcile env w, open).
Proof.
  intros []. destruct (reconcile_upcall env w) as (_ & _ & _ & Hon & _).
  destruct (reconcile_cases env w) as [(Hw & _)|[(_ & k & es & Hw & Hk & _)|(_ & k & es & Hw & _ & _)]].
  - rewrite Hw in *. by constructor.
  - rewrite Hw in *. constructor; cbn [fst snd]; try done. cbn [emit upd dm eff upcall_on set_upcall_on].
    assert (eff w ++ es ++ [SpawnReader; UdpDivert false]
            = ((eff w ++ es ++ [SpawnReader]) ++ [UdpDivert false])) as -> by by rewrite <- !app_assoc.
    by rewrite diverted_last.
  - rewrite Hw in *. constructor; cbn [fst snd]; try done; cbn [emit upd dm eff upcall_on set_upcall_on set_pending_upcalls].
    + rewrite app_assoc. by rewrite diverted_last.
    + intros q [? Hq]. cbn in Hq. by rewrite lookup_empty in Hq.
Qed.

Lemma inv_tick env w open : inv fallback (w, open) -> inv fallback (handle_tick env fallback w, open).
Proof.
  intros Hinv. unfold handle_tick.
  assert (inv fallback (forget_logged env (flush_seen env w), open)) as Hi.
  { eapply inv_quiet; [exact Hinv|]. etransitivity; [apply flush_seen_quiet|apply forget_logged_quiet]. }
  destruct (tick_due _ _); [|done].
  apply settling_reconcile, settling_reload, settling_reconnect. by destruct Hi.
Qed.

Lemma inv_reachable s : reachable fallback s -> inv fallback s.
Proof.
  induction 1 as [env pe fs|s s' _ IH Hs]; [apply inv_start|].
  destruct Hs; [by eapply inv_answer|by apply inv_upcall|by apply inv_tick|by apply inv_packet|by destruct IH].
Qed.
End invariant.

(** C6. The daemon has the kernel ask only in enforcement.  In every state the loop can reach
    between two handlers, whatever the device answers, the daemon takes upcalls to be on only
    while it holds a device handle and is in enforcement mode, so that in visibility it has
    none on; and the last it asked of pf is to divert UDP exactly if it takes upcalls to be
    off.  This is the daemon's own flag and the effects it asked for; the module's switch and
    pf's state while those effects are carried out are the threads' (Threads.udp_covered),
    and between the two there is a moment when neither governs UDP
    (ThreadScenario.nobody_governs). *)
Theorem upcall_only_enforcing fallback s :
  reachable fallback s ->
  (upcall_on (dm s.1) = true -> is_Some (kern (dm s.1)) /\ mode (dm s.1) = Enforcement)
  /\ diverted (eff s.1) = negb (upcall_on (dm s.1)).
Proof. intros Hr%inv_reachable. destruct Hr. done. Qed.

(** C7. Questions and prompts agree: in every reachable state the questions being asked
    are those of the prompts that are open, no question has two prompts open, and every
    upcall that waits waits for one of them - so none waits for an answer nobody was asked
    for. *)
Theorem questions_are_prompts fallback s :
  reachable fallback s ->
  asking (dm s.1) = list_to_set (map pending_key s.2)
  /\ NoDup (map pending_key s.2)
  /\ (forall q ids, pending_upcalls (dm s.1) !! q = Some ids -> exists p, p ∈ s.2 /\ pending_key p = q).
Proof.
  intros Hr%inv_reachable. destruct Hr. split_and!; [done..|]. intros q ids Hq.
  assert (q ∈ asking (dm s.1)) as Hin by (apply i_waiting0; eauto).
  rewrite i_asking0, elem_of_list_to_set in Hin. apply list_elem_of_fmap in Hin as (p & -> & Hp). by exists p.
Qed.

(** Only settled verdicts are kept: in every reachable state no flow is remembered as
    Ask, the table of settled flows is bounded, and the mode in force is the one of the
    policy in force. *)
Theorem settled_only fallback s :
  reachable fallback s ->
  (forall fl v, decided (dm s.1) !! fl = Some v -> v = Allow \/ v = Deny)
  /\ Z.of_nat (size (decided (dm s.1))) <= 16385
  /\ mode (dm s.1) = policy_mode (pol (dm s.1)) fallback.
Proof.
  intros Hr%inv_reachable. destruct Hr. split_and!; try done. intros fl v Hv.
  pose proof (i_decided0 fl). destruct v; [by left|by right|congruence].
Qed.

(** ** The loop takes these steps *)

Section pass.
Context (fallback : Mode).

Lemma answers_reachable l : forall w open rest,
  reachable fallback (w, open) -> open ≡ₚ map snd l ++ rest ->
  exists open', open' ≡ₚ rest /\ reachable fallback (foldl answer_event w l, open').
Proof.
  induction l as [|[[env ans] p] l IH]; intros w open rest Hr Hp; cbn [foldl map app] in *; [by exists open|].
  eapply IH; [|reflexivity]. eapply reach_step; [exact Hr|]. cbn [answer_event]. by apply step_answer.
Qed.

Lemma upcalls_reachable l : forall w open,
  reachable fallback (w, open) -> exists open', reachable fallback (foldl upcall_event w l, open').
Proof.
  induction l as [|[env ev] l IH]; intros w open Hr; cbn [foldl]; [by exists open|].
  eapply IH, reach_step; [exact Hr|]. apply step_upcall.
Qed.
End pass.

(** A pass of the loop is a sequence of these steps - the answers that arrived, in
    their order, then the upcalls, the tick and the packet - as long as what arrives
    answers prompts that are open; so every invariant of the reachable states holds
    between any two passes. *)
Theorem pass_reachable fallback p w open rest :
  reachable fallback (w, open) -> open ≡ₚ map snd (ps_answers p) ++ rest ->
  exists open', reachable fallback (run_pass fallback p w, open').
Proof.
  intros Hr Hp. unfold run_pass.
  destruct (answers_reachable fallback _ _ _ _ Hr Hp) as (o1 & _ & H1).
  destruct (upcalls_reachable fallback (ps_upcalls p) _ _ H1) as (o2 & H2).
  pose proof (reach_step _ _ _ H2 (step_tick fallback (ps_tick p) _ _)) as H3.
  destruct (ps_packet p) as [[[env pkt] sin_addr]|]; [|by exists o2].
  eexists. eapply reach_step; [exact H3|]. apply step_packet.
Qed.

Lemma shutdown_eq env w :
  exists es k,
    handle_shutdown env w
    = emit (es ++ (if upcall_on (dm w) then [UdpDivert true] else []) ++ [Exit]) (upd (set_kern k) w)
    /\ Forall is_ioctl es
    /\ (forall k0, kern (dm w) = Some k0 -> dead k0 = false ->
         (forall e, @ioctl (e_dev env) upcall_set_cmd (le 4 0) = inl e -> fatal_errno e = false) ->
         es = [Ioctl upcall_set_cmd (le 4 0); Ioctl verdict_flush_cmd []]).
Proof.
  unfold handle_shutdown.
  destruct (with_kern_spec _ w (k_set_upcall_op env false)) as (k1 & es1 & Hw1 & _ & He1).
  destruct (with_kern_spec _ (with_kern (k_set_upcall env false) w) (k_flush_op env)) as (k2 & es2 & Hw2 & _ & He2).
  exists (es1 ++ es2), k2. split_and!; [|by apply Forall_app|].
  - rewrite Hw2, Hw1. cbn [emit upd dm upcall_on set_kern].
    destruct (upcall_on (dm w)); unfold emit, upd; cbn; by rewrite <- !app_assoc.
  - intros k Hk Hdead Hdev.
    assert (Hs : with_kern (k_set_upcall env false) w
            = emit [Ioctl upcall_set_cmd (le 4 0)] (upd (set_kern (Some k)) w)).
    { unfold with_kern, k_set_upcall. rewrite Hk, Hdead. unfold set_upcall, send. rewrite Hdead.
      destruct (ioctl _ _) as [e|b] eqn:E; [|done]. unfold note_errno. by rewrite (Hdev e eq_refl). }
    assert (eff (with_kern (k_flush env) (with_kern (k_set_upcall env false) w))
            = eff w ++ [Ioctl upcall_set_cmd (le 4 0); Ioctl verdict_flush_cmd []]) as Hf.
    { rewrite Hs. unfold with_kern, k_flush. cbn [emit upd dm kern set_kern]. rewrite Hdead.
      cbn [emit upd eff]. by rewrite <- app_assoc. }
    rewrite Hw2, Hw1 in Hf. cbn [emit upd eff] in Hf. rewrite <- app_assoc in Hf. by apply app_inv_head in Hf.
Qed.

(** Stopping leaves nothing behind: whatever state the daemon was in when it was
    signalled, it goes through, UDP is diverted again when it exits, and a live device has
    been told to stop asking and to forget every cached verdict before that. *)
Theorem shutdown_restores env fallback s :
  reachable fallback s ->
  let w' := handle_shutdown env s.1 in
  (exists es, eff w' = eff s.1 ++ es ++ [Exit] /\ Forall is_admin es)
  /\ diverted (eff w') = true
  /\ (forall k, kern (dm s.1) = Some k -> dead k = false ->
        (forall e, @ioctl (e_dev env) upcall_set_cmd (le 4 0) = inl e -> fatal_errno e = false) ->
        eff w' = eff s.1 ++ [Ioctl upcall_set_cmd (le 4 0); Ioctl verdict_flush_cmd []]
                 ++ (if upcall_on (dm s.1) then [UdpDivert true] else []) ++ [Exit]).
Proof.
  intros Hr%inv_reachable. destruct s as [w open]. cbn [fst]. cbn zeta.
  assert (Hd : diverted (eff w) = negb (upcall_on (dm w))) by by destruct Hr.
  destruct (shutdown_eq env w) as (es & k & -> & He & Hlive). rewrite eff_emit. cbn [upd eff]. split_and!.
  - exists (es ++ (if upcall_on (dm w) then [UdpDivert true] else [])). split; [by rewrite <- !app_assoc|].
    apply admin_app; [done|]. destruct (upcall_on (dm w)); repeat constructor.
  - rewrite !app_assoc, (diverted_kept _ [Exit]) by by repeat constructor.
    destruct (upcall_on (dm w)); [by rewrite diverted_last|]. by rewrite app_nil_r, diverted_ioctls.
  - intros k0 Hk Hdead Hdev. by rewrite (Hlive k0 Hk Hdead Hdev).
Qed.
