(* ===== verification/DaemonScenario.v ===== *)
(** A run of the daemon on concrete inputs: a machine with one process, a policy in
    enforcement, a SYN of that process, the prompt it raises and its answer.  The theorems
    of DaemonSpec.v and DaemonLoop.v are applied to it. *)
From S2P Require Import Prelude Unicode RustStr IpAddr Target Policy PolicyFile PolicyEdit PolicyRecord Packet Reset Dns Procinfo Abi KernAttr Identity Seen Handles Daemon DaemonSpec DaemonIo DaemonLoop.

Definition curl : str := $"/usr/local/bin/curl".

(** The process behind [syn4]. *)
Definition curl_proc : Proc :=
  mk_proc 300 (name_buf $"curl") (Some (name_buf curl))
    (Some [mk_file 3 (Some (mk_sock 6 (sa4 1 2 3 4 40000) (sa4 5 6 7 8 443)))]).

(** A world in which nothing fails; the clock reads [now] seconds, the policy file's
    modification time is [mtime], and sha256(1) answers [sha]. *)
Definition world (now mtime : Z) (sha : str) : Env :=
  mk_env io_fine (fun _ _ => inr []) (seconds now) now (fun _ => Some mtime) (Some [curl_proc])
    (fun _ => Some (1, 10)) (fun _ => Some (true, utf8 sha)) true true [].

Definition enforcing_policy : str :=
  $"mode enforcement" ++ [10] ++ $"attribution kernel" ++ [10].
Definition pinned_policy : str :=
  enforcing_policy ++ $"app-id" ++ [32] ++ $"aa11" ++ [9] ++ curl ++ [10] ++ $"allow-app" ++ [32] ++ curl ++ [10].

Definition env0 : Env := world 0 0 $"bb22".
Definition start_with (text : str) : World := start env0 Visibility None {[POLICY_PATH := text]}.

Definition syn_flow : Flow := match parse syn4 with Ok f => f | _ => mk_flow 0 (V4 0) (V4 0) 0 0 false end.

Definition w_observing : World := start env0 Visibility None ∅.
Definition w_enforcing : World := start_with enforcing_policy.
Definition w_pinned : World := start_with pinned_policy.

Example scenario_parses :
  parse syn4 = Ok syn_flow
  /\ (mode (dm w_observing), mode (dm w_enforcing), mode (dm w_pinned)) = (Visibility, Enforcement, Enforcement)
  /\ exe_path ∘ owner <$> (attribute env0 (flow_tuple syn_flow) w_enforcing).2 = Some curl.
Proof. vm_compute. repeat split. Qed.

(** The same SYN, arriving outbound in a buffer of 64 bytes. *)
Definition served : option World * Sys :=
  @serve (os_wire syn4) env0 (mk_divert 0) (replicate 64 0) w_observing at_start.

Lemma visibility_never_blocks_witness :
  map fst (hist served.2) = [Recvfrom 0 64 0; Sendto 0 syn4 0 (replicate 16 0)].
Proof.
  pose proof (@visibility_never_blocks (os_wire syn4) env0 (mk_divert 0) (replicate 64 0) w_observing at_start
                (os_wire_recv syn4) ltac:(vm_compute; reflexivity)) as H.
  cbv zeta in H. unfold served. destruct (serve _ _ _ _ _) as [r s'].
  destruct (_ <? 0) eqn:E in H; [by vm_compute in E|]. destruct H as (w' & _ & _ & _ & _ & H). cbn [snd]. rewrite H.
  vm_compute. reflexivity.
Defined.

Lemma packet_io_witness : (@serve (os_wire syn4) env0 (mk_divert 0) (replicate 64 0) w_enforcing at_start).1 <> None.
Proof.
  pose proof (@packet_io (os_wire syn4) env0 (mk_divert 0) (replicate 64 0) w_enforcing at_start
                (os_wire_recv syn4)) as H.
  cbv zeta in H. destruct (serve _ _ _ _ _) as [r s']. exact (proj1 H).
Defined.

Lemma packet_enforced_witness :
  let j := (judge env0 syn_flow w_enforcing).2 in
  j_verdict j = Ask
  /\ exists es, eff (handle_packet env0 syn4 0 w_enforcing) = eff w_enforcing ++ es
       /\ prompts_for syn_flow j w_enforcing es.
Proof.
  intros j. assert (Hv : j_verdict j = Ask) by (vm_compute; reflexivity). split; [exact Hv|].
  destruct (packet_enforced env0 syn4 w_enforcing syn_flow _ _ ltac:(vm_compute; reflexivity)
    ltac:(vm_compute; reflexivity) ltac:(vm_compute; reflexivity) ltac:(vm_compute; reflexivity)
    ltac:(vm_compute; reflexivity) (surjective_pairing _)) as (_ & es & He & Hm).
  fold j in Hm. rewrite Hv in Hm. exists es. split; [exact He|apply Hm].
Defined.

(** The same with the flow already denied. *)
Definition w_denied : World := upd (set_decided {[flow_key syn_flow := Deny]}) w_enforcing.

Lemma settled_flow_witness :
  handle_packet env0 syn4 0 w_denied = emit (delivery true false true syn4 0) w_denied
  /\ length (delivery true false true syn4 0) = 1%nat.
Proof.
  split; [|vm_compute; reflexivity].
  apply (settled_flow env0 syn4 w_denied syn_flow Deny); [vm_compute; reflexivity..|discriminate].
Defined.

Definition curl_event : KernEvent := mk_event 7 6 (V4 84281096) 443 false 300 0 curl.

Lemma replaced_binary_held_witness :
  (exists es, eff (handle_packet env0 syn4 0 w_pinned) = eff w_pinned ++ es /\ Forall (fun e => is_prompt e = true) es)
  /\ length (eff (handle_packet env0 syn4 0 w_pinned)) = S (length (eff w_pinned)).
Proof.
  split; [|vm_compute; reflexivity].
  assert (Hr : replaced env0 w_pinned curl).
  { apply check_identity_replaced. vm_compute. reflexivity. }
  destruct (attribute env0 (flow_tuple syn_flow) w_pinned) as [w1 [att|]] eqn:Ea;
    [|vm_compute in Ea; discriminate Ea].
  assert (Hx : exe_path (owner att) = curl).
  { change att with (default att (Some att)). change (Some att) with ((w1, Some att).2). rewrite <- Ea. vm_compute. reflexivity. }
  destruct (replaced_binary_held env0 syn4 w_pinned syn_flow w1 att curl_event
    ltac:(vm_compute; reflexivity) ltac:(vm_compute; reflexivity) ltac:(vm_compute; reflexivity)
    ltac:(vm_compute; reflexivity) ltac:(vm_compute; reflexivity) Ea) as ((es & He & Hp & _) & _).
  - rewrite Hx. exact Hr.
  - discriminate.
  - exact Hr.
  - exists es. by split.
Defined.

(** The SYN, then an upcall for the same question. *)
Definition w_syn : World := handle_packet env0 syn4 0 w_enforcing.
Definition w_asked : World := handle_upcall env0 curl_event w_syn.
Definition opened : list Pending := [] ++ raised w_enforcing w_syn.
Definition opened2 : list Pending := opened ++ raised w_syn w_asked.
Definition question : Pending := mk_pending None (Some curl) (V4 84281096) 443.

Lemma scenario_reachable : reachable Visibility (w_asked, opened2).
Proof.
  eapply reach_step; [|apply step_upcall]. eapply reach_step; [|apply step_packet].
  apply reach_start.
Qed.

Example scenario_opened : opened2 = [question] /\ pending_upcalls (dm w_asked) !! pending_key question = Some [7].
Proof. vm_compute. split; reflexivity. Qed.

Lemma answer_releases_witness :
  exists k, kern (dm w_asked) = Some k
  /\ eff (handle_answer env0 AllowConn question w_asked)
     = eff w_asked ++ [Ioctl resolve_cmd (resolve_request 7 true)].
Proof.
  exists (mk_kern false). split; [vm_compute; reflexivity|].
  refine (eq_trans (proj1 (answer_releases env0 AllowConn question w_asked (mk_kern false) _ _)) _).
  - vm_compute. reflexivity.
  - split; [reflexivity|]. intros b e H. discriminate H.
  - vm_compute. reflexivity.
Defined.

Lemma approval_settles_retry_witness :
  exists att, (judge env0 syn_flow (handle_answer env0 AllowApp question w_pinned)).2
    = mk_judged (Some att) false
        (if bool_decide (denies (pol (dm w_pinned)) (Some curl) (p_dst question) (p_host question) (p_dport question))
         then Deny else Allow)
  /\ (judge env0 syn_flow w_pinned).2 = mk_judged (Some att) true Ask.
Proof.
  destruct (attribute env0 (flow_tuple syn_flow) (handle_answer env0 AllowApp question w_pinned)) as [w1 [att|]] eqn:Ea;
    [|vm_compute in Ea; discriminate Ea].
  assert (Ha : Some att = (attribute env0 (flow_tuple syn_flow) (handle_answer env0 AllowApp question w_pinned)).2).
  { rewrite Ea. reflexivity. }
  assert (Hx : att = mk_attr (mk_owner 300 $"curl" curl) Exact).
  { vm_compute in Ha. injection Ha as ->. vm_compute. reflexivity. }
  exists att. split.
  - apply (approval_settles_retry env0 env0 AllowApp question w_pinned curl syn_flow w1 att).
    + by right.
    + reflexivity.
    + reflexivity.
    + reflexivity.
    + intros c a Hh. apply (f_equal snd) in Hh. vm_compute in Hh. injection Hh as <-. vm_compute. reflexivity.
    + vm_compute. reflexivity.
    + vm_compute. reflexivity.
    + vm_compute. reflexivity.
    + exact Ea.
    + rewrite Hx. reflexivity.
  - rewrite Hx. vm_compute. reflexivity.
Defined.

(** A second later. *)
Definition env1 : Env := world 1 0 $"bb22".

Lemma tick_reconciles_witness :
  let w' := handle_tick env1 Visibility w_asked in
  upcall_on (dm w') = true /\ is_Some (kern (dm w')) /\ mode (dm w') = Enforcement.
Proof.
  intros w'. assert (Hon : upcall_on (dm w') = true) by (vm_compute; reflexivity). split; [exact Hon|].
  destruct (tick_reconciles env1 Visibility w_asked ltac:(vm_compute; reflexivity)) as (_ & _ & H & _).
  exact (H Hon).
Defined.

Definition w_ticked : World := handle_tick env1 Visibility w_asked.

Lemma ticked_reachable : reachable Visibility (w_ticked, opened2).
Proof. eapply reach_step; [apply scenario_reachable|apply step_tick]. Qed.

Lemma upcall_only_enforcing_witness : mode (dm w_ticked) = Enforcement /\ diverted (eff w_ticked) = false.
Proof.
  destruct (upcall_only_enforcing Visibility (w_ticked, opened2) ticked_reachable) as [H1 H2].
  split; [apply H1; vm_compute; reflexivity|]. refine (eq_trans H2 _). vm_compute. reflexivity.
Defined.

Lemma questions_are_prompts_witness : exists p, p ∈ opened2 /\ pending_key p = pending_key question.
Proof.
  destruct (questions_are_prompts Visibility (w_asked, opened2) scenario_reachable) as (_ & _ & H).
  apply (H (pending_key question) [7]). vm_compute. reflexivity.
Defined.

Lemma settled_only_witness : mode (dm w_asked) = policy_mode (pol (dm w_asked)) Visibility.
Proof. apply (settled_only Visibility (w_asked, opened2) scenario_reachable). Defined.

(** One pass: the answer arrives, then another second passes. *)
Definition pass1 : Pass := mk_pass [(env1, AllowConn, question)] [] (world 2 0 $"bb22") (Some (world 2 0 $"bb22", syn4, 0)).

Lemma pass_reachable_witness :
  (exists open', reachable Visibility (run_pass Visibility pass1 w_ticked, open'))
  /\ last (eff (run_pass Visibility pass1 w_ticked)) = Some (Reinject syn4 0).
Proof.
  split; [|vm_compute; reflexivity].
  apply (pass_reachable Visibility pass1 w_ticked opened2 []); [exact ticked_reachable|].
  vm_compute. reflexivity.
Defined.

Lemma shutdown_restores_witness :
  diverted (eff w_ticked) = false /\ diverted (eff (handle_shutdown env1 w_ticked)) = true.
Proof.
  split; [vm_compute; reflexivity|].
  apply (shutdown_restores env1 Visibility (w_ticked, opened2) ticked_reachable).
Defined.

(** ** Where the loop surprises

    Each run below is a behaviour of the code that its comments do not lead one to expect. *)

(** A question is a binary and a name: an answer about port 443 also answers, with "allow",
    a connection to port 22 that waits - which the policy itself would still ask about. *)
Example answer_ignores_port :
  let ssh := mk_event 8 6 (V4 84281096) 22 false 300 0 curl in
  let w := handle_upcall env0 ssh w_asked in
  let w' := handle_answer env0 AllowConn question w in
  last (eff w') = Some (Ioctl resolve_cmd (resolve_request 8 true))
  /\ decide_verdict (pol (dm w')) (Some curl) (V4 84281096) None 22 = Ask.
Proof. vm_compute. split; reflexivity. Qed.

(** A prompt nobody answered denies the upcalls that waited. *)
Example timeout_denies :
  last (eff (handle_answer env0 Timeout question w_asked)) = Some (Ioctl resolve_cmd (resolve_request 7 false)).
Proof. vm_compute. reflexivity. Qed.

(** In visibility the verdict on a changed binary is Ask at every packet, so that each one
    appends the learned rule again. *)
Definition watching_policy : str :=
  $"app-id" ++ [32] ++ $"aa11" ++ [9] ++ curl ++ [10].
Definition policy_lines (w : World) : nat := length (lines (default [] (files_ w !! POLICY_PATH))).
Example changed_binary_relearned :
  let w := start_with watching_policy in
  let w1 := handle_packet env0 syn4 0 w in
  let w2 := handle_packet env0 syn4 0 w1 in
  (policy_lines w, policy_lines w1, policy_lines w2) = (1, 2, 3)%nat.
Proof. vm_compute. reflexivity. Qed.

(** Learning moves the watermark past its own write, and with it past an edit made since
    the last tick: the deny rule is in the file and never in force. *)
Definition by_length (now : Z) : Env :=
  mk_env io_fine (fun _ _ => inr []) (seconds now) now (fun fs => Some (Z.of_nat (length (default [] (fs !! POLICY_PATH)))))
    (Some [curl_proc]) (fun _ => None) (fun _ => None) true true [].
Example edit_swallowed :
  let w := start (by_length 0) Visibility None {[POLICY_PATH := $"mode visibility" ++ [10]]} in
  let edited := set_fs {[POLICY_PATH := $"mode visibility" ++ [10] ++ $"deny-app /tmp/x" ++ [10]]} w in
  let w' := handle_tick (by_length 2) Visibility (handle_packet (by_length 1) syn4 0 edited) in
  decide_verdict (@load io_fine (files_ w') POLICY_PATH) (Some $"/tmp/x") (V4 1) None 80 = Deny
  /\ decide_verdict (pol (dm w')) (Some $"/tmp/x") (V4 1) None 80 = Ask.
Proof. vm_compute. split; reflexivity. Qed.

(** Outbound UDP from source port 53 is taken for a DNS answer: it leaves unjudged. *)
Definition udp_from (sport : Z) : list Z :=
  v4_header (replicate 8 0) [0; 0] [] 17 16909060 84281096 ++ l4_bytes sport 443 [0; 8; 0; 0].
Example source_port_53_passes :
  eff (handle_packet env0 (udp_from 53) 0 w_enforcing) = eff w_enforcing ++ [Reinject (udp_from 53) 0]
  /\ existsb is_reinject (drop (length (eff w_enforcing)) (eff (handle_packet env0 (udp_from 54) 0 w_enforcing))) = false.
Proof. vm_compute. split; reflexivity. Qed.

(** A packet the parser gives up on - here an IPv6 SYN behind eight extension headers - is
    reinjected without a verdict, in enforcement too. *)
Definition hop (nh : Z) : list Z := [nh; 0; 0; 0; 0; 0; 0; 0].
Definition long_chain : list Z :=
  [96; 0; 0; 0; 0; 84; 60; 64] ++ replicate 32 0
  ++ concat (replicate 7 (hop 60)) ++ hop 6 ++ l4_bytes 40000 443 tcp_tail.
Example long_chain_passes :
  parse long_chain = Nope
  /\ eff (handle_packet env0 long_chain 0 w_enforcing) = eff w_enforcing ++ [Reinject long_chain 0].
Proof. vm_compute. split; reflexivity. Qed.
