(* ===== verification/KernModule.v ===== *)
(** The kernel module's verdict cache, request queue, connect hook and device
    (kmod/mac_pfsnitch.c), operation for operation.

    Locks are not modelled: each critical section is one function on the module's state.
    Memory that the kernel may refuse ([M_NOWAIT]) is an argument [mem], the uptime an
    argument [now]; the lookup in the stack's table of sockets is the class [Pcbs].  A C
    string is the list of its bytes without the terminator; a counted path includes it. *)
From S2P Require Import Prelude Unicode RustStr IpAddr Procinfo Abi KernAttr.

Definition EPERM : Z := 1.
Definition EINVAL : Z := 22.
Definition ENOTTY : Z := 25.
Definition EAGAIN : Z := 35.

Definition PFSN_VHASH : Z := 1024.
Definition PFSN_VMAX : Z := 8192.
Definition PFSN_REQ_MAX : Z := 2048.
Definition PFSN_REQ_GCAGE : Z := 150.
Definition PFSNITCH_FAIL_OPEN : Z := 0.
Definition PFSNITCH_FAIL_CLOSED : Z := 1.
Definition PFSNITCH_MATCH_EXACT : Z := 1.
Definition PFSNITCH_MATCH_WILDCARD : Z := 2.
Definition IPPROTO_TCP : Z := 6.
Definition IPPROTO_UDP : Z := 17.

(** [u_int] and [uint64_t] arithmetic. *)
Definition wrap32 (z : Z) : Z := z mod 2 ^ 32.
Definition wrap64 (z : Z) : Z := z mod 2 ^ 64.

(** ** State *)

(** [struct pfsn_info], the label of a socket. *)
Record pfsn_info : Type := mk_info { i_pid : Z; i_uid : Z; i_comm : list Z; i_path : list Z }.

(** [struct pfsn_verdict]; [c_path] is counted. *)
Record pfsn_verdict : Type := mk_cached {
  c_af : Z; c_proto : Z; c_verdict : Z; c_fport : Z; c_faddr : list Z; c_path : list Z
}.

(** [struct pfsn_req]; [q_path] is counted. *)
Record pfsn_req : Type := mk_req {
  q_id : Z; q_af : Z; q_proto : Z; q_nonblock : Z; q_delivered : bool; q_fport : Z; q_faddr : list Z;
  q_pid : Z; q_uid : Z; q_born : Z; q_path : list Z
}.

(** The module's variables. *)
Record Module_ : Type := mk_module {
  pfsn_vtab : list (list pfsn_verdict);
  pfsn_vcount : Z;
  pfsn_reqs : list pfsn_req;
  pfsn_next_id : Z;
  pfsn_nreq : Z;
  pfsn_unloading : bool;
  pfsn_upcall_on : bool;
  pfsn_failmode : Z
}.

Definition set_cache (t : list (list pfsn_verdict)) (n : Z) (m : Module_) : Module_ :=
  mk_module t n (pfsn_reqs m) (pfsn_next_id m) (pfsn_nreq m) (pfsn_unloading m) (pfsn_upcall_on m) (pfsn_failmode m).
Definition set_reqs (rs : list pfsn_req) (n : Z) (m : Module_) : Module_ :=
  mk_module (pfsn_vtab m) (pfsn_vcount m) rs (pfsn_next_id m) n (pfsn_unloading m) (pfsn_upcall_on m) (pfsn_failmode m).
Definition set_next_id (i : Z) (m : Module_) : Module_ :=
  mk_module (pfsn_vtab m) (pfsn_vcount m) (pfsn_reqs m) i (pfsn_nreq m) (pfsn_unloading m) (pfsn_upcall_on m) (pfsn_failmode m).
Definition set_unloading (m : Module_) : Module_ :=
  mk_module (pfsn_vtab m) (pfsn_vcount m) (pfsn_reqs m) (pfsn_next_id m) (pfsn_nreq m) true (pfsn_upcall_on m) (pfsn_failmode m).
Definition set_on (on : bool) (m : Module_) : Module_ :=
  mk_module (pfsn_vtab m) (pfsn_vcount m) (pfsn_reqs m) (pfsn_next_id m) (pfsn_nreq m) (pfsn_unloading m) on (pfsn_failmode m).

(** The module as it is loaded; [failmode] is a sysctl. *)
Definition pfsn_init (failmode : Z) : Module_ :=
  mk_module (replicate (Z.to_nat PFSN_VHASH) []) 0 [] 1 0 false false failmode.

(** ** The verdict cache *)

(** The bytes of an address that are compared. *)
Definition addr_len (af : Z) : nat := if af =? 4 then 4 else 16.

(** FNV-1a, in 32 bits. *)
Definition fnv (h x : Z) : Z := wrap32 (Z.lxor h x * 16777619).
Definition pfsn_vhash (af proto : Z) (faddr : list Z) (fport : Z) : nat :=
  let h := fnv 2166136261 proto in
  let h := fnv h (Z.land fport 255) in
  let h := fnv h (Z.shiftr fport 8) in
  Z.to_nat (Z.land (foldl fnv h (take (addr_len af) faddr)) (PFSN_VHASH - 1)).

(** Same destination: the comparison both loops over a bucket start with. *)
Definition same_dest (af proto : Z) (faddr : list Z) (fport : Z) (v : pfsn_verdict) : bool :=
  (c_af v =? af) && (c_proto v =? proto) && (c_fport v =? fport)
  && bool_decide (take (addr_len af) (c_faddr v) = take (addr_len af) faddr).

(** [pfsn_verdict_lookup]: 0 on a miss; paths are compared as C strings. *)
Definition pfsn_verdict_lookup (af proto : Z) (faddr : list Z) (fport : Z) (path : list Z) (m : Module_) : Z :=
  match List.find (fun v => same_dest af proto faddr fport v && bool_decide (until_nul (c_path v) = path))
          (default [] (pfsn_vtab m !! pfsn_vhash af proto faddr fport)) with
  | Some v => c_verdict v
  | None => 0
  end.

(** The entry of this destination and path gets the verdict, where there is one. *)
Fixpoint update_in_place (p : pfsn_verdict -> bool) (verdict : Z) (l : list pfsn_verdict)
  : option (list pfsn_verdict) :=
  match l with
  | [] => None
  | v :: l' =>
      if p v then Some (mk_cached (c_af v) (c_proto v) verdict (c_fport v) (c_faddr v) (c_path v) :: l')
      else cons v <$> update_in_place p verdict l'
  end.

(** [pfsn_cache_insert]; [plen] is the length of the counted path. *)
Definition pfsn_cache_insert (mem : bool) (af proto : Z) (faddr : list Z) (fport verdict : Z) (path : list Z)
  (m : Module_) : Module_ :=
  if (length path =? 0)%nat || (1024 <? length path)%nat then m
  else
    let b := pfsn_vhash af proto faddr fport in
    let bucket := default [] (pfsn_vtab m !! b) in
    match update_in_place (fun v => same_dest af proto faddr fport v && bool_decide (c_path v = path)) verdict bucket with
    | Some bucket' => set_cache (<[b := bucket']> (pfsn_vtab m)) (pfsn_vcount m) m
    | None =>
        if PFSN_VMAX <=? pfsn_vcount m then m
        else if negb mem then m
        else set_cache (<[b := mk_cached af proto verdict fport faddr path :: bucket]> (pfsn_vtab m))
               (wrap32 (pfsn_vcount m + 1)) m
    end.

(** [strnlen] *)
Definition strnlen (b : list Z) (n : nat) : nat := length (until_nul (take n b)).

(** [pfsn_verdict_push], from the structure's path field. *)
Definition pfsn_verdict_push (mem : bool) (af proto : Z) (faddr : list Z) (fport verdict : Z) (path : list Z)
  (m : Module_) : Module_ :=
  let plen := strnlen path 1024 in
  if (plen =? 0)%nat || (1024 <=? plen)%nat then m
  else pfsn_cache_insert mem af proto faddr fport verdict (take (plen + 1) path) m.

(** [pfsn_verdict_flush] *)
Definition pfsn_verdict_flush (m : Module_) : Module_ :=
  set_cache ((fun _ => []) <$> pfsn_vtab m) 0 m.

(** ** The request queue *)

Definition pfsn_failverdict (m : Module_) : Z :=
  if pfsn_failmode m =? PFSNITCH_FAIL_CLOSED then EPERM else 0.

(** [pfsn_req_gc] *)
Definition expired (now : Z) (r : pfsn_req) : bool := PFSN_REQ_GCAGE <? now - q_born r.
Definition pfsn_req_gc (now : Z) (m : Module_) : Module_ :=
  let gone := filter (expired now) (pfsn_reqs m) in
  set_reqs (filter (fun r => negb (expired now r)) (pfsn_reqs m))
    (wrap32 (pfsn_nreq m - Z.of_nat (length gone))) m.

(** The question is already being asked. *)
Definition same_question (af proto : Z) (faddr : list Z) (fport : Z) (path : list Z) (r : pfsn_req) : bool :=
  (q_af r =? af) && (q_proto r =? proto) && (q_fport r =? fport)
  && bool_decide (take (addr_len af) (q_faddr r) = take (addr_len af) faddr)
  && bool_decide (q_path r = path).

(** [pfsn_upcall] *)
Definition pfsn_upcall (mem : bool) (now af proto : Z) (faddr : list Z) (fport : Z) (info : pfsn_info) (nonblock : bool)
  (m : Module_) : Module_ * Z :=
  let plen := strnlen (i_path info) 1024 in
  if (plen =? 0)%nat || (1024 <=? plen)%nat then (m, 0)
  else
    let path := i_path info ++ [0] in
    if pfsn_unloading m then (m, pfsn_failverdict m)
    else if existsb (same_question af proto faddr fport path) (pfsn_reqs m) then (m, EAGAIN)
    else if PFSN_REQ_MAX <=? pfsn_nreq m then (m, pfsn_failverdict m)
    else
      let m := pfsn_req_gc now m in
      if negb mem then (m, pfsn_failverdict m)
      else
        let r := mk_req (pfsn_next_id m) af proto (if nonblock then 1 else 0) false fport faddr
                   (i_pid info) (i_uid info) now path in
        (set_reqs (pfsn_reqs m ++ [r]) (wrap32 (pfsn_nreq m + 1))
           (set_next_id (wrap64 (pfsn_next_id m + 1)) m), EAGAIN).

(** [pfsn_resolve]: the first request of this id is cached and dropped. *)
Fixpoint remove_req (id : Z) (l : list pfsn_req) : option (pfsn_req * list pfsn_req) :=
  match l with
  | [] => None
  | r :: l' => if q_id r =? id then Some (r, l') else (fun x => (x.1, r :: x.2)) <$> remove_req id l'
  end.
Definition pfsn_resolve (mem : bool) (id verdict : Z) (m : Module_) : Module_ :=
  match remove_req id (pfsn_reqs m) with
  | None => m
  | Some (r, rest) =>
      let m := pfsn_cache_insert mem (q_af r) (q_proto r) (q_faddr r) (q_fport r) verdict (q_path r) m in
      set_reqs rest (wrap32 (pfsn_nreq m - 1)) m
  end.

(** [pfsn_read], as far as the copy to the reader: nothing to deliver puts it to sleep. *)
Inductive read_out : Type := RInval | REof | RSleep | REvent (ev : list Z).

Definition mark (on : bool) (r : pfsn_req) : pfsn_req :=
  mk_req (q_id r) (q_af r) (q_proto r) (q_nonblock r) on (q_fport r) (q_faddr r) (q_pid r) (q_uid r) (q_born r) (q_path r).
Fixpoint deliver_next (l : list pfsn_req) : option (pfsn_req * list pfsn_req) :=
  match l with
  | [] => None
  | r :: l' => if q_delivered r then (fun x => (x.1, r :: x.2)) <$> deliver_next l' else Some (r, mark true r :: l')
  end.

(** [strlcpy(dst, src, sizeof(dst))]: the string, cut to fit with its terminator; what the
    destination [old] held after it stays. *)
Definition strlcpy (old src : list Z) : list Z :=
  let s := take (length old - 1) (until_nul src) in s ++ 0 :: drop (S (length s)) old.

Definition header_fields (t : ctype) : list ctype := match t with CStruct fs => fs | _ => [] end.
Definition pfsn_event (r : pfsn_req) : list Z :=
  encode (header_fields header_event)
    [le 8 (q_id r); le 1 (q_af r); le 1 (q_proto r); le 2 (q_fport r); q_faddr r; le 1 (q_nonblock r);
     replicate 3 0; le 4 (of_i32 (q_pid r)); le 4 (q_uid r); strlcpy (replicate 1024 0) (q_path r)].

Definition pfsn_read (resid : Z) (m : Module_) : Module_ * read_out :=
  if resid <? Z.of_nat (csize header_event) then (m, RInval)
  else if pfsn_unloading m || negb (pfsn_upcall_on m) then (m, REof)
  else match deliver_next (pfsn_reqs m) with
       | None => (m, RSleep)
       | Some (r, rs) => (set_reqs rs (pfsn_nreq m) m, REvent (pfsn_event r))
       end.

(** The end of [pfsn_read] when the copy faulted: the request is handed out again. *)
Fixpoint undeliver (id : Z) (l : list pfsn_req) : list pfsn_req :=
  match l with
  | [] => []
  | r :: l' => if q_id r =? id then mark false r :: l' else r :: undeliver id l'
  end.
Definition pfsn_read_fault (id : Z) (m : Module_) : Module_ :=
  set_reqs (undeliver id (pfsn_reqs m)) (pfsn_nreq m) m.

(** [pfsn_dev_close] *)
Definition pfsn_dev_close (m : Module_) : Module_ := if pfsn_upcall_on m then set_on false m else m.

(** [pfsn_destroy] *)
Definition pfsn_destroy (m : Module_) : Module_ :=
  pfsn_verdict_flush (set_reqs [] 0 (set_unloading m)).

(** ** Labels *)

(** [pfsn_socket_create]: the creator of a socket, as the label keeps it; [path] is what
    [vn_fullpath] found, nothing for a process without a text file. *)
Definition pfsn_socket_create (p_pid cr_uid : Z) (p_comm : list Z) (path : option (list Z)) : pfsn_info :=
  mk_info p_pid cr_uid (until_nul (strlcpy (replicate 20 0) p_comm)) (match path with Some p => until_nul p | None => [] end).

(** ** The connect hook *)

Inductive sock_type : Type := SOCK_STREAM | SOCK_DGRAM | SOCK_OTHER.

(** The address given to connect(2) or sendto(2): its port as it lies in memory. *)
Inductive sockaddr : Type :=
| SaIn (port : Z) (addr : list Z)
| SaIn6 (port : Z) (addr : list Z)
| SaOther.

Definition lo6 : list Z := replicate 15 0 ++ [1].

(** [ntohs] on a little-endian machine. *)
Definition ntohs (p : Z) : Z := be_join 8 (le 2 p).

(** Loopback is exempt. *)
Definition hook_loopback (af : Z) (faddr : list Z) : bool :=
  if af =? 4 then bool_decide (faddr !! 0%nat = Some 127)
  else bool_decide (take 16 faddr = lo6)
       || (bool_decide (faddr !! 10%nat = Some 255) && bool_decide (faddr !! 11%nat = Some 255)
           && bool_decide (faddr !! 12%nat = Some 127)).

(** The destination the hook keys on.  [faddr] is an array of 16 bytes on the stack, of
    which an IPv4 address fills the first four; [junk] is what the others held. *)
Definition hook_dest (sa : sockaddr) (junk : list Z) : option (Z * Z * list Z) :=
  match sa with
  | SaIn port addr => Some (4, port, addr ++ junk)
  | SaIn6 port addr => Some (6, port, addr)
  | SaOther => None
  end.

(** [pfsn_socket_check_connect]: 0, EPERM or EAGAIN; [sa] and [info] are [None] where the
    code finds NULL. *)
Definition pfsn_socket_check_connect (mem : bool) (now : Z) (junk : list Z) (so_type : sock_type) (nonblock : bool)
  (info : option pfsn_info) (sa : option sockaddr) (m : Module_) : Module_ * Z :=
  match sa, (match so_type with SOCK_STREAM => Some IPPROTO_TCP | SOCK_DGRAM => Some IPPROTO_UDP | SOCK_OTHER => None end) with
  | Some sa, Some proto =>
      match hook_dest sa junk with
      | None => (m, 0)
      | Some (af, fport, faddr) =>
          if hook_loopback af faddr then (m, 0)
          else match info with
               | None => (m, 0)
               | Some info =>
                   if bool_decide (i_path info = []) then (m, 0)
                   else
                     let verdict := pfsn_verdict_lookup af proto faddr fport (i_path info) m in
                     if verdict =? PFSNITCH_V_DENY then (m, EPERM)
                     else if verdict =? PFSNITCH_V_ALLOW then (m, 0)
                     else if pfsn_upcall_on m && (proto =? IPPROTO_UDP) && negb (ntohs fport =? 53)
                          then pfsn_upcall mem now af proto faddr fport info nonblock m
                          else (m, 0)
               end
      end
  | _, _ => (m, 0)
  end.

(** ** The query device *)

(** [in_pcblookup] and [in6_pcblookup]: the socket of a 4-tuple, exactly or as a bound
    socket, and its label where it has one. *)
Class Pcbs : Type :=
  pcblookup : bool -> Z -> Z -> list Z -> Z -> list Z -> Z -> option (option pfsn_info).

Section device.
Context `{Pcbs}.

(** A field of a structure of the header. *)
Definition hfield (t : ctype) (i : nat) (b : list Z) : list Z := field (header_fields t) i b.
Definition hint (t : ctype) (i : nat) (b : list Z) : Z := of_le (hfield t i b).

(** [pfsn_lookup]: found, pid, uid, comm and path. *)
Definition pfsn_lookup (b : list Z) : Z * Z * Z * list Z * list Z :=
  let af := hint header_attr 1 b in
  let proto := hint header_attr 2 b in
  let lport := hint header_attr 3 b in
  let fport := hint header_attr 4 b in
  let laddr := take (addr_len af) (hfield header_attr 6 b) in
  let faddr := take (addr_len af) (hfield header_attr 7 b) in
  let comm := 0 :: drop 1 (hfield header_attr 13 b) in
  let path := 0 :: drop 1 (hfield header_attr 14 b) in
  let find wildcard := pcblookup wildcard af proto laddr lport faddr fport in
  let '(found, inp) :=
    match find false with
    | Some so => (PFSNITCH_MATCH_EXACT, Some so)
    | None => if proto =? IPPROTO_UDP then
                match find true with Some so => (PFSNITCH_MATCH_WILDCARD, Some so) | None => (PFSNITCH_MISS, None) end
              else (PFSNITCH_MISS, None)
    end in
  match inp with
  | Some (Some info) =>
      (found, i_pid info, i_uid info, strlcpy comm (i_comm info), strlcpy path (i_path info))
  | _ => (PFSNITCH_MISS, 0, 0, comm, path)
  end.

(** The structure as the query leaves it: only the answer's fields change. *)
Definition answer_query (b : list Z) : list Z :=
  let '(found, p, uid, comm, path) := pfsn_lookup b in
  encode (header_fields header_attr)
    (take 8 ((fun i => hfield header_attr i b) <$> seq 0 15)
     ++ [le 1 found; hfield header_attr 9 b; le 4 (of_i32 p); le 4 uid; hfield header_attr 12 b; comm; path]).

Definition PFSNITCH_ATTR_QUERY : Z := ioc IOC_INOUT 1 (Z.of_nat (csize header_attr)).
Definition PFSNITCH_VERDICT_PUSH : Z := ioc IOC_IN 2 (Z.of_nat (csize header_verdict)).
Definition PFSNITCH_VERDICT_FLUSH : Z := ioc IOC_VOID 3 0.
Definition PFSNITCH_RESOLVE : Z := ioc IOC_IN 4 (Z.of_nat (csize header_resolve)).
Definition PFSNITCH_UPCALL_SET : Z := ioc IOC_IN 5 4.

Definition bad_af (af : Z) : bool := negb (af =? 4) && negb (af =? 6).
Definition bad_proto (p : Z) : bool := negb (p =? IPPROTO_TCP) && negb (p =? IPPROTO_UDP).
Definition bad_verdict (v : Z) : bool := negb (v =? PFSNITCH_V_ALLOW) && negb (v =? PFSNITCH_V_DENY).

(** [pfsn_ioctl]: an errno, or the argument as it is left. *)
Definition pfsn_ioctl (mem : bool) (cmd : Z) (b : list Z) (m : Module_) : Module_ * (Z + list Z) :=
  if cmd =? PFSNITCH_VERDICT_PUSH then
    let af := hint header_verdict 1 b in
    let proto := hint header_verdict 2 b in
    let verdict := hint header_verdict 5 b in
    if negb (hint header_verdict 0 b =? PFSNITCH_ATTR_VERSION) then (m, inl EINVAL)
    else if bad_af af then (m, inl EINVAL)
    else if bad_proto proto then (m, inl EINVAL)
    else if bad_verdict verdict then (m, inl EINVAL)
    else (pfsn_verdict_push mem af proto (hfield header_verdict 4 b) (hint header_verdict 3 b) verdict
            (hfield header_verdict 7 b) m, inr b)
  else if cmd =? PFSNITCH_VERDICT_FLUSH then (pfsn_verdict_flush m, inr b)
  else if cmd =? PFSNITCH_RESOLVE then
    let verdict := hint header_resolve 1 b in
    if negb (hint header_resolve 0 b =? PFSNITCH_ATTR_VERSION) then (m, inl EINVAL)
    else if bad_verdict verdict then (m, inl EINVAL)
    else (pfsn_resolve mem (hint header_resolve 3 b) verdict m, inr b)
  else if cmd =? PFSNITCH_UPCALL_SET then (set_on (negb (of_le b =? 0)) m, inr b)
  else if negb (cmd =? PFSNITCH_ATTR_QUERY) then (m, inl ENOTTY)
  else if negb (hint header_attr 0 b =? PFSNITCH_ATTR_VERSION) then (m, inl EINVAL)
  else if bad_af (hint header_attr 1 b) then (m, inl EINVAL)
  else if bad_proto (hint header_attr 2 b) then (m, inl EINVAL)
  else (m, inr (answer_query b)).
End device.

(** ** The module as a machine *)

(** What the rest of the system does to it. *)
Inductive mod_op : Type :=
| OpConnect (mem : bool) (now : Z) (junk : list Z) (t : sock_type) (nonblock : bool) (info : option pfsn_info) (sa : option sockaddr)
| OpRead (resid : Z)
| OpReadFault (id : Z)
| OpIoctl (mem : bool) (cmd : Z) (arg : list Z)
| OpFailmode (v : Z)
| OpClose
| OpUnload.

Definition mod_step `{Pcbs} (m : Module_) (o : mod_op) : Module_ :=
  match o with
  | OpConnect mem now junk t nb info sa => (pfsn_socket_check_connect mem now junk t nb info sa m).1
  | OpRead resid => (pfsn_read resid m).1
  | OpReadFault id => pfsn_read_fault id m
  | OpIoctl mem cmd arg => (pfsn_ioctl mem cmd arg m).1
  | OpFailmode v => mk_module (pfsn_vtab m) (pfsn_vcount m) (pfsn_reqs m) (pfsn_next_id m) (pfsn_nreq m)
                      (pfsn_unloading m) (pfsn_upcall_on m) v
  | OpClose => pfsn_dev_close m
  | OpUnload => pfsn_destroy m
  end.
