(* ===== verification/KernLabels.v ===== *)
(** The labels of the kernel module (kmod/mac_pfsnitch.c, "Label lifecycle"): the record of a
    socket's creator as an allocation of kernel memory, from [socket_create] to
    [destroy_label] or to unloading.

    Memory is a finite map from addresses to records; an operation that frees what is not
    allocated, follows a pointer to what was freed, or unlinks what is not on the list has
    no result.  The allocator is the class [Malloc].  The MAC framework's part - which calls
    it makes, in which order - is [expects]. *)
From S2P Require Import Prelude Unicode RustStr IpAddr Procinfo Abi KernAttr KernModule.

(** Allocated memory, the slot of each socket's label (absent: NULL), and [pfsn_all]. *)
Record Labels : Type := mk_labels { memory : gmap Z pfsn_info; slots : gmap Z Z; pfsn_all : list Z }.

(** [malloc] with [M_WAITOK]: an address that is not in use. *)
Class Malloc : Type := {
  kmalloc : gmap Z pfsn_info -> Z;
  kmalloc_fresh : forall h, kmalloc h ∉ dom h
}.

(** ** Operations *)

Definition kfree (a : Z) (h : gmap Z pfsn_info) : option (gmap Z pfsn_info) :=
  if bool_decide (a ∈ dom h) then Some (delete a h) else None.

(** [TAILQ_REMOVE] *)
Fixpoint tailq_remove (a : Z) (l : list Z) : option (list Z) :=
  match l with
  | [] => None
  | x :: l' => if x =? a then Some l' else cons x <$> tailq_remove a l'
  end.

(** [pfsn_socket_init_label] *)
Definition pfsn_socket_init_label (so : Z) (L : Labels) : option Labels :=
  Some (mk_labels (memory L) (delete so (slots L)) (pfsn_all L)).

(** [pfsn_socket_destroy_label] *)
Definition pfsn_socket_destroy_label (so : Z) (L : Labels) : option Labels :=
  match slots L !! so with
  | None => Some L
  | Some info =>
      l ← tailq_remove info (pfsn_all L);
      h ← kfree info (memory L);
      Some (mk_labels h (delete so (slots L)) l)
  end.

(** [pfsn_socket_create]: the record is [KernModule.pfsn_socket_create]'s. *)
Definition label_socket `{Malloc} (so : Z) (info : pfsn_info) (L : Labels) : option Labels :=
  let a := kmalloc (memory L) in
  Some (mk_labels (<[a := info]> (memory L)) (<[so := a]> (slots L)) (pfsn_all L ++ [a])).

(** [SLOT(label)], followed: what the hook and the query read. *)
Definition read_label (so : Z) (L : Labels) : option (option pfsn_info) :=
  match slots L !! so with
  | None => Some None
  | Some a => Some <$> memory L !! a
  end.

(** [pfsn_destroy], as far as labels go: the slots keep their values. *)
Fixpoint free_all (l : list Z) (h : gmap Z pfsn_info) : option (gmap Z pfsn_info) :=
  match l with [] => Some h | a :: l' => h' ← kfree a h; free_all l' h' end.
Definition destroy_labels (L : Labels) : option Labels :=
  h ← free_all (pfsn_all L) (memory L); Some (mk_labels h (slots L) []).

(** ** The framework *)

Inductive label_op : Type :=
| LInit (so : Z)
| LCreate (so : Z) (info : pfsn_info)
| LRead (so : Z)
| LDestroy (so : Z).

Definition label_step `{Malloc} (L : Labels) (o : label_op) : option (Labels * option pfsn_info) :=
  match o with
  | LInit so => (fun L => (L, None)) <$> pfsn_socket_init_label so L
  | LCreate so info => (fun L => (L, None)) <$> label_socket so info L
  | LRead so => (fun r => (L, r)) <$> read_label so L
  | LDestroy so => (fun L => (L, None)) <$> pfsn_socket_destroy_label so L
  end.

(** Which sockets exist, and of which of them [socket_create] has run: a label is
    initialised when its socket is allocated, its creator is recorded at most once after
    that, and it is destroyed with the socket.  Sockets from before the module was loaded
    have a NULL slot and may be read and destroyed. *)
Definition expects (S : gmap Z bool) (o : label_op) : option (gmap Z bool) :=
  match o with
  | LInit so => if bool_decide (S !! so = None) then Some (<[so := false]> S) else None
  | LCreate so _ => if bool_decide (S !! so = Some false) then Some (<[so := true]> S) else None
  | LRead so => if bool_decide (is_Some (S !! so)) then Some S else None
  | LDestroy so => if bool_decide (is_Some (S !! so)) then Some (delete so S) else None
  end.
Fixpoint protocol (S : gmap Z bool) (os : list label_op) : bool :=
  match os with [] => true | o :: os' => match expects S o with Some S' => protocol S' os' | None => false end end.

(** ** What it promises: labels are values *)

Definition spec_step (C : gmap Z pfsn_info) (o : label_op) : gmap Z pfsn_info * option pfsn_info :=
  match o with
  | LInit _ => (C, None)
  | LCreate so info => (<[so := info]> C, None)
  | LRead so => (C, C !! so)
  | LDestroy so => (delete so C, None)
  end.

(** A whole run: what the reads saw, and what is left. *)
Fixpoint label_run `{Malloc} (L : Labels) (os : list label_op) : option (list (option pfsn_info) * Labels) :=
  match os with
  | [] => Some ([], L)
  | o :: os' => '(L', r) ← label_step L o; '(rs, L'') ← label_run L' os'; Some (r :: rs, L'')
  end.
Fixpoint spec_run (C : gmap Z pfsn_info) (os : list label_op) : list (option pfsn_info) * gmap Z pfsn_info :=
  match os with
  | [] => ([], C)
  | o :: os' => let '(C', r) := spec_step C o in let '(rs, C'') := spec_run C' os' in (r :: rs, C'')
  end.

(** ** The invariant *)

Record labels_ok (S : gmap Z bool) (C : gmap Z pfsn_info) (L : Labels) : Prop := mk_labels_ok {
  lb_read : forall so, (slots L !! so ≫= (memory L !!.)) = C !! so;
  lb_slot : forall so a, slots L !! so = Some a -> is_Some (memory L !! a) /\ S !! so = Some true;
  lb_own : forall so so' a, slots L !! so = Some a -> slots L !! so' = Some a -> so = so';
  lb_leak : forall a, is_Some (memory L !! a) -> exists so, slots L !! so = Some a;
  lb_list : forall a, a ∈ pfsn_all L <-> is_Some (memory L !! a);
  lb_nodup : NoDup (pfsn_all L)
}.

Lemma tailq_remove_in a l : a ∈ l -> NoDup l ->
  exists l', tailq_remove a l = Some l' /\ NoDup l' /\ forall x, x ∈ l' <-> x ∈ l /\ x <> a.
Proof.
  induction l as [|x l IH]; intros Hin Hnd; [by apply not_elem_of_nil in Hin|]. apply NoDup_cons in Hnd as [Hx Hnd]. cbn.
  destruct (Z.eqb_spec x a) as [->|Hne].
  - exists l. split; [done|]. split; [done|]. intros y. rewrite elem_of_cons. split; [|naive_solver]. intros Hy. split; [by right|]. by intros ->.
  - apply elem_of_cons in Hin as [->|Hin]; [done|]. destruct (IH Hin Hnd) as (l' & -> & Hnd' & Hl'). exists (x :: l'). split; [done|].
    split; [apply NoDup_cons; split; [rewrite Hl'; tauto|done]|]. intros y. rewrite !elem_of_cons, Hl'. naive_solver.
Qed.

Section run.
Context `{Malloc}.

Lemma label_init_ok S C L so S' :
  labels_ok S C L -> expects S (LInit so) = Some S' ->
  exists L' r, label_step L (LInit so) = Some (L', r) /\ r = (spec_step C (LInit so)).2 /\ labels_ok S' (spec_step C (LInit so)).1 L'.
Proof.
  intros [Hrd Hsl Hown Hlk Hl Hnd] He. cbn [expects] in He. case_bool_decide as Hs; [|done]. injection He as <-.
  eexists _, None. split; [done|]. split; [done|]. assert (Hn : slots L !! so = None).
  { destruct (slots L !! so) as [a|] eqn:E; [|done]. destruct (Hsl so a E) as [_ ?]. congruence. }
  cbn. rewrite delete_id by done. constructor; cbn; try done. intros so' a Ha. destruct (Hsl so' a Ha) as [? E]. split; [done|].
  rewrite lookup_insert_ne by (intros ->; congruence). done.
Qed.

Lemma label_create_ok S C L so info S' :
  labels_ok S C L -> expects S (LCreate so info) = Some S' ->
  exists L' r, label_step L (LCreate so info) = Some (L', r) /\ r = (spec_step C (LCreate so info)).2 /\ labels_ok S' (spec_step C (LCreate so info)).1 L'.
Proof.
  intros [Hrd Hsl Hown Hlk Hl Hnd] He. cbn [expects] in He. case_bool_decide as Hs; [|done]. injection He as <-.
  eexists _, None. split; [done|]. split; [done|]. cbn. set (a := kmalloc (memory L)).
  assert (Ha : memory L !! a = None) by apply not_elem_of_dom, kmalloc_fresh.
  assert (Hn : slots L !! so = None).
  { destruct (slots L !! so) as [b|] eqn:E; [|done]. destruct (Hsl so b E) as [_ ?]. congruence. }
  assert (Hfr : forall so' b, slots L !! so' = Some b -> b <> a).
  { intros so' b Hb ->. destruct (Hsl so' a Hb) as [[? ?] _]. congruence. }
  constructor; cbn.
  - intros so'. destruct (decide (so' = so)) as [->|Hne]; [by rewrite !lookup_insert_eq; cbn; rewrite lookup_insert_eq|].
    rewrite !lookup_insert_ne by done. rewrite <- Hrd. destruct (slots L !! so') as [b|] eqn:E; [|done]. cbn.
    by rewrite lookup_insert_ne by (symmetry; by eapply Hfr).
  - intros so' b. destruct (decide (so' = so)) as [->|Hne].
    + rewrite lookup_insert_eq. intros [= <-]. rewrite !lookup_insert_eq. split; [by eexists|done].
    + intros Hb. rewrite lookup_insert_ne in Hb by done. destruct (Hsl so' b Hb). rewrite (lookup_insert_ne S) by done.
      split; [|done]. rewrite lookup_insert_ne; [done|]. intros E. by apply (Hfr so' b).
  - intros so1 so2 b. destruct (decide (so1 = so)) as [->|H1], (decide (so2 = so)) as [->|H2]; try done;
      rewrite ?lookup_insert_eq, ?lookup_insert_ne by done.
    + intros [= <-] Hb. by apply Hfr in Hb.
    + intros Hb [= <-]. by apply Hfr in Hb.
    + apply Hown.
  - intros b [E|[_ Hb]]%lookup_insert_is_Some; [exists so; subst b; apply lookup_insert_eq|]. destruct (Hlk b Hb) as [so' Hso']. exists so'.
    rewrite lookup_insert_ne; [done|]. intros <-. congruence.
  - intros b. rewrite elem_of_app, list_elem_of_singleton, Hl, lookup_insert_is_Some. destruct (decide (b = a)); naive_solver.
  - apply NoDup_app. split; [done|]. split; [|apply NoDup_singleton]. intros b Hb ->%list_elem_of_singleton. apply Hl in Hb as [? ?]. congruence.
Qed.

Lemma label_read_ok S C L so S' :
  labels_ok S C L -> expects S (LRead so) = Some S' ->
  exists L' r, label_step L (LRead so) = Some (L', r) /\ r = (spec_step C (LRead so)).2 /\ labels_ok S' (spec_step C (LRead so)).1 L'.
Proof.
  intros [Hrd Hsl Hown Hlk Hl Hnd] He. cbn [expects] in He. case_bool_decide as Hs; [|done]. injection He as <-.
  cbn. unfold read_label. rewrite <- Hrd. destruct (slots L !! so) as [a|] eqn:E; cbn; [|by eexists _, _].
  destruct (Hsl so a E) as [[i ->] _]. by eexists _, _.
Qed.

Lemma label_destroy_ok S C L so S' :
  labels_ok S C L -> expects S (LDestroy so) = Some S' ->
  exists L' r, label_step L (LDestroy so) = Some (L', r) /\ r = (spec_step C (LDestroy so)).2 /\ labels_ok S' (spec_step C (LDestroy so)).1 L'.
Proof.
  intros [Hrd Hsl Hown Hlk Hl Hnd] He. cbn [expects] in He. case_bool_decide as Hs; [|done]. injection He as <-.
  cbn. unfold pfsn_socket_destroy_label. destruct (slots L !! so) as [a|] eqn:E.
  - destruct (Hsl so a E) as [Ha _]. destruct (tailq_remove_in a (pfsn_all L)) as (l' & -> & Hnd' & Hl'); [by apply Hl|done|].
    cbn. unfold kfree. rewrite bool_decide_eq_true_2 by by apply elem_of_dom. cbn. eexists _, None. split; [done|]. split; [done|].
    assert (Hfr : forall so' b, so' <> so -> slots L !! so' = Some b -> b <> a).
    { intros so' b Hne Hb ->. apply Hne. by eapply Hown. }
    constructor; cbn.
    + intros so'. destruct (decide (so' = so)) as [->|Hne]; [by rewrite !lookup_delete_eq|]. rewrite !lookup_delete_ne by done.
      rewrite <- Hrd. destruct (slots L !! so') as [b|] eqn:E'; [|done]. cbn. by rewrite lookup_delete_ne by (symmetry; by eapply Hfr).
    + intros so' b Hb. apply lookup_delete_Some in Hb as [Hne Hb]. destruct (Hsl so' b Hb).
      rewrite !lookup_delete_ne; [done|done|]. symmetry. by apply (Hfr so').
    + intros so1 so2 b [_ H1]%lookup_delete_Some [_ H2]%lookup_delete_Some. by eapply Hown.
    + intros b [Hne Hb]%lookup_delete_is_Some. destruct (Hlk b Hb) as [so' Hso']. exists so'. rewrite lookup_delete_ne; [done|].
      intros <-. congruence.
    + intros b. rewrite Hl', Hl, lookup_delete_is_Some. naive_solver.
    + done.
  - eexists _, None. split; [done|]. split; [done|]. cbn. constructor; cbn; try done.
    + intros so'. destruct (decide (so' = so)) as [->|Hne]; [by rewrite lookup_delete_eq, E|]. by rewrite lookup_delete_ne.
    + intros so' a Ha. destruct (Hsl so' a Ha). rewrite lookup_delete_ne; [done|]. intros <-. congruence.
Qed.

Lemma label_step_ok S C L o S' :
  labels_ok S C L -> expects S o = Some S' ->
  exists L' r, label_step L o = Some (L', r) /\ r = (spec_step C o).2 /\ labels_ok S' (spec_step C o).1 L'.
Proof. destruct o; [apply label_init_ok|apply label_create_ok|apply label_read_ok|apply label_destroy_ok]. Qed.

Lemma label_run_ok S C L os :
  labels_ok S C L -> protocol S os = true ->
  exists S' L', label_run L os = Some ((spec_run C os).1, L') /\ labels_ok S' (spec_run C os).2 L'.
Proof.
  revert S C L. induction os as [|o os IH]; intros S C L Hok Hp; [by exists S, L|]. cbn [protocol] in Hp.
  destruct (expects S o) as [S1|] eqn:He; [|done]. destruct (label_step_ok S C L o S1 Hok He) as (L1 & r & Hs & Hr & Hok1).
  destruct (IH S1 _ L1 Hok1 Hp) as (S' & L' & Hrun & Hok'). exists S', L'. cbn [label_run spec_run]. rewrite Hs. cbn. rewrite Hrun. cbn. subst r.
  destruct (spec_step C o) as [C1 r1]. cbn in *. by destruct (spec_run C1 os).
Qed.
End run.

Lemma free_all_all l h : NoDup l -> (forall a, a ∈ l <-> is_Some (h !! a)) -> free_all l h = Some ∅.
Proof.
  revert h. induction l as [|a l IH]; intros h Hnd Hl.
  - cbn. f_equal. apply map_empty. intros a. destruct (h !! a) eqn:E; [|done]. exfalso. apply (not_elem_of_nil a), Hl. by eexists.
  - apply NoDup_cons in Hnd as [Ha Hnd]. cbn. unfold kfree. rewrite bool_decide_eq_true_2 by (apply elem_of_dom, Hl; by left). cbn. apply IH; [done|].
    intros b. rewrite lookup_delete_is_Some, <- Hl, elem_of_cons. naive_solver.
Qed.

Lemma read_label_ok S C L so : labels_ok S C L -> read_label so L = Some (C !! so).
Proof.
  intros [Hrd Hsl _ _ _ _]. unfold read_label. rewrite <- Hrd. destruct (slots L !! so) as [a|] eqn:E; [|done]. cbn.
  by destruct (Hsl so a E) as [[i ->] _].
Qed.

Lemma labels_ok_start S : labels_ok S ∅ (mk_labels ∅ ∅ []).
Proof.
  constructor; cbn; intros *; rewrite ?lookup_empty; try done; [|by apply NoDup_nil_2].
  split; [by intros ?%not_elem_of_nil|by intros [? ?]].
Qed.

(** C19. The creators of sockets as the module keeps them in kernel memory are as good as a
    table of values: on any sequence of calls the framework may make - sockets of before the
    module included - nothing freed is followed, unlinked or freed again; every read sees what
    the table holds; no record is left without its socket; and unloading frees every record
    exactly once. *)
Theorem labels_safe `{Malloc} S os :
  protocol S os = true ->
  exists L, label_run (mk_labels ∅ ∅ []) os = Some ((spec_run ∅ os).1, L) /\
    (forall so, read_label so L = Some ((spec_run ∅ os).2 !! so)) /\
    (forall a info, memory L !! a = Some info -> exists so, slots L !! so = Some a /\ (spec_run ∅ os).2 !! so = Some info) /\
    destroy_labels L = Some (mk_labels ∅ (slots L) []).
Proof.
  intros Hp. destruct (label_run_ok S ∅ _ os (labels_ok_start S) Hp) as (S' & L & Hrun & Hok). exists L. split; [done|].
  split; [intros so; by eapply read_label_ok|]. split.
  - intros a info Ha. destruct (lb_leak _ _ _ Hok a) as [so Hso]; [by eexists|]. exists so. split; [done|].
    rewrite <- (lb_read _ _ _ Hok so), Hso. done.
  - unfold destroy_labels. by rewrite (free_all_all _ _ (lb_nodup _ _ _ Hok) (lb_list _ _ _ Hok)).
Qed.

(** ** An allocator, and a run: a socket of before the module, two labelled ones, a read of each *)

#[local] Instance malloc_fresh : Malloc := {| kmalloc h := fresh (dom h); kmalloc_fresh h := is_fresh (dom h) |}.

Lemma labels_safe_witness :
  let info := mk_info 77 1001 [102; 111; 111] [47; 98; 105; 110; 47; 102; 111; 111] in
  let os := [LInit 2; LCreate 2 info; LInit 3; LRead 1; LRead 2; LDestroy 1; LCreate 3 info; LDestroy 2; LInit 2; LRead 2; LRead 3] in
  protocol {[1 := true]} os = true /\
  exists L, label_run (mk_labels ∅ ∅ []) os =
    Some ([None; None; None; None; Some info; None; None; None; None; None; Some info], L) /\
    size (memory L) = 1%nat /\ exists s, destroy_labels L = Some (mk_labels ∅ s []).
Proof.
  intros info os. assert (Hp : protocol {[1 := true]} os = true) by (vm_compute; reflexivity). split; [exact Hp|].
  destruct (labels_safe {[1 := true]} os Hp) as (L & Hrun & _ & _ & Hd). exists L.
  assert (Hrs : (spec_run ∅ os).1 = [None; None; None; None; Some info; None; None; None; None; None; Some info]) by (vm_compute; reflexivity).
  rewrite Hrs in Hrun. split; [exact Hrun|]. split; [|by eexists].
  assert (Hm : (fun x => size (memory x.2)) <$> label_run (mk_labels ∅ ∅ []) os = Some 1%nat) by (vm_compute; reflexivity).
  rewrite Hrun in Hm. by injection Hm.
Defined.
