(* ===== verification/ModuleSpec.v ===== *)
(** What the kernel module promises: its hashed cache is a finite map of bounded size, its
    request queue holds each question once and is bounded, and every operation keeps it so. *)
From S2P Require Import Prelude Unicode RustStr IpAddr Procinfo Abi KernAttr KernModule.

(** ** The abstract cache *)

(** Family, protocol, port, the address bytes that count, and the counted path. *)
Abbreviation vkey := (Z * Z * Z * list Z * list Z)%type.
Definition key_of (af proto : Z) (faddr : list Z) (fport : Z) (path : list Z) : vkey :=
  (af, proto, fport, take (addr_len af) faddr, path).
Definition entry_key (e : pfsn_verdict) : vkey := key_of (c_af e) (c_proto e) (c_faddr e) (c_fport e) (c_path e).
Definition req_key (r : pfsn_req) : vkey := key_of (q_af r) (q_proto r) (q_faddr r) (q_fport r) (q_path r).

Definition cached (m : Module_) : list pfsn_verdict := concat (pfsn_vtab m).
Definition binding (e : pfsn_verdict) : vkey * Z := (entry_key e, c_verdict e).
Definition cache_map (m : Module_) : gmap vkey Z := list_to_map (binding <$> cached m).

(** A map that takes a new key while there is room and memory, and an old one always. *)
Definition cache_put (mem : bool) (k : vkey) (v : Z) (c : gmap vkey Z) : gmap vkey Z :=
  if bool_decide (is_Some (c !! k)) || ((Z.of_nat (size c) <? PFSN_VMAX) && mem) then <[k := v]> c else c.

(** ** The invariant *)

(** A path as the module stores it: a C string that is not empty, with its terminator. *)
Definition counted (p : list Z) : Prop := exists s, p = s ++ [0] /\ s <> [] /\ lacks 0 s /\ (length s < 1024)%nat.

Record vcache_ok (m : Module_) : Prop := mk_vcache_ok {
  co_buckets : length (pfsn_vtab m) = 1024%nat;
  co_hash : forall b l e, pfsn_vtab m !! b = Some l -> e ∈ l ->
              pfsn_vhash (c_af e) (c_proto e) (c_faddr e) (c_fport e) = b;
  co_nodup : NoDup (entry_key <$> cached m);
  co_count : pfsn_vcount m = Z.of_nat (length (cached m));
  co_max : pfsn_vcount m <= PFSN_VMAX;
  co_paths : Forall (fun e => counted (c_path e) /\ (c_verdict e = 1 \/ c_verdict e = 2)) (cached m)
}.

Record queue_ok (m : Module_) : Prop := mk_queue_ok {
  qo_count : pfsn_nreq m = Z.of_nat (length (pfsn_reqs m));
  qo_max : pfsn_nreq m <= PFSN_REQ_MAX;
  qo_nodup : NoDup (req_key <$> pfsn_reqs m);
  qo_paths : Forall (fun r => counted (q_path r)) (pfsn_reqs m);
  qo_ids : NoDup (q_id <$> pfsn_reqs m);
  qo_next : Forall (fun r => q_id r < pfsn_next_id m) (pfsn_reqs m)
}.

(** ** The hash *)

Lemma vhash_lt af proto faddr fport : (pfsn_vhash af proto faddr fport < 1024)%nat.
Proof.
  unfold pfsn_vhash, PFSN_VHASH. change (1024 - 1) with (Z.ones 10). rewrite Z.land_ones by lia.
  pose proof (Z.mod_pos_bound (foldl fnv (fnv (fnv (fnv 2166136261 proto) (Z.land fport 255)) (Z.shiftr fport 8))
                (take (addr_len af) faddr)) (2 ^ 10) ltac:(lia)). lia.
Qed.

(** The bucket depends on the key alone. *)
Lemma vhash_key af proto faddr fport path e :
  entry_key e = key_of af proto faddr fport path ->
  pfsn_vhash (c_af e) (c_proto e) (c_faddr e) (c_fport e) = pfsn_vhash af proto faddr fport.
Proof. intros [= -> -> -> Ha _]. unfold pfsn_vhash. by rewrite Ha. Qed.

Lemma same_dest_key af proto faddr fport path e :
  same_dest af proto faddr fport e && bool_decide (c_path e = path) = true
  <-> entry_key e = key_of af proto faddr fport path.
Proof.
  unfold same_dest, entry_key, key_of. rewrite !andb_true_iff, !Z.eqb_eq, !bool_decide_eq_true. split.
  - by intros [[[[-> ->] ->] ->] ->].
  - intros [= -> -> -> Ha ->]. by rewrite Ha.
Qed.

Lemma same_question_key af proto faddr fport path r :
  same_question af proto faddr fport path r = true <-> req_key r = key_of af proto faddr fport path.
Proof.
  unfold same_question, req_key, key_of. rewrite !andb_true_iff, !Z.eqb_eq, !bool_decide_eq_true. split.
  - by intros [[[[-> ->] ->] ->] ->].
  - intros [= -> -> -> Ha ->]. by rewrite Ha.
Qed.

Lemma until_nul_counted s : lacks 0 s -> until_nul (s ++ [0]) = s.
Proof. intros Hs. unfold until_nul. rewrite break_on_app; [done|by apply lacks_is_char|done]. Qed.

(** Comparing C strings is comparing counted ones. *)
Lemma until_nul_eq p s : counted p -> lacks 0 s -> until_nul p = s <-> p = s ++ [0].
Proof.
  intros (q & -> & _ & Hq & _) Hs. rewrite until_nul_counted by done. split; [by intros ->|].
  intros E. by apply app_inj_tail in E as [-> _].
Qed.

(** ** One bucket among the others *)

Lemma concat_at {A} (t : list (list A)) b l :
  t !! b = Some l -> exists e1 e2, concat t = e1 ++ l ++ e2 /\ forall l', concat (<[b := l']> t) = e1 ++ l' ++ e2.
Proof.
  revert b. induction t as [|x t IH]; intros [|b] Hb; try done; cbn in Hb.
  - injection Hb as ->. exists [], (concat t). by split.
  - destruct (IH b Hb) as (e1 & e2 & E & E'). exists (x ++ e1), e2. cbn. rewrite E. split; [by rewrite app_assoc|].
    intros l'. by rewrite E', app_assoc.
Qed.

Lemma update_in_place_some p verdict l l' :
  update_in_place p verdict l = Some l' ->
  exists l1 v l2, l = l1 ++ v :: l2 /\ p v = true
    /\ l' = l1 ++ mk_cached (c_af v) (c_proto v) verdict (c_fport v) (c_faddr v) (c_path v) :: l2.
Proof.
  revert l'. induction l as [|x l IH]; intros l' H; [done|]. cbn in H. destruct (p x) eqn:E.
  - injection H as <-. by exists [], x, l.
  - apply fmap_Some in H as (l0 & Hl & ->). destruct (IH _ Hl) as (l1 & v & l2 & -> & Hv & ->).
    by exists (x :: l1), v, l2.
Qed.

Lemma update_in_place_none p verdict l : update_in_place p verdict l = None -> forall v, v ∈ l -> p v = false.
Proof.
  induction l as [|x l IH]; intros H v Hv; [by apply not_elem_of_nil in Hv|]. cbn in H.
  destruct (p x) eqn:E; [done|]. apply fmap_None in H. apply elem_of_cons in Hv as [->|Hv]; auto.
Qed.

Section cache.
Context (m : Module_) (ok : vcache_ok m).

Lemma bucket_exists b : (b < 1024)%nat -> exists l, pfsn_vtab m !! b = Some l.
Proof using ok. intros Hb. apply lookup_lt_is_Some_2. by rewrite (co_buckets m ok). Qed.

Lemma entry_bucket e :
  e ∈ cached m ->
  exists l, pfsn_vtab m !! pfsn_vhash (c_af e) (c_proto e) (c_faddr e) (c_fport e) = Some l /\ e ∈ l.
Proof using ok.
  unfold cached. intros He. apply list_elem_of_In, in_concat in He as (l & Hl & He).
  apply list_elem_of_In in Hl, He. apply list_elem_of_lookup in Hl as [b Hb].
  exists l. by rewrite (co_hash m ok b l e Hb He).
Qed.

Lemma bucket_entry b l e : pfsn_vtab m !! b = Some l -> e ∈ l -> e ∈ cached m.
Proof.
  intros Hb He. unfold cached. apply list_elem_of_In, in_concat. exists l.
  split; apply list_elem_of_In; [by eapply list_elem_of_lookup_2|done].
Qed.

Lemma binding_keys : (binding <$> cached m).*1 = entry_key <$> cached m.
Proof. rewrite <- list_fmap_compose. done. Qed.

Lemma cache_map_some e : e ∈ cached m -> cache_map m !! entry_key e = Some (c_verdict e).
Proof using ok.
  intros He. apply elem_of_list_to_map_1; [rewrite binding_keys; apply (co_nodup m ok)|].
  by apply (list_elem_of_fmap_2 binding).
Qed.

Lemma cache_map_none k : (forall e, e ∈ cached m -> entry_key e <> k) -> cache_map m !! k = None.
Proof.
  intros Hk. apply not_elem_of_list_to_map_1. rewrite binding_keys. rewrite list_elem_of_fmap.
  intros (e & -> & He). by apply (Hk e).
Qed.

Lemma cache_size : Z.of_nat (size (cache_map m)) = pfsn_vcount m.
Proof using ok.
  unfold cache_map. rewrite map_size_list_to_map by (rewrite binding_keys; apply (co_nodup m ok)).
  by rewrite length_fmap, (co_count m ok).
Qed.

(** Looking up in the table is looking up in the map. *)
Lemma lookup_refines af proto faddr fport path :
  lacks 0 path ->
  pfsn_verdict_lookup af proto faddr fport path m
  = default 0 (cache_map m !! key_of af proto faddr fport (path ++ [0])).
Proof using ok.
  intros Hp. unfold pfsn_verdict_lookup. set (b := pfsn_vhash af proto faddr fport).
  destruct (bucket_exists b (vhash_lt _ _ _ _)) as [l Hl]. rewrite Hl. change (default [] (Some l)) with l.
  assert (Hmatch : forall v, v ∈ l -> same_dest af proto faddr fport v && bool_decide (until_nul (c_path v) = path) = true
                     <-> entry_key v = key_of af proto faddr fport (path ++ [0])).
  { intros v Hv. rewrite <- same_dest_key, !andb_true_iff, !bool_decide_eq_true.
    assert (counted (c_path v)) as Hc.
    { pose proof (co_paths m ok) as Hall. rewrite Forall_forall in Hall.
      by destruct (Hall v (bucket_entry b l v Hl Hv)). }
    by rewrite (until_nul_eq _ _ Hc Hp). }
  match goal with |- context [List.find ?f l] => destruct (List.find f l) as [v|] eqn:E end.
  - apply List.find_some in E as [Hv E]. rewrite <- list_elem_of_In in Hv. apply Hmatch in E; [|done].
    rewrite <- E, (cache_map_some v (bucket_entry b l v Hl Hv)). done.
  - rewrite cache_map_none; [done|]. intros e He Hk. destruct (entry_bucket e He) as (l' & Hl' & He').
    rewrite (vhash_key _ _ _ _ _ _ Hk) in Hl'. fold b in Hl'. rewrite Hl in Hl'. injection Hl' as <-.
    apply Hmatch in Hk; [|done]. apply list_elem_of_In in He'. by rewrite (List.find_none _ _ E e He') in Hk.
Qed.
End cache.

(** Replacing one bucket. *)
Lemma set_bucket_ok m b l' n :
  vcache_ok m -> (b < 1024)%nat ->
  (forall e, e ∈ l' -> pfsn_vhash (c_af e) (c_proto e) (c_faddr e) (c_fport e) = b) ->
  let m' := set_cache (<[b := l']> (pfsn_vtab m)) n m in
  NoDup (entry_key <$> cached m') -> n = Z.of_nat (length (cached m')) -> n <= PFSN_VMAX ->
  Forall (fun e => counted (c_path e) /\ (c_verdict e = 1 \/ c_verdict e = 2)) (cached m') -> vcache_ok m'.
Proof.
  intros ok Hb Hl' m' Hnd Hn Hmax Hp. constructor; try done; cbn.
  - by rewrite length_insert, (co_buckets m ok).
  - intros b0 l0 e Hb0 He. apply list_lookup_insert_Some in Hb0 as [(-> & -> & _)|(_ & Hb0)]; [by apply Hl'|].
    by apply (co_hash m ok b0 l0 e).
Qed.

Lemma binding_map_perm (l1 l2 : list pfsn_verdict) :
  NoDup (entry_key <$> l1) -> l1 ≡ₚ l2 ->
  (list_to_map (binding <$> l1) : gmap vkey Z) = list_to_map (binding <$> l2).
Proof.
  intros Hnd Hp. apply list_to_map_proper; [|by rewrite Hp]. by rewrite <- list_fmap_compose.
Qed.

Lemma counted_length p : counted p -> (0 < length p <= 1024)%nat.
Proof. intros (s & -> & _ & _ & Hs). rewrite length_app. cbn. lia. Qed.

Section insert.
Context (mem : bool) (af proto : Z) (faddr : list Z) (fport verdict : Z) (path : list Z) (m : Module_).
Context (ok : vcache_ok m) (Hpath : counted path) (Hverdict : verdict = 1 \/ verdict = 2).

Let k := key_of af proto faddr fport path.
Let b := pfsn_vhash af proto faddr fport.

(** An entry of the key is there: it gets the verdict. *)
Lemma insert_update l l' :
  pfsn_vtab m !! b = Some l ->
  update_in_place (fun v => same_dest af proto faddr fport v && bool_decide (c_path v = path)) verdict l = Some l' ->
  let m1 := set_cache (<[b := l']> (pfsn_vtab m)) (pfsn_vcount m) m in
  vcache_ok m1 /\ is_Some (cache_map m !! k) /\ cache_map m1 = <[k := verdict]> (cache_map m).
Proof using All.
  intros Hl Hu m1. apply update_in_place_some in Hu as (l1 & v & l2 & -> & Hv & ->).
  apply same_dest_key in Hv. fold k in Hv. set (v' := mk_cached (c_af v) (c_proto v) verdict (c_fport v) (c_faddr v) (c_path v)) in *.
  destruct (concat_at _ _ _ Hl) as (e1 & e2 & E & E').
  assert (Hm : cached m = (e1 ++ l1) ++ v :: l2 ++ e2)
    by (unfold cached; rewrite E; by rewrite <- !app_assoc).
  assert (Hm1 : cached m1 = (e1 ++ l1) ++ v' :: l2 ++ e2)
    by (unfold cached, m1; cbn; rewrite E'; by rewrite <- !app_assoc).
  assert (Hk' : entry_key v' = k) by exact Hv.
  assert (Hkeys : entry_key <$> cached m1 = entry_key <$> cached m)
    by (rewrite Hm, Hm1, !fmap_app, !fmap_cons; by rewrite Hk', Hv).
  assert (Hve : v ∈ cached m) by (rewrite Hm; set_solver).
  split; [|split].
  - apply set_bucket_ok; [done|apply vhash_lt| | | |apply (co_max m ok)|].
    + intros e He. apply elem_of_app in He as [He|He]; [apply (co_hash m ok b _ e Hl); set_solver|].
      apply elem_of_cons in He as [->|He]; [apply (co_hash m ok b _ v Hl)|apply (co_hash m ok b _ e Hl)]; set_solver.
    + fold m1. rewrite Hkeys. apply (co_nodup m ok).
    + fold m1. rewrite (co_count m ok), Hm, Hm1, !length_app. done.
    + fold m1. pose proof (co_paths m ok) as Hp. rewrite Hm in Hp. rewrite Hm1.
      apply Forall_app in Hp as [Hp1 Hp2]. apply Forall_cons in Hp2 as [[Hpv _] Hp2].
      apply Forall_app. split; [done|]. by constructor.
  - rewrite <- Hv, (cache_map_some m ok v Hve). by eexists.
  - unfold cache_map. pose proof (co_nodup m ok) as Hnd.
    assert (P : cached m ≡ₚ v :: (e1 ++ l1) ++ l2 ++ e2) by (rewrite Hm; symmetry; apply Permutation_middle).
    assert (P1 : cached m1 ≡ₚ v' :: (e1 ++ l1) ++ l2 ++ e2) by (rewrite Hm1; symmetry; apply Permutation_middle).
    rewrite (binding_map_perm _ _ Hnd P). rewrite <- Hkeys in Hnd. rewrite (binding_map_perm _ _ Hnd P1).
    rewrite !fmap_cons. unfold binding at 1 3. cbn [list_to_map foldr fst snd uncurry]. 
    change (entry_key v') with (entry_key v). rewrite Hv. symmetry. apply insert_insert_eq.
Qed.

(** None is there, and there is room and memory. *)
Lemma insert_new l :
  pfsn_vtab m !! b = Some l -> cache_map m !! k = None -> pfsn_vcount m < PFSN_VMAX ->
  let v := mk_cached af proto verdict fport faddr path in
  let m1 := set_cache (<[b := v :: l]> (pfsn_vtab m)) (wrap32 (pfsn_vcount m + 1)) m in
  vcache_ok m1 /\ cache_map m1 = <[k := verdict]> (cache_map m).
Proof using All.
  intros Hl Hk Hroom v m1. destruct (concat_at _ _ _ Hl) as (e1 & e2 & E & E').
  assert (Hp : cached m1 ≡ₚ v :: cached m).
  { unfold cached, m1. cbn. rewrite E, E'. cbn. symmetry. apply Permutation_middle. }
  assert (Hkv : entry_key v = k) by done.
  assert (Hnk : k ∉ entry_key <$> cached m).
  { intros Hin. apply list_elem_of_fmap in Hin as (e & He & Hin).
    pose proof (cache_map_some m ok e Hin) as Hs. rewrite <- He, Hk in Hs. done. }
  assert (Hnd : NoDup (entry_key <$> cached m1)).
  { rewrite Hp, fmap_cons, Hkv. constructor; [done|apply (co_nodup m ok)]. }
  pose proof (co_count m ok) as Hc. unfold PFSN_VMAX in Hroom.
  assert (Hn : wrap32 (pfsn_vcount m + 1) = Z.of_nat (length (cached m1))).
  { rewrite Hp. cbn [length]. unfold wrap32. rewrite Z.mod_small by lia. lia. }
  split.
  - apply set_bucket_ok; try done; [apply vhash_lt| | |].
    + intros e He. apply elem_of_cons in He as [->|He]; [done|]. by apply (co_hash m ok b l).
    + rewrite Hn, Hp. cbn [length]. unfold PFSN_VMAX. lia.
    + fold v m1. rewrite Hp. constructor; [done|apply (co_paths m ok)].
  - unfold cache_map. rewrite (binding_map_perm _ _ Hnd Hp). done.
Qed.

Let m' := pfsn_cache_insert mem af proto faddr fport verdict path m.

(** Inserting refines [cache_put]. *)
Lemma cache_insert_refines :
  vcache_ok m' /\ cache_map m' = cache_put mem k verdict (cache_map m)
  /\ m' = set_cache (pfsn_vtab m') (pfsn_vcount m') m.
Proof using All.
  unfold m', pfsn_cache_insert, cache_put. pose proof (counted_length _ Hpath).
  replace ((length path =? 0)%nat || (1024 <? length path)%nat) with false
    by (symmetry; apply orb_false_iff; split; [apply Nat.eqb_neq|apply Nat.ltb_ge]; lia).
  fold b k. destruct (bucket_exists m ok b (vhash_lt _ _ _ _)) as [l Hl]. rewrite Hl.
  change (default [] (Some l)) with l. rewrite (cache_size m ok). cbv zeta.
  destruct (update_in_place _ _ _) as [l'|] eqn:Eu.
  { destruct (insert_update l l' Hl Eu) as (Hok & Hs & Hmap). by rewrite bool_decide_eq_true_2. }
  assert (Hk : cache_map m !! k = None).
  { apply cache_map_none. intros e He Hke. destruct (entry_bucket m ok e He) as (l0 & Hl0 & He0).
    rewrite (vhash_key _ _ _ _ _ _ Hke) in Hl0. fold b in Hl0. rewrite Hl in Hl0. injection Hl0 as <-.
    apply same_dest_key in Hke. by rewrite (update_in_place_none _ _ _ Eu e He0) in Hke. }
  rewrite Hk, bool_decide_eq_false_2 by (by intros [? ?]). cbn [orb].
  assert (m = set_cache (pfsn_vtab m) (pfsn_vcount m) m) as Hid by (by destruct m).
  destruct (Z.leb_spec PFSN_VMAX (pfsn_vcount m)) as [Hfull|Hroom].
  { rewrite (proj2 (Z.ltb_ge _ _) Hfull). cbn [andb]. by split_and!. }
  rewrite (proj2 (Z.ltb_lt _ _) Hroom). destruct mem; cbn [negb andb]; [|by split_and!].
  destruct (insert_new l Hl Hk Hroom) as [Hok Hmap]. by split_and!.
Qed.
End insert.

Lemma concat_emptied {A} (t : list (list A)) : concat ((fun _ => @nil A) <$> t) = [] :> list A.
Proof. induction t as [|x t IH]; [done|]. exact IH. Qed.

Lemma cache_flush_refines m :
  length (pfsn_vtab m) = 1024%nat -> vcache_ok (pfsn_verdict_flush m) /\ cache_map (pfsn_verdict_flush m) = ∅.
Proof.
  intros Hl. assert (He : cached (pfsn_verdict_flush m) = []) by apply concat_emptied.
  split; [|unfold cache_map; by rewrite He].
  constructor; rewrite ?He; try done; cbn; [by rewrite length_fmap| |by constructor].
  intros b l e Hb Hin. apply list_lookup_fmap_Some in Hb as (? & -> & _). by apply not_elem_of_nil in Hin.
Qed.

Lemma cache_init_refines f : vcache_ok (pfsn_init f) /\ cache_map (pfsn_init f) = ∅.
Proof.
  apply (cache_flush_refines (pfsn_init f)). done.
Qed.

(** ** C strings *)

Lemma until_nul_lacks s : lacks 0 s -> until_nul s = s.
Proof. intros Hs. unfold until_nul. by rewrite break_on_none by (by apply lacks_is_char). Qed.

Lemma until_nul_split b : lacks 0 (until_nul b) /\ (b = until_nul b \/ exists t, b = until_nul b ++ 0 :: t).
Proof.
  unfold until_nul. destruct (break_on (is_char 0) b) as [a [t|]] eqn:E; cbn [fst].
  - apply break_on_some in E as (c & -> & Hc & Ha). split; [by apply lacks_is_char|].
    right. exists t. unfold is_char in Hc. by apply Z.eqb_eq in Hc as ->.
  - apply break_on_none_inv in E as [-> Ha]. split; [by apply lacks_is_char|by left].
Qed.

(** A path field of the device's structures: the C string it holds, when one ends in it. *)
Lemma strnlen_field p :
  length p = 1024%nat -> (strnlen p 1024 < 1024)%nat ->
  lacks 0 (until_nul p) /\ strnlen p 1024 = length (until_nul p) /\ take (strnlen p 1024 + 1) p = until_nul p ++ [0].
Proof.
  intros Hl. unfold strnlen. rewrite take_ge by lia. intros Hlt.
  destruct (until_nul_split p) as [Hs [E|[t E]]].
  - rewrite <- E in Hlt. lia.
  - split; [done|]. split; [done|]. rewrite E at 2. rewrite take_app_ge by lia.
    by replace (length (until_nul p) + 1 - length (until_nul p))%nat with 1%nat by lia.
Qed.

Lemma strnlen_string s : lacks 0 s -> strnlen s 1024 = Nat.min 1024 (length s).
Proof. intros Hs. unfold strnlen. rewrite until_nul_lacks by (by apply Forall_take). apply length_take. Qed.

(** A path that fits in the field, as both length tests see it. *)
Lemma strnlen_fits s :
  lacks 0 s -> s <> [] -> (length s < 1024)%nat ->
  (strnlen s 1024 =? 0)%nat || (1024 <=? strnlen s 1024)%nat = false.
Proof.
  intros Hs Hne Hl. rewrite strnlen_string by done. apply orb_false_iff. split; [|apply Nat.leb_gt; lia].
  apply Nat.eqb_neq. destruct s; [done|cbn; lia].
Qed.

(** ** The queue *)

Lemma queue_ok_same m m' :
  queue_ok m -> pfsn_reqs m' = pfsn_reqs m -> pfsn_nreq m' = pfsn_nreq m -> pfsn_next_id m' = pfsn_next_id m ->
  queue_ok m'.
Proof. intros [] E1 E2 E3. constructor; rewrite ?E1, ?E2, ?E3; done. Qed.

Lemma vcache_ok_same m m' :
  vcache_ok m -> pfsn_vtab m' = pfsn_vtab m -> pfsn_vcount m' = pfsn_vcount m -> vcache_ok m'.
Proof. intros [] E1 E2. unfold cached in *. constructor; unfold cached; rewrite ?E1, ?E2; done. Qed.

(** Dropping requests, and counting them. *)
Lemma queue_ok_sublist m rs n :
  queue_ok m -> rs `sublist_of` pfsn_reqs m -> n = Z.of_nat (length rs) -> queue_ok (set_reqs rs n m).
Proof.
  intros [Hc Hm Hn Hp Hi Hx] Hs Hl. constructor; cbn; try done.
  - pose proof (sublist_length _ _ Hs). lia.
  - eapply sublist_NoDup; [done|]. by apply fmap_sublist.
  - apply Forall_forall. intros x Hin. rewrite Forall_forall in Hp. by eapply Hp, elem_of_sublist.
  - eapply sublist_NoDup; [done|]. by apply fmap_sublist.
  - apply Forall_forall. intros x Hin. rewrite Forall_forall in Hx. by eapply Hx, elem_of_sublist.
Qed.

Lemma filter_split_length {A} (f : A -> bool) (l : list A) :
  (length (filter f l) + length (filter (fun x => negb (f x)) l) = length l)%nat.
Proof.
  induction l as [|x l IH]; [done|]. rewrite !filter_cons. do 2 case_decide; destruct (f x); try done; cbn; lia.
Qed.

Lemma gc_ok now m : queue_ok m -> queue_ok (pfsn_req_gc now m).
Proof.
  intros Hq. apply queue_ok_sublist; [done|apply sublist_filter|].
  rewrite (qo_count m Hq). pose proof (filter_split_length (expired now) (pfsn_reqs m)).
  pose proof (qo_max m Hq) as Hm. rewrite (qo_count m Hq) in Hm. unfold PFSN_REQ_MAX in Hm.
  unfold wrap32. rewrite Z.mod_small by lia. lia.
Qed.

Lemma upcall_ok mem now af proto faddr fport info nb m :
  queue_ok m -> lacks 0 (i_path info) -> pfsn_next_id m + 1 < 2 ^ 64 -> 0 <= pfsn_next_id m ->
  let m' := (pfsn_upcall mem now af proto faddr fport info nb m).1 in
  queue_ok m' /\ pfsn_vtab m' = pfsn_vtab m /\ pfsn_vcount m' = pfsn_vcount m
  /\ pfsn_next_id m <= pfsn_next_id m' <= pfsn_next_id m + 1.
Proof.
  intros Hq Hs Hid H0. unfold pfsn_upcall. rewrite strnlen_string by done.
  assert (Hstay : forall r, let m' := (m, r : Z).1 in
    queue_ok m' /\ pfsn_vtab m' = pfsn_vtab m /\ pfsn_vcount m' = pfsn_vcount m
    /\ pfsn_next_id m <= pfsn_next_id m' <= pfsn_next_id m + 1) by (intros; cbn; split_and!; (done || lia)).
  destruct (_ || _) eqn:El; [apply Hstay|]. apply orb_false_iff in El as [E0 E1]. bool_to_prop.
  destruct (pfsn_unloading m); [apply Hstay|].
  destruct (existsb _ _) eqn:Ex; [apply Hstay|]. destruct (Z.leb_spec PFSN_REQ_MAX (pfsn_nreq m)); [apply Hstay|].
  pose proof (gc_ok now m Hq) as Hg. set (g := pfsn_req_gc now m) in *.
  assert (Hsub : pfsn_reqs g `sublist_of` pfsn_reqs m) by apply sublist_filter.
  assert (Hg3 : pfsn_vtab g = pfsn_vtab m /\ pfsn_vcount g = pfsn_vcount m /\ pfsn_next_id g = pfsn_next_id m) by done.
  clearbody g. destruct Hg3 as (Hgt & Hgc & Hgi).
  destruct mem; cbn [negb fst]; [|split_and!; (done || lia)]. cbv zeta. cbn [fst].
  split; [|by (cbn; unfold wrap64; rewrite Z.mod_small by lia; split_and!; (done || lia))].
  destruct Hg as [Gc Gm Gn Gp Gi Gx]. pose proof (sublist_length _ _ Hsub). pose proof (qo_count m Hq).
  assert (Hlow : Z.of_nat (length (pfsn_reqs g)) < PFSN_REQ_MAX) by lia. unfold PFSN_REQ_MAX in *.
  constructor; cbn.
  - rewrite length_app, Gc. cbn. unfold wrap32. rewrite Z.mod_small by lia. lia.
  - rewrite Gc. unfold wrap32. rewrite Z.mod_small by lia. unfold PFSN_REQ_MAX. lia.
  - rewrite fmap_app. apply NoDup_app. split; [done|]. split; [|apply NoDup_singleton].
    intros k Hk Hin. apply list_elem_of_singleton in Hin as ->.
    apply list_elem_of_fmap in Hk as (r & Hr & Hin).
    apply not_true_iff_false in Ex. apply Ex, existsb_exists. exists r.
    split; [apply list_elem_of_In; by eapply elem_of_sublist|]. by apply same_question_key.
  - apply Forall_app. split; [done|]. constructor; [|done]. exists (i_path info). split; [done|].
    split_and!; [|done|lia]. intros E. by rewrite E in E0.
  - rewrite fmap_app. apply NoDup_app. split; [done|]. split; [|apply NoDup_singleton].
    intros k Hk Hin. apply list_elem_of_singleton in Hin as ->.
    apply list_elem_of_fmap in Hk as (r & Hr & Hin). rewrite Forall_forall in Gx. specialize (Gx r Hin).
    cbn in Hr. lia.
  - unfold wrap64. rewrite Z.mod_small by lia. apply Forall_app.
    split; [|constructor; [cbn; lia|done]]. eapply Forall_impl; [exact Gx|]. cbn. lia.
Qed.

Lemma remove_req_some id l r rest :
  remove_req id l = Some (r, rest) -> exists l1 l2, l = l1 ++ r :: l2 /\ rest = l1 ++ l2 /\ q_id r = id.
Proof.
  revert rest. induction l as [|x l IH]; intros rest H; [done|]. cbn in H. destruct (Z.eqb_spec (q_id x) id).
  - injection H as <- <-. by exists [], l.
  - apply fmap_Some in H as ([r' rest'] & Hl & [= -> ->]). destruct (IH _ Hl) as (l1 & l2 & -> & -> & ?).
    by exists (x :: l1), l2.
Qed.

(** Marking requests delivered or not changes nothing the invariant speaks of. *)
Definition shape (r : pfsn_req) : pfsn_req := mark false r.

Lemma deliver_next_shape l r rs : deliver_next l = Some (r, rs) -> shape <$> rs = shape <$> l.
Proof.
  revert rs. induction l as [|x l IH]; intros rs H; [done|]. cbn in H. destruct (q_delivered x).
  - apply fmap_Some in H as ([r' rs'] & Hl & [= -> ->]). cbn. f_equal. by apply IH.
  - by injection H as <- <-.
Qed.

Lemma undeliver_shape id l : shape <$> undeliver id l = shape <$> l.
Proof. induction l as [|x l IH]; [done|]. cbn. destruct (q_id x =? id); cbn; [done|]. by f_equal. Qed.

Lemma queue_ok_shape m rs :
  queue_ok m -> shape <$> rs = shape <$> pfsn_reqs m -> queue_ok (set_reqs rs (pfsn_nreq m) m).
Proof.
  intros [Hc Hm Hn Hp Hi Hx] Hs.
  assert (Hlen : length rs = length (pfsn_reqs m)) by (rewrite <- (length_fmap shape rs), Hs; apply length_fmap).
  assert (Hf : forall {B} (f : pfsn_req -> B), (forall r, f (shape r) = f r) -> f <$> rs = f <$> pfsn_reqs m).
  { intros B f E. transitivity (f <$> (shape <$> rs)); [rewrite <- list_fmap_compose; apply list_fmap_ext; intros; symmetry; apply E|].
    rewrite Hs, <- list_fmap_compose. apply list_fmap_ext. intros. apply E. }
  assert (Hall : forall P : pfsn_req -> Prop, (forall r, P (shape r) <-> P r) -> Forall P (pfsn_reqs m) -> Forall P rs).
  { intros P E HP. apply (Forall_impl (P ∘ shape)); [|intros; by apply E]. apply Forall_fmap. rewrite Hs.
    apply Forall_fmap. eapply Forall_impl; [exact HP|]. intros; by apply E. }
  constructor; cbn; try done.
  - by rewrite Hc, Hlen.
  - by rewrite (Hf _ req_key).
  - by apply Hall.
  - by rewrite (Hf _ q_id).
  - by apply (Hall (fun r => q_id r < pfsn_next_id m)).
Qed.

(** ** Every operation keeps the invariant *)

(** [sys_ioctl] copies in as many bytes as the command encodes. *)
Definition iocparm_len (cmd : Z) : nat := Z.to_nat (Z.land (Z.shiftr cmd 16) IOCPARM_MASK).

(** Arguments as the kernel gives them: a label's path is a C string, an ioctl's argument
    has its size. *)
Definition op_ok (o : mod_op) : Prop :=
  match o with
  | OpConnect _ _ _ _ _ (Some info) _ => lacks 0 (i_path info)
  | OpIoctl _ cmd arg => length arg = iocparm_len cmd
  | _ => True
  end.

Record module_ok (m : Module_) : Prop := mk_module_ok {
  mo_cache : vcache_ok m;
  mo_queue : queue_ok m;
  mo_id : 0 < pfsn_next_id m
}.

Lemma push_path_counted p :
  length p = 1024%nat ->
  (strnlen p 1024 =? 0)%nat || (1024 <=? strnlen p 1024)%nat = false -> counted (take (strnlen p 1024 + 1) p).
Proof.
  intros Hl El. apply orb_false_iff in El as [E0 E1]. bool_to_prop.
  destruct (strnlen_field p Hl E1) as (Hs & Hn & ->). exists (until_nul p). split_and!; [done| |done|lia].
  intros E. rewrite E in Hn. done.
Qed.

Lemma push_ok mem af proto faddr fport verdict p m :
  vcache_ok m -> length p = 1024%nat -> verdict = 1 \/ verdict = 2 ->
  let m' := pfsn_verdict_push mem af proto faddr fport verdict p m in
  vcache_ok m' /\ m' = set_cache (pfsn_vtab m') (pfsn_vcount m') m.
Proof.
  intros ok Hl Hv. unfold pfsn_verdict_push. destruct (_ || _) eqn:El; [split; [done|by destruct m]|].
  by destruct (cache_insert_refines mem af proto faddr fport verdict _ m ok (push_path_counted p Hl El) Hv) as (? & _ & ?).
Qed.

Lemma resolve_ok mem id verdict m :
  module_ok m -> verdict = 1 \/ verdict = 2 -> module_ok (pfsn_resolve mem id verdict m).
Proof.
  intros [Hc Hq Hid] Hv. unfold pfsn_resolve. destruct (remove_req id (pfsn_reqs m)) as [[r rest]|] eqn:Er; [|done].
  apply remove_req_some in Er as (l1 & l2 & El & -> & _).
  assert (counted (q_path r)) as Hp.
  { pose proof (qo_paths m Hq) as Hp. rewrite El in Hp. apply Forall_app in Hp as [_ Hp]. by inversion Hp. }
  destruct (cache_insert_refines mem (q_af r) (q_proto r) (q_faddr r) (q_fport r) verdict (q_path r) m Hc Hp Hv)
    as (Hok & _ & E).
  cbv zeta. set (m1 := pfsn_cache_insert _ _ _ _ _ _ _ _) in *. rewrite E. constructor; [|apply queue_ok_sublist|done].
  - by eapply vcache_ok_same.
  - by eapply queue_ok_same.
  - cbn. rewrite El. apply sublist_app; [done|]. by apply sublist_cons.
  - cbn. rewrite (qo_count m Hq), El, !length_app. pose proof (qo_max m Hq) as Hm. rewrite (qo_count m Hq), El in Hm.
    rewrite length_app in Hm. cbn in *. unfold PFSN_REQ_MAX in Hm. unfold wrap32. rewrite Z.mod_small by lia. lia.
Qed.

(** Fields of the structures are as long as they are declared. *)
Lemma field_length fs i b f o :
  fs !! i = Some f -> offsets 0 fs !! i = Some o -> (o + csize f <= length b)%nat -> length (field fs i b) = csize f.
Proof. intros Hf Ho Hl. unfold field. rewrite Ho, Hf. rewrite length_take, length_drop. lia. Qed.

Lemma bad_verdict_false v : bad_verdict v = false -> v = 1 \/ v = 2.
Proof. unfold bad_verdict, PFSNITCH_V_ALLOW, PFSNITCH_V_DENY. intros H. bool_to_prop. destruct H as [H|H]; bool_to_prop; auto. Qed.

Lemma ioctl_ok `{Pcbs} mem cmd b m :
  module_ok m -> length b = iocparm_len cmd -> module_ok (pfsn_ioctl mem cmd b m).1.
Proof.
  intros Hm Hl. unfold pfsn_ioctl.
  destruct (Z.eqb_spec cmd PFSNITCH_VERDICT_PUSH) as [->|]; [|destruct (cmd =? PFSNITCH_VERDICT_FLUSH);
    [|destruct (cmd =? PFSNITCH_RESOLVE); [|destruct (cmd =? PFSNITCH_UPCALL_SET)]]].
  - repeat (case_match; [done|]). cbn [fst]. destruct Hm as [Hc Hq Hid].
    destruct (push_ok mem (hint header_verdict 1 b) (hint header_verdict 2 b) (hfield header_verdict 4 b)
                (hint header_verdict 3 b) (hint header_verdict 5 b) (hfield header_verdict 7 b) m Hc) as [Hok E].
    + apply (field_length (header_fields header_verdict) 7 b (CArr 1024 (CInt 1)) 28); [done..|]. rewrite Hl. by vm_compute.
    + by apply bad_verdict_false.
    + rewrite E. constructor; [by rewrite <- E|by eapply queue_ok_same|done].
  - cbn [fst]. destruct Hm as [Hc Hq Hid]. destruct (cache_flush_refines m (co_buckets m Hc)) as [Hok _].
    constructor; [done|by eapply queue_ok_same|done].
  - repeat (case_match; [done|]). cbn [fst]. apply resolve_ok; [done|]. by apply bad_verdict_false.
  - cbn [fst]. destruct Hm. constructor; [by eapply vcache_ok_same|by eapply queue_ok_same|done].
  - by repeat (case_match; [done|]).
Qed.

Lemma cache_insert_frame mem af proto faddr fport verdict p m :
  let m' := pfsn_cache_insert mem af proto faddr fport verdict p m in
  pfsn_next_id m' = pfsn_next_id m /\ pfsn_reqs m' = pfsn_reqs m /\ pfsn_nreq m' = pfsn_nreq m
  /\ pfsn_upcall_on m' = pfsn_upcall_on m /\ pfsn_unloading m' = pfsn_unloading m /\ pfsn_failmode m' = pfsn_failmode m.
Proof.
  unfold pfsn_cache_insert. destruct (_ || _); [done|]. cbv zeta. destruct (update_in_place _ _ _); [done|].
  destruct (_ <=? _); [done|]. by destruct mem.
Qed.

Lemma ioctl_next_id `{Pcbs} mem cmd b m : pfsn_next_id (pfsn_ioctl mem cmd b m).1 = pfsn_next_id m.
Proof.
  unfold pfsn_ioctl. repeat case_match; try done; cbn [fst].
  - unfold pfsn_verdict_push. case_match; [done|]. apply cache_insert_frame.
  - unfold pfsn_resolve. repeat case_match; [|done]. apply cache_insert_frame.
Qed.

(** One operation; the only thing that grows is the next id, by at most one. *)
Lemma mod_step_ok `{Pcbs} m o :
  module_ok m -> op_ok o -> pfsn_next_id m + 1 < 2 ^ 64 ->
  module_ok (mod_step m o) /\ pfsn_next_id (mod_step m o) <= pfsn_next_id m + 1.
Proof.
  intros Hm Ho Hid. assert (Hstay : module_ok m /\ pfsn_next_id m <= pfsn_next_id m + 1) by (split; [done|lia]).
  destruct o as [mem now junk t nb info sa|resid|id|mem cmd arg|v| |]; cbn [mod_step].
  - unfold pfsn_socket_check_connect. destruct sa as [sa|]; [|done].
    destruct (match t with SOCK_STREAM => _ | _ => _ end) as [proto|]; [|done].
    destruct (hook_dest sa junk) as [[[af fport] faddr]|]; [|done].
    destruct (hook_loopback af faddr); [done|]. destruct info as [info|]; [|done].
    case_bool_decide; [done|]. cbv zeta. destruct (_ =? PFSNITCH_V_DENY); [done|].
    destruct (_ =? PFSNITCH_V_ALLOW); [done|]. destruct (_ && _ && _); [|done]. destruct Hm as [Hc Hq Hpos].
    destruct (upcall_ok mem now af proto faddr fport info nb m Hq Ho Hid ltac:(lia)) as (Hq' & Et & Ec & Hn).
    split; [|lia]. constructor; [by eapply vcache_ok_same|done|lia].
  - destruct Hm as [Hc Hq Hpos]. unfold pfsn_read. destruct (_ <? _); [done|]. destruct (_ || _); [done|].
    destruct (deliver_next _) as [[r rs]|] eqn:E; [|done]. cbn [fst]. split; [|cbn; lia].
    constructor; [by eapply vcache_ok_same|by eapply queue_ok_shape, deliver_next_shape|done].
  - destruct Hm as [Hc Hq Hpos]. split; [|cbn; lia].
    constructor; [by eapply vcache_ok_same|by apply queue_ok_shape, undeliver_shape|done].
  - split; [by apply ioctl_ok|]. rewrite ioctl_next_id. lia.
  - destruct Hm as [Hc Hq Hpos]. split; [|cbn; lia]. constructor; [by eapply vcache_ok_same|by eapply queue_ok_same|done].
  - unfold pfsn_dev_close. destruct (pfsn_upcall_on m); [|done].
    destruct Hm as [Hc Hq Hpos]. split; [|cbn; lia]. constructor; [by eapply vcache_ok_same|by eapply queue_ok_same|done].
  - destruct Hm as [Hc Hq Hpos]. split; [|cbn; lia]. unfold pfsn_destroy.
    set (m1 := set_reqs [] 0 (set_unloading m)).
    destruct (cache_flush_refines m1 (co_buckets m Hc)) as [Hok _]. constructor; [done| |done].
    eapply (queue_ok_same (set_reqs [] 0 m)); [|done..]. apply queue_ok_sublist; [done|apply sublist_nil_l|done].
Qed.

(** ** The module from its loading on *)

Definition mod_run `{Pcbs} (m : Module_) (os : list mod_op) : Module_ := foldl mod_step m os.

Lemma init_ok f : module_ok (pfsn_init f).
Proof.
  destruct (cache_init_refines f) as [Hc _]. constructor; [done| |done].
  constructor; cbn; try done; by constructor.
Qed.

Lemma mod_run_ok `{Pcbs} os : forall m,
  module_ok m -> Forall op_ok os -> pfsn_next_id m + Z.of_nat (length os) < 2 ^ 64 -> module_ok (mod_run m os).
Proof.
  induction os as [|o os IH]; intros m Hm Hos Hid; [done|]. inversion_clear Hos. cbn [length] in Hid.
  destruct (mod_step_ok m o Hm ltac:(done) ltac:(lia)) as [Hm' Hn]. apply IH; [done|done|lia].
Qed.

(** C16. The module's tables are bounded, whatever is done to it: after any sequence of
    connects, reads, faults, ioctls, closes and unloads from its loading on (fewer than
    2^64 of them), the cache holds at most 8192 entries and the queue at most 2048
    requests, both counters say exactly how many - so neither ever wraps -, no (binary,
    destination) is cached twice or asked about twice, and ids are not shared. *)
Theorem module_bounds `{Pcbs} failmode os :
  Forall op_ok os -> 1 + Z.of_nat (length os) < 2 ^ 64 ->
  let m := mod_run (pfsn_init failmode) os in
  length (pfsn_vtab m) = 1024%nat
  /\ pfsn_vcount m = Z.of_nat (length (cached m)) /\ pfsn_vcount m <= 8192
  /\ NoDup (entry_key <$> cached m)
  /\ pfsn_nreq m = Z.of_nat (length (pfsn_reqs m)) /\ pfsn_nreq m <= 2048
  /\ NoDup (req_key <$> pfsn_reqs m) /\ NoDup (q_id <$> pfsn_reqs m)
  /\ Forall (fun r => q_id r < pfsn_next_id m) (pfsn_reqs m).
Proof.
  intros Hos Hl m. destruct (mod_run_ok os (pfsn_init failmode) (init_ok failmode) Hos Hl) as [[] [] _].
  by split_and!.
Qed.

(** C15. The hashed cache is a finite map: read through [cache_map], a lookup by C string is
    the map's lookup and 0 where there is none (whatever bucket the hash picks and whatever
    lies behind the four bytes of an IPv4 address), an insertion binds the pair when it is
    bound already or when there is room and memory, and otherwise changes nothing, a flush
    and a fresh module are the empty map, and the entry counter is the map's size. *)
Theorem cache_refines m :
  vcache_ok m ->
  (forall af proto faddr fport path, lacks 0 path ->
     pfsn_verdict_lookup af proto faddr fport path m
     = default 0 (cache_map m !! key_of af proto faddr fport (path ++ [0])))
  /\ (forall mem af proto faddr fport verdict path, counted path -> verdict = 1 \/ verdict = 2 ->
        let m' := pfsn_cache_insert mem af proto faddr fport verdict path m in
        vcache_ok m' /\ cache_map m' = cache_put mem (key_of af proto faddr fport path) verdict (cache_map m))
  /\ cache_map (pfsn_verdict_flush m) = ∅
  /\ (forall failmode, vcache_ok (pfsn_init failmode) /\ cache_map (pfsn_init failmode) = ∅)
  /\ pfsn_vcount m = Z.of_nat (size (cache_map m)).
Proof.
  intros ok. split; [intros; by apply lookup_refines|]. split.
  { intros mem af proto faddr fport verdict path Hp Hv.
    by destruct (cache_insert_refines mem af proto faddr fport verdict path m ok Hp Hv) as (? & ? & _). }
  split; [apply cache_flush_refines, (co_buckets m ok)|]. split; [apply cache_init_refines|].
  symmetry. by apply cache_size.
Qed.

(** A question already asked is not asked again, however old it is: nothing is swept, and
    nothing is handed to the daemon. *)
Lemma upcall_waits mem now af proto faddr fport info nb m :
  lacks 0 (i_path info) -> i_path info <> [] -> (length (i_path info) < 1024)%nat -> pfsn_unloading m = false ->
  key_of af proto faddr fport (i_path info ++ [0]) ∈ req_key <$> pfsn_reqs m ->
  pfsn_upcall mem now af proto faddr fport info nb m = (m, EAGAIN).
Proof.
  intros Hs Hne Hl Hu Hin. unfold pfsn_upcall. rewrite strnlen_fits by done. rewrite Hu. replace (existsb _ _) with true; [done|]. symmetry. apply existsb_exists.
  apply list_elem_of_fmap in Hin as (r & Hr & Hin). exists r. split; [by apply list_elem_of_In|].
  by apply same_question_key.
Qed.
