(* ===== verification/ModuleLink.v ===== *)
(** The daemon's side of the device (KernAttr.v) against the module's (KernModule.v): what
    one writes, the other does. *)
From S2P Require Import Prelude Unicode RustStr IpAddr Procinfo Abi KernAttr KernModule ModuleSpec.

(** A destination as connect(2) is given it: the port in network order in memory. *)
Definition raw_port (dport : Z) : Z := of_le (to_be16 dport).
Definition sockaddr_of (dst : IpAddr) (dport : Z) : sockaddr :=
  match dst with V4 _ => SaIn (raw_port dport) (octets dst) | V6 _ => SaIn6 (raw_port dport) (octets dst) end.
Definition family (dst : IpAddr) : Z := match dst with V4 _ => 4 | V6 _ => 6 end.
Definition sock_type_of (proto : Z) : sock_type := if proto =? 6 then SOCK_STREAM else SOCK_DGRAM.

(** The key a (binary, destination) pair is cached under. *)
Definition flow_vkey (proto : Z) (dst : IpAddr) (dport : Z) (path : list Z) : vkey :=
  (family dst, proto, raw_port dport, octets dst, path ++ [0]).

(** [connect] by a socket whose creator is the binary at [path]. *)
Definition connect_by (mem : bool) (now : Z) (junk : list Z) (nb : bool) (proto : Z) (info : pfsn_info) (dst : IpAddr) (dport : Z)
  (m : Module_) : Module_ * Z :=
  pfsn_socket_check_connect mem now junk (sock_type_of proto) nb (Some info) (Some (sockaddr_of dst dport)) m.

Definition dst_loopback (dst : IpAddr) : bool := hook_loopback (family dst) (octets dst).

(** ** Integers in memory *)

Lemma be_split_digit k n d l : 0 <= k -> digits_ok k (d :: l) -> n = length l -> be_split k (S n) (be_join k (d :: l)) = d :: l.
Proof. intros Hk Hl ->. exact (be_split_join k (d :: l) Hk Hl). Qed.

Lemma le_of_le b : bytes_ok b -> le (length b) (of_le b) = b.
Proof.
  intros Hb. unfold le, of_le. rewrite <- length_rev. rewrite be_split_join; [apply rev_involutive|lia|].
  by apply Forall_rev.
Qed.

Lemma port_bytes_ok p : bytes_ok (to_be16 p).
Proof. exact (be_split_ok 8 2 p ltac:(lia)). Qed.

Lemma le_raw_port dport : le 2 (raw_port dport) = to_be16 dport.
Proof. unfold raw_port. exact (le_of_le (to_be16 dport) (port_bytes_ok dport)). Qed.

Lemma ntohs_raw_port dport : 0 <= dport < 65536 -> ntohs (raw_port dport) = dport.
Proof. intros Hp. unfold ntohs. rewrite le_raw_port. apply (be_join_split 8 2); [lia|done]. Qed.

Lemma raw_port_inj p q : 0 <= p < 65536 -> 0 <= q < 65536 -> raw_port p = raw_port q -> p = q.
Proof. intros Hp Hq E. rewrite <- (ntohs_raw_port p), <- (ntohs_raw_port q) by done. by rewrite E. Qed.

(** ** The key *)

Lemma take_octets dst pad : take (addr_len (family dst)) (octets dst ++ pad) = octets dst.
Proof.
  replace (addr_len (family dst)) with (length (octets dst)) by (by rewrite octets_length; destruct dst).
  apply take_app_length.
Qed.

Lemma flow_key_of proto dst dport path pad :
  key_of (family dst) proto (octets dst ++ pad) (raw_port dport) (path ++ [0]) = flow_vkey proto dst dport path.
Proof. unfold key_of, flow_vkey. by rewrite take_octets. Qed.

Lemma loopback_pad dst pad : hook_loopback (family dst) (octets dst ++ pad) = dst_loopback dst.
Proof.
  unfold dst_loopback, hook_loopback. destruct dst as [d|d]; cbn [family Z.eqb Pos.eqb]; [done|].
  rewrite !lookup_app_l by (rewrite octets_length; lia).
  replace 16%nat with (length (octets (V6 d))) by (by rewrite octets_length). rewrite take_app_length, firstn_all. done.
Qed.

(** Only verdicts are cached. *)
Lemma cached_verdict m key v : vcache_ok m -> cache_map m !! key = Some v -> v = 1 \/ v = 2.
Proof.
  intros ok E. apply elem_of_list_to_map_2, list_elem_of_fmap in E as (e & E & He).
  apply (f_equal snd) in E. cbn in E. subst v.
  pose proof (co_paths m ok) as Hall. rewrite Forall_forall in Hall. by apply Hall.
Qed.

(** What the hook answers, in terms of the cache as a map. *)
Lemma connect_eq mem now junk nb proto info dst dport m :
  vcache_ok m -> proto = 6 \/ proto = 17 -> lacks 0 (i_path info) -> i_path info <> [] -> dst_loopback dst = false ->
  connect_by mem now junk nb proto info dst dport m
  = match cache_map m !! flow_vkey proto dst dport (i_path info) with
    | Some 2 => (m, EPERM)
    | Some 1 => (m, 0)
    | _ => if pfsn_upcall_on m && (proto =? 17) && negb (ntohs (raw_port dport) =? 53)
           then pfsn_upcall mem now (family dst) proto (octets dst ++ match dst with V4 _ => junk | V6 _ => [] end)
                  (raw_port dport) info nb m
           else (m, 0)
    end.
Proof.
  intros ok Hpr Hp Hne Hlo. unfold connect_by, pfsn_socket_check_connect.
  set (pad := match dst with V4 _ => junk | V6 _ => [] end).
  replace (match sock_type_of proto with SOCK_STREAM => Some IPPROTO_TCP | SOCK_DGRAM => Some IPPROTO_UDP | SOCK_OTHER => None end)
    with (Some proto) by (by destruct Hpr as [-> | ->]).
  replace (hook_dest (sockaddr_of dst dport) junk) with (Some (family dst, raw_port dport, octets dst ++ pad))
    by (subst pad; destruct dst; cbn [sockaddr_of hook_dest family]; by rewrite ?app_nil_r).
  rewrite loopback_pad, Hlo, bool_decide_eq_false_2 by done. cbv zeta.
  rewrite (lookup_refines m ok _ _ _ _ _ Hp), flow_key_of.
  destruct (cache_map m !! _) as [v|] eqn:E; [|done]. cbn [default from_option id].
  by destruct (cached_verdict m _ v ok E) as [-> | ->].
Qed.

(** ** Pushing *)

Lemma push_request_path k proto dst dport path allow b :
  push_request k proto dst dport path allow = Some b -> utf8 path <> [].
Proof.
  intros Hb E. unfold push_request in Hb. rewrite E in Hb. destruct (_ || _); [done|].
  by rewrite bool_decide_eq_true_2 in Hb.
Qed.

Lemma ioctl_push_eq `{Pcbs} mem proto dst dport path allow k b m :
  push_request k proto dst dport path allow = Some b -> lacks 0 (utf8 path) -> vcache_ok m -> byte_ok proto ->
  let '(m', r) := pfsn_ioctl mem verdict_push_cmd b m in
  r = inr b /\ vcache_ok m'
  /\ cache_map m' = cache_put mem (flow_vkey proto dst dport (utf8 path)) (if allow then 1 else 2) (cache_map m)
  /\ m' = set_cache (pfsn_vtab m') (pfsn_vcount m') m.
Proof.
  intros Hb H0 ok Hbp. pose proof (push_correct k proto dst dport path allow 0) as [Hpush _].
  rewrite Hb in Hpush. destruct Hpush as (_ & Hpr & Hlen & Hbl & F0 & F1 & F2 & F3 & F4 & F5 & F7).
  specialize (F7 H0).
  assert (Hp : length (field verdict_fields 7 b) = 1024%nat)
    by (apply (field_length verdict_fields 7 b (CArr 1024 (CInt 1)) 28); [done..|rewrite Hbl; by vm_compute]).
  pose proof (push_request_path _ _ _ _ _ _ _ Hb) as Hne.
  assert (Hcnt : counted (utf8 path ++ [0])) by (exists (utf8 path); by split_and!).
  set (v := if allow then 1 else 2) in *.
  assert (Hv : v = 1 \/ v = 2) by (subst v; destruct allow; auto).
  assert (Haf : hint header_verdict 1 b = family dst).
  { unfold hint. change (hfield header_verdict 1 b) with (field verdict_fields 1 b). rewrite F1.
    by destruct dst. }
  assert (Hprot : hint header_verdict 2 b = proto).
  { unfold hint. change (hfield header_verdict 2 b) with (field verdict_fields 2 b). rewrite F2. by apply of_le_le. }
  assert (Hport : hint header_verdict 3 b = raw_port dport).
  { unfold hint. change (hfield header_verdict 3 b) with (field verdict_fields 3 b). by rewrite F3. }
  assert (Hverd : hint header_verdict 5 b = v).
  { unfold hint. change (hfield header_verdict 5 b) with (field verdict_fields 5 b). rewrite F5.
    subst v. by destruct allow. }
  assert (Hver : hint header_verdict 0 b = 1).
  { unfold hint. change (hfield header_verdict 0 b) with (field verdict_fields 0 b). by rewrite F0. }
  unfold pfsn_ioctl. change (verdict_push_cmd =? PFSNITCH_VERDICT_PUSH) with true. cbv iota zeta.
  rewrite Hver, Haf, Hprot, Hverd, Hport. cbn [Z.eqb Pos.eqb PFSNITCH_ATTR_VERSION negb].
  replace (bad_af (family dst)) with false by (by destruct dst).
  replace (bad_proto proto) with false by (by destruct Hpr as [-> | ->]).
  replace (bad_verdict v) with false by (by destruct Hv as [-> | ->]).
  unfold pfsn_verdict_push. change (hfield header_verdict 7 b) with (field verdict_fields 7 b).
  assert (Hstr : strnlen (field verdict_fields 7 b) 1024 = length (utf8 path))
    by (unfold strnlen; rewrite take_ge by lia; by rewrite F7).
  destruct (strnlen_field _ Hp ltac:(by rewrite Hstr)) as (_ & _ & ->). rewrite Hstr, F7.
  destruct ((length (utf8 path) =? 0)%nat || (1024 <=? length (utf8 path))%nat) eqn:El.
  { apply orb_true_iff in El as [El|El]; bool_to_prop; [by apply length_zero_iff_nil in El|lia]. }
  destruct (cache_insert_refines mem (family dst) proto (hfield header_verdict 4 b) (raw_port dport) v
              (utf8 path ++ [0]) m ok Hcnt Hv) as (Hok & Hmap & Hframe).
  split; [done|]. split; [done|]. split; [|done]. rewrite Hmap. f_equal.
  unfold key_of, flow_vkey. f_equal. f_equal.
  change (hfield header_verdict 4 b) with (field verdict_fields 4 b).
  replace (addr_len (family dst)) with (length (octets dst)) by (by rewrite octets_length; destruct dst). done.
Qed.

Lemma flush_ioctl_eq `{Pcbs} mem b m : pfsn_ioctl mem verdict_flush_cmd b m = (pfsn_verdict_flush m, inr b).
Proof. done. Qed.
Lemma upcall_ioctl_eq `{Pcbs} mem (on : bool) m :
  pfsn_ioctl mem upcall_set_cmd (le 4 (if on then 1 else 0)) m = (set_on on m, inr (le 4 (if on then 1 else 0))).
Proof. by destruct on. Qed.

Lemma cache_put_eq mem k v c :
  is_Some (c !! k) \/ (Z.of_nat (size c) < PFSN_VMAX /\ mem = true) -> cache_put mem k v c = <[k := v]> c.
Proof.
  intros Hc. unfold cache_put. destruct Hc as [Hc|[Hc ->]]; [by rewrite bool_decide_eq_true_2|].
  apply Z.ltb_lt in Hc. by rewrite Hc, orb_true_r.
Qed.

Lemma cache_put_ne mem k v c k' : k' <> k -> cache_put mem k v c !! k' = c !! k'.
Proof. intros Hk. unfold cache_put. case_match; [|done]. by apply lookup_insert_ne. Qed.

(** Handing a verdict to the module works: the bytes the daemon pushes are accepted
    whenever it pushes any, and from then on a connect by that binary to that destination -
    same family, address, port and protocol, not loopback - is answered in the hook, EPERM
    for a deny and 0 for an allow, without a packet and without asking; no other binary or
    destination is affected; and the daemon's flush empties the cache.  The one condition
    is room: the module keeps 8192 entries, and allocates without waiting. *)
Theorem push_takes_effect `{Pcbs} k proto dst dport path allow b mem m :
  push_request k proto dst dport path allow = Some b -> lacks 0 (utf8 path) -> byte_ok proto -> module_ok m ->
  let key := flow_vkey proto dst dport (utf8 path) in
  let '(m', r) := pfsn_ioctl mem verdict_push_cmd b m in
  r = inr b /\ module_ok m'
  /\ (is_Some (cache_map m !! key) \/ (pfsn_vcount m < 8192 /\ mem = true) -> dst_loopback dst = false ->
      forall mem' now junk nb info, i_path info = utf8 path ->
        connect_by mem' now junk nb proto info dst dport m' = (m', if allow then 0 else EPERM))
  /\ (forall key', key' <> key -> cache_map m' !! key' = cache_map m !! key')
  /\ cache_map (pfsn_ioctl mem verdict_flush_cmd [] m').1 = ∅.
Proof.
  intros Hb H0 Hbp Hm key. pose proof (ioctl_push_eq mem proto dst dport path allow k b m Hb H0 (mo_cache m Hm) Hbp) as Hp.
  destruct (pfsn_ioctl mem verdict_push_cmd b m) as [m' r]. destruct Hp as (-> & Hok & Hmap & Hfr). fold key in Hmap.
  destruct (push_correct k proto dst dport path allow 0) as [Hpc _]. rewrite Hb in Hpc.
  destruct Hpc as (_ & Hpr & _ & _).
  split; [done|]. split; [|split; [|split]].
  - rewrite Hfr. destruct Hm as [Hc Hq Hid]. constructor; [by rewrite <- Hfr|by eapply queue_ok_same|done].
  - intros Hroom Hlo mem' now junk nb info Hi.
    assert (Hne : i_path info <> []) by (rewrite Hi; by eapply push_request_path).
    rewrite connect_eq; [|done|done|by rewrite Hi|done|done]. rewrite Hi. fold key. rewrite Hmap, cache_put_eq.
    + rewrite lookup_insert_eq. by destruct allow.
    + destruct Hroom as [Hr|[Hr ->]]; [by left|]. right. by rewrite (cache_size m (mo_cache m Hm)).
  - intros key' Hk. rewrite Hmap. by apply cache_put_ne.
  - rewrite flush_ioctl_eq. apply cache_flush_refines, (co_buckets m' Hok).
Qed.

(** ** Asking and answering *)

Lemma deliver_next_app l r :
  Forall (fun r => q_delivered r = true) l -> q_delivered r = false ->
  deliver_next (l ++ [r]) = Some (r, l ++ [mark true r]).
Proof. intros Hl Hr. induction Hl as [|x l Hx _ IH]; cbn; [by rewrite Hr|]. by rewrite Hx, IH. Qed.

Lemma remove_req_app id l r :
  Forall (fun x => q_id x <> id) l -> q_id r = id -> remove_req id (l ++ [r]) = Some (r, l).
Proof.
  intros Hl <-. induction Hl as [|x l Hx _ IH]; cbn; [by rewrite Z.eqb_refl|].
  rewrite (proj2 (Z.eqb_neq _ _) Hx), IH. done.
Qed.

(** The module's event is the one the daemon's structure describes. *)
Lemma pfsn_event_bytes r dport s :
  q_fport r = raw_port dport -> q_path r = s ++ [0] -> lacks 0 s -> (length s < 1024)%nat ->
  pfsn_event r = event_bytes (q_id r) (q_af r) (q_proto r) dport (q_faddr r) (q_nonblock r) (q_pid r) (q_uid r) (buffer 1024 s).
Proof.
  intros Hport Hpath Hs Hl. unfold pfsn_event, event_bytes. rewrite Hport, le_raw_port, Hpath.
  replace (strlcpy (replicate 1024 0) (s ++ [0])) with (buffer 1024 s); [done|].
  unfold strlcpy, buffer. rewrite until_nul_counted by done. rewrite length_replicate, take_ge by lia. f_equal.
  rewrite drop_replicate. replace (1024 - length s)%nat with (S (1024 - S (length s))) by lia. done.
Qed.

Lemma ioctl_resolve_eq `{Pcbs} mem id allow m :
  0 <= id < 2 ^ 64 ->
  pfsn_ioctl mem resolve_cmd (resolve_request id allow) m
  = (pfsn_resolve mem id (if allow then 1 else 2) m, inr (resolve_request id allow)).
Proof.
  intros Hid. pose proof (push_correct (mk_kern false) 0 (V4 0) 0 [] allow id) as (_ & _ & F0 & F1 & F3).
  unfold pfsn_ioctl. change (resolve_cmd =? PFSNITCH_VERDICT_PUSH) with false.
  change (resolve_cmd =? PFSNITCH_VERDICT_FLUSH) with false. change (resolve_cmd =? PFSNITCH_RESOLVE) with true.
  cbv iota zeta. unfold hint. change (hfield header_resolve 0) with (field resolve_fields 0).
  change (hfield header_resolve 1) with (field resolve_fields 1). change (hfield header_resolve 3) with (field resolve_fields 3).
  rewrite F0, F1, F3, (of_le_le 8 id) by done. rewrite !of_le_le by (by destruct allow). by destruct allow.
Qed.

(** A question the hook queues. *)
Lemma upcall_queues now dst dport pad info nb m :
  let path := i_path info ++ [0] in
  let r := mk_req (pfsn_next_id m) (family dst) 17 (if nb : bool then 1 else 0) false (raw_port dport) (octets dst ++ pad)
             (i_pid info) (i_uid info) now path in
  lacks 0 (i_path info) -> i_path info <> [] -> (length (i_path info) < 1024)%nat ->
  pfsn_unloading m = false -> pfsn_nreq m < 2048 -> flow_vkey 17 dst dport (i_path info) ∉ req_key <$> pfsn_reqs m ->
  exists m1, pfsn_upcall true now (family dst) 17 (octets dst ++ pad) (raw_port dport) info nb m = (m1, EAGAIN)
    /\ pfsn_reqs m1 = pfsn_reqs (pfsn_req_gc now m) ++ [r] /\ pfsn_vtab m1 = pfsn_vtab m /\ pfsn_vcount m1 = pfsn_vcount m
    /\ pfsn_upcall_on m1 = pfsn_upcall_on m /\ pfsn_unloading m1 = false.
Proof.
  intros path r Hs Hne Hl Hu Hn Hq. unfold pfsn_upcall. rewrite strnlen_fits by done.
  rewrite Hu. fold path.
  replace (existsb (same_question _ _ _ _ _) (pfsn_reqs m)) with false.
  2: { symmetry. apply not_true_iff_false. intros Hx. apply Hq. apply existsb_exists in Hx as (x & Hx & E).
       apply same_question_key in E. unfold path in E. rewrite flow_key_of in E. rewrite <- E.
       apply list_elem_of_fmap_2. by apply list_elem_of_In. }
  rewrite (proj2 (Z.leb_gt PFSN_REQ_MAX _)) by (unfold PFSN_REQ_MAX; lia). cbn [negb]. eexists. split; [done|]. by split_and!.
Qed.

(** Asking in the kernel and answering from the daemon fit together.  When the hook
    meets a datagram the cache does not know (UDP, not DNS, not loopback, a known binary),
    it answers EAGAIN and queues the question; what the daemon then reads from the device
    is that question - this destination, this port, this path, this process; and when the
    daemon answers it, by the id it read, the question is gone from the queue and the retry
    is answered in the hook: 0 if the daemon allowed it, EPERM if it did not.  The
    conditions are room in the queue and in the cache, and that no older question is still
    waiting to be read. *)
Theorem upcall_roundtrip `{Pcbs} now junk nb info dst dport m :
  module_ok m -> pfsn_upcall_on m = true -> pfsn_unloading m = false -> pfsn_next_id m + 1 < 2 ^ 64 ->
  Forall (fun r => q_delivered r = true) (pfsn_reqs m) ->
  (flow_vkey 17 dst dport (i_path info) ∉ req_key <$> pfsn_reqs m) ->
  cache_map m !! flow_vkey 17 dst dport (i_path info) = None ->
  pfsn_nreq m < 2048 -> pfsn_vcount m < 8192 ->
  ip_ok dst -> 0 <= dport < 65536 -> dport <> 53 -> dst_loopback dst = false -> length junk = 12%nat ->
  lacks 0 (i_path info) -> i_path info <> [] -> (length (i_path info) < 1024)%nat ->
  i32_ok (i_pid info) -> 0 <= i_uid info < 2 ^ 32 ->
  let '(m1, r1) := connect_by true now junk nb 17 info dst dport m in
  let '(m2, out) := pfsn_read 1064 m1 in
  r1 = EAGAIN
  /\ exists ev id, out = REvent ev
     /\ read_event (inr ev) = Event (mk_event id 17 dst dport nb (i_pid info) (i_uid info) (utf8_lossy (i_path info)))
     /\ forall allow,
          let '(m3, r3) := pfsn_ioctl true resolve_cmd (resolve_request id allow) m2 in
          r3 = inr (resolve_request id allow)
          /\ (flow_vkey 17 dst dport (i_path info) ∉ req_key <$> pfsn_reqs m3)
          /\ forall mem' now' junk' nb',
               connect_by mem' now' junk' nb' 17 info dst dport m3 = (m3, if allow then 0 else EPERM).
Proof.
  intros Hm Hon Hun Hid Hdel Hnq Hmiss Hroom Hcroom Hip Hport H53 Hlo Hjunk Hs Hne Hl Hpid Huid.
  set (key := flow_vkey 17 dst dport (i_path info)) in *. pose proof (mo_cache m Hm) as Hc. pose proof (mo_queue m Hm) as Hqok.
  rewrite connect_eq by auto. fold key. rewrite Hmiss, Hon, ntohs_raw_port by done.
  rewrite (proj2 (Z.eqb_neq _ _) H53). cbn [Z.eqb Pos.eqb andb negb].
  set (pad := match dst with V4 _ => junk | V6 _ => [] end).
  destruct (upcall_queues now dst dport pad info nb m Hs Hne Hl Hun Hroom Hnq)
    as (m1 & -> & Hreqs & Hvt & Hvc & Hon1 & Hun1).
  set (g := pfsn_reqs (pfsn_req_gc now m)) in *. set (r := mk_req _ _ _ _ _ _ _ _ _ _ _) in Hreqs.
  assert (Hsub : g `sublist_of` pfsn_reqs m) by apply sublist_filter.
  assert (Hg : Forall (fun r => q_delivered r = true) g).
  { apply Forall_forall. intros x Hx. rewrite Forall_forall in Hdel. by eapply Hdel, elem_of_sublist. }
  unfold pfsn_read. rewrite Hun1, Hon1, Hon, Hreqs, (deliver_next_app g r Hg eq_refl). cbn [orb negb].
  change (1064 <? Z.of_nat (csize header_event)) with false. cbv iota.
  set (m2 := set_reqs (g ++ [mark true r]) (pfsn_nreq m1) m1).
  split; [done|]. exists (pfsn_event r), (pfsn_next_id m). split; [done|]. split.
  { rewrite (pfsn_event_bytes r dport (i_path info)) by done. cbn [r q_id q_af q_proto q_faddr q_nonblock q_pid q_uid].
    pose proof (mo_id m Hm). replace (family dst) with (match dst with V4 _ => 4 | V6 _ => 6 end) by (by destruct dst).
    rewrite read_event_bytes; try done; try lia.
    - by destruct nb.
    - unfold byte_ok. destruct nb; lia.
    - subst pad. by destruct dst. }
  intros allow. pose proof (mo_id m Hm). rewrite ioctl_resolve_eq by lia. set (v := if allow then 1 else 2).
  assert (Hv : v = 1 \/ v = 2) by (subst v; destruct allow; auto).
  unfold pfsn_resolve. change (pfsn_reqs m2) with (g ++ [mark true r]).
  rewrite (remove_req_app (pfsn_next_id m) g (mark true r)); [|  |done].
  2: { apply Forall_forall. intros x Hx. pose proof (qo_next m Hqok) as Hx'. rewrite Forall_forall in Hx'.
       specialize (Hx' x ltac:(by eapply elem_of_sublist)). lia. }
  cbn [mark q_af q_proto q_faddr q_fport q_path r].
  assert (Hc2 : vcache_ok m2) by (by eapply vcache_ok_same).
  assert (Hmap2 : cache_map m2 = cache_map m) by (unfold cache_map, cached; cbn; by rewrite Hvt).
  assert (Hcnt : counted (i_path info ++ [0])) by (exists (i_path info); by split_and!).
  destruct (cache_insert_refines true (family dst) 17 (octets dst ++ pad) (raw_port dport) v (i_path info ++ [0]) m2 Hc2 Hcnt Hv)
    as (Hok3 & Hmap3 & Hfr3). rewrite flow_key_of, Hmap2 in Hmap3. fold key in Hmap3.
  cbv zeta. set (m3' := pfsn_cache_insert _ _ _ _ _ _ _ _) in *. set (m3 := set_reqs g _ m3').
  split; [done|]. split.
  { change (pfsn_reqs m3) with g. intros Hin. apply Hnq. apply list_elem_of_fmap in Hin as (x & -> & Hx).
    apply list_elem_of_fmap_2. by eapply elem_of_sublist. }
  intros mem' now' junk' nb'. assert (Hc3 : vcache_ok m3) by (by eapply vcache_ok_same).
  rewrite connect_eq by auto. fold key.
  change (cache_map m3) with (cache_map m3'). rewrite Hmap3, cache_put_eq, lookup_insert_eq.
  - subst v. by destruct allow.
  - right. rewrite (cache_size m Hc). done.
Qed.
