(* ===== verification/ModuleDaemon.v ===== *)
(** The daemon's loop and the module together: the ioctls a handler leaves among its
    effects, carried out by the module of KernModule.v. *)
From S2P Require Import Prelude Unicode RustStr IpAddr Policy PolicyFile Dns Procinfo Abi KernAttr Seen Daemon DaemonSpec KernModule ModuleSpec.

Section together.
Context `{Pcbs}.

(** The effects of the daemon that reach the module. *)
Definition module_effect (mem : bool) (m : Module_) (e : effect) : Module_ :=
  match e with Ioctl cmd b => (pfsn_ioctl mem cmd b m).1 | _ => m end.
Definition module_effects (mem : bool) (es : list effect) (m : Module_) : Module_ := foldl (module_effect mem) m es.

(** Behind the descriptor is this module, in some state. *)
Definition device_answers (env : Env) : Prop :=
  forall cmd b, exists mem m, e_dev env cmd b = (pfsn_ioctl mem cmd b m).2.

(** No connect is refused or delayed, whatever the socket and the destination. *)
Definition lets_all_through (m : Module_) : Prop :=
  forall mem now junk t nb info sa, pfsn_socket_check_connect mem now junk t nb info sa m = (m, 0).

Lemma module_effects_app mem es1 es2 m :
  module_effects mem (es1 ++ es2) m = module_effects mem es2 (module_effects mem es1 m).
Proof. apply foldl_app. Qed.

(** An empty cache with upcalls off. *)
Lemma lookup_flushed af proto faddr fport path m : pfsn_verdict_lookup af proto faddr fport path (pfsn_verdict_flush m) = 0.
Proof.
  unfold pfsn_verdict_lookup, pfsn_verdict_flush. cbn [pfsn_vtab set_cache]. rewrite list_lookup_fmap.
  by destruct (pfsn_vtab m !! _).
Qed.

Lemma quiet_lets_through m : lets_all_through (set_on false (pfsn_verdict_flush m)).
Proof.
  intros mem now junk t nb info sa. unfold pfsn_socket_check_connect.
  destruct sa as [sa|]; [|done]. destruct (match t with SOCK_STREAM => _ | _ => _ end) as [proto|]; [|done].
  destruct (hook_dest sa junk) as [[[af fport] faddr]|]; [|done]. destruct (hook_loopback _ _); [done|].
  destruct info as [info|]; [|done]. case_bool_decide; [done|]. cbv zeta.
  change (pfsn_verdict_lookup af proto faddr fport (i_path info) (set_on false (pfsn_verdict_flush m)))
    with (pfsn_verdict_lookup af proto faddr fport (i_path info) (pfsn_verdict_flush m)).
  by rewrite lookup_flushed.
Qed.

(** ** The two calls that configure the module *)

Section handle.
Context (env : Env) (dev : device_answers env) (k : KernAttr) (live : dead k = false).

Lemma live_flush : k_flush env k = (k, [Ioctl verdict_flush_cmd []]).
Proof using dev live.
  unfold k_flush, flush_verdicts, send, ioctl, Daemon.dev. rewrite live. destruct (dev verdict_flush_cmd []) as (mem & m & ->). done.
Qed.

Lemma live_set_upcall on :
  k_set_upcall env on k = (k, [Ioctl upcall_set_cmd (le 4 (if on then 1 else 0))]).
Proof using dev live.
  unfold k_set_upcall, set_upcall, send, ioctl, Daemon.dev. rewrite live.
  destruct (dev upcall_set_cmd (le 4 (if on then 1 else 0))) as (mem & m & ->). by destruct on.
Qed.

Lemma with_live op w es : kern (dm w) = Some k -> op k = (k, es) -> with_kern op w = emit es w.
Proof.
  intros Hk Ho. unfold with_kern. rewrite Hk, Ho. destruct w as [d fs e]. unfold emit, upd. cbn in *. f_equal.
  destruct d. cbn in *. by subst.
Qed.
End handle.

(** Stopping leaves the machine as it was: when the daemon is signalled while it holds
    a live handle, what it does on its way out is to turn upcalls off, flush the cache, put
    UDP back on divert if it had taken it off, and exit; carried out by the module, this
    leaves an empty cache and upcalls off, so that from then on no connect of any process is
    refused or delayed by the hook - whatever verdicts and questions the module held. *)
Theorem shutdown_quiets_module env w k :
  kern (dm w) = Some k -> dead k = false -> device_answers env ->
  let es := [Ioctl upcall_set_cmd (le 4 0); Ioctl verdict_flush_cmd []]
            ++ (if upcall_on (dm w) then [UdpDivert true] else []) ++ [Exit] in
  eff (handle_shutdown env w) = eff w ++ es
  /\ forall mem m, let m' := module_effects mem es m in
       lets_all_through m' /\ pfsn_vcount m' = 0 /\ cached m' = [] /\ pfsn_upcall_on m' = false.
Proof.
  intros Hk Hl dev es. unfold handle_shutdown.
  rewrite (with_live k (k_set_upcall env false) w _ Hk (live_set_upcall env dev k Hl false)).
  set (w1 := emit _ w). rewrite (with_live k (k_flush env) w1 _ Hk (live_flush env dev k Hl)).
  split.
  { subst es. cbn [dm emit w1]. destruct (upcall_on (dm w)); cbn; by rewrite <- !app_assoc. }
  intros mem m.
  assert (E : module_effects mem es m = set_on false (pfsn_verdict_flush m))
    by (subst es; rewrite module_effects_app; by destruct (upcall_on (dm w))).
  cbv zeta. rewrite E. split; [apply quiet_lets_through|]. split; [done|]. split; [apply concat_emptied|done].
Qed.

(** ** A tick that finds the policy changed *)

Lemma tick_start env w :
  let w1 := upd (set_last_check (e_now env)) (forget_logged env (flush_seen env w)) in
  eff w1 = eff w /\ kern (dm w1) = kern (dm w) /\ pol (dm w1) = pol (dm w) /\ upcall_on (dm w1) = upcall_on (dm w)
  /\ pol_mtime (dm w1) = pol_mtime (dm w) /\ last_check (dm (forget_logged env (flush_seen env w))) = last_check (dm w).
Proof.
  unfold flush_seen. destruct (flush _ _ _ _ _) as [fs s]. cbv zeta. unfold forget_logged. by case_match.
Qed.

(** The reload of a policy that still asks for the kernel: the cache is flushed. *)
Lemma reload_live env fallback w k :
  kern (dm w) = Some k -> dead k = false -> device_answers env ->
  e_mtime env (files_ w) <> pol_mtime (dm w) ->
  attribution (@load (e_io env) (files_ w) POLICY_PATH) = attribution (pol (dm w)) ->
  let w' := reload env fallback w in
  eff w' = eff w ++ [Ioctl verdict_flush_cmd []] /\ kern (dm w') = Some k /\ decided (dm w') = ∅
  /\ pol (dm w') = @load (e_io env) (files_ w) POLICY_PATH /\ mode (dm w') = policy_mode (@load (e_io env) (files_ w) POLICY_PATH) fallback
  /\ upcall_on (dm w') = upcall_on (dm w).
Proof.
  intros Hk Hl dev Hm Ha. unfold reload. rewrite bool_decide_eq_false_2 by done. cbv zeta.
  set (p := @load (e_io env) (files_ w) POLICY_PATH) in *. rewrite bool_decide_eq_true_2 by done.
  rewrite (with_live k (k_flush env) _ [Ioctl verdict_flush_cmd []]); [|done|by apply live_flush]. by split_and!.
Qed.

(** Bringing the upcall in line, with a live handle: at most one call, and the module ends
    as the daemon believes. *)
Lemma reconcile_live env w k :
  kern (dm w) = Some k -> dead k = false -> device_answers env ->
  exists es, eff (reconcile env w) = eff w ++ es /\ kern (dm (reconcile env w)) = Some k
    /\ decided (dm (reconcile env w)) = decided (dm w) /\ pol (dm (reconcile env w)) = pol (dm w)
    /\ mode (dm (reconcile env w)) = mode (dm w)
    /\ (mode (dm w) = Visibility -> upcall_on (dm (reconcile env w)) = false)
    /\ forall mem m, pfsn_upcall_on m = upcall_on (dm w) ->
         module_effects mem es m = set_on (upcall_on (dm (reconcile env w))) m.
Proof.
  intros Hk Hl dev. unfold reconcile. rewrite Hk, bool_decide_eq_true_2 by (by eexists). cbn [andb].
  assert (Hset : forall on, with_kern (k_set_upcall env on) w = emit [Ioctl upcall_set_cmd (le 4 (if on then 1 else 0))] w)
    by (intros; apply (with_live k); [done|by apply live_set_upcall]).
  assert (Hid : forall m, pfsn_upcall_on m = upcall_on (dm w) -> m = set_on (upcall_on (dm w)) m)
    by (intros [] <-; done).
  destruct (mode (dm w)) eqn:Em, (upcall_on (dm w)) eqn:Eu;
    change (enforcing Visibility) with false; change (enforcing Enforcement) with true; cbn [andb negb];
    try (exists []; rewrite app_nil_r, Eu; split_and!; done).
  - exists [Ioctl upcall_set_cmd (le 4 0); UdpDivert true]. unfold upcall_off. rewrite (Hset false).
    split; [by cbn; rewrite <- app_assoc|]. by split_and!.
  - destruct (e_reader env); [|exists []; rewrite app_nil_r, Eu; split_and!; done].
    exists [Ioctl upcall_set_cmd (le 4 1); SpawnReader; UdpDivert false]. rewrite (Hset true).
    split; [by cbn; rewrite <- app_assoc|]. by split_and!.
Qed.

(** C12. A policy that changes reaches the module within a tick: with a live handle and a
    policy that still asks for the kernel, the tick that notices the edit leaves the module
    with an empty cache at the moment the daemon forgets its own verdicts - no verdict
    outlives the rules it came from - and with upcalls exactly as the daemon believes them
    to be; and when the edit switches to visibility, the module as the tick leaves it refuses
    and delays no connect at all, and is not changed by one.  That lasts until the daemon
    next puts a verdict in the cache, which it also does in visibility when it handles an
    upcall read before the switch (ModuleScenario.late_upcall_blocks). *)
Theorem tick_updates_module env fallback w k :
  kern (dm w) = Some k -> dead k = false -> device_answers env ->
  attribution (pol (dm w)) = Policy.Kernel -> seconds 1 <= e_now env - last_check (dm w) ->
  let fs := files_ (flush_seen env w) in
  e_mtime env fs <> pol_mtime (dm w) -> attribution (@load (e_io env) fs POLICY_PATH) = Policy.Kernel ->
  let w' := handle_tick env fallback w in
  pol (dm w') = @load (e_io env) fs POLICY_PATH /\ decided (dm w') = ∅ /\ kern (dm w') = Some k
  /\ exists es, eff w' = eff w ++ es
     /\ forall mem m, pfsn_upcall_on m = upcall_on (dm w) ->
          let m' := module_effects mem es m in
          cached m' = [] /\ pfsn_vcount m' = 0 /\ pfsn_upcall_on m' = upcall_on (dm w')
          /\ (mode (dm w') = Visibility -> lets_all_through m').
Proof.
  intros Hk Hl dev Ha Hdue fs Hm Hp. unfold handle_tick.
  destruct (tick_start env w) as (He & Hk1 & Hpol & Hu & Hmt & Hlc).
  assert (Hfs : files_ (forget_logged env (flush_seen env w)) = fs) by (unfold forget_logged; by case_match).
  unfold tick_due. rewrite Hlc, (proj2 (Z.leb_le _ _) Hdue).
  set (w1 := upd (set_last_check (e_now env)) _) in *. change (files_ w1) with (files_ (forget_logged env (flush_seen env w))) in *.
  replace (reconnect env w1) with w1.
  2: { unfold reconnect. by rewrite Hpol, Ha, Hk1, Hk, Hl. }
  assert (Hf1 : files_ w1 = fs) by exact Hfs.
  destruct (reload_live env fallback w1 k) as (He2 & Hk2 & Hd2 & Hp2 & Hmo2 & Hu2);
    [congruence|done|done|by rewrite Hf1, Hmt|by rewrite Hf1, Hp, Hpol|].
  set (w2 := reload env fallback w1) in *.
  destruct (reconcile_live env w2 k Hk2 Hl dev) as (es & He3 & Hk3 & Hd3 & Hp3 & Hmo3 & Hvis & Hmod).
  split; [by rewrite Hp3, Hp2, Hf1|]. split; [by rewrite Hd3|]. split; [done|].
  exists ([Ioctl verdict_flush_cmd []] ++ es). split; [by rewrite He3, He2, He, <- app_assoc|].
  intros mem m Hag. cbv zeta. rewrite module_effects_app.
  change (module_effects mem [Ioctl verdict_flush_cmd []] m) with (pfsn_verdict_flush m).
  rewrite Hmod by (cbn; by rewrite Hag, Hu2, Hu).
  split; [apply concat_emptied|]. split; [done|]. split; [done|].
  intros Hv. rewrite Hvis by congruence. apply quiet_lets_through.
Qed.
End together.
