(* ===== verification/ModuleFollows.v ===== *)
(** What the handlers of Daemon.v do to the module's switch and to the diversion of UDP, read
    off their effects one by one, and composed from the handlers' parts by the relation
    [follows]. *)
From S2P Require Import Prelude Unicode RustStr IpAddr Policy PolicyFile PolicyRecord Packet Dns Procinfo Abi KernAttr Seen Daemon DaemonSpec DaemonLoop KernModule ModuleSpec ModuleLink ModuleDaemon.

#[local] Arguments record : simpl never.
#[local] Arguments load : simpl never.
#[local] Arguments flush : simpl never.
#[local] Arguments POLICY_PATH : simpl never.
#[local] Arguments seen_new : simpl never.
#[local] Arguments prompt_bin : simpl never.

(** ** The switch, read off the effects *)

Definition setting (e : effect) : option bool :=
  match e with Ioctl cmd b => if cmd =? upcall_set_cmd then Some (negb (of_le b =? 0)) else None | _ => None end.
Definition switched (on : bool) (es : list effect) : bool := foldl (fun b e => default b (setting e)) on es.

(** An effect of a handler that goes on: an ioctl's argument has the size its number says,
    and the process does not exit. *)
Definition sized (e : effect) : Prop :=
  match e with Ioctl cmd b => length b = iocparm_len cmd | Exit => False | _ => True end.

(** Effects that touch neither the switch, nor the diversion, nor the readers. *)
Definition indifferent (e : effect) : Prop :=
  sized e /\ setting e = None /\ match e with UdpDivert _ | SpawnReader => False | _ => True end.
Abbreviation neutral := (Forall indifferent).

Lemma switched_app on es1 es2 : switched on (es1 ++ es2) = switched (switched on es1) es2.
Proof. apply foldl_app. Qed.

Lemma neutral_one e :
  sized e -> setting e = None -> match e with UdpDivert _ | SpawnReader => False | _ => True end -> neutral [e].
Proof. intros. by repeat constructor. Qed.

Lemma neutral_switched es on : neutral es -> switched on es = on.
Proof. intros Hes. unfold switched. induction Hes as [|e es (_ & He & _) _ IH]; [done|]. cbn. by rewrite He. Qed.

Lemma neutral_sized es : neutral es -> Forall sized es.
Proof. intros H. eapply Forall_impl; [exact H|]. by intros e (? & _). Qed.

(** *** Who governs UDP *)

(** The module asks; pf diverts; a reader waits for the questions (while it asks). *)
Record Gov : Type := mk_gov { g_on : bool; g_pf : bool; g_rd : bool }.

(** One effect carried out; pfctl succeeds. *)
Definition gov_step (g : Gov) (e : effect) : Gov :=
  match e with
  | UdpDivert b => mk_gov (g_on g) b (g_rd g)
  | SpawnReader => mk_gov (g_on g) (g_pf g) (g_on g)
  | _ => match setting e with
         | Some true => mk_gov true (g_pf g) (g_rd g)
         | Some false => mk_gov false (g_pf g) false
         | None => g
         end
  end.
Definition gov_run (g : Gov) (es : list effect) : Gov := foldl gov_step g es.

(** UDP is asked about or diverted, or about to be diverted; questions are read, or about
    to be; [post] is what remains to be done. *)
Definition governed (g : Gov) (post : list effect) : Prop :=
  (g_on g || g_pf g = true \/ UdpDivert true ∈ post) /\ (g_on g = true -> g_rd g = true \/ SpawnReader ∈ post).
Fixpoint orderly_from (g : Gov) (es : list effect) : Prop :=
  governed g es /\ match es with [] => True | e :: es' => orderly_from (gov_step g e) es' end.
Definition orderly (es : list effect) : Prop := forall g, governed g [] -> orderly_from g es.

Lemma governed_more g es es' : governed g es -> governed g (es ++ es').
Proof. intros [[H1|H1] H2]; split; try (by left); try (right; set_solver); intros H; destruct (H2 H); set_solver. Qed.

Lemma orderly_governed g es : orderly_from g es -> governed g es.
Proof. by destruct es; intros [? _]. Qed.

Lemma orderly_end g es : orderly_from g es -> governed (gov_run g es) [].
Proof. revert g. induction es as [|e es IH]; intros g [H1 H2]; [done|]. by apply (IH (gov_step g e)). Qed.

Lemma orderly_from_app g es es' :
  orderly_from g es -> orderly_from (gov_run g es) es' -> orderly_from g (es ++ es').
Proof.
  revert g. induction es as [|e es IH]; intros g [H1 H2] H'; [done|]. split; [exact (governed_more g (e :: es) es' H1)|].
  by apply IH.
Qed.

Lemma orderly_app es es' : orderly es -> orderly es' -> orderly (es ++ es').
Proof. intros H H' g Hg. apply orderly_from_app; [by apply H|]. by apply H', orderly_end, H. Qed.

Lemma indifferent_gov e g : indifferent e -> gov_step g e = g.
Proof. intros (_ & He & Hm). destruct e; try done. unfold gov_step. by rewrite He. Qed.

Lemma neutral_orderly es : neutral es -> orderly es.
Proof.
  intros Hes g Hg. induction Hes as [|e es He _ IH]; [by split|]. split; [exact (governed_more g [] (e :: es) Hg)|].
  by rewrite indifferent_gov.
Qed.

(** Off first, then the diversion; on first, then a reader, then the diversion. *)
Lemma orderly_off : orderly [Ioctl upcall_set_cmd (le 4 0); UdpDivert true].
Proof. intros [on pf rd] Hg. split; [by apply (governed_more _ [])|]. repeat split; cbn; auto; right; set_solver. Qed.

Lemma orderly_on : orderly [Ioctl upcall_set_cmd (le 4 1); SpawnReader; UdpDivert false].
Proof. intros [on pf rd] Hg. split; [by apply (governed_more _ [])|]. repeat split; cbn; auto; right; set_solver. Qed.

Section module_effects.
Context `{Pcbs}.

Lemma ioctl_switch mem cmd b m :
  pfsn_upcall_on (pfsn_ioctl mem cmd b m).1 = default (pfsn_upcall_on m) (setting (Ioctl cmd b))
  /\ pfsn_unloading (pfsn_ioctl mem cmd b m).1 = pfsn_unloading m.
Proof.
  cbn [setting]. change upcall_set_cmd with PFSNITCH_UPCALL_SET. unfold pfsn_ioctl.
  destruct (Z.eqb_spec cmd PFSNITCH_VERDICT_PUSH) as [->|]; [|destruct (Z.eqb_spec cmd PFSNITCH_VERDICT_FLUSH) as [->|];
    [|destruct (Z.eqb_spec cmd PFSNITCH_RESOLVE) as [->|]; [|destruct (cmd =? PFSNITCH_UPCALL_SET); [done|]]]].
  - change (PFSNITCH_VERDICT_PUSH =? PFSNITCH_UPCALL_SET) with false. repeat (case_match; [done|]). cbn [fst].
    unfold pfsn_verdict_push. case_match; [done|].
    match goal with |- context [pfsn_cache_insert ?a1 ?a2 ?a3 ?a4 ?a5 ?a6 ?a7 ?a8] =>
      pose proof (cache_insert_frame a1 a2 a3 a4 a5 a6 a7 a8) as Hf end. split; apply Hf.
  - done.
  - change (PFSNITCH_RESOLVE =? PFSNITCH_UPCALL_SET) with false. repeat (case_match; [done|]). cbn [fst].
    unfold pfsn_resolve. destruct (remove_req _ _) as [[r rest]|]; [|done].
    match goal with |- context [pfsn_cache_insert ?a1 ?a2 ?a3 ?a4 ?a5 ?a6 ?a7 ?a8] =>
      pose proof (cache_insert_frame a1 a2 a3 a4 a5 a6 a7 a8) as Hf end. split; apply Hf.
  - repeat (case_match; [done|]). done.
Qed.

Lemma remove_req_sublist id l r rest : remove_req id l = Some (r, rest) -> rest `sublist_of` l.
Proof.
  revert r rest. induction l as [|x l IH]; intros r rest E; [done|]. cbn in E. destruct (q_id x =? id).
  - injection E as <- <-. by apply sublist_cons.
  - destruct (remove_req id l) as [[r' rest']|]; [|done]. injection E as <- <-. by apply sublist_skip, (IH r').
Qed.

Lemma ioctl_reqs mem cmd b m : pfsn_reqs (pfsn_ioctl mem cmd b m).1 `sublist_of` pfsn_reqs m.
Proof.
  unfold pfsn_ioctl. repeat case_match; try done; cbn [fst].
  - unfold pfsn_verdict_push. case_match; [done|].
    match goal with |- context [pfsn_cache_insert ?a1 ?a2 ?a3 ?a4 ?a5 ?a6 ?a7 ?a8] =>
      destruct (cache_insert_frame a1 a2 a3 a4 a5 a6 a7 a8) as (_ & -> & _) end. done.
  - unfold pfsn_resolve. destruct (remove_req _ _) as [[r rest]|] eqn:E; [|done]. cbn [set_reqs pfsn_reqs].
    by apply remove_req_sublist in E.
Qed.

Lemma upcall_switch mem now af proto faddr fport info nb m :
  let m' := (pfsn_upcall mem now af proto faddr fport info nb m).1 in
  pfsn_upcall_on m' = pfsn_upcall_on m /\ pfsn_unloading m' = pfsn_unloading m.
Proof. unfold pfsn_upcall. repeat (case_match; [done|]). by destruct mem. Qed.

(** What the effects of a handler do to the module. *)
Lemma module_effects_ok mem es m :
  Forall sized es -> module_ok m ->
  let m' := module_effects mem es m in
  module_ok m' /\ pfsn_upcall_on m' = switched (pfsn_upcall_on m) es /\ pfsn_unloading m' = pfsn_unloading m.
Proof.
  intros Hs. revert m. unfold module_effects, switched. induction Hs as [|e es He Hs IH]; intros m Hm; [done|].
  cbn [foldl]. destruct (IH (module_effect mem m e)) as (Hok & Hon & Hun).
  { destruct e; try done. by apply ioctl_ok. }
  split; [done|]. rewrite Hon, Hun. destruct e as [| | |cmd b| | |]; try done. cbn [module_effect].
  destruct (ioctl_switch mem cmd b m) as [-> ->]. done.
Qed.

(** Of the commands the daemon sends, none is unknown to the module. *)
Lemma known_errno mem cmd b m e :
  cmd ∈ [attr_query_cmd; verdict_push_cmd; verdict_flush_cmd; resolve_cmd; upcall_set_cmd] ->
  (pfsn_ioctl mem cmd b m).2 = inl e -> fatal_errno e = false.
Proof.
  intros Hc He. assert (e = EINVAL) as ->; [|done]. revert He. unfold pfsn_ioctl.
  repeat (apply elem_of_cons in Hc as [->|Hc]); [..|by apply not_elem_of_nil in Hc].
  - change (attr_query_cmd =? PFSNITCH_VERDICT_PUSH) with false. change (attr_query_cmd =? PFSNITCH_VERDICT_FLUSH) with false.
    change (attr_query_cmd =? PFSNITCH_RESOLVE) with false. change (attr_query_cmd =? PFSNITCH_UPCALL_SET) with false.
    change (attr_query_cmd =? PFSNITCH_ATTR_QUERY) with true. cbn [negb].
    repeat (case_match; [by intros [= <-]|]); cbn [snd]; congruence.
  - change (verdict_push_cmd =? PFSNITCH_VERDICT_PUSH) with true. cbv iota. repeat (case_match; [by intros [= <-]|]); cbn [snd]; congruence.
  - done.
  - change (resolve_cmd =? PFSNITCH_VERDICT_PUSH) with false. change (resolve_cmd =? PFSNITCH_VERDICT_FLUSH) with false.
    change (resolve_cmd =? PFSNITCH_RESOLVE) with true. cbv iota. repeat (case_match; [by intros [= <-]|]); cbn [snd]; congruence.
  - done.
Qed.
End module_effects.

(** ** What the handlers do to the switch *)

(** The handle is live where there is one, and the daemon believes upcalls on only with one. *)
Record fit (w : World) : Prop := mk_fit {
  f_live : forall k, kern (dm w) = Some k -> dead k = false;
  f_on : upcall_on (dm w) = true -> is_Some (kern (dm w))
}.

(** From [w] to [w'] the effects set the switch as the daemon believes it to be. *)
Definition follows (w w' : World) : Prop :=
  fit w -> fit w' /\ exists es, eff w' = eff w ++ es /\ Forall sized es
                    /\ orderly es /\ switched (upcall_on (dm w)) es = upcall_on (dm w').

#[export] Instance follows_preorder : PreOrder follows.
Proof.
  split.
  - intros w Hw. split; [done|]. exists []. rewrite app_nil_r. by split_and!; [|constructor|apply neutral_orderly; constructor|].
  - intros a b c Hab Hbc Ha. destruct (Hab Ha) as (Hb & e1 & E1 & S1 & G1 & O1).
    destruct (Hbc Hb) as (Hc & e2 & E2 & S2 & G2 & O2).
    split; [done|]. exists (e1 ++ e2). rewrite E2, E1, app_assoc. split; [done|].
    split; [by apply Forall_app|]. split; [by apply orderly_app|]. by rewrite switched_app, O1.
Qed.

Lemma follows_same w w' :
  kern (dm w') = kern (dm w) -> upcall_on (dm w') = upcall_on (dm w) -> eff w' = eff w -> follows w w'.
Proof.
  intros Hk Hu He [Hl Ho]. split; [constructor; rewrite Hk, ?Hu; done|]. exists [].
  rewrite app_nil_r, Hu. by split_and!; [|constructor|apply neutral_orderly; constructor|].
Qed.

Lemma follows_emit w es : neutral es -> follows w (emit es w).
Proof.
  intros Hn [Hl Ho]. split; [done|]. exists es. rewrite neutral_switched by done.
  by split_and!; [|apply neutral_sized|apply neutral_orderly|].
Qed.

(** A call through a live handle that leaves it live and the switch alone. *)
Definition neutral_op (op : KernAttr -> KernAttr * list effect) : Prop :=
  forall k, dead k = false -> exists es, op k = (k, es) /\ neutral es.

Lemma follows_with op w : neutral_op op -> follows w (with_kern op w).
Proof.
  intros Hop. unfold with_kern. destruct (kern (dm w)) as [k|] eqn:E; [|reflexivity].
  intros Hw. destruct (Hop k (f_live w Hw k E)) as (es & -> & Hn).
  assert (follows w (emit es (upd (set_kern (Some k)) w))) as Hf; [|exact (Hf Hw)].
  transitivity (upd (set_kern (Some k)) w); [by apply follows_same|by apply follows_emit].
Qed.

Section handlers.
Context `{Pcbs} (env : Env) (dev : device_answers env).

Lemma live_query k t : dead k = false -> (@query (e_dev env) k t).1 = k.
Proof using dev.
  intros Hk. unfold query. destruct (query_request t) as [q|]; [|done]. unfold ioctl, Daemon.dev.
  destruct (dev attr_query_cmd (attr_bytes q)) as (mem & m & E). rewrite E.
  destruct (pfsn_ioctl mem attr_query_cmd (attr_bytes q) m).2 as [e|b] eqn:Er; [|done].
  cbn [fst]. unfold note_errno. rewrite (known_errno mem attr_query_cmd (attr_bytes q) m e); [done| |done].
  apply elem_of_cons. by left.
Qed.

Lemma live_send k cmd b :
  cmd ∈ [attr_query_cmd; verdict_push_cmd; verdict_flush_cmd; resolve_cmd; upcall_set_cmd] ->
  @send (e_dev env) k cmd b = k.
Proof using dev.
  intros Hc. unfold send, ioctl. destruct (dev cmd b) as (mem & m & E). rewrite E.
  destruct (pfsn_ioctl mem cmd b m).2 as [e|] eqn:Er; [|done]. unfold note_errno. by rewrite (known_errno _ _ _ _ _ Hc Er).
Qed.

Lemma flush_neutral : neutral_op (k_flush env).
Proof using dev.
  intros k Hk. unfold k_flush, flush_verdicts. rewrite Hk, live_send by (repeat constructor). eexists. split; [done|].
  by apply neutral_one.
Qed.

Lemma resolve_neutral id allow : neutral_op (k_resolve env id allow).
Proof using dev.
  intros k Hk. unfold k_resolve, resolve_event. rewrite Hk, live_send by (repeat constructor). eexists. split; [done|].
  by apply neutral_one.
Qed.

Lemma push_length k proto dst dport path allow b :
  push_request k proto dst dport path allow = Some b -> length b = iocparm_len verdict_push_cmd.
Proof.
  intros Hb. pose proof (push_correct k proto dst dport path allow 0) as [Hc _]. rewrite Hb in Hc.
  destruct Hc as (_ & _ & _ & -> & _). by vm_compute.
Qed.

Lemma push_neutral proto dst dport path allow : neutral_op (k_push env proto dst dport path allow).
Proof using dev.
  intros k Hk. unfold k_push, push_verdict. destruct (push_request k proto dst dport path allow) as [b|] eqn:Eb.
  - rewrite live_send by (repeat constructor). eexists. split; [done|]. by apply neutral_one; [eapply push_length| |].
  - eexists. split; [done|]. constructor.
Qed.

(** *** The tick *)

Lemma backend_live p :
  (forall k, (kern_backend env p).1 = Some k -> dead k = false) /\ neutral (kern_backend env p).2.
Proof using dev.
  unfold kern_backend. case_bool_decide; [by split; [done|constructor]|].
  destruct (e_open env); [|by split; [done|constructor]].
  destruct (flush_neutral (mk_kern false) eq_refl) as (es & -> & Hn). split; [|done]. by intros k [= <-].
Qed.

(** A new handle, when upcalls are off or it is one. *)
Lemma follows_set_kern k es w :
  (forall k0, k = Some k0 -> dead k0 = false) -> upcall_on (dm w) = false \/ is_Some k -> neutral es ->
  follows w (emit es (upd (set_kern k) w)).
Proof.
  intros Hk Hu Hn Hw. split; [|exists es; split_and!; [done|by apply neutral_sized|by apply neutral_orderly|by apply neutral_switched]].
  constructor; [done|]. cbn. intros Hon. destruct Hu as [Hu|Hu]; [congruence|done].
Qed.

Lemma reconnect_follows w : follows w (reconnect env w).
Proof using dev.
  unfold reconnect. case_bool_decide; [|reflexivity]. destruct (kern (dm w)) as [k|] eqn:E.
  - intros Hw. rewrite (f_live w Hw k E). by apply (reflexivity (R := follows) w).
  - destruct (e_open env); [|reflexivity]. destruct (flush_neutral (mk_kern false) eq_refl) as (es & -> & Hn).
    apply follows_set_kern; [by intros k0 [= <-]|by right|done].
Qed.

(** The switch is thrown and noted. *)
Lemma switch_follows on es w :
  is_Some (kern (dm w)) -> Forall (fun e => match e with Ioctl _ _ | Exit => False | _ => True end) es ->
  orderly (Ioctl upcall_set_cmd (le 4 (if on : bool then 1 else 0)) :: es) ->
  follows w (emit es (upd (set_upcall_on on) (with_kern (k_set_upcall env on) w))).
Proof using dev.
  intros [k Hk] Hes Ho Hw. rewrite (with_live k _ w _ Hk (live_set_upcall env dev k (f_live w Hw k Hk) on)).
  split; [constructor; cbn; [apply Hw|by rewrite Hk]|].
  exists (Ioctl upcall_set_cmd (le 4 (if on then 1 else 0)) :: es). cbn [eff emit upd dm upcall_on set_upcall_on].
  split; [by rewrite <- app_assoc|]. split; [|split; [done|]].
  - constructor; [by destruct on|]. eapply Forall_impl; [exact Hes|]. by intros [].
  - cbn [switched foldl]. replace (default _ (setting _)) with on by (by destruct on).
    clear Hw Hk Ho. induction Hes as [|e es He _ IH]; [done|]. cbn. destruct e; try done; apply IH.
Qed.

Lemma upcall_off_follows w : upcall_on (dm w) = true -> follows w (upcall_off env w).
Proof using dev.
  intros Hu Hw. unfold upcall_off.
  assert (follows w (emit [UdpDivert true] (upd (fun d => set_pending_upcalls ∅ (set_upcall_on false d))
                        (with_kern (k_set_upcall env false) w)))) as Hf; [|exact (Hf Hw)].
  etransitivity; [apply (switch_follows false [UdpDivert true]); [by apply f_on|by repeat constructor|apply orderly_off]|].
  by apply follows_same.
Qed.

Lemma reload_follows fallback w : follows w (reload env fallback w).
Proof using dev.
  unfold reload. case_bool_decide; [reflexivity|]. cbv zeta.
  set (p := @load (e_io env) (files_ w) POLICY_PATH).
  set (w0 := upd (fun d => set_mode (policy_mode p fallback) (set_pol p (set_pol_mtime (e_mtime env (files_ w)) d))) w).
  transitivity w0; [by apply follows_same|].
  transitivity (if bool_decide (attribution p = attribution (pol (dm w))) then w0
                else let w1 := if upcall_on (dm w0) then upcall_off env w0 else w0 in
                     let '(k, es) := kern_backend env p in emit es (upd (set_kern k) w1)).
  - case_bool_decide; [reflexivity|]. cbv zeta. destruct (backend_live p) as [Hl Hn].
    destruct (kern_backend env p) as [k es]. cbn [fst snd] in *. destruct (upcall_on (dm w0)) eqn:Eu.
    + transitivity (upcall_off env w0); [by apply upcall_off_follows|]. by apply follows_set_kern; [|left|].
    + by apply follows_set_kern; [|left|].
  - etransitivity; [|apply follows_with, flush_neutral]. by apply follows_same.
Qed.

Lemma reconcile_follows w : follows w (reconcile env w).
Proof using dev.
  unfold reconcile. destruct (bool_decide (is_Some (kern (dm w)))) eqn:Ek; cbn [andb negb].
  - apply bool_decide_eq_true in Ek. destruct (enforcing (mode (dm w))), (upcall_on (dm w)) eqn:Eu; cbn [andb negb];
      try reflexivity; [|by apply upcall_off_follows].
    destruct (e_reader env); [|reflexivity]. by apply switch_follows; [|repeat constructor|apply orderly_on].
  - destruct (upcall_on (dm w)) eqn:Eu; [|reflexivity]. by apply upcall_off_follows.
Qed.

Lemma tick_follows fallback w : follows w (handle_tick env fallback w).
Proof using dev.
  unfold handle_tick. transitivity (forget_logged env (flush_seen env w)).
  { apply follows_same; unfold forget_logged, flush_seen; destruct (flush _ _ _ _ _); by destruct (_ || _). }
  destruct (tick_due _ _); [|reflexivity]. etransitivity; [|apply reconcile_follows].
  etransitivity; [|apply reload_follows]. etransitivity; [|apply reconnect_follows]. by apply follows_same.
Qed.

(** *** Packets *)

Ltac follows_pieces := by repeat case_match; apply follows_same.

Lemma attribute_follows tu w : follows w (attribute env tu w).1.
Proof using dev.
  intros Hw. unfold attribute. assert (forall w0, follows w0
      (let '(r, a, _) := resolve (e_now env) (e_now env) (e_procs env) (resolver (dm w0)) tu true in
       (upd (set_resolver r) w0, a)).1) as Hr.
  { intros w0. destruct (resolve _ _ _ _ _ _) as [[r a] ?]. by apply follows_same. }
  destruct (kern (dm w)) as [k|] eqn:E; [|exact (Hr w Hw)].
  pose proof (live_query k tu (f_live w Hw k E)) as Hq. unfold Daemon.dev. destruct (@query (e_dev env) k tu) as [k' a].
  cbn [fst] in Hq. subst k'.
  assert (Hs : follows w (upd (set_kern (Some k)) w)) by by apply follows_same.
  destruct a; [exact (Hs Hw)|].
  assert (follows w (upd (set_kern (Some k)) w)) as Hf by done.
  exact (transitivity (R := follows) Hf (Hr _) Hw).
Qed.

Lemma check_identity_follows path w : follows w (check_identity env path w).1.
Proof. unfold check_identity. follows_pieces. Qed.

Lemma judge_follows f w : follows w (judge env f w).1.
Proof using dev.
  unfold judge. pose proof (attribute_follows (flow_tuple f) w) as Ha.
  destruct (attribute env (flow_tuple f) w) as [w1 att]. cbn [fst] in Ha.
  destruct (exe_path ∘ owner <$> att) as [e|]; [|done].
  pose proof (check_identity_follows e w1) as Hc. destruct (check_identity env e w1) as [w2 ch]. cbn [fst] in *. by transitivity w1.
Qed.

Lemma remember_follows f v exe w : follows w (remember env f v exe w).
Proof using dev.
  unfold remember. cbv zeta. match goal with |- context [upd ?g w] => transitivity (upd g w); [by apply follows_same|] end.
  case_match; [|reflexivity]. destruct exe; [|reflexivity]. apply follows_with, push_neutral.
Qed.

Lemma note_contact_follows f exe w : follows w (note_contact env f exe w).
Proof. unfold note_contact. by destruct exe; apply follows_same. Qed.

Lemma prompt_follows b exe p c dst dport host scope w : follows w (spawn_prompt b exe p c dst dport host scope w).
Proof. by apply follows_emit, neutral_one. Qed.

Lemma settle_follows f w : follows w (settle env f w).1.1.
Proof using dev.
  unfold settle. destruct (decided (dm w) !! flow_key f) as [[]|]; [reflexivity..|].
  pose proof (judge_follows f w) as Hj. destruct (judge env f w) as [w1 j]. cbn [fst] in Hj.
  transitivity w1; [done|]. destruct (j_verdict j); cbn [fst].
  1,2: etransitivity; [apply remember_follows|apply note_contact_follows].
  destruct (enforcing _); cbn [fst]; etransitivity; [|apply note_contact_follows| |apply note_contact_follows].
  - unfold ask. case_bool_decide; [reflexivity|]. etransitivity; [|apply prompt_follows]. by apply follows_same.
  - unfold learn. follows_pieces.
Qed.

Lemma send_follows e w : indifferent e -> follows w (emit [e] w).
Proof. intros. apply follows_emit. by constructor. Qed.

Lemma deliver_follows pkt a allow reject w : follows w (deliver pkt a allow reject w).
Proof.
  unfold deliver. set (w1 := if enforcing (mode (dm w)) && reject then _ else w). cbv zeta. transitivity w1.
  - subst w1. case_match; [|reflexivity]. case_match; [|reflexivity]. by apply send_follows.
  - case_match; [|reflexivity]. by apply send_follows.
Qed.

Lemma packet_follows pkt a w : follows w (handle_packet env pkt a w).
Proof using dev.
  unfold handle_packet. destruct (to_option (parse pkt)) as [f|]; [|apply deliver_follows].
  destruct (is_dns_reply f).
  { etransitivity; [|by apply send_follows]. unfold observe_dns. follows_pieces. }
  destruct (negb _); [by apply send_follows|]. destruct (starts_flow f); [|apply deliver_follows].
  pose proof (settle_follows f w) as Hs. destruct (settle env f w) as [[w1 al] rj]. cbn [fst] in Hs.
  transitivity w1; [done|apply deliver_follows].
Qed.

(** *** Upcalls and answers *)

Lemma handle_upcall_follows ev w : follows w (handle_upcall env ev w).
Proof using dev.
  unfold handle_upcall. destruct (ev_path ev) as [|c path]; [apply follows_with, resolve_neutral|].
  pose proof (check_identity_follows (c :: path) w) as Hc. destruct (check_identity env (c :: path) w) as [w1 ch].
  cbn [fst] in Hc. transitivity w1; [done|]. cbv zeta. destruct (if ch then Ask else _).
  - apply follows_with, resolve_neutral.
  - apply follows_with, resolve_neutral.
  - match goal with |- follows w1 (upd _ ?x) => transitivity x; [|by apply follows_same] end.
    case_bool_decide; [reflexivity|]. etransitivity; [|apply prompt_follows]. by apply follows_same.
Qed.

Lemma resolve_all_follows ids allow w : follows w (resolve_all env ids allow w).
Proof using dev.
  revert w. unfold resolve_all. induction ids as [|id ids IH]; intros w; [reflexivity|].
  cbn [foldl]. etransitivity; [|apply IH]. apply follows_with, resolve_neutral.
Qed.

Lemma answer_follows ans p w : follows w (handle_answer env ans p w).
Proof using dev.
  unfold handle_answer. cbv zeta. set (w0 := upd (fun d => set_asking _ d) w).
  set (w1 := match pending_upcalls (dm w0) !! pending_key p with Some ids => _ | None => w0 end).
  set (w2 := match p_exe p with Some e => _ | None => w1 end).
  transitivity w0; [by apply follows_same|]. transitivity w1; [|transitivity w2].
  - subst w1. case_match; [|reflexivity]. etransitivity; [|apply resolve_all_follows]. by apply follows_same.
  - subst w2. follows_pieces.
  - follows_pieces.
Qed.

(** *** Starting *)

Lemma start_fits fallback prompt_env fs :
  let w := start env fallback prompt_env fs in fit w /\ neutral (eff w) /\ upcall_on (dm w) = false.
Proof using dev.
  cbv zeta. unfold start.
  match goal with |- context [kern_backend env ?p] =>
    destruct (backend_live p) as [Hl Hn]; destruct (kern_backend env p) as [k es] end.
  cbn [fst snd] in *. split_and!; [constructor; cbn; [exact Hl|congruence]|exact Hn|done].
Qed.
End handlers.
