(* ===== verification/KernSleep.v ===== *)
(** Readers of the kernel module's device (kmod/mac_pfsnitch.c, [pfsn_read]) as threads that
    sleep and are woken: any number of them, beside the connect hook, the ioctls, the last
    close of the device and its destruction.

    A critical section under [pfsn_pmtx] is one step, [msleep], which gives the mutex back and
    sleeps in one go, its end; [wakeup] makes every sleeper run again, and it takes the mutex
    before it looks.  The copy to user space is a step of its own, outside the mutex.  The
    operations are those of KernModule.v. *)
From S2P Require Import Prelude Unicode RustStr IpAddr Procinfo Abi KernAttr KernModule ModuleSpec ModuleLink ModuleDaemon ModuleFollows.

(** What a [read] returned: an errno, end of file, or the event of this id. *)
Inductive returned : Type := Errno (e : Z) | EndOfFile | Event_ (id : Z) (ev : list Z).
Inductive reader : Type := Runnable | Asleep | Copying (id : Z) (ev : list Z) | Left_ (r : returned).

(** [gone]: [destroy_dev] has returned and the mutex is destroyed. *)
Record Readers : Type := mk_readers { inner : Module_; threads : gmap nat reader; gone : bool }.

Definition EINTR : Z := 4.
Definition EFAULT : Z := 14.

Definition inside (t : reader) : bool := match t with Left_ _ => false | _ => true end.

(** [wakeup(&pfsn_reqs)] *)
Definition wake (t : reader) : reader := match t with Asleep => Runnable | _ => t end.
Definition wakeup (yes : bool) (ts : gmap nat reader) : gmap nat reader := if yes then wake <$> ts else ts.

Section readers.
Context `{Pcbs}.

(** Where the code calls it: the hook where it queues a question, that is where it draws an
    id; the switch when it goes off; the last close if it was on. *)
Definition wakes (m : Module_) (o : mod_op) : bool :=
  match o with
  | OpConnect _ _ _ _ _ _ _ => negb (pfsn_next_id (mod_step m o) =? pfsn_next_id m)
  | OpIoctl _ cmd arg => (cmd =? PFSNITCH_UPCALL_SET) && (of_le arg =? 0)
  | OpReadFault id => existsb (fun r => q_id r =? id) (pfsn_reqs m)
  | OpClose => pfsn_upcall_on m
  | OpUnload => true
  | OpRead _ | OpFailmode _ => false
  end.

(** An operation, and the wakeup it ends in. *)
Definition op_step (o : mod_op) (s : Readers) : Readers :=
  mk_readers (mod_step (inner s) o) (wakeup (wakes (inner s) o) (threads s)) (gone s).

Definition put_reader (k : nat) (t : reader) (s : Readers) : Readers := mk_readers (inner s) (<[k := t]> (threads s)) (gone s).

(** The loop of [pfsn_read] from the lock to the unlock, or to sleep. *)
Definition reader_turn (k : nat) (s : Readers) : Readers :=
  match pfsn_read (Z.of_nat (csize header_event)) (inner s) with
  | (m, REvent ev) =>
      let id := match deliver_next (pfsn_reqs (inner s)) with Some (r, _) => q_id r | None => 0 end in
      put_reader k (Copying id ev) (mk_readers m (threads s) (gone s))
  | (_, RSleep) => put_reader k Asleep s
  | (_, REof) => put_reader k (Left_ EndOfFile) s
  | (_, RInval) => put_reader k (Left_ (Errno EINVAL)) s
  end.

Inductive act_ : Type :=
| Enter (k : nat) (resid : Z)        (* read(2) *)
| Run_ (k : nat)                     (* the mutex is taken *)
| Copied (k : nat) (fault : bool)    (* uiomove, and what follows *)
| Interrupt (k : nat)                (* a signal, PCATCH *)
| Op (o : mod_op)                    (* the hook, an ioctl, the last close *)
| Unload                             (* pfsn_destroy up to destroy_dev *)
| DestroyDev.                        (* destroy_dev returns *)

Definition readers_step (s : Readers) (a : act_) : option Readers :=
  match a with
  | Enter k resid =>
      if gone s then None
      else match threads s !! k with
           | Some _ => None
           | None => Some (put_reader k (if resid <? Z.of_nat (csize header_event) then Left_ (Errno EINVAL) else Runnable) s)
           end
  | Run_ k => match threads s !! k with Some Runnable => Some (reader_turn k s) | _ => None end
  | Copied k fault =>
      match threads s !! k with
      | Some (Copying id ev) =>
          if fault then Some (put_reader k (Left_ (Errno EFAULT)) (op_step (OpReadFault id) s))
          else Some (put_reader k (Left_ (Event_ id ev)) s)
      | _ => None
      end
  | Interrupt k => match threads s !! k with Some Asleep => Some (put_reader k (Left_ (Errno EINTR)) s) | _ => None end
  | Op o =>
      match o with
      | OpRead _ | OpReadFault _ | OpUnload => None
      | _ => Some (op_step o s)
      end
  | Unload => if pfsn_unloading (inner s) then None else Some (op_step OpUnload s)
  | DestroyDev =>
      if pfsn_unloading (inner s) && bool_decide (map_Forall (fun _ t => inside t = false) (threads s))
      then Some (mk_readers (inner s) (threads s) true) else None
  end.

(** Well-formed operations, and fewer than 2^64 questions. *)
Definition act_ok (s : Readers) (a : act_) : Prop :=
  pfsn_next_id (inner s) + 1 < 2 ^ 64 /\ match a with Op o => op_ok o | _ => True end.

Inductive readers_reachable : Readers -> Prop :=
| readers_start m : module_ok m -> pfsn_unloading m = false -> readers_reachable (mk_readers m ∅ false)
| readers_more s a s' : readers_reachable s -> act_ok s a -> readers_step s a = Some s' -> readers_reachable s'.

Fixpoint readers_run (s : Readers) (acts : list act_) : option Readers :=
  match acts with [] => Some s | a :: acts' => s' ← readers_step s a; readers_run s' acts' end.

(** ** Nothing to wait for is waited for *)

(** What a reader sleeps on: it would find nothing to deliver and no end of file. *)
Definition nothing_to_read (m : Module_) : Prop :=
  pfsn_unloading m = false /\ pfsn_upcall_on m = true /\ Forall (fun r => q_delivered r = true) (pfsn_reqs m).

Lemma deliver_next_none l : deliver_next l = None <-> Forall (fun r => q_delivered r = true) l.
Proof.
  induction l as [|r l IH]; [split; [by constructor|done]|]. cbn. rewrite Forall_cons. destruct (q_delivered r).
  - destruct (deliver_next l); cbn; [split; [done|]|]; [by intros [_ ?%IH]|]. split; [intros _; split; [done|by apply IH]|done].
  - by split; [|intros [? _]].
Qed.

Lemma deliver_next_some l r rs :
  deliver_next l = Some (r, rs) -> exists l1 l2, l = l1 ++ r :: l2 /\ rs = l1 ++ mark true r :: l2 /\ q_delivered r = false.
Proof.
  revert rs. induction l as [|x l IH]; intros rs Hd; [done|]. cbn in Hd. destruct (q_delivered x) eqn:Ex.
  - destruct (deliver_next l) as [[y ys]|] eqn:E; [|done]. injection Hd as <- <-. destruct (IH ys eq_refl) as (l1 & l2 & -> & -> & Hy).
    by exists (x :: l1), l2.
  - injection Hd as <- <-. by exists [], l.
Qed.

Lemma deliver_next_oldest l1 r l2 :
  Forall (fun x => q_delivered x = true) l1 -> q_delivered r = false -> deliver_next (l1 ++ r :: l2) = Some (r, l1 ++ mark true r :: l2).
Proof. intros Hl Hr. induction Hl as [|x l1 Hx _ IH]; cbn; [by rewrite Hr|]. by rewrite Hx, IH. Qed.

Lemma read_sleeps m : (pfsn_read (Z.of_nat (csize header_event)) m).2 = RSleep <-> nothing_to_read m.
Proof.
  unfold pfsn_read, nothing_to_read. rewrite Z.ltb_irrefl. destruct (pfsn_unloading m); [by split; [|intros [? _]]|].
  destruct (pfsn_upcall_on m); [|by split; [|intros (_ & ? & _)]]. cbn [orb negb]. rewrite <- deliver_next_none.
  destruct (deliver_next (pfsn_reqs m)) as [[r rs]|]; cbn; [|tauto]. split; [done|by intros (_ & _ & ?)].
Qed.

Lemma undeliver_absent id l : existsb (fun r => q_id r =? id) l = false -> undeliver id l = l.
Proof. induction l as [|r l IH]; [done|]. cbn. intros [-> Hl]%orb_false_iff. by rewrite IH. Qed.

(** The hook: it draws no id and queues nothing, or draws the next one for one question. *)
Lemma connect_queues mem now junk t nb info sa m :
  let m' := (pfsn_socket_check_connect mem now junk t nb info sa m).1 in
  pfsn_upcall_on m' = pfsn_upcall_on m /\ pfsn_unloading m' = pfsn_unloading m
  /\ ((pfsn_next_id m' = pfsn_next_id m /\ pfsn_reqs m' `sublist_of` pfsn_reqs m)
      \/ (pfsn_next_id m' = wrap64 (pfsn_next_id m + 1)
          /\ exists g r, pfsn_reqs m' = g ++ [r] /\ g `sublist_of` pfsn_reqs m /\ q_id r = pfsn_next_id m)).
Proof.
  cbv zeta. assert (Hstay : pfsn_upcall_on m = pfsn_upcall_on m /\ pfsn_unloading m = pfsn_unloading m
    /\ ((pfsn_next_id m = pfsn_next_id m /\ pfsn_reqs m `sublist_of` pfsn_reqs m)
        \/ (pfsn_next_id m = wrap64 (pfsn_next_id m + 1)
            /\ exists g r, pfsn_reqs m = g ++ [r] /\ g `sublist_of` pfsn_reqs m /\ q_id r = pfsn_next_id m)))
    by (split; [done|]; split; [done|]; by left).
  unfold pfsn_socket_check_connect. destruct sa as [sa|]; [|done].
  destruct (match t with SOCK_STREAM => _ | _ => _ end) as [proto|]; [|done].
  destruct (hook_dest sa junk) as [[[af fport] faddr]|]; [|done]. destruct (hook_loopback _ _); [done|].
  destruct info as [info|]; [|done]. case_bool_decide; [done|]. cbv zeta. do 3 (case_match; [try done|try done]).
  match goal with |- context [pfsn_upcall ?a1 ?a2 ?a3 ?a4 ?a5 ?a6 ?a7 ?a8 ?a9] =>
    destruct (upcall_switch a1 a2 a3 a4 a5 a6 a7 a8 a9) as [-> ->] end.
  split; [done|]. split; [done|]. unfold pfsn_upcall. repeat (case_match; [by left|]). cbv zeta.
  assert (Hg : pfsn_reqs (pfsn_req_gc now m) `sublist_of` pfsn_reqs m) by apply sublist_filter.
  destruct mem; cbn [negb fst]; [right|by left]. split; [done|]. cbn [set_reqs pfsn_reqs]. by eexists _, _.
Qed.

Lemma delivered_sublist l l' :
  l `sublist_of` l' -> Forall (fun r => q_delivered r = true) l' -> Forall (fun r => q_delivered r = true) l.
Proof. intros Hs. rewrite !Forall_forall. intros Hl x Hx. by eapply Hl, elem_of_sublist. Qed.

(** Where the code does not wake anybody, there is still nothing to read. *)
Lemma unwoken_waits m o :
  pfsn_next_id m + 1 < 2 ^ 64 -> wakes m o = false -> o <> OpUnload ->
  (forall resid, o <> OpRead resid) -> nothing_to_read m -> nothing_to_read (mod_step m o).
Proof.
  intros Hid Hw Hu Hr (Hun & Hon & Hd). destruct o as [mem now junk t nb info sa|resid|id|mem cmd arg|v| |]; cbn [mod_step wakes] in *; try done.
  - destruct (connect_queues mem now junk t nb info sa m) as (Eon & Eun & [[_ Hs]|[En _]]).
    + unfold nothing_to_read. rewrite Eon, Eun. split; [done|]. split; [done|]. by eapply delivered_sublist.
    + exfalso. apply negb_false_iff, Z.eqb_eq in Hw. rewrite En in Hw. unfold wrap64 in Hw.
      destruct (decide (0 <= pfsn_next_id m)) as [Hp|Hp]; [rewrite Z.mod_small in Hw by lia; lia|].
      pose proof (Z.mod_pos_bound (pfsn_next_id m + 1) (2 ^ 64) ltac:(lia)). lia.
  - by destruct (Hr resid).
  - unfold pfsn_read_fault. rewrite undeliver_absent by done. by split_and!.
  - destruct (ioctl_switch mem cmd arg m) as [Eon Eun]. unfold nothing_to_read. rewrite Eon, Eun, Hon. split; [done|]. split.
    + cbn [setting]. change upcall_set_cmd with PFSNITCH_UPCALL_SET. destruct (cmd =? PFSNITCH_UPCALL_SET); [|done].
      cbn [andb] in Hw. cbn. by rewrite Hw.
    + eapply delivered_sublist; [apply ioctl_reqs|done].
  - congruence.
Qed.

(** ** The invariant *)

(** The reader was handed the event of this id. *)
Definition has_event (id : Z) (t : reader) : Prop :=
  match t with Copying i _ | Left_ (Event_ i _) => i = id | _ => False end.
Definition was_handed (s : Readers) (k : nat) (id : Z) : Prop := exists t, threads s !! k = Some t /\ has_event id t.

Record readers_ok (s : Readers) : Prop := mk_readers_ok {
  ro_module : module_ok (inner s);
  ro_sleep : forall k, threads s !! k = Some Asleep -> nothing_to_read (inner s);
  ro_gone : gone s = true -> pfsn_unloading (inner s) = true /\ map_Forall (fun _ t => inside t = false) (threads s);
  ro_held : forall k id, was_handed s k id -> id < pfsn_next_id (inner s) /\ forall r, r ∈ pfsn_reqs (inner s) -> q_id r = id -> q_delivered r = true;
  ro_once : forall k k' id, was_handed s k id -> was_handed s k' id -> k = k'
}.

Lemma wakeup_lookup yes ts k t : wakeup yes ts !! k = Some t -> exists t0, ts !! k = Some t0 /\ t = if yes then wake t0 else t0.
Proof. unfold wakeup. destruct yes; [|by eauto]. rewrite lookup_fmap. intros (t0 & -> & ->)%fmap_Some. by eauto. Qed.

Lemma wake_event id t : has_event id (wake t) <-> has_event id t.
Proof. by destruct t. Qed.

Lemma wake_inside t : inside (wake t) = inside t.
Proof. by destruct t. Qed.

Lemma op_handed o s k id : was_handed (op_step o s) k id -> was_handed s k id.
Proof.
  intros (t & Hk & Ht). apply wakeup_lookup in Hk as (t0 & Hk & ->). exists t0. split; [done|].
  destruct (wakes _ _); [by apply wake_event|done].
Qed.

(** Another thread state for [k]. *)
Lemma put_handed k t s k' id : was_handed (put_reader k t s) k' id -> (k' = k /\ has_event id t) \/ (k' <> k /\ was_handed s k' id).
Proof.
  intros (t' & Hk & Ht). cbn in Hk. apply lookup_insert_Some in Hk as [[<- <-]|[Hne Hk]]; [by left|right].
  split; [done|]. by exists t'.
Qed.

(** A thread that was handed nothing moves, to sleep only if there is nothing to read. *)
Lemma put_reader_ok k t s :
  readers_ok s -> gone s = false \/ inside t = false -> (t = Asleep -> nothing_to_read (inner s)) ->
  (forall id, has_event id t -> was_handed s k id) -> readers_ok (put_reader k t s).
Proof.
  intros [Hm Hsl Hg Hh Ho] Hin Ht He. constructor; cbn [inner put_reader gone threads].
  - done.
  - intros k' [[_ ->]|[_ Hk]]%lookup_insert_Some; [by apply Ht|by eapply Hsl].
  - intros Hgone. destruct (Hg Hgone) as [? Hl]. split; [done|]. destruct Hin as [?|Hin]; [congruence|]. cbn. by apply map_Forall_insert_2.
  - intros k' id [[-> Hi]|[_ Hi]]%put_handed; [by apply (Hh k), He|by apply (Hh k')].
  - intros k1 k2 id [[-> H1]|[N1 H1]]%put_handed [[-> H2]|[N2 H2]]%put_handed; try done;
      [apply He in H1|apply He in H2|]; by eapply Ho.
Qed.

(** An operation with its wakeup: the requests it leaves, it had, or they have new ids. *)
Lemma op_step_ok o s :
  readers_ok s -> op_ok o -> pfsn_next_id (inner s) + 1 < 2 ^ 64 -> (forall resid, o <> OpRead resid) ->
  (forall id, o = OpReadFault id -> forall k, ~ was_handed s k id) -> readers_ok (op_step o s).
Proof.
  intros Hs Ho Hid Hr Hf. pose proof Hs as [Hm Hsl Hg Hh Honce]. destruct (mod_step_ok (inner s) o Hm Ho Hid) as [Hm' _].
  assert (Hun : pfsn_unloading (inner s) = true -> pfsn_unloading (mod_step (inner s) o) = true).
  { intros Hu. destruct o as [mem now junk t nb info sa|resid|id|mem cmd arg|v| |]; cbn [mod_step]; try done.
    - by rewrite (proj1 (proj2 (connect_queues mem now junk t nb info sa (inner s)))).
    - by destruct (Hr resid).
    - by rewrite (proj2 (ioctl_switch mem cmd arg (inner s))).
    - unfold pfsn_dev_close. by destruct (pfsn_upcall_on _). }
  assert (Hreqs : pfsn_next_id (inner s) <= pfsn_next_id (mod_step (inner s) o) /\
            forall k id, was_handed s k id -> forall r, r ∈ pfsn_reqs (mod_step (inner s) o) -> q_id r = id -> q_delivered r = true).
  { destruct o as [mem now junk t nb info sa|resid|id|mem cmd arg|v| |]; cbn [mod_step].
    - destruct (connect_queues mem now junk t nb info sa (inner s)) as (_ & _ & [[-> Hsub]|(-> & g & x & -> & Hsub & Hx)]).
      + split; [done|]. intros k id Hk r Hin. apply (Hh k id Hk). by eapply elem_of_sublist.
      + pose proof (mo_id _ Hm). unfold wrap64. rewrite Z.mod_small by lia. split; [lia|]. intros k id Hk r [Hin|Hin]%elem_of_app E.
        * apply (Hh k id Hk); [by eapply elem_of_sublist|done].
        * apply list_elem_of_singleton in Hin as ->. destruct (Hh k id Hk). lia.
    - by destruct (Hr resid).
    - split; [done|]. intros k i Hk r Hin E. cbn in Hin. assert (i <> id) as Hne by (intros ->; by apply (Hf id eq_refl k)).
      destruct (Hh k i Hk) as [_ Hd]. revert Hd Hin. generalize (pfsn_reqs (inner s)) as l. clear -E Hne.
      induction l as [|y l IH]; intros Hd Hin; [by apply not_elem_of_nil in Hin|]. cbn in Hin. destruct (Z.eqb_spec (q_id y) id) as [Ey|Ey].
      + apply elem_of_cons in Hin as [->|Hin]; [by cbn in E; congruence|]. apply Hd; [by right|done].
      + apply elem_of_cons in Hin as [->|Hin]; [apply Hd; [by left|done]|]. apply IH; [|done]. intros r' Hr'. apply Hd. by right.
    - rewrite ioctl_next_id. split; [done|]. intros k id Hk r Hin. apply (Hh k id Hk). eapply elem_of_sublist; [exact Hin|apply ioctl_reqs].
    - split; [done|]. intros k id Hk. apply (Hh k id Hk).
    - unfold pfsn_dev_close. destruct (pfsn_upcall_on _); (split; [done|]; intros k id Hk; apply (Hh k id Hk)).
    - split; [done|]. intros k id Hk r Hin. cbn in Hin. by apply not_elem_of_nil in Hin. }
  constructor; cbn [inner op_step gone threads].
  - done.
  - intros k Hk. apply wakeup_lookup in Hk as (t0 & Hk & Ht). destruct (wakes (inner s) o) eqn:Ew; [by destruct t0|]. subst t0.
    apply unwoken_waits; try done; [by intros ->|by apply (Hsl k)].
  - intros Hgone. destruct (Hg Hgone) as [Hu Hl]. split; [by apply Hun|]. intros k t Hk. apply wakeup_lookup in Hk as (t0 & Hk & ->).
    destruct (wakes _ _); rewrite ?wake_inside; by apply (Hl k).
  - intros k id Hk%op_handed. split; [destruct (Hh k id Hk); lia|]. by apply (proj2 Hreqs k).
  - intros k k' id H1%op_handed H2%op_handed. by eapply Honce.
Qed.

Lemma find_ok k s : readers_ok s -> threads s !! k = Some Runnable -> readers_ok (reader_turn k s).
Proof.
  intros Hs Hk. pose proof Hs as [Hm Hsl Hg Hh Honce]. assert (Hng : gone s = false).
  { destruct (gone s) eqn:E; [|done]. destruct (Hg eq_refl) as [_ Hl]. by apply Hl in Hk. }
  unfold reader_turn. pose proof (read_sleeps (inner s)) as Hrs. destruct (pfsn_read _ (inner s)) as [m out] eqn:Er. cbn [snd] in Hrs.
  destruct out as [| | |ev]; [apply put_reader_ok; [exact Hs|by left|discriminate|by intros]..| |].
  - apply put_reader_ok; [exact Hs|by left| |by intros]. intros _. by apply Hrs.
  - unfold pfsn_read in Er. rewrite Z.ltb_irrefl in Er. destruct (_ || _) eqn:Eo; [done|].
    destruct (deliver_next (pfsn_reqs (inner s))) as [[r rs]|] eqn:Ed; [|done]. injection Er as <- _.
    pose proof (deliver_next_shape _ _ _ Ed) as Hsh. apply deliver_next_some in Ed as (l1 & l2 & El & -> & Hr).
    pose proof Hm as [Hc Hq Hpos]. assert (Hrin : r ∈ pfsn_reqs (inner s)) by (rewrite El; set_solver).
    assert (Hfree : forall k', ~ was_handed s k' (q_id r)).
    { intros k' Hk'. destruct (Hh k' _ Hk') as [_ Hd]. rewrite (Hd r Hrin eq_refl) in Hr. done. }
    assert (Hids : NoDup (q_id <$> l1 ++ r :: l2)) by (rewrite <- El; apply (qo_ids _ Hq)).
    constructor; cbn [inner put_reader threads gone].
    + constructor; [by eapply vcache_ok_same|by apply queue_ok_shape|done].
    + intros k' [[_ ?]|[_ Hk']]%lookup_insert_Some; [done|]. destruct (Hsl k' Hk') as (_ & _ & Hd). rewrite Forall_forall in Hd.
      rewrite (Hd r Hrin) in Hr. done.
    + congruence.
    + intros k' id [[-> Hi]|[_ Hi]]%put_handed.
      * cbn in Hi. subst id. split; [pose proof (qo_next _ Hq) as Hn; rewrite Forall_forall in Hn; by apply Hn|].
        intros x Hx E. cbn in Hx. rewrite fmap_app in Hids. cbn in Hids. apply NoDup_app in Hids as (_ & Hd & Hn).
        apply NoDup_cons in Hn as [Hn _]. apply elem_of_app in Hx as [Hx|Hx].
        -- exfalso. apply (Hd (q_id x)); [by apply list_elem_of_fmap_2|]. rewrite E. by left.
        -- apply elem_of_cons in Hx as [->|Hx]; [done|]. exfalso. apply Hn. rewrite <- E. by apply list_elem_of_fmap_2.
      * change (was_handed s k' id) in Hi. destruct (Hh k' id Hi) as [Hlt Hd]. split; [done|]. intros x Hx E. cbn in Hx. apply elem_of_app in Hx as [Hx|Hx].
        -- apply Hd; [rewrite El; set_solver|done].
        -- apply elem_of_cons in Hx as [->|Hx]; [done|]. apply Hd; [rewrite El; set_solver|done].
    + intros k1 k2 id [[-> H1]|[N1 H1]]%put_handed [[-> H2]|[N2 H2]]%put_handed; try done.
      * cbn in H1. subst id. by destruct (Hfree k2).
      * cbn in H2. subst id. by destruct (Hfree k1).
      * by eapply Honce.
Qed.

Lemma readers_step_ok s a s' : readers_ok s -> act_ok s a -> readers_step s a = Some s' -> readers_ok s'.
Proof.
  intros Hs [Hid Ha] Hst. pose proof Hs as [Hm Hsl Hg Hh Honce].
  assert (Hin : forall k t, threads s !! k = Some t -> inside t = true -> gone s = false).
  { intros k t Hk Ht. destruct (gone s) eqn:E; [|done]. destruct (Hg eq_refl) as [_ Hl]. apply Hl in Hk. congruence. }
  destruct a as [k resid|k|k fault|k|o| |]; cbn [readers_step] in Hst.
  - destruct (gone s) eqn:E; [done|]. destruct (threads s !! k); [done|]. injection Hst as <-.
    apply put_reader_ok; [done|by left|by destruct (_ <? _)|by destruct (_ <? _)].
  - destruct (threads s !! k) as [[]|] eqn:E; try discriminate Hst. injection Hst as <-. by apply find_ok.
  - destruct (threads s !! k) as [[| |id ev|]|] eqn:E; try done. destruct fault; injection Hst as <-.
    + assert (Hk : was_handed s k id) by (by eexists).
      (* the thread lets go of the event before the queue is looked at *)
      assert (Heq : put_reader k (Left_ (Errno EFAULT)) (op_step (OpReadFault id) s) = op_step (OpReadFault id) (put_reader k (Left_ (Errno EFAULT)) s)).
      { unfold put_reader, op_step. cbn [inner threads gone]. f_equal. unfold wakeup. destruct (wakes _ _); [|done]. by rewrite fmap_insert. }
      rewrite Heq. apply op_step_ok; [apply put_reader_ok; [done|by right|done|done]|done|done|done|].
      intros i [= <-] k' [[-> Hi]|[Hne Hi]]%put_handed; [done|]. apply Hne. by eapply Honce.
    + apply put_reader_ok; [done|by right|done|]. intros i Hi. cbn in Hi. subst i. by eexists.
  - destruct (threads s !! k) as [[]|]; try done. injection Hst as <-. apply put_reader_ok; [done|by right|done|done].
  - destruct o; try done; injection Hst as <-; by apply op_step_ok.
  - destruct (pfsn_unloading (inner s)); [done|]. injection Hst as <-. by apply op_step_ok.
  - destruct (_ && _) eqn:E; [|done]. injection Hst as <-. apply andb_true_iff in E as [Hu Hl%bool_decide_eq_true].
    constructor; cbn [inner threads gone]; try done.
Qed.

(** A reader that takes the mutex takes the oldest question that nobody was handed. *)
Lemma takes_oldest k s l1 r l2 :
  pfsn_unloading (inner s) = false -> pfsn_upcall_on (inner s) = true -> pfsn_reqs (inner s) = l1 ++ r :: l2 ->
  Forall (fun x => q_delivered x = true) l1 -> q_delivered r = false ->
  threads (reader_turn k s) !! k = Some (Copying (q_id r) (pfsn_event r)).
Proof.
  intros Hu Ho E Hl Hr. unfold reader_turn, pfsn_read. rewrite Z.ltb_irrefl, Hu, Ho. cbn [orb negb].
  rewrite E, (deliver_next_oldest l1 r l2 Hl Hr). cbn [put_reader threads]. by rewrite lookup_insert_eq.
Qed.

Lemma readers_inv s : readers_reachable s -> readers_ok s.
Proof.
  induction 1 as [m Hm Hu|s a s' _ IH Ha Hs]; [|by eapply readers_step_ok]. constructor; cbn [inner threads gone]; try done.
  - by intros k id (t & Hk & _).
  - by intros k k' id (t & Hk & _).
Qed.

Lemma readers_step_id s a s' :
  readers_ok s -> act_ok s a -> readers_step s a = Some s' -> pfsn_next_id (inner s') <= pfsn_next_id (inner s) + 1.
Proof.
  intros Hs [Hid Ha] Hst. pose proof (ro_module _ Hs) as Hm.
  assert (Hop : forall o, op_ok o -> pfsn_next_id (mod_step (inner s) o) <= pfsn_next_id (inner s) + 1)
    by (intros o Ho; by apply mod_step_ok).
  destruct a as [k resid|k|k fault|k|o| |]; cbn [readers_step] in Hst; repeat case_match; try done; injection Hst as <-;
    try (cbn; lia); try (by apply Hop).
  unfold reader_turn. pose proof (Hop (OpRead (Z.of_nat (csize header_event))) I) as Hr. cbn [mod_step] in Hr.
  destruct (pfsn_read _ _) as [m out]. destruct out; cbn [put_reader inner fst] in *; lia.
Qed.

Lemma readers_run_reachable acts : forall s s',
  readers_reachable s -> Forall (fun a => match a with Op o => op_ok o | _ => True end) acts ->
  pfsn_next_id (inner s) + Z.of_nat (length acts) < 2 ^ 64 -> readers_run s acts = Some s' -> readers_reachable s'.
Proof.
  induction acts as [|a acts IH]; intros s s' Hs Ha Hid Hrun; cbn [readers_run] in Hrun; [by injection Hrun as <-|].
  destruct (readers_step s a) as [s1|] eqn:E; [|done]. cbn [length] in Hid. inversion_clear Ha.
  assert (act_ok s a) as Hok by (split; [lia|done]). pose proof (readers_step_id s a s1 (readers_inv s Hs) Hok E).
  apply (IH s1); [by eapply readers_more|done|lia|done].
Qed.
End readers.

(** C17. No reader sleeps through what it waits for.  However readers, connects, ioctls,
    faults, signals, the last close and the unloading of the module interleave, a reader is
    asleep only while there is nothing for it: the module asks, it is not being unloaded, and
    every question in the queue was handed out.  So while a question waits every reader that
    is inside is on its way, and the first to take the mutex is handed the oldest one.  No
    two reads return the event of one question, also when a copy faults and the question is
    handed out again.  And once the device is destroyed, with the mutex, no reader is left to
    take it. *)
Theorem no_lost_wakeup `{Pcbs} s :
  readers_reachable s ->
  (forall k, threads s !! k = Some Asleep ->
     pfsn_unloading (inner s) = false /\ pfsn_upcall_on (inner s) = true /\ Forall (fun r => q_delivered r = true) (pfsn_reqs (inner s)))
  /\ (forall k l1 r l2, threads s !! k = Some Runnable ->
        pfsn_unloading (inner s) = false -> pfsn_upcall_on (inner s) = true -> pfsn_reqs (inner s) = l1 ++ r :: l2 ->
        Forall (fun x => q_delivered x = true) l1 -> q_delivered r = false ->
        exists s', readers_step s (Run_ k) = Some s' /\ threads s' !! k = Some (Copying (q_id r) (pfsn_event r)))
  /\ (forall k k' id ev ev', threads s !! k = Some (Left_ (Event_ id ev)) -> threads s !! k' = Some (Left_ (Event_ id ev')) -> k = k')
  /\ (gone s = true -> forall k t, threads s !! k = Some t -> inside t = false).
Proof.
  intros Hr. destruct (readers_inv s Hr) as [_ Hsl Hg _ Ho]. split; [exact Hsl|]. split; [|split].
  - intros k l1 r l2 Hk Hu Hon E Hl Hd. exists (reader_turn k s). split; [cbn; by rewrite Hk|by eapply takes_oldest].
  - intros k k' id ev ev' Hk Hk'. apply (Ho k k' id); by eexists.
  - intros Hgone. by destruct (Hg Hgone).
Qed.

(** ** Unloading *)

Definition leave (k : nat) (t : reader) : list act_ :=
  match t with Runnable => [Run_ k] | Copying _ _ => [Copied k false] | _ => [] end.

(** The step of a reader that goes on by itself: it takes the mutex, or its copy is done. *)
Definition comes_out (a : act_) : Prop := match a with Run_ _ | Copied _ false => True | _ => False end.

Definition left_by (t : reader) : reader :=
  match t with Runnable | Asleep => Left_ EndOfFile | Copying id ev => Left_ (Event_ id ev) | Left_ r => Left_ r end.

Lemma leaves `{Pcbs} ks s :
  NoDup ks -> pfsn_unloading (inner s) = true -> (forall k, k ∈ ks -> exists t, threads s !! k = Some t /\ t <> Asleep) ->
  exists acts s', readers_run s acts = Some s' /\ (length acts <= length ks)%nat /\ inner s' = inner s /\ gone s' = gone s
    /\ Forall comes_out acts
    /\ (forall k, threads s' !! k = if bool_decide (k ∈ ks) then left_by <$> threads s !! k else threads s !! k).
Proof.
  revert s. induction ks as [|k ks IH]; intros s Hnd Hu Hks.
  - exists [], s. split_and!; try done; try constructor.
  - apply NoDup_cons in Hnd as [Hk Hnd]. destruct (Hks k ltac:(by left)) as (t & Ht & Hna).
    assert (exists acts s1, readers_run s acts = Some s1 /\ (length acts <= 1)%nat /\ inner s1 = inner s /\ gone s1 = gone s
      /\ Forall comes_out acts
      /\ threads s1 = <[k := left_by t]> (threads s)) as (a1 & s1 & H1 & Hl1 & Ei & Eg & Hf1 & Et).
    { exists (leave k t). destruct t as [| |id ev|r]; cbn [leave readers_run readers_step]; try done.
      - rewrite Ht. unfold reader_turn, pfsn_read. rewrite Z.ltb_irrefl, Hu. cbn [orb]. eexists. split_and!; try done. by repeat constructor.
      - rewrite Ht. eexists. split_and!; try done. by repeat constructor.
      - exists s. split; [done|]. split; [cbn; lia|]. split; [done|]. split; [done|]. split; [by constructor|]. symmetry. exact (insert_id _ _ _ Ht). }
    destruct (IH s1 Hnd ltac:(by rewrite Ei)) as (a2 & s2 & H2 & Hl2 & Ei2 & Eg2 & Hf2 & Et2).
    { intros k' Hk'. rewrite Et. assert (k' <> k) by (by intros ->). rewrite lookup_insert_ne by done. apply Hks. by right. }
    exists (a1 ++ a2), s2. split_and!; [| |congruence|congruence|by apply Forall_app|].
    + clear -H1 H2. revert s H1. induction a1 as [|a a1 IHa]; intros s H1; cbn in *; [by injection H1 as <-|].
      destruct (readers_step s a); [by apply IHa|done].
    + rewrite length_app. cbn. lia.
    + intros k'. rewrite Et2, Et. destruct (decide (k' = k)) as [->|Hne].
      * rewrite bool_decide_eq_false_2 by done. rewrite bool_decide_eq_true_2 by by left. by rewrite lookup_insert_eq, Ht.
      * rewrite !lookup_insert_ne by done. repeat case_bool_decide; set_solver.
Qed.

(** C18. Unloading is not held up by readers.  From whatever state the device is in, with any
    number of readers inside - asleep, about to look, or copying an event out - once the
    module has said that it goes, one step of each reader that is inside brings it out, with
    an end of file or the event it was handed, and then the device can be destroyed. *)
Theorem unload_completes `{Pcbs} s :
  pfsn_unloading (inner s) = false ->
  exists acts s', (length acts <= size (threads s))%nat
    /\ Forall comes_out acts
    /\ readers_run s (Unload :: acts ++ [DestroyDev]) = Some s'
    /\ gone s' = true /\ pfsn_reqs (inner s') = []
    /\ threads s' = left_by <$> threads s.
Proof.
  intros Hu. set (s1 := op_step OpUnload s). set (ks := (map_to_list (threads s1)).*1).
  assert (Hsz : length ks = size (threads s)).
  { unfold ks. rewrite length_fmap, length_map_to_list. cbn. unfold wakeup. by rewrite map_size_fmap. }
  destruct (leaves ks s1) as (acts & s2 & Hrun & Hl & Ei & Eg & Hf & Et).
  { apply NoDup_fst_map_to_list. }
  { done. }
  { intros k (kt & -> & Hk)%list_elem_of_fmap. destruct kt as [k' t]. apply elem_of_map_to_list in Hk. exists t. split; [done|]. cbn in *.
    apply lookup_fmap_Some in Hk as (t0 & <- & _). by destruct t0. }
  assert (Hth : threads s2 = left_by <$> threads s).
  { apply map_eq. intros k. rewrite Et, lookup_fmap. cbn [s1 op_step threads wakes]. unfold wakeup. rewrite lookup_fmap.
    destruct (threads s !! k) as [t|] eqn:E; cbn [fmap option_fmap option_map]; [|by case_bool_decide].
    rewrite bool_decide_eq_true_2; [by destruct t|]. apply list_elem_of_fmap. exists (k, wake t). split; [done|].
    apply elem_of_map_to_list. cbn. unfold wakeup. by rewrite lookup_fmap, E. }
  exists acts, (mk_readers (inner s2) (threads s2) true). split; [by rewrite <- Hsz|]. split; [done|]. split; [|split; [done|split; [by rewrite Ei|done]]].
  cbn [readers_run readers_step]. rewrite Hu. cbn [mbind option_bind]. fold s1.
  assert (Hlast : readers_step s2 DestroyDev = Some (mk_readers (inner s2) (threads s2) true)).
  { cbn. rewrite Ei. cbn. rewrite bool_decide_eq_true_2; [done|]. rewrite Hth. intros k t Hk. apply lookup_fmap_Some in Hk as (t0 & <- & _). by destruct t0. }
  clear -Hrun Hlast. revert Hrun. generalize s1. induction acts as [|a acts IH]; intros s0 Hrun; cbn in *.
  - injection Hrun as ->. cbn in Hlast. by rewrite Hlast.
  - destruct (readers_step s0 a) as [x|]; [by apply IH|done].
Qed.

(** ** Two readers, two questions and the unloading *)

#[local] Instance no_pcb : Pcbs := fun _ _ _ _ _ _ _ => None.

Definition asking : Readers := mk_readers (set_on true (pfsn_init 0)) ∅ false.

(** A process's datagram to port 443 of 5.6.7.[d]. *)
Definition asks (d : Z) : act_ :=
  Op (OpConnect true 10 (replicate 12 0) SOCK_DGRAM false (Some (mk_info 300 1001 [99] [47; 99])) (Some (SaIn 47873 [5; 6; 7; d]))).

(** Two readers sleep when the first question comes; the copy of reader 1 faults and reader 2
    gets the event; reader 0 copies the second one's; 3 sleeps, 5 has not looked. *)
Definition some_acts : list act_ :=
  [Enter 0 1064; Run_ 0; Enter 1 1064; Run_ 1; asks 8; Run_ 1; Run_ 0; Copied 1 true; Enter 2 1064; Run_ 2; Copied 2 false;
   Enter 3 1064; Run_ 3; asks 9; Run_ 0; Run_ 3; Enter 4 4; Enter 5 1064].

Lemma asking_reachable : readers_reachable asking.
Proof.
  apply readers_start; [|done]. destruct (init_ok 0) as [Hc Hq Hi]. constructor; [by eapply vcache_ok_same|by eapply queue_ok_same|done].
Qed.

Lemma some_acts_ok : Forall (fun a => match a with Op o => op_ok o | _ => True end) some_acts.
Proof. repeat constructor; by vm_compute. Qed.

Definition at_work : Readers := default asking (readers_run asking some_acts).

Lemma at_work_run : readers_run asking some_acts = Some at_work.
Proof. unfold at_work. destruct (readers_run asking some_acts) eqn:E; [done|]. vm_compute in E. discriminate E. Qed.

Lemma at_work_reachable : readers_reachable at_work.
Proof. exact (readers_run_reachable some_acts asking at_work asking_reachable some_acts_ok ltac:(by vm_compute) at_work_run). Qed.

Lemma no_lost_wakeup_witness :
  threads at_work !! 3%nat = Some Asleep /\ Forall (fun r => q_delivered r = true) (pfsn_reqs (inner at_work))
  /\ length (pfsn_reqs (inner at_work)) = 2%nat.
Proof.
  assert (threads at_work !! 3%nat = Some Asleep) as H3 by (by vm_compute).
  split; [exact H3|]. split; [|by vm_compute]. exact (proj2 (proj2 (proj1 (no_lost_wakeup at_work at_work_reachable) 3%nat H3))).
Defined.

Lemma unload_completes_witness :
  exists acts s', (length acts <= 6)%nat /\ readers_run at_work (Unload :: acts ++ [DestroyDev]) = Some s'
    /\ gone s' = true /\ threads s' !! 3%nat = Some (Left_ EndOfFile).
Proof.
  destruct (unload_completes at_work ltac:(by vm_compute)) as (acts & s' & Hl & _ & Hrun & Hg & _ & Ht).
  exists acts, s'. assert (size (threads at_work) = 6%nat) as Hs by (by vm_compute). rewrite Hs in Hl.
  assert (threads at_work !! 3%nat = Some Asleep) as H3 by (by vm_compute).
  split; [exact Hl|]. split; [exact Hrun|]. split; [exact Hg|]. rewrite Ht, lookup_fmap, H3. reflexivity.
Defined.
