(* ===== verification/ModuleSystem.v ===== *)
(** The daemon's loop, the module and everything else on the machine as one transition
    system: handlers of Daemon.v, each with its effects, interleaved with connects, reads
    and ioctls of others. *)
From S2P Require Import Prelude Unicode RustStr IpAddr Policy PolicyFile PolicyRecord Packet Dns Procinfo Abi KernAttr Seen Daemon DaemonSpec DaemonLoop KernModule ModuleSpec ModuleLink ModuleDaemon ModuleFollows.

(** ** The system *)

(** What others do to the module while the daemon runs: sockets connect, the reader
    thread reads, other tools make ioctls but the one that throws the switch, and the last
    descriptor is closed only when the daemon has none. *)
Definition by_others (w : World) (o : mod_op) : Prop :=
  match o with
  | OpConnect _ _ _ _ _ _ _ | OpRead _ | OpReadFault _ | OpFailmode _ => True
  | OpIoctl _ cmd _ => cmd <> upcall_set_cmd
  | OpClose => kern (dm w) = None
  | OpUnload => False
  end.

(** The daemon's world and its open prompts (DaemonLoop.v), and the module. *)
Abbreviation System := (State * Module_)%type.

Section system.
Context `{Pcbs} (fallback : Mode).

(** A handler ran: its new effects are carried out. *)
Definition carried_out (mem : bool) (w w' : World) (m : Module_) : Module_ :=
  module_effects mem (drop (length (eff w)) (eff w')) m.

Inductive sys_step : System -> System -> Prop :=
| sys_answer env mem ans p w open rest m :
    device_answers env -> open ≡ₚ p :: rest ->
    sys_step ((w, open), m) ((handle_answer env ans p w, rest), carried_out mem w (handle_answer env ans p w) m)
| sys_upcall env mem ev w open m :
    device_answers env ->
    sys_step ((w, open), m)
      ((handle_upcall env ev w, open ++ raised w (handle_upcall env ev w)), carried_out mem w (handle_upcall env ev w) m)
| sys_tick env mem w open m :
    device_answers env ->
    sys_step ((w, open), m) ((handle_tick env fallback w, open), carried_out mem w (handle_tick env fallback w) m)
| sys_packet env mem pkt a w open m :
    device_answers env ->
    sys_step ((w, open), m)
      ((handle_packet env pkt a w, open ++ raised w (handle_packet env pkt a w)),
       carried_out mem w (handle_packet env pkt a w) m)
| sys_edit fs w open m : sys_step ((w, open), m) ((set_fs fs w, open), m)
| sys_module o w open m :
    by_others w o -> op_ok o -> pfsn_next_id m + 1 < 2 ^ 64 ->
    sys_step ((w, open), m) ((w, open), mod_step m o).

(** The daemon starts on a module whose upcalls are off, as every close leaves it. *)
Inductive sys_reachable : System -> Prop :=
| sys_start env mem prompt_env fs m :
    device_answers env -> module_ok m -> pfsn_upcall_on m = false -> pfsn_unloading m = false ->
    sys_reachable ((start env fallback prompt_env fs, []), module_effects mem (eff (start env fallback prompt_env fs)) m)
| sys_more s s' : sys_reachable s -> sys_step s s' -> sys_reachable s'.

(** Seen from the daemon, the system is the loop of DaemonLoop.v. *)
Lemma sys_daemon s : sys_reachable s -> reachable fallback s.1.
Proof.
  induction 1 as [|s s' Hs IH Hstep]; [constructor|].
  destruct Hstep; cbn [fst] in *; [..|done]; (eapply reach_step; [exact IH|]); by constructor.
Qed.

Record sys_inv (s : System) : Prop := mk_sys_inv {
  si_module : module_ok s.2;
  si_fit : fit s.1.1;
  si_switch : pfsn_upcall_on s.2 = upcall_on (dm s.1.1);
  si_loaded : pfsn_unloading s.2 = false
}.

Lemma carried_inv mem w w' open open' m :
  follows w w' -> sys_inv ((w, open), m) -> sys_inv ((w', open'), carried_out mem w w' m).
Proof.
  intros Hf [Hm Hw Hs Hu]. cbn in *. destruct (Hf Hw) as (Hw' & es & He & Hz & _ & Hon). unfold carried_out.
  rewrite He, drop_app_length. destruct (module_effects_ok mem es m Hz Hm) as (Hm' & Hsw & Hun).
  constructor; cbn; [done|done| |congruence]. by rewrite Hsw, Hs.
Qed.

Lemma others_inv o w open m :
  by_others w o -> op_ok o -> pfsn_next_id m + 1 < 2 ^ 64 ->
  sys_inv ((w, open), m) -> sys_inv ((w, open), mod_step m o).
Proof.
  intros Ho Hok Hid [Hm Hw Hs Hu]. cbn in *. destruct (mod_step_ok m o Hm Hok Hid) as [Hm' _].
  assert (pfsn_upcall_on (mod_step m o) = pfsn_upcall_on m /\ pfsn_unloading (mod_step m o) = pfsn_unloading m) as [E1 E2].
  2: { constructor; cbn; [done|done|congruence|congruence]. }
  destruct o as [mem now junk t nb info sa|resid|id|mem cmd arg|v| |]; try done; cbn [mod_step].
  - unfold pfsn_socket_check_connect. repeat case_match; try done; apply upcall_switch.
  - unfold pfsn_read. by repeat case_match.
  - destruct (ioctl_switch mem cmd arg m) as [-> ->]. cbn [setting].
    by destruct (Z.eqb_spec cmd upcall_set_cmd).
  - unfold pfsn_dev_close. destruct (pfsn_upcall_on m) eqn:E; [|done]. cbn in Ho.
    destruct (f_on w Hw (eq_sym Hs)) as [k Hk]. congruence.
Qed.

Lemma sys_reachable_inv s : sys_reachable s -> sys_inv s.
Proof.
  induction 1 as [env mem prompt_env fs m dev Hm Hon Hun|s s' Hs IH Hstep].
  - destruct (start_fits env dev fallback prompt_env fs) as (Hf & Hn & Hu).
    destruct (module_effects_ok mem _ m (neutral_sized _ Hn) Hm) as (Hm' & Hsw & Hun').
    constructor; cbn; [done|done| |by rewrite Hun']. by rewrite Hsw, neutral_switched, Hu.
  - destruct Hstep as [env mem ans p w open rest m dev Hp|env mem ev w open m dev|env mem w open m dev
                      |env mem pkt a w open m dev|fs w open m|o w open m Ho Hok Hid].
    + eapply carried_inv; [by apply answer_follows|exact IH].
    + eapply carried_inv; [by apply handle_upcall_follows|exact IH].
    + eapply carried_inv; [by apply tick_follows|exact IH].
    + eapply carried_inv; [by apply packet_follows|exact IH].
    + by destruct IH as [? [? ?] ? ?].
    + by apply others_inv.
Qed.
End system.

(** A question for which there is room is in the queue afterwards. *)
Lemma upcall_outcome mem now af proto faddr fport info nb m :
  queue_ok m -> lacks 0 (i_path info) -> i_path info <> [] -> (length (i_path info) < 1024)%nat ->
  pfsn_unloading m = false ->
  let '(m', r) := pfsn_upcall mem now af proto faddr fport info nb m in
  (r = EAGAIN /\ key_of af proto faddr fport (i_path info ++ [0]) ∈ req_key <$> pfsn_reqs m')
  \/ (r = pfsn_failverdict m /\ (mem = false \/ pfsn_nreq m = 2048)).
Proof.
  intros Hq Hl Hne Hlen Hu. unfold pfsn_upcall. rewrite strnlen_fits, Hu by done.
  destruct (existsb _ _) eqn:Ex.
  - left. split; [done|]. apply existsb_exists in Ex as (r & Hr & Hs). apply list_elem_of_In in Hr.
    apply list_elem_of_fmap. exists r. split; [|done]. symmetry. by apply same_question_key.
  - destruct (Z.leb_spec PFSN_REQ_MAX (pfsn_nreq m)) as [Hfull|].
    + right. split; [done|]. right. pose proof (qo_max m Hq) as Hmax. unfold PFSN_REQ_MAX in *. lia.
    + cbv zeta. destruct mem; cbn [negb]; [|right; by split; [|left]].
      left. split; [done|]. apply list_elem_of_fmap. eexists. split; [|apply elem_of_app; right; apply elem_of_cons; by left].
      reflexivity.
Qed.

(** Unconnected UDP is governed at every moment, by one side or the other.  In every
    state that the daemon, the module, the programs that connect and the tools that query
    can reach together, pf diverts UDP to the daemon exactly when the module's upcalls are
    off, and they are on only while the daemon enforces with a live handle; and a datagram
    from a program the module knows, to anything but loopback and port 53, is let through
    by the hook only on a cached allow, or because pf diverts it, or - the queue full or
    memory refused - because the administrator chose to fail open; it is refused only on a
    cached deny or by failing closed; otherwise its question is in the queue and the sender
    is told to try again. *)
Theorem udp_governed `{Pcbs} fallback w open m :
  sys_reachable fallback ((w, open), m) ->
  module_ok m
  /\ diverted (eff w) = negb (pfsn_upcall_on m)
  /\ (pfsn_upcall_on m = true ->
      mode (dm w) = Enforcement /\ exists k, kern (dm w) = Some k /\ dead k = false)
  /\ forall mem now junk nb info dst dport,
       lacks 0 (i_path info) -> i_path info <> [] -> (length (i_path info) < 1024)%nat ->
       dst_loopback dst = false -> 0 <= dport < 65536 -> dport <> 53 ->
       let key := flow_vkey 17 dst dport (i_path info) in
       let '(m', r) := connect_by mem now junk nb 17 info dst dport m in
       match cache_map m !! key with
       | Some v => m' = m /\ (v = 1 /\ r = 0 \/ v = 2 /\ r = EPERM)
       | None =>
           if diverted (eff w) then m' = m /\ r = 0
           else (r = EAGAIN /\ key ∈ req_key <$> pfsn_reqs m')
                \/ (r = pfsn_failverdict m /\ (mem = false \/ pfsn_nreq m = 2048))
       end.
Proof.
  intros Hr. destruct (sys_reachable_inv fallback _ Hr) as [Hm [Hl Ho] Hs Hu].
  destruct (inv_reachable fallback _ (sys_daemon fallback _ Hr)) as [Hd Hup _ _ _ _].
  cbn [fst snd] in Hm, Hl, Ho, Hs, Hu, Hd, Hup.
  split; [done|]. split; [by rewrite Hs|]. split.
  { rewrite Hs. intros Hon. destruct (Hup Hon) as [[k Hk] He]. split; [done|]. exists k. auto. }
  intros mem now junk nb info dst dport Hp Hne Hlen Hlo Hport H53. cbv zeta.
  set (key := flow_vkey 17 dst dport (i_path info)).
  rewrite connect_eq by (auto; by apply mo_cache). fold key. rewrite ntohs_raw_port by done.
  rewrite Hs, Hd. apply Z.eqb_neq in H53. rewrite H53.
  destruct (cache_map m !! key) as [v|] eqn:E.
  { destruct (cached_verdict m key v (mo_cache m Hm) E) as [-> | ->]; auto. }
  destruct (upcall_on (dm w)); cbn [negb andb Z.eqb Pos.eqb]; [|done].
  set (pad := match dst with V4 _ => junk | V6 _ => [] end).
  pose proof (upcall_outcome mem now (family dst) 17 (octets dst ++ pad) (raw_port dport) info nb m
                (mo_queue m Hm) Hp Hne Hlen Hu) as Hout.
  destruct (pfsn_upcall _ _ _ _ _ _ _ _ _) as [m' r]. by rewrite flow_key_of in Hout.
Qed.
