(* ===== verification/Threads.v ===== *)
(** The daemon's threads (main.rs): the main loop, the threads that wait for a prompt, the
    threads that read upcalls, the two channels they answer through, the signal that ends
    it all; beside them the module and the programs that connect.

    A step of the main thread is one turn of a drain, one handler, or one of the effects a
    handler left, carried out alone: connects and the other threads run between any two.
    pfctl is taken to succeed.  The handlers are those of Daemon.v, the module that of
    KernModule.v. *)
From S2P Require Import Prelude Unicode RustStr IpAddr Policy PolicyFile PolicyRecord Packet Dns Procinfo Abi KernAttr Handles Seen Daemon DaemonSpec DaemonLoop KernModule ModuleSpec ModuleLink ModuleDaemon ModuleFollows.

#[local] Arguments record : simpl never.
#[local] Arguments load : simpl never.
#[local] Arguments flush : simpl never.
#[local] Arguments POLICY_PATH : simpl never.
#[local] Arguments seen_new : simpl never.
#[local] Arguments prompt_bin : simpl never.

(** ** State *)

(** Where the main thread is: the top of the loop, the two drains, the tick, the receive;
    on its way out; or the process is gone, by [exit] or otherwise. *)
Inductive place : Type := AtTop | AtAnswers | AtUpcalls | AtTick | AtReceive | Leaving | Exited | Killed.

#[export] Instance place_eq_dec : EqDecision place.
Proof. solve_decision. Defined.

Record Threads : Type := mk_threads {
  main_at : place;
  world : World;
  todo : list effect;                 (* what the last handler left to do *)
  prompting : list Pending;           (* prompt threads, each waiting for its program *)
  rx : list (Answer * Pending);
  readers : nat;
  urx : list KernEvent;
  diverting : bool;                   (* pf diverts UDP *)
  shutdown : bool;                    (* SHUTDOWN *)
  kmod : Module_
}.

Definition alive (s : Threads) : bool := bool_decide (main_at s <> Exited /\ main_at s <> Killed).

Definition go (p : place) (s : Threads) : Threads :=
  mk_threads p (world s) (todo s) (prompting s) (rx s) (readers s) (urx s) (diverting s) (shutdown s) (kmod s).
Definition set_world (w : World) (s : Threads) : Threads :=
  mk_threads (main_at s) w (todo s) (prompting s) (rx s) (readers s) (urx s) (diverting s) (shutdown s) (kmod s).
Definition set_todo (es : list effect) (s : Threads) : Threads :=
  mk_threads (main_at s) (world s) es (prompting s) (rx s) (readers s) (urx s) (diverting s) (shutdown s) (kmod s).
Definition set_prompting (ps : list Pending) (s : Threads) : Threads :=
  mk_threads (main_at s) (world s) (todo s) ps (rx s) (readers s) (urx s) (diverting s) (shutdown s) (kmod s).
Definition set_rx (l : list (Answer * Pending)) (s : Threads) : Threads :=
  mk_threads (main_at s) (world s) (todo s) (prompting s) l (readers s) (urx s) (diverting s) (shutdown s) (kmod s).
Definition set_readers (n : nat) (s : Threads) : Threads :=
  mk_threads (main_at s) (world s) (todo s) (prompting s) (rx s) n (urx s) (diverting s) (shutdown s) (kmod s).
Definition set_urx (l : list KernEvent) (s : Threads) : Threads :=
  mk_threads (main_at s) (world s) (todo s) (prompting s) (rx s) (readers s) l (diverting s) (shutdown s) (kmod s).
Definition set_diverting (b : bool) (s : Threads) : Threads :=
  mk_threads (main_at s) (world s) (todo s) (prompting s) (rx s) (readers s) (urx s) b (shutdown s) (kmod s).
Definition set_shutdown (s : Threads) : Threads :=
  mk_threads (main_at s) (world s) (todo s) (prompting s) (rx s) (readers s) (urx s) (diverting s) true (kmod s).
Definition set_kmod (m : Module_) (s : Threads) : Threads :=
  mk_threads (main_at s) (world s) (todo s) (prompting s) (rx s) (readers s) (urx s) (diverting s) (shutdown s) m.

(** The process ends, with its threads, channels and descriptors: the module sees the last
    close of its device. *)
Definition die (p : place) (s : Threads) : Threads :=
  mk_threads p (world s) [] [] [] 0 [] (diverting s) (shutdown s) (pfsn_dev_close (kmod s)).

(** ** Steps *)

Section steps.
Context `{Pcbs} (fallback : Mode).

(** A handler ran; [p] is where the main thread goes on once its effects are carried out. *)
Definition act (p : place) (w' : World) (s : Threads) : Threads :=
  mk_threads p w' (drop (length (eff (world s))) (eff w')) (prompting s) (rx s) (readers s) (urx s) (diverting s)
    (shutdown s) (kmod s).

(** One effect. *)
Definition carry_out (mem : bool) (e : effect) (s : Threads) : Threads :=
  match e with
  | Ioctl cmd b => set_kmod (pfsn_ioctl mem cmd b (kmod s)).1 s
  | Prompt _ p => set_prompting (prompting s ++ [p]) s
  | SpawnReader => set_readers (S (readers s)) s
  | UdpDivert b => set_diverting b s
  | Exit => die Exited s
  | Reinject _ _ | ReinjectInbound _ => s
  end.

(** [loop]: the main thread's next step, [pkt] being what a receive would return. *)
Definition main_step (env : Env) (mem : bool) (pkt : option (list Z * Z)) (s : Threads) : option Threads :=
  if negb (alive s) then None
  else match todo s with
  | e :: es => Some (carry_out mem e (set_todo es s))
  | [] =>
      match main_at s with
      | AtTop => if shutdown s then Some (act Leaving (handle_shutdown env (world s)) s) else Some (go AtAnswers s)
      | AtAnswers =>
          match rx s with
          | (ans, p) :: rest => Some (set_rx rest (act AtAnswers (handle_answer env ans p (world s)) s))
          | [] => Some (go AtUpcalls s)
          end
      | AtUpcalls =>
          match urx s with
          | ev :: rest => Some (set_urx rest (act AtUpcalls (handle_upcall env ev (world s)) s))
          | [] => Some (go AtTick s)
          end
      | AtTick => Some (act AtReceive (handle_tick env fallback (world s)) s)
      | AtReceive =>
          match pkt with
          | Some (b, from) => Some (act AtTop (handle_packet env b from (world s)) s)
          | None => Some (go AtTop s)
          end
      | Leaving | Exited | Killed => None
      end
  end.

(** The [i]-th prompt thread sends its program's answer, and is done. *)
Definition prompt_step (i : nat) (stdout : option (list Z)) (s : Threads) : option Threads :=
  match prompting s !! i with
  | Some p => Some (set_rx (rx s ++ [(prompt_answer stdout, p)]) (set_prompting (delete i (prompting s)) s))
  | None => None
  end.

(** [while let Ok(Some(ev)) = rd.read_event()]: a reader hands an event on, ends, or sleeps. *)
Definition reader_step (s : Threads) : option Threads :=
  match readers s with
  | O => None
  | S n =>
      match pfsn_read (Z.of_nat event_size) (kmod s) with
      | (_, RSleep) => None
      | (m, REvent b) =>
          match read_event (inr b) with
          | Event ev => Some (set_urx (urx s ++ [ev]) (set_kmod m s))
          | _ => Some (set_readers n (set_kmod m s))
          end
      | (m, _) => Some (set_readers n (set_kmod m s))
      end
  end.

(** Who takes the next step. *)
Inductive turn : Type :=
| Main (env : Env) (mem : bool) (pkt : option (list Z * Z))
| PromptThread (i : nat) (stdout : option (list Z))
| ReaderThread
| Signal
| Kill
| Edit (fs : Fs)
| Other (o : mod_op).

Definition thread_step (s : Threads) (t : turn) : option Threads :=
  match t with
  | Main env mem pkt => main_step env mem pkt s
  | PromptThread i stdout => prompt_step i stdout s
  | ReaderThread => reader_step s
  | Signal => if alive s then Some (set_shutdown s) else None
  | Kill => if alive s then Some (die Killed s) else None
  | Edit fs => Some (set_world (set_fs fs (world s)) s)
  | Other o => Some (set_kmod (mod_step (kmod s) o) s)
  end.

(** Everything else on the machine, besides edits of files: programs that connect, with addresses of the size of
    their family, the administrator, and tools that make ioctls other than the switch. *)
Definition addressed (sa : sockaddr) : Prop :=
  match sa with SaIn _ a => length a = 4%nat | SaIn6 _ a => length a = 16%nat | SaOther => True end.
Definition bystander (o : mod_op) : Prop :=
  match o with
  | OpConnect _ _ junk _ _ _ sa => length junk = 12%nat /\ match sa with Some sa => addressed sa | None => True end
  | OpFailmode _ => True
  | OpIoctl _ cmd _ => cmd <> upcall_set_cmd
  | _ => False
  end.

(** The device the daemon calls is this module; fewer than 2^64 questions. *)
Definition turn_ok (s : Threads) (t : turn) : Prop :=
  match t with
  | Main env _ _ => device_answers env
  | Other o => bystander o /\ op_ok o /\ pfsn_next_id (kmod s) + 1 < 2 ^ 64
  | _ => True
  end.

(** The daemon starts on a loaded module that does not ask, UDP diverted. *)
Definition threads_start (env : Env) (prompt_env : option str) (fs : Fs) (m : Module_) : Threads :=
  let w := start env fallback prompt_env fs in mk_threads AtTop w (eff w) [] [] 0 [] true false m.

(** Every request's family and address are such as the hook makes them. *)
Definition readable (r : pfsn_req) : Prop := (q_af r = 4 \/ q_af r = 6) /\ length (q_faddr r) = 16%nat.

Inductive threads_reachable : Threads -> Prop :=
| threads_init env prompt_env fs m :
    device_answers env -> module_ok m -> pfsn_upcall_on m = false -> pfsn_unloading m = false ->
    Forall readable (pfsn_reqs m) -> threads_reachable (threads_start env prompt_env fs m)
| threads_more s t s' :
    threads_reachable s -> turn_ok s t -> thread_step s t = Some s' -> threads_reachable s'.

(** Turns one after another, each possible. *)
Fixpoint run_turns (s : Threads) (ts : list turn) : option Threads :=
  match ts with [] => Some s | t :: ts' => s' ← thread_step s t; run_turns s' ts' end.
End steps.

(** ** What handlers add *)

(** Whether pf diverts UDP after these effects, from [b]. *)
Definition diverted_from (b : bool) (es : list effect) : bool :=
  foldl (fun b e => match e with UdpDivert x => x | _ => b end) b es.

Lemma diverted_split es es' : diverted (es ++ es') = diverted_from (diverted es) es'.
Proof. apply foldl_app. Qed.

Lemma answer_adds env ans p w :
  exists es, eff (handle_answer env ans p w) = eff w ++ es /\ Forall is_ioctl es.
Proof.
  destruct (handle_answer_ruled env ans p w). destruct (release_spec env ans p w) as (k & es & Hw & _ & Hes).
  exists es. split; [|done]. by rewrite r_eff, Hw.
Qed.

Lemma answer_raises env ans p w :
  omap prompt_of (drop (length (eff w)) (eff (handle_answer env ans p w))) = [].
Proof. destruct (answer_adds env ans p w) as (es & -> & Hes). rewrite drop_app_length. by apply ioctl_no_prompt. Qed.

Lemma start_ioctls env fallback prompt_env fs : Forall is_ioctl (eff (start env fallback prompt_env fs)).
Proof.
  unfold start. match goal with |- context [kern_backend env ?p] =>
    pose proof (kern_backend_spec env p) as [Hb _]; destruct (kern_backend env p) as [k es] end. exact Hb.
Qed.

Lemma tick_raises env fallback w :
  omap prompt_of (drop (length (eff w)) (eff (handle_tick env fallback w))) = [].
Proof. destruct (tick_adds env fallback w) as (es & -> & Hes). rewrite drop_app_length. by apply admin_no_prompt. Qed.

(** ** What the readers read *)

Lemma strlcpy_length old src : old <> [] -> length (strlcpy old src) = length old.
Proof.
  intros Hne. destruct old as [|x old]; [done|]. unfold strlcpy. cbv zeta.
  rewrite length_app. cbn [length]. rewrite length_drop, length_take. cbn [length]. lia.
Qed.

(** Every event the module delivers is one the daemon's reader accepts. *)
Lemma event_reads r : readable r -> exists ev, read_event (inr (pfsn_event r)) = Event ev.
Proof.
  intros [Haf Hlen]. unfold pfsn_event. change (header_fields header_event) with event_fields.
  match goal with |- context [encode event_fields ?vs] => set (vals := vs) end.
  assert (Hfit : fits event_fields vals).
  { unfold fits, event_fields, vals.
    repeat (constructor; [rewrite ?le_length, ?length_replicate, ?strlcpy_length, ?length_replicate by done; done|]).
    constructor. }
  pose proof (encode_length event_fields vals event_sane Hfit) as Hbl.
  pose proof (field_encode event_fields vals 1 _ event_sane Hfit eq_refl) as H1.
  unfold read_event. destruct (encode event_fields vals) as [|b0 bs] eqn:Eb; [done|].
  rewrite (bool_decide_eq_true_2 _ Hbl). cbn [negb]. rewrite H1.
  destruct Haf as [-> | ->]; rewrite of_le_le by (cbn; lia); by eexists.
Qed.

Lemma readable_shape r r' : shape r' = shape r -> readable r -> readable r'.
Proof. destruct r, r'. unfold shape, mark, readable. cbn. intros [=]. by subst. Qed.

Lemma readable_shapes l l' : shape <$> l' = shape <$> l -> Forall readable l -> Forall readable l'.
Proof.
  revert l'. induction l as [|r l IH]; intros [|r' l'] E Hl; [constructor|discriminate E|discriminate E|].
  assert (shape r' = shape r /\ shape <$> l' = shape <$> l) as [E1 E2]
    by (split; [exact (inj Some _ _ (f_equal head E))|exact (f_equal tail E)]).
  inversion_clear Hl. constructor; [by eapply readable_shape|by apply IH].
Qed.

Lemma readable_sublist l l' : l `sublist_of` l' -> Forall readable l' -> Forall readable l.
Proof. intros Hs. rewrite !Forall_forall. intros Hl x Hx. by eapply Hl, elem_of_sublist. Qed.

Section readable.
Context `{Pcbs}.

(** The hook makes readable requests. *)
Lemma upcall_readable mem now af proto faddr fport info nb m :
  af = 4 \/ af = 6 -> length faddr = 16%nat -> Forall readable (pfsn_reqs m) ->
  Forall readable (pfsn_reqs (pfsn_upcall mem now af proto faddr fport info nb m).1).
Proof.
  intros Haf Hl Hm. assert (Hgc : Forall readable (pfsn_reqs (pfsn_req_gc now m))).
  { eapply readable_sublist; [|exact Hm]. apply sublist_filter. }
  unfold pfsn_upcall. repeat (case_match; [done|]). cbv zeta. destruct mem; [|done].
  cbn [negb fst set_reqs pfsn_reqs]. apply Forall_app. split; [done|]. by apply Forall_singleton.
Qed.

Lemma connect_readable mem now junk t nb info sa m :
  length junk = 12%nat -> match sa with Some sa => addressed sa | None => True end ->
  Forall readable (pfsn_reqs m) ->
  Forall readable (pfsn_reqs (pfsn_socket_check_connect mem now junk t nb info sa m).1).
Proof.
  intros Hj Ha Hm. unfold pfsn_socket_check_connect. destruct sa as [sa|]; [|done].
  destruct (match t with SOCK_STREAM => _ | _ => _ end) as [proto|]; [|done].
  destruct (hook_dest sa junk) as [[[af fport] faddr]|] eqn:Ed; [|done].
  assert ((af = 4 \/ af = 6) /\ length faddr = 16%nat) as [Haf Hf].
  { destruct sa as [port a|port a|]; cbn in Ed, Ha; [| |done]; injection Ed as <- <- <-; [|auto].
    rewrite length_app, Ha, Hj. auto. }
  destruct (hook_loopback _ _); [done|]. destruct info as [info|]; [|done]. case_bool_decide; [done|]. cbv zeta.
  repeat (case_match; [done|]). case_match; [by apply upcall_readable|done].
Qed.

(** The module after something else happened to it. *)
Lemma bystander_kmod o m :
  bystander o -> op_ok o -> pfsn_next_id m + 1 < 2 ^ 64 -> module_ok m -> Forall readable (pfsn_reqs m) ->
  let m' := mod_step m o in
  module_ok m' /\ Forall readable (pfsn_reqs m') /\ pfsn_upcall_on m' = pfsn_upcall_on m
  /\ pfsn_unloading m' = pfsn_unloading m.
Proof.
  intros Hb Ho Hid Hm Hr. cbv zeta. split; [by apply mod_step_ok|].
  destruct o as [mem now junk t nb info sa|resid|id|mem cmd arg|v| |]; try done; cbn [mod_step].
  - destruct Hb as [Hj Ha]. split; [by apply connect_readable|].
    unfold pfsn_socket_check_connect. repeat case_match; try done; apply upcall_switch.
  - destruct (ioctl_switch mem cmd arg m) as [-> ->]. cbn [setting bystander] in Hb |- *.
    split; [eapply readable_sublist; [apply ioctl_reqs|done]|]. by destruct (Z.eqb_spec cmd upcall_set_cmd).
Qed.
End readable.

(** ** The invariant *)

(** Who governs UDP now; a reader counts while the module asks. *)
Definition gov_of (s : Threads) : Gov :=
  mk_gov (pfsn_upcall_on (kmod s)) (diverting s) (pfsn_upcall_on (kmod s) && (0 <? readers s)%nat).

(** More readers do no harm. *)
Definition gov_le (g g' : Gov) : Prop := g_on g' = g_on g /\ g_pf g' = g_pf g /\ (g_rd g = true -> g_rd g' = true).

Lemma gov_step_le g g' e : gov_le g g' -> gov_le (gov_step g e) (gov_step g' e).
Proof.
  destruct g as [on pf rd], g' as [on' pf' rd']. intros (E1 & E2 & Hr). cbn in *. subst.
  unfold gov_step, gov_le. destruct e; cbn; repeat case_match; cbn; auto.
Qed.

Lemma governed_le g g' es : gov_le g g' -> governed g es -> governed g' es.
Proof. intros (E1 & E2 & Hr) [H1 H2]. split; rewrite ?E1, ?E2; [done|]. intros Hon. destruct (H2 Hon); auto. Qed.

Lemma orderly_from_le g g' es : gov_le g g' -> orderly_from g es -> orderly_from g' es.
Proof.
  revert g g'. induction es as [|e es IH]; intros g g' Hle [H1 H2]; (split; [by eapply governed_le|]); [done|].
  by eapply IH; [apply gov_step_le|].
Qed.

(** In flight: the prompts that wait, the answers under way, the prompts about to be raised. *)
Definition in_flight (s : Threads) : list Pending :=
  prompting s ++ (rx s).*2 ++ omap prompt_of (todo s).

Section invariant.
Context `{Pcbs} (fallback : Mode).

(** While the main thread runs its loop, the world is one the loop of DaemonLoop.v reaches,
    with the prompts in flight open. *)
Record looping (s : Threads) : Prop := mk_looping {
  lo_fit : fit (world s);
  lo_switch : switched (pfsn_upcall_on (kmod s)) (todo s) = upcall_on (dm (world s));
  lo_divert : diverted_from (diverting s) (todo s) = diverted (eff (world s));
  lo_sized : Forall sized (todo s);
  lo_order : orderly_from (gov_of s) (todo s);
  lo_open : exists open, reachable fallback (world s, open) /\ open ≡ₚ in_flight s
}.

(** On the way out, what remains is to stop asking, to divert, and to exit. *)
Record leaving (s : Threads) : Prop := mk_leaving {
  le_todo : exists es, todo s = es ++ [Exit] /\ Forall sized es /\ orderly_from (gov_of s) es;
  le_switch : switched (pfsn_upcall_on (kmod s)) (todo s) = false;
  le_divert : diverted_from (diverting s) (todo s) = true
}.

Record tinv (s : Threads) : Prop := mk_tinv {
  ti_module : module_ok (kmod s);
  ti_loaded : pfsn_unloading (kmod s) = false;
  ti_readable : Forall readable (pfsn_reqs (kmod s));
  ti_main : match main_at s with
            | Leaving => leaving s
            | Exited => pfsn_upcall_on (kmod s) = false /\ diverting s = true
            | Killed => pfsn_upcall_on (kmod s) = false
            | _ => looping s
            end
}.

(** The main thread is in its loop. *)
Definition in_loop (s : Threads) : bool := bool_decide (main_at s ∉ [Leaving; Exited; Killed]).

Lemma tinv_looping s : tinv s -> in_loop s = true -> looping s.
Proof. intros [_ _ _ Hm] Hl%bool_decide_eq_true. destruct (main_at s); try done; exfalso; apply Hl; set_solver. Qed.

(** *** The module changes under the main thread's feet *)

Lemma tinv_kmod s m :
  tinv s -> module_ok m -> pfsn_unloading m = false -> Forall readable (pfsn_reqs m) ->
  pfsn_upcall_on m = pfsn_upcall_on (kmod s) -> tinv (set_kmod m s).
Proof.
  intros [_ _ _ Hm] Hok Hun Hr Hon. constructor; [done..|]. cbn [main_at set_kmod].
  assert (Hg : gov_of (set_kmod m s) = gov_of s) by (unfold gov_of; cbn; by rewrite Hon).
  destruct (main_at s); try (by cbn; rewrite Hon);
    destruct Hm; constructor; cbn [kmod todo diverting world set_kmod]; rewrite ?Hon, ?Hg; done.
Qed.

(** *** The handlers *)

(** A handler ran, having received [l] less of the channels. *)
Definition acted (p : place) (w' : World) (l : list (Answer * Pending)) (us : list KernEvent) (s : Threads) : Threads :=
  set_urx us (set_rx l (act p w' s)).

Lemma act_looping p w' l us s :
  tinv s -> in_loop s = true -> todo s = [] -> follows (world s) w' -> p ∉ [Leaving; Exited; Killed] ->
  (forall open, reachable fallback (world s, open) -> open ≡ₚ prompting s ++ (rx s).*2 ->
     exists open', reachable fallback (w', open')
       /\ open' ≡ₚ prompting s ++ l.*2 ++ omap prompt_of (drop (length (eff (world s))) (eff w'))) ->
  tinv (acted p w' l us s).
Proof.
  intros Ht Hl Htodo Hf Hp Hopen. pose proof (tinv_looping s Ht Hl) as [Hfit Hsw Hdv _ Hord (open & Hr & Ho)].
  rewrite Htodo in Hsw, Hdv, Hord. cbn in Hsw, Hdv. destruct Ht as [Hm Hun Hrd _].
  unfold in_flight in Ho. rewrite Htodo in Ho. cbn [omap list_omap] in Ho. rewrite app_nil_r in Ho.
  destruct (Hf Hfit) as (Hfit' & es & He & Hz & Hor & Hon).
  constructor; [done..|].
  assert (looping (acted p w' l us s)) as Hlo; [|destruct p; try exact Hlo; exfalso; apply Hp; set_solver].
  constructor; cbn [acted act set_rx set_urx world todo kmod diverting]; rewrite ?He, ?drop_app_length; try done.
  - by rewrite Hsw.
  - by rewrite diverted_split, <- Hdv.
  - apply Hor. by apply (orderly_governed _ []).
  - destruct (Hopen open Hr Ho) as (open' & Hr' & Ho'). exists open'. split; [done|]. by rewrite Ho'.
Qed.

Lemma answer_inv env ans p rest s :
  device_answers env -> tinv s -> main_at s = AtAnswers -> todo s = [] -> rx s = (ans, p) :: rest ->
  tinv (acted AtAnswers (handle_answer env ans p (world s)) rest (urx s) s).
Proof.
  intros dev Ht Hat Htodo Hrx. apply act_looping; try done; [unfold in_loop; by rewrite Hat|by apply answer_follows|set_solver|].
  intros open Hr Ho. exists (prompting s ++ rest.*2). rewrite answer_raises, app_nil_r. split; [|done].
  eapply reach_step; [exact Hr|]. apply step_answer. rewrite Ho, Hrx. cbn. by rewrite Permutation_middle.
Qed.

Lemma upcall_inv env ev rest s :
  device_answers env -> tinv s -> main_at s = AtUpcalls -> todo s = [] ->
  tinv (acted AtUpcalls (handle_upcall env ev (world s)) (rx s) rest s).
Proof.
  intros dev Ht Hat Htodo. apply act_looping; try done; [unfold in_loop; by rewrite Hat|by apply handle_upcall_follows|set_solver|].
  intros open Hr Ho. eexists. split; [eapply reach_step; [exact Hr|apply step_upcall]|]. unfold raised. by rewrite Ho, <- app_assoc.
Qed.

Lemma tick_inv env s :
  device_answers env -> tinv s -> main_at s = AtTick -> todo s = [] ->
  tinv (act AtReceive (handle_tick env fallback (world s)) s).
Proof.
  intros dev Ht Hat Htodo. apply (act_looping AtReceive (handle_tick env fallback (world s)) (rx s) (urx s)); try done;
    [unfold in_loop; by rewrite Hat|by apply tick_follows|set_solver|].
  intros open Hr Ho. eexists. split; [eapply reach_step; [exact Hr|apply step_tick]|]. by rewrite tick_raises, app_nil_r.
Qed.

Lemma packet_inv env pkt a s :
  device_answers env -> tinv s -> main_at s = AtReceive -> todo s = [] ->
  tinv (act AtTop (handle_packet env pkt a (world s)) s).
Proof.
  intros dev Ht Hat Htodo. apply (act_looping AtTop (handle_packet env pkt a (world s)) (rx s) (urx s)); try done;
    [unfold in_loop; by rewrite Hat|by apply packet_follows|set_solver|].
  intros open Hr Ho. eexists. split; [eapply reach_step; [exact Hr|apply step_packet]|]. unfold raised. by rewrite Ho, <- app_assoc.
Qed.

(** Moving on without a handler, and the other threads. *)
Lemma same_looping s s' :
  world s' = world s -> todo s' = todo s -> diverting s' = diverting s -> kmod s' = kmod s -> gov_of s' = gov_of s ->
  in_flight s' ≡ₚ in_flight s -> looping s -> looping s'.
Proof.
  intros Ew Et Ed Ek Eg Ei [Hf Hsw Hd Hz Ho (open & Hr & Hp)].
  constructor; rewrite ?Ew, ?Et, ?Ed, ?Ek, ?Eg; try done. exists open. split; [done|]. by rewrite Ei.
Qed.
(** *** Effects *)

Lemma gov_after mem e s :
  sized e -> gov_le (gov_step (gov_of s) e) (gov_of (carry_out mem e s)).
Proof.
  intros He. unfold gov_of, gov_le. destruct e as [| | |cmd b| | |]; cbn [carry_out]; try done.
  - cbn [set_kmod kmod diverting readers]. destruct (ioctl_switch mem cmd b (kmod s)) as [-> _].
    unfold gov_step. destruct (setting (Ioctl cmd b)) as [[]|]; cbn; split_and!; try done.
    by intros [_ ?]%andb_true_iff.
  - cbn. split_and!; try done. by intros ->.
Qed.

Lemma effect_kmod mem e s :
  sized e -> module_ok (kmod s) -> Forall readable (pfsn_reqs (kmod s)) ->
  let s' := carry_out mem e s in
  module_ok (kmod s') /\ Forall readable (pfsn_reqs (kmod s')) /\ pfsn_unloading (kmod s') = pfsn_unloading (kmod s)
  /\ pfsn_upcall_on (kmod s') = default (pfsn_upcall_on (kmod s)) (setting e)
  /\ diverting s' = diverted_from (diverting s) [e]
  /\ world s' = world s /\ todo s' = todo s /\ main_at s' = main_at s
  /\ in_flight s' ≡ₚ prompting s ++ (rx s).*2 ++ omap prompt_of (e :: todo s).
Proof.
  intros He Hm Hr. destruct e as [| |argv p|cmd b| | |]; cbn [carry_out]; cbv zeta; try done.
  - split_and!; try done. unfold in_flight. cbn. solve_Permutation.
  - destruct (ioctl_switch mem cmd b (kmod s)) as [Hon Hun]. split_and!; try done; [by apply ioctl_ok|].
    eapply readable_sublist; [apply ioctl_reqs|done].
Qed.

Lemma effect_looping mem e es s :
  tinv s -> looping s -> in_loop s = true -> todo s = e :: es -> tinv (carry_out mem e (set_todo es s)).
Proof.
  intros [Hm Hun Hr _] [Hf Hsw Hdv Hz Hord (open & Ho & Hp)] Hl Htodo. rewrite Htodo in *. inversion_clear Hz as [|? ? He Hes].
  destruct Hord as [_ Hord].
  destruct (effect_kmod mem e (set_todo es s) He Hm Hr) as (Hm' & Hr' & Hun' & Hon & Hd & Hw & Ht & Hat & Hfl).
  set (s' := carry_out mem e (set_todo es s)) in *. cbn [set_todo kmod todo diverting world main_at prompting rx] in *.
  constructor; [done|by rewrite Hun'|done|]. assert (looping s') as Hlo.
  { constructor; rewrite ?Hw, ?Ht, ?Hd, ?Hon; try done.
    - eapply orderly_from_le; [apply gov_after; done|exact Hord].
    - exists open. split; [done|]. rewrite Hfl, Hp. unfold in_flight. by rewrite Htodo. }
  rewrite Hat. unfold in_loop in Hl. apply bool_decide_eq_true in Hl.
  destruct (main_at s); try exact Hlo; exfalso; apply Hl; set_solver.
Qed.

Lemma effect_leaving mem e es s :
  tinv s -> leaving s -> main_at s = Leaving -> todo s = e :: es -> tinv (carry_out mem e (set_todo es s)).
Proof.
  intros [Hm Hun Hr _] [(es0 & Et & Hz & Hord) Hsw Hdv] Hat0 Htodo. rewrite Htodo in *. destruct es0 as [|e0 es0].
  - injection Et as -> ->. cbn in Hsw, Hdv. constructor; cbn [carry_out die kmod main_at diverting set_todo];
      unfold pfsn_dev_close; rewrite Hsw; done.
  - injection Et as <- ->. inversion_clear Hz as [|? ? He Hes]. destruct Hord as [_ Hord].
    destruct (effect_kmod mem e (set_todo (es0 ++ [Exit]) s) He Hm Hr) as (Hm' & Hr' & Hun' & Hon & Hd & _ & Ht & Hat & _).
    set (s' := carry_out mem e _) in *. cbn [set_todo kmod todo diverting world main_at] in *.
    constructor; [done|by rewrite Hun'|done|]. rewrite Hat, Hat0. constructor; rewrite ?Ht, ?Hd, ?Hon; try done.
    exists es0. split; [done|]. split; [done|]. eapply orderly_from_le; [apply gov_after; done|exact Hord].
Qed.

Lemma effect_inv mem e es s : tinv s -> alive s = true -> todo s = e :: es -> tinv (carry_out mem e (set_todo es s)).
Proof.
  intros Ht Ha%bool_decide_eq_true Htodo. destruct (in_loop s) eqn:El; [by apply effect_looping; [|apply tinv_looping| |]|].
  pose proof (ti_main s Ht) as Hmain. apply bool_decide_eq_false in El.
  destruct (main_at s) eqn:Eat; try (exfalso; apply El; set_solver); try (by destruct Ha as [? ?]).
  by apply effect_leaving.
Qed.

(** *** The way out *)

(** What a shutdown does, from a world that fits. *)
Lemma shutdown_adds env w g :
  device_answers env -> fit w -> g_on g = upcall_on (dm w) -> g_pf g = negb (upcall_on (dm w)) ->
  exists es, eff (handle_shutdown env w) = eff w ++ es ++ [Exit] /\ Forall sized es /\ (governed g [] -> orderly_from g es)
    /\ switched (upcall_on (dm w)) es = false /\ diverted_from (negb (upcall_on (dm w))) es = true.
Proof.
  intros dev [Hlive Hon] Eo Ep. unfold handle_shutdown. destruct g as [on pf rd]. cbn in Eo, Ep. subst on pf.
  destruct (kern (dm w)) as [k|] eqn:Ek.
  - specialize (Hlive k eq_refl). rewrite (with_live k _ _ _ Ek (live_set_upcall env dev k Hlive false)).
    rewrite (with_live k (k_flush env) _ [Ioctl verdict_flush_cmd []]); [|done|by apply live_flush].
    exists (Ioctl upcall_set_cmd (le 4 0) :: Ioctl verdict_flush_cmd [] :: if upcall_on (dm w) then [UdpDivert true] else []).
    cbn [emit dm eff]. destruct (upcall_on (dm w)) eqn:Eu; cbn [emit eff];
      rewrite <- !app_assoc; (split; [done|]); (split; [by repeat apply Forall_cons_2|]); (split; [|done]);
      intros Hg; (split; [by apply (governed_more _ [])|]).
    + repeat split; cbn; auto; right; set_solver.
    + repeat split; cbn; auto; discriminate.
  - destruct (upcall_on (dm w)) eqn:Eu; [by destruct (Hon eq_refl)|]. unfold with_kern. rewrite Ek, Ek, Eu. by exists [].
Qed.

Lemma leave_inv env s :
  device_answers env -> tinv s -> main_at s = AtTop -> todo s = [] ->
  tinv (act Leaving (handle_shutdown env (world s)) s).
Proof.
  intros dev Ht Hat Htodo. assert (Hl : in_loop s = true) by (unfold in_loop; by rewrite Hat).
  pose proof (tinv_looping s Ht Hl) as [Hfit Hsw Hdv _ Hord (open & Hr & _)].
  rewrite Htodo in Hsw, Hdv, Hord. cbn in Hsw, Hdv. destruct Ht as [Hm Hun Hrd _].
  pose proof (i_diverted _ _ (inv_reachable fallback _ Hr)) as Hdi. cbn [fst] in Hdi.
  destruct (shutdown_adds env (world s) (gov_of s) dev Hfit) as (es & He & Hz & Hor & Hs & Hd); [done|cbn; congruence|].
  constructor; [done..|]. cbn [main_at act].
  constructor; cbn [act todo kmod diverting]; rewrite He, drop_app_length.
  - exists es. split; [done|]. split; [done|]. apply Hor. by apply orderly_governed.
  - by rewrite switched_app, Hsw, Hs.
  - unfold diverted_from. rewrite foldl_app. fold (diverted_from (diverting s) es). by rewrite Hdv, Hdi, Hd.
Qed.

(** *** Every step *)

Lemma die_inv s : tinv s -> tinv (die Killed s).
Proof.
  intros [Hm Hun Hr _]. unfold die, pfsn_dev_close. destruct (pfsn_upcall_on (kmod s)) eqn:E; constructor; cbn; try done.
  destruct Hm as [Hc Hq Hid]. constructor; [by eapply vcache_ok_same|by eapply queue_ok_same|done].
Qed.

(** A step that keeps the module, what is left to do and what is in flight. *)
Lemma tinv_same s s' :
  world s' = world s -> todo s' = todo s -> diverting s' = diverting s -> kmod s' = kmod s -> gov_of s' = gov_of s ->
  in_flight s' ≡ₚ in_flight s -> main_at s' = main_at s \/ (in_loop s = true /\ in_loop s' = true) -> tinv s -> tinv s'.
Proof.
  intros Ew Et Ed Ek Eg Ei Hat Ht. pose proof Ht as [Hm Hun Hr Hmain]. constructor; rewrite ?Ek; try done.
  destruct Hat as [Hat|[Hl Hl']].
  - rewrite Hat. assert (looping s -> looping s') as Hlo by by apply same_looping.
    destruct (main_at s); try (by apply Hlo); rewrite ?Ek, ?Ed; try done.
    destruct Hmain as [? ? ?]. by constructor; rewrite ?Et, ?Ed, ?Ek, ?Eg.
  - assert (looping s') as Hlo by (eapply same_looping; try done; by apply tinv_looping).
    apply bool_decide_eq_true in Hl'. destruct (main_at s'); try exact Hlo; exfalso; apply Hl'; set_solver.
Qed.

Lemma main_inv env mem pkt s s' :
  device_answers env -> tinv s -> main_step fallback env mem pkt s = Some s' -> tinv s'.
Proof.
  intros dev Ht. unfold main_step. destruct (alive s) eqn:Ea; [|done]. cbn [negb].
  destruct (todo s) as [|e es] eqn:Et; [|intros [= <-]; by apply effect_inv].
  assert (Hgo : forall p, in_loop s = true -> in_loop (go p s) = true -> tinv (go p s)).
  { intros p H1 H2. apply (tinv_same s); try done. by right. }
  assert (Hin : main_at s ∉ [Leaving; Exited; Killed] -> in_loop s = true) by (intros; by apply bool_decide_eq_true).
  destruct (main_at s) eqn:Eat; try done.
  - destruct (shutdown s); intros [= <-]; [by apply leave_inv|]. apply Hgo; [apply Hin; set_solver|done].
  - destruct (rx s) as [|[ans p] rest] eqn:Er; intros [= <-]; [apply Hgo; [apply Hin; set_solver|done]|].
    by apply (answer_inv env ans p rest s).
  - destruct (urx s) as [|ev rest] eqn:Er; intros [= <-]; [apply Hgo; [apply Hin; set_solver|done]|].
    by apply (upcall_inv env ev rest s).
  - intros [= <-]. by apply tick_inv.
  - destruct pkt as [[b a]|]; intros [= <-]; [by apply packet_inv|]. apply Hgo; [apply Hin; set_solver|done].
Qed.

Lemma prompt_inv i stdout s s' : tinv s -> prompt_step i stdout s = Some s' -> tinv s'.
Proof.
  intros Ht. unfold prompt_step. destruct (prompting s !! i) as [p|] eqn:Ei; [|done]. intros [= <-].
  apply (tinv_same s); try done; [|by left]. unfold in_flight. cbn.
  rewrite (delete_Permutation (prompting s) i p Ei) at 2. rewrite fmap_app. cbn. solve_Permutation.
Qed.

Lemma deliver_next_elem l r rs : deliver_next l = Some (r, rs) -> r ∈ l.
Proof.
  revert r rs. induction l as [|x l IH]; intros r rs E; [done|]. cbn in E. destruct (q_delivered x).
  - destruct (deliver_next l) as [[r' rs']|]; [|done]. injection E as <- <-. apply elem_of_cons. right. by apply (IH r' rs').
  - injection E as <- <-. apply elem_of_cons. by left.
Qed.

Lemma reader_inv s s' : tinv s -> reader_step s = Some s' -> tinv s'.
Proof.
  intros Ht. pose proof Ht as [Hm Hun Hr _]. unfold reader_step. destruct (readers s) as [|n] eqn:En; [done|].
  unfold pfsn_read. change (Z.of_nat event_size <? Z.of_nat (csize header_event)) with false. cbv iota. rewrite Hun.
  destruct (pfsn_upcall_on (kmod s)) eqn:Eon; cbn [orb negb].
  - destruct (deliver_next _) as [[r rs]|] eqn:Ed; [|done].
    assert (Hsh : shape <$> rs = shape <$> pfsn_reqs (kmod s)) by by eapply deliver_next_shape.
    destruct (event_reads r) as [ev ->].
    { rewrite Forall_forall in Hr. by eapply Hr, deliver_next_elem. }
    intros [= <-]. set (m' := set_reqs rs _ _).
    apply (tinv_same (set_kmod m' s)); try done; [by left|].
    destruct Hm as [Hc Hq Hid]. apply tinv_kmod; try done; [|by eapply readable_shapes].
    constructor; [by eapply vcache_ok_same|by apply queue_ok_shape|done].
  - intros [= <-]. apply (tinv_same s); try done; [|by left]. unfold gov_of. cbn. by rewrite Eon.
Qed.
(** Files change under the daemon. *)
Lemma edit_inv fs s : tinv s -> tinv (set_world (set_fs fs (world s)) s).
Proof.
  intros [Hm Hun Hr Hmain]. constructor; [done..|]. cbn [main_at set_world].
  assert (looping s -> looping (set_world (set_fs fs (world s)) s)) as Hlo.
  { intros [[Hf1 Hf2] Hsw Hd Hz Ho (open & Hre & Hp)]. constructor; try done. exists open. split; [|done].
    eapply reach_step; [exact Hre|]. apply step_edit. }
  destruct (main_at s); try (by apply Hlo); [|done..]. destruct Hmain. by constructor.
Qed.

Lemma threads_inv s : threads_reachable fallback s -> tinv s.
Proof.
  induction 1 as [env pe fs m dev Hm Hon Hun Hr|s tu s' _ IH Hok Hstep].
  - destruct (start_fits env dev fallback pe fs) as (Hf & Hn & Hu). unfold threads_start.
    pose proof (reach_start fallback env pe fs) as Hreach. set (w := start env fallback pe fs) in *.
    constructor; [done..|]. cbn [main_at]. constructor; cbn [world todo kmod diverting]; try done.
    + by rewrite Hon, neutral_switched, Hu.
    + by apply neutral_sized.
    + apply neutral_orderly; [done|]. unfold gov_of. cbn. rewrite Hon. by split; [left|].
    + exists []. split; [done|]. unfold in_flight. cbn. by rewrite ioctl_no_prompt by apply start_ioctls.
  - destruct tu as [env mem pkt|i stdout| | | |fs|o]; cbn [turn_ok thread_step] in Hok, Hstep.
    + by eapply main_inv.
    + by eapply prompt_inv.
    + by eapply reader_inv.
    + destruct (alive s); [|done]. injection Hstep as <-. apply (tinv_same s); try done. by left.
    + destruct (alive s); [|done]. injection Hstep as <-. by apply die_inv.
    + injection Hstep as <-. by apply edit_inv.
    + injection Hstep as <-. destruct Hok as (Hb & Ho & Hid).
      destruct (bystander_kmod o (kmod s) Hb Ho Hid (ti_module s IH) (ti_readable s IH)) as (Hm & Hr & Hon & Hun).
      apply tinv_kmod; try done. by rewrite Hun, (ti_loaded s IH).
Qed.
End invariant.

Lemma in_loop_alive s : in_loop s = true -> alive s = true.
Proof.
  intros Hl%bool_decide_eq_true. apply bool_decide_eq_true. split; intros E; apply Hl; rewrite E; set_solver.
Qed.

Lemma in_loop_at p s : main_at s = p -> p ∉ [Leaving; Exited; Killed] -> in_loop s = true.
Proof. intros <- Hp. by apply bool_decide_eq_true. Qed.

Lemma off_never_delays mem now junk ty nb info sa m :
  pfsn_upcall_on m = false ->
  (pfsn_socket_check_connect mem now junk ty nb info sa m).2 = 0 \/ (pfsn_socket_check_connect mem now junk ty nb info sa m).2 = EPERM.
Proof. intros Hon. unfold pfsn_socket_check_connect. rewrite Hon. cbn [andb]. repeat case_match; auto. Qed.

Lemma tinv_governed `{Pcbs} fallback s :
  tinv fallback s -> alive s = true ->
  (pfsn_upcall_on (kmod s) || diverting s = true \/ UdpDivert true ∈ todo s)
  /\ (pfsn_upcall_on (kmod s) = true -> (0 < readers s)%nat \/ SpawnReader ∈ todo s).
Proof.
  intros Ht Ha. assert (governed (gov_of s) (todo s)) as [H1 H2].
  { destruct (in_loop s) eqn:El; [by apply orderly_governed, (lo_order fallback), tinv_looping|].
    pose proof (ti_main _ s Ht) as Hm. apply bool_decide_eq_true in Ha. apply bool_decide_eq_false in El.
    destruct (main_at s); try (exfalso; apply El; set_solver); try (by destruct Ha).
    destruct Hm as [(es & -> & _ & Ho) _ _]. by apply governed_more, orderly_governed. }
  split; [exact H1|]. intros Hon. destruct (H2 Hon) as [Hr|Hr]; [left|by right].
  cbn in Hr. apply andb_true_iff in Hr as [_ Hr]. by apply Nat.ltb_lt.
Qed.

(** C8. The threads implement the loop.  However the main thread, the prompt threads, the
    readers, the module, a signal and the programs that connect are interleaved - effects
    one at a time - the daemon's world is, at every moment before it leaves its loop, one
    that the handlers reach alone (DaemonLoop.v), with exactly the prompts in flight open:
    the answers it drains are answers to prompts that were raised.  So the questions being
    asked are those in flight, each once - a prompt that waits, an answer under way, or a
    prompt about to be raised - and every upcall that waits waits for one of them: no
    answer is lost, and none is awaited that nobody will give. *)
Theorem threads_refine `{Pcbs} fallback s :
  threads_reachable fallback s -> in_loop s = true ->
  (exists open, reachable fallback (world s, open) /\ open ≡ₚ in_flight s)
  /\ asking (dm (world s)) = list_to_set (map pending_key (in_flight s))
  /\ NoDup (map pending_key (in_flight s))
  /\ (forall q ids, pending_upcalls (dm (world s)) !! q = Some ids ->
        exists p, p ∈ in_flight s /\ pending_key p = q).
Proof.
  intros Hr Hl. destruct (lo_open _ _ (tinv_looping _ s (threads_inv fallback s Hr) Hl)) as (open & Ho & Hp).
  split; [by exists open|]. destruct (inv_reachable fallback _ Ho) as [_ _ Hw _ _ _ Ha Hn]. cbn [fst snd] in *.
  assert (E : asking (dm (world s)) = list_to_set (map pending_key (in_flight s))) by (rewrite Ha; by rewrite Hp).
  split; [done|]. split; [by rewrite <- Hp|]. intros q ids Hq.
  assert (q ∈ asking (dm (world s))) as Hin by (apply Hw; eauto). rewrite E in Hin.
  apply elem_of_list_to_set, list_elem_of_fmap in Hin as (p & -> & Hin). by exists p.
Qed.

(** C9. UDP is never left alone for good.  At every moment of every interleaving the module
    asks or pf diverts, or the main thread is about to divert; while the module asks, a
    reader thread is there to take the questions, or about to be started; whenever the main
    thread has nothing left to carry out, exactly one of the two governs, and the module
    asks only in enforcement, with a live handle and a reader.  And once the process is
    gone, however it went, the module asks no more - no connect is told to try again - and
    after an exit pf diverts. *)
Theorem udp_covered `{Pcbs} fallback s :
  threads_reachable fallback s ->
  let on := pfsn_upcall_on (kmod s) in
  (alive s = true -> (on || diverting s = true \/ UdpDivert true ∈ todo s)
                     /\ (on = true -> (0 < readers s)%nat \/ SpawnReader ∈ todo s))
  /\ (in_loop s = true -> todo s = [] ->
      diverting s = negb on
      /\ (on = true -> (0 < readers s)%nat /\ mode (dm (world s)) = Enforcement
                       /\ exists k, kern (dm (world s)) = Some k /\ dead k = false))
  /\ (alive s = false -> on = false
      /\ forall mem now junk ty nb info sa, (pfsn_socket_check_connect mem now junk ty nb info sa (kmod s)).2 <> EAGAIN)
  /\ (main_at s = Exited -> diverting s = true).
Proof.
  intros Hr on. pose proof (threads_inv fallback s Hr) as Ht. split; [by apply (tinv_governed fallback)|]. split; [|split].
  - intros Hl Htodo. pose proof (in_loop_alive s Hl) as Ha.
    destruct (tinv_governed fallback s Ht Ha) as [_ Hrd]. rewrite Htodo in Hrd.
    destruct (tinv_looping fallback s Ht Hl) as [[Hlive Hk] Hsw Hdv _ _ (open & Ho & _)].
    rewrite Htodo in Hsw, Hdv. cbn in Hsw, Hdv. destruct (inv_reachable fallback _ Ho) as [Hd Hup _ _ _ _ _ _]. cbn [fst] in *.
    split; [subst on; congruence|]. intros Hon. destruct (Hrd Hon) as [?|Hin]; [|by apply not_elem_of_nil in Hin].
    split; [done|]. destruct (Hup ltac:(subst on; congruence)) as [[k Ek] Hmode]. split; [done|]. exists k. auto.
  - intros Ha%bool_decide_eq_false. assert (Hon : on = false).
    { pose proof (ti_main _ s Ht) as Hm. subst on. destruct (main_at s); try (exfalso; apply Ha; split; discriminate);
        [apply Hm|exact Hm]. }
    split; [done|]. intros mem now junk ty nb info sa. destruct (off_never_delays mem now junk ty nb info sa (kmod s) Hon) as [-> | ->]; done.
  - intros E. pose proof (ti_main _ s Ht) as Hm. rewrite E in Hm. apply Hm.
Qed.
