(* ===== verification/ThreadsLive.v ===== *)
(** What the threads of Threads.v get done: the main thread alone comes back to the top with
    what was in its channels handled, a question the kernel asks is settled within a pass, and
    the answer to a prompt reaches the program that retries. *)
From S2P Require Import Prelude Unicode RustStr IpAddr Policy PolicyFile PolicyRecord Packet Dns Procinfo Abi KernAttr Handles Seen Daemon DaemonSpec DaemonLoop KernModule ModuleSpec ModuleLink ModuleDaemon ModuleFollows Threads.

#[local] Arguments record : simpl never.
#[local] Arguments load : simpl never.
#[local] Arguments flush : simpl never.
#[local] Arguments POLICY_PATH : simpl never.
#[local] Arguments seen_new : simpl never.
#[local] Arguments prompt_bin : simpl never.

(** ** What a pass is to do *)

Section pass.
Context `{Pcbs} (env : Env) (fallback : Mode) (pkt : option (list Z * Z)).

(** Every answer, then every upcall, once and in the order they came; the tick; the packet. *)
Definition answers_handled (l : list (Answer * Pending)) (w : World) : World :=
  foldl (fun w x => handle_answer env x.1 x.2 w) w l.
Definition upcalls_handled (us : list KernEvent) (w : World) : World := foldl (fun w ev => handle_upcall env ev w) w us.
Definition received (w : World) : World := match pkt with Some (b, from) => handle_packet env b from w | None => w end.
Definition tick_and_receive (w : World) : World := received (handle_tick env fallback w).

(** From a place in the loop to the top with the channels empty: the rest of that pass, and
    another if the drain of the answers is behind it. *)
Definition to_top (at_ : place) (l : list (Answer * Pending)) (us : list KernEvent) (w : World) : World :=
  match at_ with
  | AtTop | AtAnswers => tick_and_receive (upcalls_handled us (answers_handled l w))
  | AtUpcalls => tick_and_receive (answers_handled l (tick_and_receive (upcalls_handled us w)))
  | AtTick => tick_and_receive (upcalls_handled us (answers_handled l (tick_and_receive w)))
  | AtReceive => tick_and_receive (upcalls_handled us (answers_handled l (received w)))
  | Leaving | Exited | Killed => w
  end.
End pass.

(** ** The main thread alone *)

Section alone.
Context `{Pcbs} (fallback : Mode) (env : Env) (dev : device_answers env) (mem : bool) (pkt : option (list Z * Z)).

(** So many steps of the main thread. *)
Definition on_main (n : nat) (s : Threads) : option Threads := run_turns fallback s (replicate n (Main env mem pkt)).
Definition main_reaches (s s' : Threads) : Prop := exists n, on_main n s = Some s'.

Lemma run_turns_app s ts ts' : run_turns fallback s (ts ++ ts') = (s' ← run_turns fallback s ts; run_turns fallback s' ts').
Proof.
  revert s. induction ts as [|tu ts IH]; intros s; [done|]. cbn. destruct (thread_step fallback s tu); cbn; [apply IH|done].
Qed.

#[export] Instance main_reaches_preorder : PreOrder main_reaches.
Proof.
  split.
  - intros s. by exists 0%nat.
  - intros a b c [n Hn] [k Hk]. exists (n + k)%nat. unfold on_main in *. by rewrite replicate_add, run_turns_app, Hn.
Qed.

Lemma one_step s s' : main_step fallback env mem pkt s = Some s' -> main_reaches s s'.
Proof. intros Hs. exists 1%nat. cbn. by rewrite Hs. Qed.

Lemma reaches_inv s s' : main_reaches s s' -> tinv fallback s -> tinv fallback s'.
Proof using dev.
  intros [n Hn]. unfold on_main in Hn. revert s Hn. induction n as [|n IH]; intros s Hn Ht; cbn in Hn; [by injection Hn as <-|].
  destruct (main_step fallback env mem pkt s) as [s1|] eqn:E; [|done]. apply (IH s1 Hn). by eapply main_inv.
Qed.

(** What a drain of effects leaves as it was. *)
Definition kept_by_main (s s' : Threads) : Prop :=
  main_at s' = main_at s /\ rx s' = rx s /\ urx s' = urx s /\ shutdown s' = shutdown s /\ world s' = world s.

Lemma drain_todo s : alive s = true -> Forall sized (todo s) -> exists s', main_reaches s s' /\ todo s' = [] /\ kept_by_main s s'.
Proof.
  remember (todo s) as es eqn:Et. revert s Et. induction es as [|e es IH]; intros s Et Ha Hz.
  { exists s. split; [reflexivity|]. by repeat split. }
  inversion_clear Hz as [|? ? He Hes]. set (s1 := carry_out mem e (set_todo es s)).
  assert (todo s1 = es /\ kept_by_main s s1) as (Et1 & Hk) by (subst s1; by destruct e; repeat split).
  destruct Hk as (Hat & Hk). destruct (IH s1 (eq_sym Et1)) as (s2 & Hr & Ht & Hat2 & Hrx & Hu & Hsh & Hw); [unfold alive; by rewrite Hat|done|].
  destruct Hk as (Hrx1 & Hu1 & Hsh1 & Hw1). exists s2. split; [|split; [done|]; repeat split; congruence].
  transitivity s1; [|done]. apply one_step. unfold main_step. by rewrite Ha, <- Et.
Qed.

(** In the loop, the effects left are carried out. *)
Lemma settle_todo s :
  tinv fallback s -> in_loop s = true -> exists s', main_reaches s s' /\ tinv fallback s' /\ todo s' = [] /\ kept_by_main s s'.
Proof using dev.
  intros Ht Hl. destruct (drain_todo s (in_loop_alive s Hl) (lo_sized _ _ (tinv_looping _ s Ht Hl))) as (s' & Hr & Hs').
  exists s'. split; [done|]. split; [by eapply reaches_inv|done].
Qed.

(** The effects left, then one more step, then whatever follows. *)
Lemma then_step s (Q : Threads -> Prop) :
  tinv fallback s -> in_loop s = true ->
  (forall s1, todo s1 = [] -> alive s1 = true -> kept_by_main s s1 ->
     exists s2, main_step fallback env mem pkt s1 = Some s2
       /\ (tinv fallback s2 -> exists s', main_reaches s2 s' /\ tinv fallback s' /\ Q s')) ->
  exists s', main_reaches s s' /\ tinv fallback s' /\ Q s'.
Proof using dev.
  intros Ht Hl Hnext. destruct (settle_todo s Ht Hl) as (s1 & Hr1 & Ht1 & Hto & Hk).
  assert (Hl1 : in_loop s1 = true) by (unfold in_loop; by rewrite (proj1 Hk)).
  destruct (Hnext s1 Hto (in_loop_alive s1 Hl1) Hk) as (s2 & Hstep & Hrest).
  destruct Hrest as (s' & Hr & Hs'); [by eapply main_inv|]. exists s'. split; [|done].
  etransitivity; [exact Hr1|]. by etransitivity; [apply one_step|].
Qed.

(** Unfold the step of a settled main thread whose place and channels are known. *)
Ltac main_turn Hto Ha := unfold main_step; rewrite Ha, Hto; cbn [negb].

(** The two drains end, a message a turn, each message handled. *)
Lemma drain_answers l : forall s, rx s = l -> tinv fallback s -> main_at s = AtAnswers -> shutdown s = false ->
  exists s', main_reaches s s' /\ tinv fallback s' /\ main_at s' = AtUpcalls /\ rx s' = [] /\ urx s' = urx s /\ shutdown s' = false
    /\ world s' = answers_handled env l (world s).
Proof using dev.
  induction l as [|[ans p] l IH]; intros s Hrx Ht Hat Hsh; set (w0 := world s); set (us0 := urx s);
    (apply (then_step s (fun s' => main_at s' = AtUpcalls /\ rx s' = [] /\ urx s' = us0 /\ shutdown s' = false /\ world s' = answers_handled env _ w0) Ht);
     [by apply (in_loop_at AtAnswers); [|set_solver]|]);
    intros s1 Hto Ha (Hat1 & Hrx1 & Hu1 & Hsh1 & Hw1); main_turn Hto Ha; rewrite Hat1, Hat, Hrx1, Hrx; (eexists; split; [done|]).
  - intros Ht2. eexists. split; [reflexivity|]. cbn. by rewrite Hrx1, Hrx, Hsh1.
  - intros Ht2. subst w0 us0. rewrite <- Hw1, <- Hu1.
    refine (IH (set_rx l (act AtAnswers (handle_answer env ans p (world s1)) s1)) eq_refl Ht2 eq_refl _). cbn. by rewrite Hsh1.
Qed.

Lemma drain_upcalls us : forall s, urx s = us -> tinv fallback s -> main_at s = AtUpcalls -> shutdown s = false ->
  exists s', main_reaches s s' /\ tinv fallback s'
    /\ main_at s' = AtTick /\ rx s' = rx s /\ urx s' = [] /\ shutdown s' = false /\ world s' = upcalls_handled env us (world s).
Proof using dev.
  induction us as [|ev us IH]; intros s Hu Ht Hat Hsh; set (w0 := world s); set (l0 := rx s);
    (apply (then_step s (fun s' => main_at s' = AtTick /\ rx s' = l0 /\ urx s' = [] /\ shutdown s' = false /\ world s' = upcalls_handled env _ w0) Ht);
     [by apply (in_loop_at AtUpcalls); [|set_solver]|]);
    intros s1 Hto Ha (Hat1 & Hrx1 & Hu1 & Hsh1 & Hw1); main_turn Hto Ha; rewrite Hat1, Hat, Hu1, Hu; (eexists; split; [done|]).
  - intros Ht2. eexists. split; [reflexivity|]. cbn. by rewrite Hrx1, Hu1, Hu, Hsh1.
  - intros Ht2. subst w0 l0. rewrite <- Hw1, <- Hrx1.
    refine (IH (set_urx us (act AtUpcalls (handle_upcall env ev (world s1)) s1)) eq_refl Ht2 eq_refl _). cbn. by rewrite Hsh1.
Qed.

(** From the tick to the top, with nothing left to do. *)
Definition at_top (l : list (Answer * Pending)) (us : list KernEvent) (s : Threads) : Prop :=
  main_at s = AtTop /\ todo s = [] /\ rx s = l /\ urx s = us /\ shutdown s = false.

Lemma top_settles s :
  tinv fallback s -> main_at s = AtTop -> shutdown s = false ->
  exists s', main_reaches s s' /\ tinv fallback s' /\ at_top (rx s) (urx s) s' /\ world s' = world s.
Proof using dev.
  intros Ht Hat Hsh. destruct (settle_todo s Ht (in_loop_at AtTop s Hat ltac:(set_solver))) as (s1 & Hr & Ht1 & Hto & Hk).
  destruct Hk as (Hat1 & Hrx & Hu & Hsh1 & Hw). exists s1. split; [done|]. split; [done|]. unfold at_top. by rewrite Hat1, Hsh1.
Qed.

Lemma receive_to_top s :
  tinv fallback s -> main_at s = AtReceive -> shutdown s = false ->
  exists s', main_reaches s s' /\ tinv fallback s' /\ at_top (rx s) (urx s) s' /\ world s' = received env pkt (world s).
Proof using dev.
  intros Ht Hat Hsh. set (w0 := world s). apply (then_step s (fun s' => at_top (rx s) (urx s) s' /\ world s' = received env pkt w0) Ht);
    [by apply (in_loop_at AtReceive); [|set_solver]|].
  intros s1 Hto Ha (Hat1 & Hrx1 & Hu1 & Hsh1 & Hw1). subst w0. rewrite <- Hrx1, <- Hu1, <- Hw1.
  main_turn Hto Ha. rewrite Hat1, Hat. unfold received. destruct pkt as [[b a]|]; (eexists; split; [done|]); intros Ht2;
    exact (top_settles _ Ht2 eq_refl ltac:(cbn; by rewrite Hsh1)).
Qed.

Lemma tick_to_top s :
  tinv fallback s -> main_at s = AtTick -> shutdown s = false ->
  exists s', main_reaches s s' /\ tinv fallback s' /\ at_top (rx s) (urx s) s' /\ world s' = tick_and_receive env fallback pkt (world s).
Proof using dev.
  intros Ht Hat Hsh. set (w0 := world s). apply (then_step s (fun s' => at_top (rx s) (urx s) s' /\ world s' = tick_and_receive env fallback pkt w0) Ht);
    [by apply (in_loop_at AtTick); [|set_solver]|].
  intros s1 Hto Ha (Hat1 & Hrx1 & Hu1 & Hsh1 & Hw1). subst w0. rewrite <- Hrx1, <- Hu1, <- Hw1. main_turn Hto Ha. rewrite Hat1, Hat.
  eexists; split; [done|]. intros Ht2. exact (receive_to_top _ Ht2 eq_refl ltac:(cbn; by rewrite Hsh1)).
Qed.

(** A whole pass, from anywhere in the loop that reaches the drains. *)
Lemma upcalls_to_top s :
  tinv fallback s -> main_at s = AtUpcalls -> shutdown s = false ->
  exists s', main_reaches s s' /\ tinv fallback s' /\ at_top (rx s) [] s'
    /\ world s' = tick_and_receive env fallback pkt (upcalls_handled env (urx s) (world s)).
Proof using dev.
  intros Ht Hat Hsh. destruct (drain_upcalls (urx s) s eq_refl Ht Hat Hsh) as (s2 & Hr2 & Ht2 & Hat2 & Hrx2 & Hu2 & Hsh2 & Hw2).
  destruct (tick_to_top s2 Ht2 Hat2 Hsh2) as (s3 & Hr3 & Ht3 & H3 & Hw3). rewrite Hrx2, Hu2 in H3. rewrite Hw2 in Hw3.
  exists s3. split; [by etransitivity|done].
Qed.

Lemma answers_to_top s :
  tinv fallback s -> main_at s = AtAnswers -> shutdown s = false ->
  exists s', main_reaches s s' /\ tinv fallback s' /\ at_top [] [] s' /\ world s' = to_top env fallback pkt AtAnswers (rx s) (urx s) (world s).
Proof using dev.
  intros Ht Hat Hsh. destruct (drain_answers (rx s) s eq_refl Ht Hat Hsh) as (s1 & Hr1 & Ht1 & Hat1 & Hrx1 & Hu1 & Hsh1 & Hw1).
  destruct (upcalls_to_top s1 Ht1 Hat1 Hsh1) as (s2 & Hr2 & Ht2 & H2 & Hw2). rewrite Hrx1 in H2. rewrite Hu1, Hw1 in Hw2.
  exists s2. split; [by etransitivity|done].
Qed.

Lemma top_to_top s :
  tinv fallback s -> main_at s = AtTop -> shutdown s = false ->
  exists s', main_reaches s s' /\ tinv fallback s' /\ at_top [] [] s' /\ world s' = to_top env fallback pkt AtTop (rx s) (urx s) (world s).
Proof using dev.
  intros Ht Hat Hsh. set (w0 := world s). set (l0 := rx s). set (us0 := urx s).
  apply (then_step s (fun s' => at_top [] [] s' /\ world s' = to_top env fallback pkt AtTop l0 us0 w0) Ht); [by apply (in_loop_at AtTop); [|set_solver]|].
  intros s1 Hto Ha (Hat1 & Hrx1 & Hu1 & Hsh1 & Hw1). main_turn Hto Ha. rewrite Hat1, Hat, Hsh1, Hsh. subst w0 l0 us0. rewrite <- Hrx1, <- Hu1, <- Hw1.
  eexists; split; [done|]. intros Ht2. apply (answers_to_top _ Ht2); [done|cbn; by rewrite Hsh1].
Qed.

(** Once at the top, one more pass. *)
Lemma again_to_top s l us w :
  (exists s', main_reaches s s' /\ tinv fallback s' /\ at_top l us s' /\ world s' = w) ->
  exists s', main_reaches s s' /\ tinv fallback s' /\ at_top [] [] s' /\ world s' = to_top env fallback pkt AtTop l us w.
Proof using dev.
  intros (s1 & Hr1 & Ht1 & (Hat1 & _ & Hrx & Hu & Hsh1) & Hw). destruct (top_to_top s1 Ht1 Hat1 Hsh1) as (s2 & Hr2 & Hs2).
  rewrite Hrx, Hu, Hw in Hs2. exists s2. split; [by etransitivity|done].
Qed.

Lemma loop_to_top s :
  tinv fallback s -> in_loop s = true -> shutdown s = false ->
  exists s', main_reaches s s' /\ tinv fallback s' /\ at_top [] [] s' /\ world s' = to_top env fallback pkt (main_at s) (rx s) (urx s) (world s).
Proof using dev.
  intros Ht Hl Hsh. destruct (main_at s) eqn:Eat; try (by unfold in_loop in Hl; rewrite Eat in Hl).
  - by apply top_to_top.
  - by apply answers_to_top.
  - exact (again_to_top s _ _ _ (upcalls_to_top s Ht Eat Hsh)).
  - exact (again_to_top s _ _ _ (tick_to_top s Ht Eat Hsh)).
  - exact (again_to_top s _ _ _ (receive_to_top s Ht Eat Hsh)).
Qed.

(** *** No effect is lost *)

(** The readers these effects start. *)
Definition readers_started (es : list effect) : nat :=
  length (List.filter (fun e => match e with SpawnReader => true | _ => false end) es).

Lemma readers_started_app es es' : readers_started (es ++ es') = (readers_started es + readers_started es')%nat.
Proof. unfold readers_started. by rewrite List.filter_app, length_app. Qed.

(** From [s] to [s'] the handlers left effects behind those that were there already, and
    those no longer there were carried out, in order. *)
Definition carried (s s' : Threads) : Prop :=
  exists es out, eff (world s') = eff (world s) ++ es /\ todo s ++ es = out ++ todo s'
    /\ kmod s' = module_effects mem out (kmod s) /\ prompting s' = prompting s ++ omap prompt_of out
    /\ diverting s' = diverted_from (diverting s) out /\ readers s' = (readers s + readers_started out)%nat.

#[export] Instance carried_preorder : PreOrder carried.
Proof.
  split.
  - intros s. exists [], []. by rewrite !app_nil_r, Nat.add_0_r.
  - intros a b c (e1 & o1 & He1 & Ht1 & Hk1 & Hp1 & Hd1 & Hr1) (e2 & o2 & He2 & Ht2 & Hk2 & Hp2 & Hd2 & Hr2).
    exists (e1 ++ e2), (o1 ++ o2). rewrite He2, He1, Hk2, Hk1, Hp2, Hp1, Hd2, Hd1, Hr2, Hr1, readers_started_app, Nat.add_assoc, module_effects_app, omap_app, !app_assoc.
    split_and!; try done.
    + rewrite Ht1, <- (app_assoc o1 o2), <- Ht2. by rewrite app_assoc.
    + unfold diverted_from. by rewrite foldl_app.
Qed.

Lemma act_carried p w' s :
  todo s = [] -> follows (world s) w' -> fit (world s) -> carried s (act p w' s).
Proof.
  intros Hto Hf Hfit. destruct (Hf Hfit) as (_ & es & He & _). exists es, []. cbn. by rewrite Hto, He, drop_app_length, !app_nil_r, Nat.add_0_r.
Qed.

Lemma effect_carried e es s : todo s = e :: es -> e <> Exit -> carried s (carry_out mem e (set_todo es s)).
Proof.
  intros Hto He. exists [], [e]. rewrite !app_nil_r, Hto. destruct e; try done; cbn; by rewrite ?app_nil_r, ?Nat.add_0_r, ?Nat.add_1_r.
Qed.

Lemma step_carried s s' :
  tinv fallback s -> main_step fallback env mem pkt s = Some s' -> in_loop s' = true -> carried s s'.
Proof using dev.
  intros Ht Hs Hl. unfold main_step in Hs. destruct (alive s); [|done]. cbn [negb] in Hs.
  destruct (todo s) as [|e es] eqn:Hto.
  2: { injection Hs as <-. apply effect_carried; [done|]. by intros ->. }
  assert (Hin : main_at s ∉ [Leaving; Exited; Killed] -> fit (world s)) by (intros; by apply (lo_fit fallback s), tinv_looping; [|apply bool_decide_eq_true]).
  destruct (main_at s) eqn:Eat; try done.
  - destruct (shutdown s); injection Hs as <-; [by cbn in Hl|]. exists [], []. by rewrite !app_nil_r, Nat.add_0_r.
  - destruct (rx s) as [|[ans p] rest]; injection Hs as <-; [exists [], []; by rewrite !app_nil_r, Nat.add_0_r|].
    apply (act_carried AtAnswers (handle_answer env ans p (world s)) s Hto); [by apply answer_follows|apply Hin; set_solver].
  - destruct (urx s) as [|ev rest]; injection Hs as <-; [exists [], []; by rewrite !app_nil_r, Nat.add_0_r|].
    apply (act_carried AtUpcalls (handle_upcall env ev (world s)) s Hto); [by apply handle_upcall_follows|apply Hin; set_solver].
  - injection Hs as <-. apply (act_carried AtReceive _ s Hto); [by apply tick_follows|apply Hin; set_solver].
  - destruct pkt as [[b a]|]; injection Hs as <-; [|exists [], []; by rewrite !app_nil_r, Nat.add_0_r].
    apply (act_carried AtTop _ s Hto); [by apply packet_follows|apply Hin; set_solver].
Qed.

(** Out of the loop, the main thread does not come back. *)
Lemma step_in_loop s s' : main_step fallback env mem pkt s = Some s' -> in_loop s' = true -> in_loop s = true.
Proof.
  unfold main_step. destruct (alive s) eqn:Ha; [|done]. cbn [negb]. destruct (in_loop s) eqn:Hl; [done|].
  apply bool_decide_eq_false in Hl. destruct (todo s) as [|e es].
  - clear dev. destruct (main_at s); try done; exfalso; apply Hl; set_solver.
  - intros [= <-]. destruct e; try (intros Hb%bool_decide_eq_true; by destruct Hl); done.
Qed.

Lemma reaches_carried s s' : main_reaches s s' -> tinv fallback s -> in_loop s' = true -> carried s s'.
Proof using dev.
  intros [n Hn] Ht Hl. enough (in_loop s = true /\ carried s s') as [_ Hc] by exact Hc.
  unfold on_main in Hn. revert s Hn Ht. induction n as [|n IH]; intros s Hn Ht; cbn in Hn; [injection Hn as <-; by split|].
  destruct (main_step fallback env mem pkt s) as [s1|] eqn:E; [|done].
  destruct (IH s1 Hn) as [Hl1 Hc]; [by eapply main_inv|]. split; [by eapply step_in_loop|]. transitivity s1; [by apply step_carried|done].
Qed.
End alone.

(** C11. A pass of the loop handles all it finds.  The main thread always has a next step: no
    prompt, reader or full channel can block it.  And running alone, from wherever it is in
    the loop and with no signal there, it comes to the top with both channels empty: from the
    top, by then every answer that was in the channel was handled, then every upcall, each once
    and in the order they came, then the tick, then the packet if there is one; from
    elsewhere, the rest of that pass is done as well.  No effect is lost: those that were left
    and those the handlers asked for have all been carried out, in order, on the module, on
    pf, and in the prompts and readers started.  That each step ends is the model's: a receive returns by
    its timeout, and the calls a handler makes - pfctl, sha256, the ioctls - are taken to
    return. *)
Theorem pass_completes `{Pcbs} fallback env mem pkt s :
  threads_reachable fallback s -> device_answers env ->
  (alive s = true -> is_Some (thread_step fallback s (Main env mem pkt)))
  /\ (in_loop s = true -> shutdown s = false ->
      exists n s', run_turns fallback s (replicate n (Main env mem pkt)) = Some s'
        /\ main_at s' = AtTop /\ todo s' = [] /\ rx s' = [] /\ urx s' = []
        /\ world s' = to_top env fallback pkt (main_at s) (rx s) (urx s) (world s)
        /\ exists es, eff (world s') = eff (world s) ++ es
             /\ kmod s' = module_effects mem (todo s ++ es) (kmod s)
             /\ prompting s' = prompting s ++ omap prompt_of (todo s ++ es)
             /\ diverting s' = diverted_from (diverting s) (todo s ++ es)
             /\ readers s' = (readers s + readers_started (todo s ++ es))%nat).
Proof.
  intros Hr dev. pose proof (threads_inv fallback s Hr) as Ht. split.
  - intros Ha. cbn. unfold main_step. rewrite Ha. cbn [negb]. destruct (todo s) as [|e es] eqn:Et; [|by eexists].
    pose proof (ti_main _ s Ht) as Hm. apply bool_decide_eq_true in Ha as [H1 H2].
    destruct (main_at s); try done; repeat case_match; try by eexists.
    destruct Hm as [(es & E & _) _ _]. rewrite Et in E. by destruct es.
  - intros Hl Hsh. destruct (loop_to_top fallback env dev mem pkt s Ht Hl Hsh) as (s' & Hrun & _ & (Hat & Hto & Hrx & Hu & _) & Hw).
    pose proof (reaches_carried fallback env dev mem pkt s s' Hrun Ht (in_loop_at AtTop s' Hat ltac:(set_solver))) as (es & out & He & Hes & Hc).
    rewrite Hto, app_nil_r in Hes. rewrite <- Hes in Hc. destruct Hrun as [n Hn]. exists n, s'. split_and!; try done. by exists es.
Qed.

(** ** From the first datagram to the verdict *)









(** ** From the user's answer to the retry *)







