(* ===== verification/ModuleScenario.v ===== *)
(** The module on concrete inputs: the theorems of ModuleSpec.v, ModuleLink.v,
    ModuleDaemon.v and ModuleSystem.v applied, and behaviours the comments do not lead one to expect. *)
From S2P Require Import Prelude Unicode RustStr IpAddr Target Policy PolicyFile PolicyEdit PolicyRecord Packet Reset Dns Procinfo Abi KernAttr Identity Seen Handles Daemon DaemonSpec DaemonIo DaemonLoop DaemonScenario KernModule ModuleSpec ModuleLink ModuleDaemon ModuleSystem.

(** No socket is known to the stack. *)
#[local] Instance no_pcbs : Pcbs := fun _ _ _ _ _ _ _ => None.

(** A module with upcalls on, and the label of a socket of curl's. *)
Definition m_on : Module_ := set_on true (pfsn_init 0).
Definition curl_info : pfsn_info := pfsn_socket_create 300 1001 (utf8 $"curl") (Some (utf8 curl)).
Definition peer_ip : IpAddr := V4 84281096.   (* 5.6.7.8 *)
Definition other_bytes : list Z := replicate 12 170.

Lemma m_on_ok : module_ok m_on.
Proof. destruct (init_ok 0) as [Hc Hq Hi]. constructor; [by eapply vcache_ok_same|by eapply queue_ok_same|done]. Qed.

(** Two datagrams, a read, and the ioctl that turns upcalls on. *)
Definition some_ops : list mod_op :=
  [OpIoctl true upcall_set_cmd (le 4 1);
   OpConnect true 10 other_bytes SOCK_DGRAM false (Some curl_info) (Some (sockaddr_of peer_ip 443));
   OpConnect true 11 other_bytes SOCK_DGRAM false (Some curl_info) (Some (sockaddr_of peer_ip 443));
   OpConnect true 12 other_bytes SOCK_DGRAM false (Some curl_info) (Some (sockaddr_of peer_ip 444));
   OpRead 1064].

Lemma lacks_dec_true c s : forallb (fun d => negb (d =? c)) s = true -> lacks c s.
Proof.
  rewrite forallb_forall. intros Hs. apply Forall_forall. intros d Hd.
  apply list_elem_of_In, Hs in Hd. by apply negb_true_iff, Z.eqb_neq in Hd.
Qed.

Lemma curl_lacks : lacks 0 (i_path curl_info).
Proof. apply lacks_dec_true. by vm_compute. Qed.

Lemma module_bounds_witness :
  Forall op_ok some_ops /\ pfsn_nreq (mod_run (pfsn_init 0) some_ops) = 2
  /\ NoDup (req_key <$> pfsn_reqs (mod_run (pfsn_init 0) some_ops)).
Proof.
  assert (Hok : Forall op_ok some_ops) by (repeat constructor; apply curl_lacks || by vm_compute).
  split; [done|]. split; [by vm_compute|].
  exact (proj1 (proj2 (proj2 (proj2 (proj2 (proj2 (proj2 (module_bounds 0 some_ops Hok eq_refl)))))))).
Defined.

Lemma cache_refines_witness : cache_map (pfsn_verdict_flush m_on) = ∅.
Proof. exact (proj1 (proj2 (proj2 (cache_refines m_on (mo_cache m_on m_on_ok))))). Defined.

Definition deny_bytes : list Z := default [] (push_request (mk_kern false) 6 peer_ip 443 curl false).

Lemma push_takes_effect_witness :
  (connect_by true 0 other_bytes false 6 curl_info peer_ip 443 (pfsn_ioctl true verdict_push_cmd deny_bytes m_on).1).2 = EPERM.
Proof.
  pose proof (push_takes_effect (mk_kern false) 6 peer_ip 443 curl false deny_bytes true m_on
                ltac:(vm_compute; reflexivity) (lacks_dec_true 0 (utf8 curl) ltac:(vm_compute; reflexivity))
                ltac:(unfold byte_ok; lia) m_on_ok) as H.
  cbv zeta in H. destruct (pfsn_ioctl true verdict_push_cmd deny_bytes m_on) as [m' r].
  destruct H as (_ & _ & H & _).
  cbn [fst]. rewrite (H ltac:(right; split; vm_compute; reflexivity) ltac:(vm_compute; reflexivity) true 0 other_bytes false curl_info ltac:(vm_compute; reflexivity)).
  reflexivity.
Defined.

Lemma upcall_roundtrip_witness :
  exists ev id, (pfsn_read 1064 (connect_by true 0 other_bytes false 17 curl_info peer_ip 443 m_on).1).2 = REvent ev
    /\ read_event (inr ev) = Event (mk_event id 17 peer_ip 443 false 300 1001 curl).
Proof.
  assert (Hlow : cache_map m_on !! flow_vkey 17 peer_ip 443 (i_path curl_info) = None).
  { apply cache_map_none. intros e He. assert (E : cached m_on = []) by (vm_compute; reflexivity).
    rewrite E in He. by apply not_elem_of_nil in He. }
  pose proof (upcall_roundtrip 0 other_bytes false curl_info peer_ip 443 m_on m_on_ok eq_refl eq_refl eq_refl
                ltac:(constructor) ltac:(apply not_elem_of_nil) Hlow eq_refl eq_refl
                ltac:(vm_compute; split; [discriminate|reflexivity]) ltac:(lia) ltac:(lia) ltac:(by vm_compute) eq_refl curl_lacks
                ltac:(by vm_compute) ltac:(apply Nat.ltb_lt; by vm_compute) ltac:(vm_compute; split; [discriminate|reflexivity])
                ltac:(vm_compute; split; [discriminate|reflexivity])) as H.
  destruct (connect_by true 0 other_bytes false 17 curl_info peer_ip 443 m_on) as [m1 r1]. cbn [fst].
  destruct (pfsn_read 1064 m1) as [m2 out]. destruct H as (_ & ev & id & -> & Hev & _).
  exists ev, id. split; [done|]. rewrite Hev. by vm_compute.
Defined.

(** ** The daemon and the module *)

(** A world whose device is the module. *)
Definition world_mod (now mtime : Z) : Env :=
  mk_env io_fine (fun cmd b => (pfsn_ioctl true cmd b m_on).2) (seconds now) now (fun _ => Some mtime) (Some [curl_proc])
    (fun _ => Some (1, 10)) (fun _ => Some (true, utf8 $"bb22")) true true [].

Lemma world_mod_answers now mtime : device_answers (world_mod now mtime).
Proof. intros cmd b. by exists true, m_on. Qed.

Definition deny_line : str := $"deny-dest 5.6.7.8" ++ [10].
Definition denying_policy : str := enforcing_policy ++ deny_line.
Definition w_live : World := start (world_mod 0 0) Visibility None {[POLICY_PATH := denying_policy]}.

(** The first tick turns the upcall on; then the policy file is edited. *)
Definition w_asking : World := handle_tick (world_mod 2 0) Visibility w_live.
Definition edited (text : str) : World := set_fs {[POLICY_PATH := text]} w_asking.

Lemma live_handle : kern (dm w_live) = Some (mk_kern false).
Proof. vm_compute. reflexivity. Qed.

Lemma shutdown_quiets_module_witness :
  exists es, eff (handle_shutdown (world_mod 1 0) w_live) = eff w_live ++ es /\ lets_all_through (module_effects true es m_on).
Proof.
  destruct (shutdown_quiets_module (world_mod 1 0) w_live (mk_kern false) live_handle eq_refl (world_mod_answers 1 0))
    as (He & Hm).
  eexists. split; [exact He|]. exact (proj1 (Hm true m_on)).
Defined.

Definition observing_text : str := $"mode visibility" ++ [10] ++ $"attribution kernel" ++ [10] ++ deny_line.
Definition w_observed : World := handle_tick (world_mod 5 1) Visibility (edited observing_text).

Lemma tick_updates_module_witness :
  decided (dm w_observed) = ∅
  /\ exists es, eff w_observed = eff (edited observing_text) ++ es
       /\ lets_all_through (module_effects true es m_on).
Proof.
  destruct (tick_updates_module (world_mod 5 1) Visibility (edited observing_text) (mk_kern false)
              ltac:(vm_compute; reflexivity) eq_refl (world_mod_answers 5 1) ltac:(vm_compute; reflexivity)
              ltac:(vm_compute; discriminate) ltac:(vm_compute; discriminate) ltac:(vm_compute; reflexivity))
    as (_ & Hd & _ & es & He & Hm).
  split; [exact Hd|]. exists es. split; [exact He|].
  destruct (Hm true m_on ltac:(vm_compute; reflexivity)) as (_ & _ & _ & Hv). apply Hv.
  vm_compute. reflexivity.
Defined.

(** The daemon started on a fresh module, and its first tick: upcalls are on, on both sides. *)
Definition m_started : Module_ := module_effects true (eff w_live) (pfsn_init 0).
Definition m_ticked : Module_ := carried_out true w_live w_asking m_started.

Lemma ticked_sys_reachable : sys_reachable Visibility ((w_asking, []), m_ticked).
Proof.
  assert (Hs : sys_reachable Visibility ((w_live, []), m_started)).
  { unfold m_started, w_live.
    exact (sys_start Visibility (world_mod 0 0) true None _ (pfsn_init 0) (world_mod_answers 0 0) (init_ok 0) eq_refl eq_refl). }
  unfold m_ticked, w_asking.
  exact (sys_more Visibility _ _ Hs (sys_tick Visibility (world_mod 2 0) true w_live [] m_started (world_mod_answers 2 0))).
Qed.

Lemma udp_governed_witness :
  pfsn_upcall_on m_ticked = true /\ diverted (eff w_asking) = false
  /\ exists m', connect_by true 0 other_bytes false 17 curl_info peer_ip 443 m_ticked = (m', EAGAIN).
Proof.
  destruct (udp_governed Visibility w_asking [] m_ticked ticked_sys_reachable) as (Hm & Hd & _ & Hc).
  assert (Hon : pfsn_upcall_on m_ticked = true) by (vm_compute; reflexivity).
  rewrite Hon in Hd. split; [exact Hon|]. split; [exact Hd|].
  specialize (Hc true 0 other_bytes false curl_info peer_ip 443 curl_lacks ltac:(by vm_compute)
                ltac:(apply Nat.ltb_lt; by vm_compute) eq_refl ltac:(lia) ltac:(lia)). cbv zeta in Hc.
  destruct (connect_by true 0 other_bytes false 17 curl_info peer_ip 443 m_ticked) as [m' r]. exists m'.
  assert (E : cache_map m_ticked !! flow_vkey 17 peer_ip 443 (i_path curl_info) = None).
  { apply cache_map_none. intros e He. assert (En : cached m_ticked = []) by (vm_compute; reflexivity).
    rewrite En in He. destruct (not_elem_of_nil _ He). }
  assert (Hn : pfsn_nreq m_ticked = 0) by (vm_compute; reflexivity).
  rewrite E, Hd in Hc. destruct Hc as [[Hr _]|[_ [Hf|Hf]]]; [exact (f_equal (pair m') Hr)|discriminate Hf|].
  rewrite Hn in Hf. discriminate Hf.
Defined.

(** The effects [w'] has and [w] had not. *)
Definition new_effects (w w' : World) : list effect := drop (length (eff w)) (eff w').

(** Switching attribution from the kernel to procstat drops the handle before the flush: the
    verdicts cached for the old policy stay, and the hook goes on refusing connects - in
    visibility too - with no handle left to empty the cache. *)
Definition m_denying : Module_ := (pfsn_ioctl true verdict_push_cmd deny_bytes m_on).1.
Definition procstat_text : str := $"mode visibility" ++ [10] ++ $"attribution procstat" ++ [10].
Example procstat_leaves_denies :
  let w' := handle_tick (world_mod 5 1) Visibility (edited procstat_text) in
  let m' := module_effects true (new_effects (edited procstat_text) w') m_denying in
  (mode (dm w'), kern (dm w')) = (Visibility, None)
  /\ (connect_by true 0 other_bytes false 6 curl_info peer_ip 443 m').2 = EPERM.
Proof. vm_compute. split; reflexivity. Qed.

(** An upcall that was read before the switch to visibility and is handled after it is
    answered with the policy's deny, which the module caches: the hook then refuses in
    visibility. *)
Definition m_asked : Module_ := (connect_by true 0 other_bytes false 17 curl_info peer_ip 443 m_on).1.
Definition m_read : Module_ := (pfsn_read 1064 m_asked).1.
Definition late_event : KernEvent := mk_event 1 17 peer_ip 443 false 300 1001 curl.
Example late_upcall_blocks :
  let m1 := module_effects true (new_effects (edited observing_text) w_observed) m_read in
  let w' := handle_upcall (world_mod 6 1) late_event w_observed in
  let m' := module_effects true (new_effects w_observed w') m1 in
  mode (dm w') = Visibility
  /\ (connect_by true 6 other_bytes false 17 curl_info peer_ip 443 m1).2 = 0
  /\ (connect_by true 6 other_bytes false 17 curl_info peer_ip 443 m').2 = EPERM.
Proof. vm_compute. repeat split; reflexivity. Qed.

(** A question that was read and never answered - the daemon drops the ids it waits for when
    upcalls go off - is not asked again: long after the 150 seconds it was to be swept in,
    the retry still answers EAGAIN and the reader still sleeps. *)
Example stale_question_waits :
  let m := set_on true (set_on false m_read) in
  connect_by true 100000 other_bytes false 17 curl_info peer_ip 443 m = (m, EAGAIN)
  /\ (pfsn_read 1064 m).2 = RSleep.
Proof. split; vm_compute; reflexivity. Qed.

(** A full queue is never swept: the test for room comes before the sweep, so 2048
    questions that expired long ago keep every new one out. *)
Definition old_req (i : nat) : pfsn_req :=
  mk_req (Z.of_nat i) 4 17 0 true (Z.of_nat i) (octets peer_ip ++ other_bytes) 300 1001 0 (utf8 curl ++ [0]).
Definition m_full : Module_ :=
  set_reqs (old_req <$> seq 1 2048) 2048 (set_next_id 2049 m_on).
Example full_queue_not_swept :
  let '(m', r) := connect_by true 100000 other_bytes false 17 curl_info (V4 16909060) 443 m_full in
  r = 0 /\ pfsn_nreq m' = 2048 /\ forallb (expired 100000) (pfsn_reqs m') = true.
Proof. vm_compute. repeat split; reflexivity. Qed.

(** The event of an IPv4 destination carries the twelve bytes that lay behind it on the
    kernel's stack. *)
Example event_carries_stack :
  match (pfsn_read 1064 m_asked).2 with
  | REvent ev => drop 4 (hfield header_event 4 ev) = other_bytes
  | _ => False
  end.
Proof. vm_compute. reflexivity. Qed.
