(* ===== verification/ThreadScenario.v ===== *)
(** The threads on a concrete run: the theorems of Threads.v and ThreadsLive.v applied, and
    the moment at which nobody governs UDP. *)
From S2P Require Import Prelude Unicode RustStr IpAddr Policy PolicyFile Packet Dns Procinfo Abi KernAttr Seen Daemon DaemonSpec DaemonLoop DaemonScenario KernModule ModuleSpec ModuleLink ModuleDaemon ModuleFollows Threads ThreadsLive ModuleScenario.

#[local] Instance none_known : Pcbs := no_pcbs.

(** Turns of the main thread with nothing received. *)
Definition idle (now mtime : Z) (n : nat) : list turn := replicate n (Main (world_mod now mtime) true None).

Lemma idle_ok now mtime n : Forall (fun tu => forall s, turn_ok s tu) (idle now mtime n).
Proof. apply Forall_replicate. intros s. apply world_mod_answers. Qed.

Lemma run_reachable fallback ts : forall s s',
  threads_reachable fallback s -> Forall (fun tu => forall s, turn_ok s tu) ts -> run_turns fallback s ts = Some s' ->
  threads_reachable fallback s'.
Proof.
  induction ts as [|tu ts IH]; intros s s' Hs Hts Hr; cbn in Hr; [by injection Hr as <-|]. inversion_clear Hts as [|? ? Hok Hoks].
  destruct (thread_step fallback s tu) as [s1|] eqn:E; [|done]. eapply IH; [|done|exact Hr]. by eapply threads_more.
Qed.

Definition after (ts : list turn) (s : Threads) : Threads := default s (run_turns Visibility s ts).

(** A run that gets through is a run to [after]. *)
Lemma after_reachable ts s :
  threads_reachable Visibility s -> Forall (fun tu => forall s, turn_ok s tu) ts ->
  (match run_turns Visibility s ts with Some _ => true | None => false end) = true ->
  threads_reachable Visibility (after ts s).
Proof.
  intros Hs Hts Hr. unfold after. destruct (run_turns Visibility s ts) as [s'|] eqn:E; [|done]. by eapply run_reachable.
Qed.

(** Started on a fresh module; a pass later, the module asks. *)
Definition t_start : Threads := threads_start Visibility (world_mod 0 0) None {[POLICY_PATH := denying_policy]} (pfsn_init 0).
Definition t_up : Threads := after (idle 2 0 9) t_start.

Lemma t_start_reachable : threads_reachable Visibility t_start.
Proof.
  exact (threads_init Visibility (world_mod 0 0) None _ (pfsn_init 0) (world_mod_answers 0 0) (init_ok 0) eq_refl eq_refl (Forall_nil_2 _)).
Qed.

Lemma t_up_reachable : threads_reachable Visibility t_up.
Proof. apply after_reachable; [apply t_start_reachable|apply idle_ok|]. vm_compute. reflexivity. Qed.

Example t_up_asks : (main_at t_up, todo t_up, pfsn_upcall_on (kmod t_up), diverting t_up, readers t_up) = (AtTop, [], true, false, 1%nat).
Proof. vm_compute. reflexivity. Qed.

Lemma t_up_loop : in_loop t_up = true.
Proof. vm_compute. reflexivity. Qed.

Lemma threads_refine_witness :
  in_loop t_up = true /\ exists open, reachable Visibility (world t_up, open) /\ open ≡ₚ in_flight t_up.
Proof. split; [exact t_up_loop|]. exact (proj1 (threads_refine Visibility t_up t_up_reachable t_up_loop)). Defined.

Lemma udp_covered_witness : diverting t_up = false /\ (0 < readers t_up)%nat /\ mode (dm (world t_up)) = Enforcement.
Proof.
  destruct (udp_covered Visibility t_up t_up_reachable) as (_ & Hidle & _ & _).
  assert (Hto : todo t_up = []) by (vm_compute; reflexivity).
  assert (Hon : pfsn_upcall_on (kmod t_up) = true) by (vm_compute; reflexivity).
  destruct (Hidle t_up_loop Hto) as [Hd Hup]. rewrite Hon in Hd. destruct (Hup Hon) as (Hr & Hm & _).
  split; [exact Hd|]. split; [exact Hr|exact Hm].
Defined.

(** From the top, with nothing in the channels. *)
Lemma pass_completes_witness :
  exists n s', run_turns Visibility t_up (replicate n (Main (world_mod 3 0) true None)) = Some s' /\ main_at s' = AtTop
    /\ world s' = handle_tick (world_mod 3 0) Visibility (world t_up).
Proof.
  destruct (pass_completes Visibility (world_mod 3 0) true None t_up t_up_reachable (world_mod_answers 3 0)) as [_ H].
  destruct (H t_up_loop ltac:(vm_compute; reflexivity)) as (n & s' & Hn & Hat & _ & _ & _ & Hw & _).
  exists n, s'. split; [exact Hn|]. split; [exact Hat|].
  assert (E : main_at t_up = AtTop /\ rx t_up = [] /\ urx t_up = []) by (vm_compute; repeat split).
  destruct E as (E1 & E2 & E3). rewrite E1, E2, E3 in Hw. exact Hw.
Defined.




(** Turning the upcall off, the daemon tells the module before it tells pf: between the two,
    the module no longer asks and pf does not divert yet, and in enforcement a datagram to
    an address the policy denies leaves without anybody having seen it. *)
Definition userspace_text : str := $"mode enforcement" ++ [10] ++ $"attribution procstat" ++ [10] ++ deny_line.
Definition t_window : Threads := after (Edit {[POLICY_PATH := userspace_text]} :: idle 5 1 5) t_up.
Example nobody_governs :
  (pfsn_upcall_on (kmod t_window), diverting t_window, mode (dm (world t_window))) = (false, false, Enforcement)
  /\ todo t_window = [UdpDivert true]
  /\ decide_verdict (pol (dm (world t_window))) (Some curl) peer_ip None 443 = Deny
  /\ (connect_by true 5 other_bytes false 17 curl_info peer_ip 443 (kmod t_window)).2 = 0.
Proof. vm_compute. repeat split; reflexivity. Qed.




