(* ===== verification/Cli.v ===== *)
(** The command line (main.rs): which command an argument vector selects, what each command
    does to the policy file, what it prints on standard output - plain or JSON, exactly as
    a frontend reads it - and its exit status.  Standard error is not modelled. *)
From stdpp Require Import sorting.
From S2P Require Import Prelude Unicode RustStr IpAddr Target Policy PolicyFile Procinfo Abi KernAttr Seen Daemon.

(** ** Results *)

(** The files after the command, its standard output and its exit status. *)
Record Done : Type := mk_done { d_fs : Fs; d_out : str; d_code : Z }.

Definition println (s : str) : str := s ++ [10].
Definition print_lines (ls : list str) : str := concat (map println ls).

(** [{:<w}] and [{:>w}] *)
Definition pad (w : nat) (s : str) : str := s ++ replicate (w - length s) 32.
Definition rpad (w : nat) (s : str) : str := replicate (w - length s) 32 ++ s.

(** [args.iter().any(|a| a == flag)] and the argument after it. *)
Definition has_flag (flag : str) (args : list str) : bool := existsb (str_eqb flag) args.
Fixpoint flag_value (flag : str) (args : list str) : option str :=
  match args with
  | a :: rest => if str_eqb flag a then head rest else flag_value flag rest
  | [] => None
  end.

(** ** JSON *)

Definition hex4 (c : char) : str := [48; 48; digit_char (c / 16); digit_char (c mod 16)].

Definition json_char (c : char) : str :=
  if c =? 34 then [92; 34]
  else if c =? 92 then [92; 92]
  else if c =? 10 then [92; 110]
  else if c =? 13 then [92; 114]
  else if c =? 9 then [92; 116]
  else if c <? 32 then [92; 117] ++ hex4 c
  else [c].

Definition json_escape (s : str) : str := concat (map json_char s).

Definition quoted (s : str) : str := [34] ++ s ++ [34].
Definition jstr (s : str) : str := quoted (json_escape s).
Definition jopt (o : option str) : str := match o with Some s => jstr s | None => $"null" end.
Definition jnum (o : option Z) : str := match o with Some t => show_dec t | None => $"null" end.

(** ["name":value] and a comma when another element follows. *)
Definition member (name v : str) : str := quoted name ++ [58] ++ v.
Definition comma (last : bool) : str := if last then [] else [44].

(** The elements of a list, each told whether it is the last. *)
Fixpoint with_last {A} (l : list A) : list (A * bool) :=
  match l with
  | [] => []
  | [a] => [(a, true)]
  | a :: l => (a, false) :: with_last l
  end.

Definition braces (s : str) : str := [123] ++ s ++ [125].
Definition join_with (sep : str) (ls : list str) : str :=
  match ls with [] => [] | l :: ls => l ++ concat (map (fun x => sep ++ x) ls) end.

(** ** rules *)

Definition rule_json (x : Rule * bool) : str :=
  let '(r, last) := x in
  $"  " ++ braces (member $"kind" (jstr (kind r)) ++ [44] ++ member $"value" (jstr (value r)) ++ [44]
                   ++ member $"comment" (jopt (comment r))) ++ comma last.

Definition rule_text (r : Rule) : str :=
  match comment r with
  | Some c => pad 11 (kind r) ++ [32] ++ pad 44 (value r) ++ $" # " ++ c
  | None => pad 11 (kind r) ++ [32] ++ value r
  end.

Section commands.
Context `{Io}.

Definition cmd_rules (args : list str) (fs : Fs) : Done :=
  let rs := rules fs POLICY_PATH in
  mk_done fs
    (if has_flag $"--json" args
     then print_lines ([[91]] ++ map rule_json (with_last rs) ++ [[93]])
     else match rs with
          | [] => println ($"no rules in " ++ POLICY_PATH)
          | _ => print_lines (map rule_text rs)
          end) 0.

(** ** allow, deny *)

(** The kind of rule a verb, a noun and [--from] stand for. *)
Definition add_kind (verb what : str) (scoped : bool) : option str :=
  let v (k : str) := Some k in
  if str_eqb verb $"allow" then
    if str_eqb what $"host" then v (if scoped then $"allow-host-from" else $"allow-host")
    else if str_eqb what $"dest" || str_eqb what $"ip" then v (if scoped then $"allow-dest-from" else $"allow-dest")
    else if str_eqb what $"app" then v $"allow-app"
    else None
  else if str_eqb verb $"deny" then
    if str_eqb what $"host" then v (if scoped then $"deny-host-from" else $"deny-host")
    else if str_eqb what $"dest" || str_eqb what $"ip" then v (if scoped then $"deny-dest-from" else $"deny-dest")
    else if str_eqb what $"app" then v $"deny-app"
    else None
  else None.

Definition cmd_add (args : list str) (verb : str) (fs : Fs) : Done :=
  match args !! 2%nat, args !! 3%nat with
  | Some what, Some v =>
      let from := flag_value $"--from" args in
      if has_flag $"--from" args && bool_decide (from = None) then mk_done fs [] 64
      else
        match add_kind verb what (bool_decide (is_Some from)) with
        | None => mk_done fs [] 64
        | Some k =>
            let v := match from with
                     | Some e => if ends_with $"-from" k then v ++ [32] ++ e else v
                     | None => v
                     end in
            match add_rule fs POLICY_PATH k v (flag_value $"--note" args) with
            | (fs', IoOk true) => mk_done fs' (println ($"added: " ++ k ++ [32] ++ v)) 0
            | (fs', IoOk false) => mk_done fs' (println ($"already present: " ++ k ++ [32] ++ v)) 0
            | (fs', _) => mk_done fs' [] 1
            end
        end
  | _, _ => mk_done fs [] 64
  end.

(** ** rm *)

Definition cmd_rm (args : list str) (fs : Fs) : Done :=
  match args !! 2%nat, args !! 3%nat with
  | Some k, Some v =>
      if negb (is_kind k) then mk_done fs [] 64
      else
        let v := if ends_with $"-from" k then join_with [32] (drop 3 args) else v in
        match remove_rule fs POLICY_PATH k v with
        | (fs', IoOk O) => mk_done fs' (println ($"no such rule: " ++ k ++ [32] ++ v)) 1
        | (fs', IoOk n) =>
            mk_done fs' (println ($"removed " ++ show_nat n ++ $" rule" ++ (if (n =? 1)%nat then [] else $"s"))) 0
        | (fs', _) => mk_done fs' [] 1
        end
  | _, _ => mk_done fs [] 64
  end.

(** ** status *)

Definition count_kind (rs : list Rule) (k : str) : nat := length (filter (fun r => kind r = k) rs).

Definition cmd_status (prompt_env : option str) (running : bool) (args : list str) (fs : Fs) : Done :=
  let p := load fs POLICY_PATH in
  let rs := rules fs POLICY_PATH in
  let running_s := if running then $"running" else $"stopped" in
  let mode_s := mode_str (policy_mode p Visibility) in
  let prompt_s := prompt_bin p prompt_env PROMPT_BIN in
  mk_done fs
    (if has_flag $"--json" args then
       println (braces (join_with [44]
         [member $"daemon" (quoted running_s); member $"mode" (quoted mode_s); member $"policy" (jstr POLICY_PATH);
          member $"prompt" (jstr prompt_s);
          member $"rules" (braces (join_with [44] (map (fun k => member k (show_nat (count_kind rs k))) KINDS)));
          member $"total" (show_nat (length rs))]))
     else
       print_lines ([$"daemon:  " ++ running_s; $"mode:    " ++ mode_s; $"policy:  " ++ POLICY_PATH;
                     $"prompt:  " ++ prompt_s; $"default: " ++ summary p]
                    ++ map (fun k => $"  " ++ pad 11 k ++ [32] ++ show_nat (count_kind rs k)) KINDS
                    ++ [$"  " ++ pad 11 $"total" ++ [32] ++ show_nat (length rs)])) 0.

(** ** mode, attribution, forget, clear *)

Definition cmd_mode (args : list str) (fs : Fs) : Done :=
  match args !! 2%nat with
  | None => mk_done fs (println (mode_str (policy_mode (load fs POLICY_PATH) Visibility))) 0
  | Some want =>
      match parse_mode want with
      | None => mk_done fs [] 64
      | Some m =>
          match PolicyFile.set_mode fs POLICY_PATH m with
          | (fs', true) =>
              mk_done fs' (print_lines
                [$"mode: " ++ mode_str m;
                 (if enforcing m then $"  unapproved connections are now blocked"
                  else $"  decisions are logged; nothing is blocked");
                 $"  the running daemon picks this up within a second"]) 0
          | (fs', false) => mk_done fs' [] 1
          end
      end
  end.

Definition cmd_attribution (args : list str) (fs : Fs) : Done :=
  match args !! 2%nat with
  | None => mk_done fs (println (attribution_str (attribution (load fs POLICY_PATH)))) 0
  | Some want =>
      match parse_attribution want with
      | None => mk_done fs [] 64
      | Some a =>
          match set_attribution fs POLICY_PATH a with
          | (fs', true) =>
              mk_done fs' (print_lines
                ([$"attribution: " ++ attribution_str a]
                 ++ (match a with
                     | Policy.Kernel => [$"  flows are named by mac_pfsnitch.ko, recorded at socket";
                                         $"  creation; procstat remains the fallback for a miss"]
                     | Policy.Procstat => [$"  flows are named by scanning the process table (userspace)"]
                     end)
                 ++ [$"  the running daemon picks this up within a second"])) 0
          | (fs', false) => mk_done fs' [] 1
          end
      end
  end.

Definition cmd_forget (args : list str) (fs : Fs) : Done :=
  match args !! 2%nat with
  | Some (_ :: _ as exe) =>
      if str_eqb exe $"-" then mk_done fs [] 64
      else
        match remove_app fs POLICY_PATH exe with
        | (fs', IoOk (O, _)) => mk_done fs' (println ($"no rules for " ++ exe)) 1
        | (fs', IoOk (n, backup)) =>
            mk_done fs' (print_lines
              [$"removed " ++ show_nat n ++ $" rule" ++ (if (n =? 1)%nat then [] else $"s") ++ $" for " ++ exe;
               $"  previous policy saved as " ++ backup]) 0
        | (fs', _) => mk_done fs' [] 1
        end
  | _ => mk_done fs [] 64
  end.

Definition cmd_clear (args : list str) (fs : Fs) : Done :=
  let rs := rules fs POLICY_PATH in
  if negb (has_flag $"--yes" args) then
    mk_done fs (print_lines
      ([$"this removes ALL " ++ show_nat (length rs) ++ $" rules from " ++ POLICY_PATH]
       ++ (if enforcing (policy_mode (load fs POLICY_PATH) Visibility)
           then [[]; $"  you are in ENFORCEMENT. Clearing includes the infrastructure rules -";
                 $"  your gateway and resolver - so every connection will prompt until you";
                 $"  approve them again, starting with DNS."]
           else [])
       ++ [[]; $"  re-run with --yes to do it (the previous policy is kept as a .bak)"])) 1
  else
    match clear_rules fs POLICY_PATH with
    | (fs', IoOk (O, _)) => mk_done fs' (println $"no rules to clear") 0
    | (fs', IoOk (n, backup)) =>
        mk_done fs' (print_lines [$"cleared " ++ show_nat n ++ $" rules"; $"  previous policy saved as " ++ backup]) 0
    | (fs', _) => mk_done fs' [] 1
    end.
End commands.

(** ** apps *)

(** A rule broken into the owning binary ([] when it has none), the destination, and
    whether it denies. *)
Record Split : Type := mk_split { s_app : str; s_dest : str; s_effect : str }.

Definition all_destinations : str := $"all destinations".

Definition split_rule (k v : str) : Split :=
  let effect := if starts_with $"deny" k then $"deny" else $"allow" in
  if one_of k [$"allow-app"; $"deny-app"] then mk_split v all_destinations effect
  else if one_of k [$"allow-host-from"; $"allow-dest-from"; $"deny-host-from"; $"deny-dest-from"] then
    let '(dest, rest) := split_ws v in mk_split (trim (default [] rest)) dest effect
  else mk_split [] v effect.

(** The groups, in the order of their first rule, each with its rules in file order. *)
Abbreviation Entry := (Rule * Split)%type.

Fixpoint add_group (app : str) (e : Entry) (gs : list (str * list Entry)) : list (str * list Entry) :=
  match gs with
  | [] => [(app, [e])]
  | (a, es) :: gs => if str_eqb a app then (a, es ++ [e]) :: gs else (a, es) :: add_group app e gs
  end.

Definition group_rules (rs : list Rule) : list (str * list Entry) :=
  foldl (fun gs r => let s := split_rule (kind r) (value r) in add_group (s_app s) (r, s) gs) [] rs.

(** Byte order of strings, which is the order of their characters. *)
Fixpoint str_leb (a b : str) : bool :=
  match a, b with
  | [], _ => true
  | _ :: _, [] => false
  | x :: a, y :: b => (x <? y) || ((x =? y) && str_leb a b)
  end.

(** [(a.is_empty(), basename in lower case)]: the rules of no binary come last. *)
Definition app_key (a : str) : bool * str := (bool_decide (a = []), to_lowercase (basename a)).
Definition app_leb (a b : str) : bool :=
  let '(ea, ka) := app_key a in
  let '(eb, kb) := app_key b in
  if Bool.eqb ea eb then str_leb ka kb else eb.

(** [sort_by_key] is stable. *)
Fixpoint insert_group (g : str * list Entry) (gs : list (str * list Entry)) : list (str * list Entry) :=
  match gs with
  | [] => [g]
  | h :: t => if app_leb h.1 g.1 then h :: insert_group g t else g :: h :: t
  end.
Definition sort_groups (gs : list (str * list Entry)) : list (str * list Entry) :=
  foldl (fun acc g => insert_group g acc) [] gs.

(** [iter().max()] *)
Definition max_opt (l : list Z) : option Z :=
  match l with [] => None | t :: l => Some (foldl Z.max t l) end.

(** The contacts recorded by the daemon, as a list of ((binary, destination), time). *)
Section seen_table.
Context (last : SeenMap).

Definition times (f : str * str -> bool) : list Z :=
  omap (fun '(k, t) => if f k then Some t else None) (map_to_list last).

Definition app_times (app : str) : option Z := max_opt (times (fun k => str_eqb k.1 app)).

Definition rule_seen (app : str) (s : Split) : option Z :=
  let host := to_lowercase (split_target (s_dest s)).1 in
  match app with
  | [] => max_opt (times (fun k => str_eqb k.2 host))
  | _ => if str_eqb (s_dest s) all_destinations then app_times app else last !! (app, host)
  end.

Definition group_last (app : str) (es : list Entry) : option Z :=
  match app with
  | [] => max_opt (omap (fun e => rule_seen app e.2) es)
  | _ => app_times app
  end.

Definition count_allow (es : list Entry) : nat := length (filter (fun e : Entry => s_effect e.2 = $"allow") es).

(** [short_dir]: the end of a directory, cut at a separator; 8230 is the ellipsis. *)
Definition short_dir (dir : str) (max : nat) : str :=
  if (length dir <=? max)%nat then dir
  else
    let tail := drop (length dir - (max - 1)) dir in
    match break_on (is_char 47) tail with
    | (_, Some rest) => [8230; 47] ++ rest
    | (_, None) => [8230] ++ tail
    end.

(** The directory, with its separator, and the name. *)
Definition dir_name (app : str) : str * str :=
  match app with
  | [] => ([], $"any application")
  | _ => match rbreak_on (is_char 47) app with
         | Some (d, n) => (d ++ [47], n)
         | None => ([], app)
         end
  end.

(** [now] is the time [ago] compares with. *)
Context (now : Z).

Definition entry_text (app : str) (e : Entry) : str :=
  $"    " ++ pad 5 (s_effect e.2) ++ [32] ++ pad 40 (s_dest e.2) ++ [32] ++ pad 10 (ago now (rule_seen app e.2))
  ++ [32] ++ kind e.1.

Definition group_text (g : str * list Entry) : list str :=
  let '(app, es) := g in
  let allow := count_allow es in
  (match app with [] => $"(any application)" | _ => app end ++ $"  [" ++ show_nat allow ++ $" allow, "
   ++ show_nat (length es - allow) ++ $" deny]  last: " ++ ago now (group_last app es))
  :: map (entry_text app) es.

Definition entry_json (app : str) (x : Entry * bool) : str :=
  let '((r, s), last_one) := x in
  let ls := rule_seen app s in
  $"      " ++ braces (join_with [44]
     [member $"kind" (jstr (kind r)); member $"value" (jstr (value r)); member $"dest" (jstr (s_dest s));
      member $"effect" (quoted (s_effect s)); member $"last_seen" (jnum ls);
      member $"last_seen_ago" (jstr (ago now ls)); member $"comment" (jopt (comment r))])
  ++ comma last_one.

Definition group_json (x : (str * list Entry) * bool) : list str :=
  let '((app, es), last_one) := x in
  let '(dir, name) := dir_name app in
  let allow := count_allow es in
  let seen_at := group_last app es in
  [ $"  " ++ [123];
    $"    " ++ member $"app" (jstr app) ++ [44];
    $"    " ++ member $"dir" (jstr dir) ++ [44];
    $"    " ++ member $"dir_short" (jstr (short_dir dir 15)) ++ [44];
    $"    " ++ member $"name" (jstr name) ++ [44];
    $"    " ++ join_with [44] [member $"allow" (show_nat allow); member $"deny" (show_nat (length es - allow));
                               member $"total" (show_nat (length es))] ++ [44];
    $"    " ++ member $"last_seen" (jnum seen_at) ++ [44] ++ member $"last_seen_ago" (jstr (ago now seen_at)) ++ [44];
    $"    " ++ member $"rules" [91] ]
  ++ map (entry_json app) (with_last es)
  ++ [ $"    " ++ [93]; $"  " ++ [125] ++ comma last_one ].
End seen_table.

Definition cmd_apps `{Io} (now : Z) (args : list str) (fs : Fs) : Done :=
  let gs := sort_groups (group_rules (rules fs POLICY_PATH)) in
  let last := seen_load fs in
  mk_done fs
    (if negb (has_flag $"--json" args) then
       match gs with
       | [] => println ($"no rules in " ++ POLICY_PATH)
       | _ => print_lines (concat (map (group_text last now) gs))
       end
     else
       print_lines ([[123] ++ quoted $"apps" ++ [58; 91]]
                    ++ concat (map (group_json last now) (with_last gs)) ++ [[93; 125]])) 0.

(** ** probe *)

Definition entry_leb (a b : ProbeEntry) : bool :=
  let ca := command (pe_owner a) in
  let cb := command (pe_owner b) in
  if str_eqb ca cb then pe_lport a <=? pe_lport b else str_leb ca cb.
Fixpoint insert_entry (e : ProbeEntry) (l : list ProbeEntry) : list ProbeEntry :=
  match l with
  | [] => [e]
  | h :: t => if entry_leb h e then h :: insert_entry e t else e :: h :: t
  end.
Definition sort_entries (l : list ProbeEntry) : list ProbeEntry := foldl (fun acc e => insert_entry e acc) [] l.

Definition entry_row (e : ProbeEntry) : str :=
  let remote := match pe_peer e with
                | Some (ip, p) => show_ip ip ++ [58] ++ show_dec p
                | None => $"(unconnected) " ++ show_ip (pe_local e) ++ [58] ++ show_dec (pe_lport e)
                end in
  pad 16 (command (pe_owner e)) ++ [32] ++ rpad 7 (show_int (pid (pe_owner e))) ++ $"  "
  ++ pad 40 (exe_path (pe_owner e)) ++ [32] ++ pad 26 remote ++ [32] ++ confidence_str (pe_confidence e).

Definition probe (procs : option (list Proc)) (fs : Fs) : Done :=
  mk_done fs
    (print_lines ((pad 16 $"COMMAND" ++ [32] ++ rpad 7 $"PID" ++ $"  " ++ pad 40 $"PATH" ++ [32]
                   ++ pad 26 $"REMOTE" ++ [32] ++ $"HOW")
                  :: map entry_row (sort_entries (entries (snapshot procs))))) 0.

(** ** kernel-reset *)

(** The ioctls on the device, when it opens. *)
Definition cmd_kernel_reset (env : Env) : list effect :=
  if e_open env then
    let '(k, es1) := k_set_upcall env false (mk_kern false) in
    let '(_, es2) := k_flush env k in es1 ++ es2
  else [].

(** ** Choosing a command *)

Inductive Command : Type :=
| Probe | Run (m : Mode) | Rules | Add (verb : str) | Rm | Status | SetMode | SetAttr | KernelReset | Apps | Forget
| Clear | Usage (code : Z).

Definition command_of (args : list str) : Command :=
  let c := default $"help" (args !! 1%nat) in
  if str_eqb c $"probe" then Probe
  else if one_of c [$"visibility"; $"listen"] then Run Visibility
  else if one_of c [$"enforcement"; $"enforce"] then Run Enforcement
  else if one_of c [$"rules"; $"list"] then Rules
  else if str_eqb c $"allow" then Add $"allow"
  else if str_eqb c $"deny" then Add $"deny"
  else if one_of c [$"rm"; $"remove"] then Rm
  else if str_eqb c $"status" then Status
  else if str_eqb c $"mode" then SetMode
  else if str_eqb c $"attribution" then SetAttr
  else if str_eqb c $"kernel-reset" then KernelReset
  else if str_eqb c $"apps" then Apps
  else if str_eqb c $"forget" then Forget
  else if str_eqb c $"clear" then Clear
  else if one_of c [$"help"; $"-h"; $"--help"] then Usage 0
  else Usage 64.

(** ** What frontends read back *)

(** A JSON string after its opening quote (RFC 8259): the text it stands for, and what
    follows its closing quote.  A control character in it is an error. *)
Definition hex_digit (c : char) : option Z := to_digit 16 c.

Fixpoint json_string (s : str) : option (str * str) :=
  match s with
  | [] => None
  | c :: s1 =>
      let more (d : char) (rest : option (str * str)) := '(t, tl) ← rest; Some (d :: t, tl) in
      if c =? 34 then Some ([], s1)
      else if c =? 92 then
        match s1 with
        | [] => None
        | e :: s2 =>
            if e =? 34 then more 34 (json_string s2)
            else if e =? 92 then more 92 (json_string s2)
            else if e =? 110 then more 10 (json_string s2)
            else if e =? 114 then more 13 (json_string s2)
            else if e =? 116 then more 9 (json_string s2)
            else if e =? 117 then
              match s2 with
              | a :: b :: x :: y :: s3 =>
                  a ← hex_digit a; b ← hex_digit b; x ← hex_digit x; y ← hex_digit y;
                  more (((a * 16 + b) * 16 + x) * 16 + y) (json_string s3)
              | _ => None
              end
            else None
        end
      else if c <? 32 then None
      else more c (json_string s1)
  end.

Lemma hex_digit_char d : 0 <= d < 16 -> hex_digit (digit_char d) = Some d.
Proof.
  intros Hd. 
  assert (forall n, (n < 16)%nat -> hex_digit (digit_char (Z.of_nat n)) = Some (Z.of_nat n)) as Hall.
  { intros n Hn. do 16 (destruct n as [|n]; [reflexivity|]). lia. }
  rewrite <- (Z2Nat.id d) by lia. apply Hall. lia.
Qed.

Lemma json_char_read c s :
  0 <= c -> json_string (json_char c ++ s) = ('(t, tl) ← json_string s; Some (c :: t, tl)).
Proof.
  intros Hc. unfold json_char.
  destruct (Z.eqb_spec c 34) as [-> |H1]; [reflexivity|].
  destruct (Z.eqb_spec c 92) as [-> |H2]; [reflexivity|].
  destruct (Z.eqb_spec c 10) as [-> |H3]; [reflexivity|].
  destruct (Z.eqb_spec c 13) as [-> |H4]; [reflexivity|].
  destruct (Z.eqb_spec c 9) as [-> |H5]; [reflexivity|].
  destruct (Z.ltb_spec c 32).
  - unfold hex4. cbn [app json_string Z.eqb Pos.eqb].
    rewrite !hex_digit_char by (split; [apply Z.div_pos || apply Z.mod_pos_bound|apply Z.div_lt_upper_bound || apply Z.mod_pos_bound]; lia).
    change (hex_digit 48) with (Some 0). cbn [mbind option_bind].
    assert (((0 * 16 + 0) * 16 + c / 16) * 16 + c mod 16 = c) as ->; [|done].
    rewrite (Z.div_mod c 16) at 3 by lia. lia.
  - cbn [app json_string]. rewrite !(proj2 (Z.eqb_neq _ _)) by done. by rewrite (proj2 (Z.ltb_ge _ _)).
Qed.

(** JSON output cannot be broken out of: whatever a rule, a comment or a path
    contains - quotes, backslashes, control characters - a JSON reader that has passed the
    opening quote reads back exactly that text and stops at the closing quote the program
    wrote, whatever follows it. *)
Theorem json_reads_back s rest :
  Forall (fun c : char => 0 <= c) s -> json_string (json_escape s ++ 34 :: rest) = Some (s, rest).
Proof.
  induction 1 as [|c s Hc _ IH]; [done|]. unfold json_escape in *. cbn [map concat].
  rewrite <- app_assoc, json_char_read by done. by rewrite IH.
Qed.

Lemma json_reads_back_witness :
  json_string (json_escape [34; 92; 10; 1; 955] ++ 34 :: $",x") = Some ([34; 92; 10; 1; 955], $",x").
Proof. apply json_reads_back. repeat (constructor; [lia|]). constructor. Defined.

(** ** The grouping *)

Lemma add_group_keys app e gs :
  map fst (add_group app e gs) = if bool_decide (app ∈ map fst gs) then map fst gs else map fst gs ++ [app].
Proof.
  induction gs as [|[a es] gs IH].
  { cbn. rewrite bool_decide_eq_false_2; [done|]. apply not_elem_of_nil. }
  cbn [add_group map fst]. destruct (decide (a = app)) as [-> |Hne]; [rewrite str_eqb_refl|rewrite str_eqb_neq by done].
  - cbn [map fst]. by rewrite bool_decide_eq_true_2 by (by left).
  - cbn [map fst]. rewrite IH. case_bool_decide as H1; case_bool_decide as H2; try done.
    + exfalso. apply H2. by right.
    + exfalso. apply H1. by apply elem_of_cons in H2 as [->|H2].
Qed.

Lemma filter_none {A} (P : A -> Prop) `{!forall x, Decision (P x)} (l : list A) :
  (forall x, x ∈ l -> ~ P x) -> filter P l = [].
Proof.
  induction l as [|x l IH]; intros Hl; [done|]. rewrite filter_cons_False by (apply Hl; by left).
  apply IH. intros y Hy. apply Hl. by right.
Qed.

(** The rules of one application among the groups. *)
Definition group_of (app : str) (gs : list (str * list Entry)) : list Entry :=
  concat (map snd (filter (fun g : str * list Entry => g.1 = app) gs)).

Lemma group_of_cons app g gs :
  group_of app (g :: gs) = (if bool_decide (g.1 = app) then g.2 else []) ++ group_of app gs.
Proof.
  unfold group_of. destruct (decide (g.1 = app)) as [Ha|Ha].
  - by rewrite filter_cons_True, bool_decide_eq_true_2 by done.
  - by rewrite filter_cons_False, bool_decide_eq_false_2 by done.
Qed.

Lemma group_of_absent app gs : app ∉ map fst gs -> group_of app gs = [].
Proof.
  intros Hn. unfold group_of. rewrite filter_none; [done|]. intros g Hg Heq. apply Hn.
  rewrite <- Heq. by apply list_elem_of_fmap_2.
Qed.

Lemma group_of_add app e gs app' :
  NoDup (map fst gs) ->
  group_of app' (add_group app e gs) = group_of app' gs ++ (if bool_decide (app = app') then [e] else []).
Proof.
  induction gs as [|[a es] gs IH]; intros Hnd; cbn [add_group].
  - rewrite group_of_cons. cbn [fst snd]. by rewrite app_nil_r.
  - cbn [map fst] in Hnd. apply NoDup_cons in Hnd as [Hn Hnd].
    destruct (decide (a = app)) as [-> |Hne]; [rewrite str_eqb_refl|rewrite str_eqb_neq by done];
      rewrite !group_of_cons; cbn [fst snd].
    + case_bool_decide as Hd; [subst app'|by rewrite app_nil_r].
      by rewrite (group_of_absent app gs), !app_nil_r.
    + by rewrite IH, app_assoc.
Qed.

(** Grouping loses nothing, repeats nothing, and keeps the file order. *)
Lemma group_rules_spec rs :
  NoDup (map fst (group_rules rs))
  /\ (forall app, group_of app (group_rules rs)
       = omap (fun r => let s := split_rule (kind r) (value r) in
                        if bool_decide (s_app s = app) then Some (r, s) else None) rs)
  /\ Forall (fun g => g.2 <> []) (group_rules rs).
Proof.
  unfold group_rules. induction rs as [|r rs IH] using rev_ind; [split_and!; [constructor|done|constructor]|].
  rewrite foldl_app. cbn [foldl]. cbv zeta. destruct IH as (IH1 & IH2 & IH3).
  set (gs := foldl _ [] rs) in *. set (sp := split_rule (kind r) (value r)). split_and!.
  - rewrite add_group_keys. case_bool_decide as H; [done|]. apply NoDup_app. split; [done|].
    split; [|apply NoDup_singleton]. by intros x Hx ->%list_elem_of_singleton.
  - intros app. rewrite group_of_add by done. rewrite IH2, omap_app. f_equal. cbn.
    fold sp. by case_bool_decide.
  - clear -IH3. induction gs as [|[a es] gs IH]; cbn [add_group]; [by repeat constructor|].
    apply Forall_cons in IH3 as [H1 H2]. destruct (str_eqb a (s_app sp)); constructor; auto. by destruct es.
Qed.

(** ** The order of the groups *)

Lemma str_leb_total a b : str_leb a b = true \/ str_leb b a = true.
Proof.
  revert b. induction a as [|x a IH]; intros [|y b]; cbn [str_leb]; [by left..|by right|].
  destruct (Z.ltb_spec x y); [by left|]. destruct (Z.ltb_spec y x); [by right|].
  assert (x = y) as -> by lia. rewrite Z.eqb_refl. apply IH.
Qed.

Lemma app_leb_total a b : app_leb a b = true \/ app_leb b a = true.
Proof.
  unfold app_leb. destruct (app_key a) as [ea ka], (app_key b) as [eb kb].
  destruct ea, eb; cbn [Bool.eqb]; [apply str_leb_total|by right|by left|apply str_leb_total].
Qed.

Abbreviation group_le := (fun g h : str * list Entry => app_leb g.1 h.1 = true).

Lemma insert_group_sorted g gs : Sorted group_le gs -> Sorted group_le (insert_group g gs).
Proof.
  induction gs as [|h gs IH]; intros Hs; cbn [insert_group]; [by repeat constructor|].
  destruct (app_leb h.1 g.1) eqn:E.
  - apply Sorted_inv in Hs as [Hs Hh]. constructor; [by apply IH|].
    destruct gs as [|k gs]; cbn [insert_group]; [by constructor|].
    destruct (app_leb k.1 g.1); constructor; [by inversion Hh|done].
  - constructor; [done|]. constructor. destruct (app_leb_total h.1 g.1); [congruence|done].
Qed.

Lemma insert_group_perm g gs : insert_group g gs ≡ₚ g :: gs.
Proof.
  induction gs as [|h gs IH]; cbn [insert_group]; [done|]. destruct (app_leb h.1 g.1); [|done].
  rewrite IH. apply Permutation_swap.
Qed.

Lemma sort_groups_spec gs : Sorted group_le (sort_groups gs) /\ sort_groups gs ≡ₚ gs.
Proof.
  unfold sort_groups.
  assert (forall acc, Sorted group_le acc ->
    Sorted group_le (foldl (fun acc g => insert_group g acc) acc gs)
    /\ foldl (fun acc g => insert_group g acc) acc gs ≡ₚ acc ++ gs) as H.
  { induction gs as [|g gs IH]; intros acc Ha; cbn [foldl]; [by rewrite app_nil_r|].
    destruct (IH _ (insert_group_sorted g acc Ha)) as [H1 H2]. split; [done|].
    rewrite H2, insert_group_perm. cbn. apply Permutation_middle. }
  destruct (H [] (Sorted_nil _)) as [H1 H2]. by split.
Qed.

Lemma group_of_perm app gs gs' : NoDup (map fst gs) -> gs' ≡ₚ gs -> group_of app gs' = group_of app gs.
Proof.
  intros Hnd Hp. 
  assert (forall l : list (str * list Entry), NoDup (map fst l) ->
    group_of app l = match filter (fun g : str * list Entry => g.1 = app) l with g :: _ => g.2 | [] => [] end) as Hone.
  { intros l Hl. unfold group_of. induction l as [|g l IH]; [done|]. cbn [map] in Hl.
    apply NoDup_cons in Hl as [Hn Hl]. destruct (decide (g.1 = app)) as [Ha|Ha].
    - rewrite filter_cons_True by done. cbn [map concat]. rewrite filter_none; [by rewrite app_nil_r|].
      intros h Hh Heq. apply Hn. rewrite Ha, <- Heq. by apply list_elem_of_fmap_2.
    - rewrite filter_cons_False by done. by apply IH. }
  rewrite (Hone gs Hnd), Hone by by rewrite Hp.
  assert (Hf : filter (fun g : str * list Entry => g.1 = app) gs' ≡ₚ filter (fun g : str * list Entry => g.1 = app) gs).
  { by rewrite Hp. }
  assert (Hle : (length (filter (fun g : str * list Entry => g.1 = app) gs) <= 1)%nat).
  { clear -Hnd. induction gs as [|g l IH]; [cbn; lia|]. cbn [map] in Hnd. apply NoDup_cons in Hnd as [Hn Hl].
    destruct (decide (g.1 = app)) as [Ha|Ha].
    - rewrite filter_cons_True by done. rewrite filter_none; [cbn; lia|].
      intros h Hh Heq. apply Hn. rewrite Ha, <- Heq. by apply list_elem_of_fmap_2.
    - rewrite filter_cons_False by done. by apply IH. }
  destruct (filter _ gs) as [|g [|]]; [apply Permutation_nil_r in Hf as ->; done| |cbn in Hle; lia].
  by apply Permutation_singleton_r in Hf as ->.
Qed.

(** The list by application shows every rule once: each application heads one group,
    its group holds exactly the rules that name it, in file order, no group is empty, and
    the groups come in the order of the applications' names with the rules of no
    application last. *)
Theorem apps_partition rs :
  let gs := sort_groups (group_rules rs) in
  NoDup (map fst gs)
  /\ (forall app, group_of app gs
       = omap (fun r => let s := split_rule (kind r) (value r) in
                        if bool_decide (s_app s = app) then Some (r, s) else None) rs)
  /\ Forall (fun g => g.2 <> []) gs
  /\ Sorted group_le gs.
Proof.
  cbn zeta. destruct (group_rules_spec rs) as (H1 & H2 & H3).
  destruct (sort_groups_spec (group_rules rs)) as [Hs Hp]. split_and!; [by rewrite Hp| |by rewrite Hp|done].
  intros app. rewrite <- H2. by apply group_of_perm.
Qed.

(** ** Scoped requests *)

Lemma some_back {A} (a b : A) : Some a = Some b -> b = a.
Proof. by intros [= ->]. Qed.

Lemma add_kind_kind verb what scoped k :
  add_kind verb what scoped = Some k ->
  is_kind k = true /\ starts_with verb k = true
  /\ (scoped = true -> what <> $"app" -> ends_with $"-from" k = true)
  /\ (scoped = false -> ends_with $"-from" k = false).
Proof.
  unfold add_kind. cbv zeta. intros Hk.
  destruct (str_eqb verb $"allow") eqn:E1; [apply str_eqb_eq in E1 as ->|
    destruct (str_eqb verb $"deny") eqn:E2; [apply str_eqb_eq in E2 as ->|discriminate Hk]].
  all: destruct (str_eqb what $"host"); [|destruct (str_eqb what $"dest" || str_eqb what $"ip");
         [|destruct (str_eqb what $"app") eqn:E3; [apply str_eqb_eq in E3|discriminate Hk]]].
  all: destruct scoped; apply some_back in Hk; subst k.
  all: split; [vm_compute; reflexivity|]; split; [vm_compute; reflexivity|].
  all: split; intros ?; try discriminate; try (intros ?; congruence); vm_compute; try reflexivity; intros; reflexivity.
Qed.

(** A request that names a binary is never widened: with [--from], adding a host or
    an address either refuses and leaves the files alone, or adds a rule of a scoped kind,
    of the verb that was asked for, whose value names that binary - and never a rule for
    every program. *)
Theorem add_never_widens `{Io} (args : list str) (verb : str) (fs : Fs) :
  has_flag $"--from" args = true -> args !! 2%nat <> Some $"app" ->
  let r := cmd_add args verb fs in
  (d_code r = 64 /\ d_fs r = fs)
  \/ exists k v e, is_kind k = true /\ starts_with verb k = true /\ ends_with $"-from" k = true
       /\ args !! 3%nat = Some v /\ flag_value $"--from" args = Some e
       /\ d_fs r = (add_rule fs POLICY_PATH k (v ++ [32] ++ e) (flag_value $"--note" args)).1
       /\ d_code r = match (add_rule fs POLICY_PATH k (v ++ [32] ++ e) (flag_value $"--note" args)).2 with
                     | IoOk _ => 0
                     | _ => 1
                     end.
Proof.
  intros Hf Hw. cbn zeta. unfold cmd_add. rewrite Hf.
  destruct (args !! 2%nat) as [what|]; [|by left]. destruct (args !! 3%nat) as [v|]; [|by left].
  destruct (flag_value $"--from" args) as [e|] eqn:Ee; [|by left].
  rewrite bool_decide_eq_false_2 by done. cbn [andb]. rewrite bool_decide_eq_true_2 by eauto.
  destruct (add_kind verb what true) as [k|] eqn:Ek; [|by left].
  apply add_kind_kind in Ek as (H1 & H2 & H3 & _).
  assert (ends_with $"-from" k = true) as H4 by (apply H3; [done|congruence]). rewrite H4.
  right. exists k, v, e. split_and!; try done.
  - destruct (add_rule _ _ _ _ _) as [fs' [[]| |]]; done.
  - destruct (add_rule _ _ _ _ _) as [fs' [[]| |]]; done.
Qed.

Definition deny_args : list str :=
  [$"pfsnitch"; $"deny"; $"host"; $"metrics.example.com"; $"--from"; $"/usr/local/bin/someapp"].

Lemma add_never_widens_witness :
  d_code (@cmd_add io_fine deny_args $"deny" ∅) = 0
  /\ exists k, ends_with $"-from" k = true /\
       d_fs (@cmd_add io_fine deny_args $"deny" ∅)
       = (@add_rule io_fine ∅ POLICY_PATH k ($"metrics.example.com" ++ [32] ++ $"/usr/local/bin/someapp") None).1.
Proof.
  assert (Hc : d_code (@cmd_add io_fine deny_args $"deny" ∅) = 0) by (vm_compute; reflexivity).
  split; [exact Hc|].
  destruct (@add_never_widens io_fine deny_args $"deny" ∅) as [[H64 _]|(k & v & e & _ & _ & H3 & H4 & H5 & H6 & _)].
  - vm_compute. reflexivity.
  - vm_compute. intros H. discriminate H.
  - rewrite Hc in H64. discriminate H64.
  - exists k. split; [exact H3|]. rewrite H6.
    assert (v = $"metrics.example.com") as ->.
    { change v with (default [] (Some v)). rewrite <- H4. vm_compute. reflexivity. }
    assert (e = $"/usr/local/bin/someapp") as ->.
    { change e with (default [] (Some e)). rewrite <- H5. vm_compute. reflexivity. }
    assert (flag_value $"--note" deny_args = None) as -> by (vm_compute; reflexivity).
    reflexivity.
Defined.

(** Listing commands, on a small policy. *)
Example cli_apps_json :
  d_out (@cmd_apps io_fine 100 [$"pfsnitch"; $"apps"; $"--json"]
    {[POLICY_PATH := $"deny-app /tmp/git" ++ [10]; PATH := $"40" ++ [9] ++ $"h" ++ [9] ++ $"/tmp/git" ++ [10]]})
  = print_lines
        [[123; 34] ++ $"apps" ++ [34; 58; 91]; $"  " ++ [123];
         $"    " ++ quoted $"app" ++ [58] ++ quoted $"/tmp/git" ++ [44];
         $"    " ++ quoted $"dir" ++ [58] ++ quoted $"/tmp/" ++ [44];
         $"    " ++ quoted $"dir_short" ++ [58] ++ quoted $"/tmp/" ++ [44];
         $"    " ++ quoted $"name" ++ [58] ++ quoted $"git" ++ [44];
         $"    " ++ quoted $"allow" ++ $":0," ++ quoted $"deny" ++ $":1," ++ quoted $"total" ++ $":1,";
         $"    " ++ quoted $"last_seen" ++ $":40," ++ quoted $"last_seen_ago" ++ [58] ++ quoted $"1m ago" ++ [44];
         $"    " ++ quoted $"rules" ++ $":[";
         $"      " ++ [123] ++ quoted $"kind" ++ [58] ++ quoted $"deny-app" ++ [44] ++ quoted $"value" ++ [58]
           ++ quoted $"/tmp/git" ++ [44] ++ quoted $"dest" ++ [58] ++ quoted $"all destinations" ++ [44]
           ++ quoted $"effect" ++ [58] ++ quoted $"deny" ++ [44] ++ quoted $"last_seen" ++ $":40,"
           ++ quoted $"last_seen_ago" ++ [58] ++ quoted $"1m ago" ++ [44] ++ quoted $"comment" ++ $":null" ++ [125];
         $"    ]"; $"  " ++ [125]; $"]" ++ [125]].
Proof. vm_compute. reflexivity. Qed.
