(* ===== verification/Watchdog.v ===== *)
(** The watchdog (libexec/pfsnitch-watchdog): the loop that notices a dead daemon and decides
    what the network does, one pass at a time, with the kernel module it resets.

    pf is the class [Pf]: what an anchor holds and what [pfctl -s rules] shows of it; whether a
    call succeeds and what a file loads as are part of a turn, and so is what everybody else
    does between two turns.  pgrep is the class [Pgrep].  Log lines are not modelled. *)
From S2P Require Import Prelude Unicode RustStr Procinfo Abi KernAttr Seen Daemon KernModule ModuleDaemon ModuleScenario Cli.

(** An anchor's rules; [pfctl -F rules] leaves none, and then none are shown. *)
Class Pf : Type := {
  Ruleset : Type;
  no_rules : Ruleset;
  show_rules : Ruleset -> list str;
  show_none : show_rules no_rules = []
}.

(** A process: its pid, its name and its argument vector, when that can be read. *)
Record Process : Type := mk_process { pr_pid : Z; pr_comm : list Z; pr_argv : option (list (list Z)) }.

(** [pgrep -x pfsnitch] (pgrep(1)): is there a process of exactly this name? *)
Class Pgrep : Type := {
  pgrep_x : list Z -> list Process -> bool;
  pgrep_x_ok : forall name t, pgrep_x name t = true <-> exists p, p ∈ t /\ pr_comm p = name
}.

(** [grep -q] for a fixed text, and for [.] *)
Fixpoint has_word (p s : str) : bool :=
  starts_with p s || match s with [] => false | _ :: s' => has_word p s' end.
Definition grep (p : str) (lines : list str) : bool := existsb (has_word p) lines.
Definition grep_any (lines : list str) : bool := existsb (fun l => negb (bool_decide (l = []))) lines.

Definition THRESHOLD : Z := 3.
Definition STRANDED_THRESHOLD : Z := 3.

(** The variables of the script. *)
Record Watch : Type := mk_watch { MISSES : Z; KRESET : bool; STRANDED : Z }.
Definition watch_start : Watch := mk_watch 0 false 0.

(** What it did, in order. *)
Inductive deed : Type := LoadAnchor (ok : bool) | LoadOpen (ok : bool) | FlushRules | ResetKernel.

Section watchdog.
Context `{Pf, Pgrep, Pcbs}.

(** What it acts upon: the anchor and the kernel module. *)
Record Net : Type := mk_net { rules : Ruleset; kmodule : Module_ }.
Definition set_rules (r : Ruleset) (n : Net) : Net := mk_net r (kmodule n).
Definition set_kmodule (m : Module_) (n : Net) : Net := mk_net (rules n) m.

(** One turn: what happens before it, the process table it meets, whether the rules can be
    listed and flushed, what [$ANCHOR] and [$FAILOPEN] load as ([None]: pfctl refuses), and
    the device as [pfsnitch kernel-reset] finds it. *)
Record Turn : Type := mk_turn {
  t_before : Net -> Net;
  t_procs : list Process;
  t_list : bool;
  t_flush : bool;
  t_anchor : option Ruleset;
  t_failopen : option Ruleset;
  t_env : Env;
  t_mem : bool
}.

Definition daemon_seen (t : Turn) : bool := pgrep_x $"pfsnitch" (t_procs t).

(** [pfctl -a pfsnitch -s rules] *)
Definition listing (t : Turn) (n : Net) : list str := if t_list t then show_rules (rules n) else [].
(** [pfctl -a pfsnitch -F rules] *)
Definition flush_rules (t : Turn) (n : Net) : Net := if t_flush t then set_rules no_rules n else n.
(** [pfsnitch kernel-reset] *)
Definition kernel_reset (t : Turn) (n : Net) : Net :=
  set_kmodule (module_effects (t_mem t) (cmd_kernel_reset (t_env t)) (kmodule n)) n.

(** A daemon is there: the anchor must divert to it. *)
Definition found_turn (t : Turn) (w : Watch) (n : Net) : Watch * Net * list deed :=
  if grep $"divert" (listing t n) then (mk_watch 0 false 0, n, [])
  else
    let s := STRANDED w + 1 in
    if STRANDED_THRESHOLD <=? s then
      match t_anchor t with
      | Some r => (mk_watch 0 false 0, set_rules r n, [LoadAnchor true])
      | None => (mk_watch 0 false 0, n, [LoadAnchor false])
      end
    else (mk_watch 0 false s, n, []).

(** The daemon is gone for good: [FAILMODE]. *)
Definition failsafe (failmode : str) (t : Turn) (n : Net) : Net * list deed :=
  if str_eqb failmode $"closed" then
    if grep_any (listing t n) then (flush_rules t n, [FlushRules]) else (n, [])
  else if grep $"divert" (listing t n) then
    match t_failopen t with
    | Some r => (set_rules r n, [LoadOpen true])
    | None => (flush_rules t n, [LoadOpen false; FlushRules])
    end
  else (n, []).

Definition missed_turn (failmode : str) (t : Turn) (w : Watch) (n : Net) : Watch * Net * list deed :=
  let m := MISSES w + 1 in
  if THRESHOLD <=? m then
    let '(n, ds) := if KRESET w then (n, []) else (kernel_reset t n, [ResetKernel]) in
    let '(n, ds') := failsafe failmode t n in
    (mk_watch 0 true 0, n, ds ++ ds')
  else (mk_watch m (KRESET w) 0, n, []).

(** The body of [while :]. *)
Definition watch_turn (failmode : str) (t : Turn) (s : Watch * Net) : Watch * Net * list deed :=
  let n := t_before t s.2 in
  if daemon_seen t then found_turn t s.1 n else missed_turn failmode t s.1 n.

Definition watch_run (failmode : str) (n : Net) (ts : list Turn) : Watch * Net :=
  foldl (fun s t => (watch_turn failmode t s).1) (watch_start, n) ts.

Lemma watch_run_snoc fm n ts t : watch_run fm n (ts ++ [t]) = (watch_turn fm t (watch_run fm n ts)).1.
Proof. unfold watch_run. by rewrite foldl_snoc. Qed.

Lemma watch_run_app fm n ts us :
  watch_run fm n (ts ++ us) = foldl (fun s t => (watch_turn fm t s).1) (watch_run fm n ts) us.
Proof. apply foldl_app. Qed.

(** ** What the counters count *)

(** The turns at the end of a history that agree on whether a daemon is there. *)
Definition trailing (b : bool) (ts : list Turn) (k : Z) : Prop :=
  exists ts' us, ts = ts' ++ us /\ Forall (fun t => daemon_seen t = b) us /\ Z.of_nat (length us) = k.

Lemma trailing_0 b ts : trailing b ts 0.
Proof. exists ts, []. by rewrite app_nil_r. Qed.

Lemma trailing_snoc b ts t k : daemon_seen t = b -> trailing b ts k -> trailing b (ts ++ [t]) (k + 1).
Proof.
  intros Ht (ts' & us & -> & Hus & <-). exists ts', (us ++ [t]). rewrite app_assoc, length_app. split; [done|]. cbn.
  split; [apply Forall_app; by repeat constructor|lia].
Qed.

Lemma trailing_two b ts : trailing b ts 2 -> exists ts' t1 t2, ts = ts' ++ [t1; t2] /\ daemon_seen t1 = b /\ daemon_seen t2 = b.
Proof.
  intros (ts' & us & -> & Hus & Hl). destruct us as [|t1 [|t2 [|t3 us]]]; cbn in Hl; try lia. exists ts', t1, t2.
  apply Forall_cons in Hus as [? Hus]. apply Forall_cons in Hus as [? _]. done.
Qed.

Definition counts (ts : list Turn) (w : Watch) : Prop :=
  0 <= MISSES w < THRESHOLD /\ trailing false ts (MISSES w) /\
  0 <= STRANDED w < STRANDED_THRESHOLD /\ trailing true ts (STRANDED w).

Lemma watch_run_counts fm n ts : counts ts (watch_run fm n ts).1.
Proof.
  induction ts as [|t ts IH] using rev_ind; [repeat split; try done; apply trailing_0|]. rewrite watch_run_snoc. unfold watch_turn.
  destruct (watch_run fm n ts) as [w m]. destruct IH as (Hm & Htm & Hs & Hts). cbn [fst snd] in *. set (m1 := t_before t m).
  unfold counts, THRESHOLD, STRANDED_THRESHOLD in *.
  destruct (daemon_seen t) eqn:Ef; [unfold found_turn, STRANDED_THRESHOLD|unfold missed_turn, THRESHOLD].
  - destruct (grep _ _); [cbn; repeat split; try lia; apply trailing_0|].
    destruct (Z.leb_spec 3 (STRANDED w + 1)) as [Hge|Hlt]; [destruct (t_anchor t); cbn; repeat split; try lia; apply trailing_0|].
    cbn. repeat split; try lia; [apply trailing_0|by apply trailing_snoc].
  - destruct (Z.leb_spec 3 (MISSES w + 1)) as [Hge|Hlt].
    + destruct (if KRESET w then _ else _) as [n1 ds]. destruct (failsafe fm t n1). cbn. repeat split; try lia; apply trailing_0.
    + cbn. repeat split; try lia; [by apply trailing_snoc|apply trailing_0].
Qed.

Lemma failsafe_deeds fm t n : Forall (fun d => forall ok, d <> LoadAnchor ok) (failsafe fm t n).2.
Proof.
  unfold failsafe. repeat case_match; cbn; repeat (apply Forall_cons; split); first [by apply Forall_nil|by intros ?].
Qed.

(** The watchdog is patient, whatever else happens on the machine: when it does anything
    at all in a turn, the two turns before agree with it on whether a daemon is there.  What
    it then does is to reload the anchor when one is there, and never to touch the anchor
    other than towards its failsafe when none is. *)
Theorem watchdog_patient fm n ts t :
  let ds := (watch_turn fm t (watch_run fm n ts)).2 in
  ds <> [] ->
  (exists ts' t1 t2, ts = ts' ++ [t1; t2] /\ daemon_seen t1 = daemon_seen t /\ daemon_seen t2 = daemon_seen t) /\
  (if daemon_seen t then exists ok, ds = [LoadAnchor ok] else Forall (fun d => forall ok, d <> LoadAnchor ok) ds).
Proof.
  pose proof (watch_run_counts fm n ts) as (Hm & Htm & Hs & Hts). unfold watch_turn, THRESHOLD, STRANDED_THRESHOLD in *.
  destruct (watch_run fm n ts) as [w m]. cbn [fst snd] in *. set (m1 := t_before t m).
  destruct (daemon_seen t) eqn:Ef; [unfold found_turn, STRANDED_THRESHOLD|unfold missed_turn, THRESHOLD]; cbv zeta.
  - destruct (grep _ _); [done|]. destruct (Z.leb_spec 3 (STRANDED w + 1)) as [Hge|Hlt]; [|done]. intros _.
    replace (STRANDED w) with 2 in Hts by lia. split; [by apply trailing_two|]. destruct (t_anchor t); by eexists.
  - destruct (Z.leb_spec 3 (MISSES w + 1)) as [Hge|Hlt]; [|done]. intros _.
    replace (MISSES w) with 2 in Htm by lia. split; [by apply trailing_two|].
    destruct (KRESET w); [|set (m2 := kernel_reset t m1); pose proof (failsafe_deeds fm t m2)]; [pose proof (failsafe_deeds fm t m1)|];
      destruct (failsafe _ _ _); [done|]. cbn. by apply Forall_cons.
Qed.

(** ** A daemon that is gone *)

(** After [j] turns without a daemon. *)
Lemma found_resets fm n ts t : daemon_seen t = true ->
  let w := (watch_run fm n (ts ++ [t])).1 in MISSES w = 0 /\ KRESET w = false.
Proof.
  intros Hf. rewrite watch_run_snoc. unfold watch_turn, found_turn. rewrite Hf. by repeat case_match.
Qed.

Lemma gone_counts fm n ts t gone :
  daemon_seen t = true -> Forall (fun u => daemon_seen u = false) gone ->
  let w := (watch_run fm n (ts ++ t :: gone)).1 in
  MISSES w = Z.of_nat (length gone) mod 3 /\ KRESET w = (3 <=? Z.of_nat (length gone)).
Proof.
  intros Hf. change (t :: gone) with ([t] ++ gone). rewrite app_assoc. induction gone as [|u gone IH] using rev_ind; intros Hg.
  { rewrite app_nil_r. by apply found_resets. }
  apply Forall_app in Hg as [Hg [Hu _]%Forall_cons]. specialize (IH Hg). rewrite app_assoc, watch_run_snoc. unfold watch_turn. rewrite Hu.
  destruct (watch_run fm n _) as [w m]. cbn [fst snd] in IH |- *. destruct IH as [Hm Hk]. rewrite length_app, Nat2Z.inj_add. cbn [length].
  unfold missed_turn, THRESHOLD. set (l := Z.of_nat (length gone)) in *. pose proof (Z.mod_pos_bound l 3 eq_refl).
  pose proof (Z.div_mod l 3 ltac:(done)).
  assert (0 <= l) by lia. assert (Hs : (l + 1) mod 3 = if 3 <=? l mod 3 + 1 then 0 else l mod 3 + 1).
  { destruct (Z.leb_spec 3 (l mod 3 + 1)); symmetry; [apply (Z.mod_unique_pos _ _ (l / 3 + 1))|apply (Z.mod_unique_pos _ _ (l / 3))]; lia. }
  change (Z.of_nat 1) with 1. rewrite Hs, Hm.
  destruct (Z.leb_spec 3 (l mod 3 + 1)).
  - destruct (if KRESET w then _ else _) as [n1 ds]. destruct (failsafe fm u n1). cbn. split; [done|]. symmetry. apply Z.leb_le.
    assert (0 <= l / 3) by (apply Z.div_pos; lia). lia.
  - cbn. split; [done|]. rewrite Hk. assert (0 <= l / 3) by (apply Z.div_pos; lia).
    destruct (Z.leb_spec 3 l), (Z.leb_spec 3 (l + 1)); try done; exfalso; nia.
Qed.

(** What the failsafe makes of the rules it finds.  Closed: none are left.  Open: rules that
    divert give way to the fail-open ones, to none if those do not load, and any others - the
    fail-open ones of an earlier turn among them - stay. *)
Definition safe_rules (failmode : str) (t : Turn) (before after : Ruleset) : Prop :=
  if str_eqb failmode $"closed" then grep_any (show_rules after) = false
  else grep $"divert" (show_rules after) = false
       /\ after = if grep $"divert" (show_rules before) then default no_rules (t_failopen t) else before.

Lemma failsafe_safe fm t n :
  t_list t = true -> t_flush t = true -> (forall r, t_failopen t = Some r -> grep $"divert" (show_rules r) = false) ->
  safe_rules fm t (rules n) (rules (failsafe fm t n).1) /\ kmodule (failsafe fm t n).1 = kmodule n.
Proof.
  intros Hl Hf Ho. unfold safe_rules, failsafe, listing, flush_rules. rewrite Hl, Hf. destruct (str_eqb fm _).
  - destruct (grep_any (show_rules (rules n))) eqn:E; cbn; [|done]. by rewrite show_none.
  - destruct (grep _ (show_rules (rules n))) eqn:E; cbn; [|done].
    destruct (t_failopen t) as [r|]; cbn; [by split; [split; [apply Ho|]|]|]. by rewrite show_none.
Qed.

(** [kernel-reset], with a module behind the device. *)
Lemma kernel_reset_quiet t n :
  device_answers (t_env t) -> e_open (t_env t) = true -> lets_all_through (kmodule (kernel_reset t n)).
Proof.
  intros dev Ho. unfold kernel_reset, cmd_kernel_reset. rewrite Ho.
  rewrite (live_set_upcall (t_env t) dev (mk_kern false) eq_refl false), (live_flush (t_env t) dev (mk_kern false) eq_refl).
  apply quiet_lets_through.
Qed.

(** [kernel-reset] is tried in the third turn without a daemon and not again: what it made of
    the module lasts as long as nobody else undoes it. *)
Lemma gone_quiet fm n ts t gone :
  daemon_seen t = true -> Forall (fun u => daemon_seen u = false) gone ->
  (forall v, gone !! 2%nat = Some v -> device_answers (t_env v) /\ e_open (t_env v) = true) ->
  Forall (fun v => forall n, lets_all_through (kmodule n) -> lets_all_through (kmodule (t_before v n))) (drop 3 gone) ->
  (3 <= length gone)%nat -> lets_all_through (kmodule (watch_run fm n (ts ++ t :: gone)).2).
Proof.
  intros Hf. induction gone as [|u gone IH] using rev_ind; cbn [length]; [cbn; lia|]. intros Hg Hd Hb Hl. apply Forall_app in Hg as [Hg [Hu _]%Forall_cons].
  pose proof (gone_counts fm n ts t gone Hf Hg) as [Hm Hk]. rewrite length_app in Hl. cbn in Hl.
  change (ts ++ t :: gone ++ [u]) with (ts ++ (t :: gone) ++ [u]). rewrite app_assoc, watch_run_snoc. unfold watch_turn. rewrite Hu.
  destruct (watch_run fm n (ts ++ t :: gone)) as [w m]. cbn [fst snd] in *. unfold missed_turn, THRESHOLD.
  assert (Hfs : forall n, kmodule (failsafe fm u n).1 = kmodule n).
  { intros n0. unfold failsafe, flush_rules. by repeat case_match. }
  rewrite Hm, Hk. destruct (Z.leb_spec 3 (Z.of_nat (length gone))) as [Hge|Hlt].
  - rewrite drop_app_le in Hb by lia. apply Forall_app in Hb as [Hb [Hbu _]%Forall_cons].
    assert (Hq : lets_all_through (kmodule m)) by (apply IH; [done| |done|lia]; intros v Hv; apply Hd; by rewrite lookup_app_l by lia).
    apply Hbu in Hq. destruct (_ <=? _); [|done].
    specialize (Hfs (t_before u m)). destruct (failsafe fm u _) as [n1 ds]. cbn [fst snd] in *. by rewrite Hfs.
  - assert (E : length gone = 2%nat) by lia. destruct (Hd u) as [dev Ho]; [by rewrite lookup_app_r, E by lia|].
    rewrite E. change (3 <=? Z.of_nat 2 mod 3 + 1) with true. cbn.
    specialize (Hfs (kernel_reset u (t_before u m))).
    destruct (failsafe fm u _) as [n1 ds]. cbn [fst snd] in *. rewrite Hfs. by apply kernel_reset_quiet.
Qed.

Lemma third_misses gone u : (length (gone ++ [u : Turn]) mod 3 = 0)%nat -> Z.of_nat (length gone) mod 3 = 2 /\ (2 <= length gone)%nat.
Proof.
  rewrite length_app. change (length [u]) with 1%nat. intros Hl. pose proof (Nat.div_mod_eq (length gone + 1) 3). split; [symmetry|lia].
  apply (Z.mod_unique_pos _ _ (Z.of_nat ((length gone + 1) / 3) - 1)); lia.
Qed.

(** What such a turn does. *)
Lemma third_turn fm n ts t gone u :
  daemon_seen t = true -> Forall (fun u => daemon_seen u = false) (gone ++ [u]) -> (length (gone ++ [u]) mod 3 = 0)%nat ->
  exists n1, rules n1 = rules (t_before u (watch_run fm n (ts ++ t :: gone)).2)
    /\ rules (watch_run fm n (ts ++ t :: gone ++ [u])).2 = rules (failsafe fm u n1).1
    /\ (ResetKernel ∈ (watch_turn fm u (watch_run fm n (ts ++ t :: gone))).2 <-> length gone = 2%nat).
Proof.
  intros Hf [Hg [Hu _]%Forall_cons]%Forall_app [E Hge]%third_misses. pose proof (gone_counts fm n ts t gone Hf Hg) as [Hm Hk].
  change (ts ++ t :: gone ++ [u]) with (ts ++ (t :: gone) ++ [u]). rewrite app_assoc, watch_run_snoc. unfold watch_turn. rewrite Hu.
  destruct (watch_run fm n (ts ++ t :: gone)) as [w m]. cbn [fst snd] in *. unfold missed_turn, THRESHOLD. rewrite Hm, Hk, E.
  change (3 <=? 2 + 1) with true. cbv iota. set (m1 := t_before u m).
  assert (Hno : forall n2, ResetKernel ∉ (failsafe fm u n2).2).
  { intros n2. unfold failsafe. repeat case_match; cbn; set_solver. }
  destruct (Z.leb_spec 3 (Z.of_nat (length gone))) as [Hge3|Hlt3]; [exists m1; specialize (Hno m1)|exists (kernel_reset u m1); specialize (Hno (kernel_reset u m1))];
    destruct (failsafe fm u _) as [n2 ds]; cbn [fst snd app] in *; (split; [done|split; [done|]]).
  - split; [done|lia].
  - split; [lia|]. intros _. by left.
Qed.

(** C26. When the daemon is gone the anchor ends up in the state the administrator chose.
    Once a daemon was seen and is then missed, consider any third turn of its absence - the
    first is about six seconds later - in which pfctl lists and flushes.  With
    [pfsnitch_failmode] closed the anchor is left empty.  With any other, if divert rules are
    found they are replaced by the fail-open rules, or by none if those do not load; other
    rules are left alone; so no rule diverts to a socket nobody holds (the fail-open rules do
    not divert).  This whatever was done to the anchor before that turn.  The kernel module is
    reset in the first of these turns and in no later one: if the device opens and answers in that turn and
    nobody has the module refuse or delay connects again in the turns after it, the module
    refuses and delays none, whatever verdicts and questions the daemon left in it. *)
Theorem watchdog_failsafe fm n ts t gone u :
  daemon_seen t = true -> Forall (fun u => daemon_seen u = false) (gone ++ [u]) -> (length (gone ++ [u]) mod 3 = 0)%nat ->
  t_list u = true -> t_flush u = true -> (forall r, t_failopen u = Some r -> grep $"divert" (show_rules r) = false) ->
  let found := t_before u (watch_run fm n (ts ++ t :: gone)).2 in
  let net := (watch_run fm n (ts ++ t :: gone ++ [u])).2 in
  safe_rules fm u (rules found) (rules net) /\
  (ResetKernel ∈ (watch_turn fm u (watch_run fm n (ts ++ t :: gone))).2 <-> length gone = 2%nat) /\
  ((forall v, (gone ++ [u]) !! 2%nat = Some v -> device_answers (t_env v) /\ e_open (t_env v) = true) ->
   Forall (fun v => forall n, lets_all_through (kmodule n) -> lets_all_through (kmodule (t_before v n))) (drop 3 (gone ++ [u])) ->
   lets_all_through (kmodule net)).
Proof.
  intros Hf Hg Hl Hlist Hflush Ho found net. destruct (third_turn fm n ts t gone u Hf Hg Hl) as (n1 & Hn1 & Hr & Hk). split; [|split].
  - subst found net. rewrite Hr, <- Hn1. by apply failsafe_safe.
  - exact Hk.
  - intros Hd Hb. apply gone_quiet; [done..|]. apply third_misses in Hl as [_ Hl]. rewrite length_app. cbn. lia.
Qed.
End watchdog.

(** ** On a machine *)

#[local] Instance no_sockets : Pcbs := no_pcbs.
#[local] Instance pf_lines : Pf := {| Ruleset := list str; no_rules := []; show_rules l := l; show_none := eq_refl |}.

Definition is_named (name : list Z) (t : list Process) : bool := existsb (fun p => bool_decide (pr_comm p = name)) t.
Lemma named_ok name t : is_named name t = true <-> exists p, p ∈ t /\ pr_comm p = name.
Proof.
  unfold is_named. rewrite existsb_exists. by setoid_rewrite bool_decide_eq_true; setoid_rewrite list_elem_of_In.
Qed.
#[local] Instance pgrep_names : Pgrep := {| pgrep_x := is_named; pgrep_x_ok := named_ok |}.

Definition anchor_lines : list str :=
  [$"pass out quick proto tcp all flags S/SA divert-to 8668"; $"anchor udpdivert all"; $"pass out all flags S/SA keep state"].
Definition failopen_lines : list str := [$"pass out all flags S/SA keep state"].

Definition init_proc : Process := mk_process 1 $"init" (Some [$"/sbin/init"]).
Definition daemon_proc : Process := mk_process 300 $"pfsnitch" (Some [$"/usr/local/bin/pfsnitch"; $"enforcement"]).
Definition status_proc : Process := mk_process 412 $"pfsnitch" (Some [$"pfsnitch"; $"status"]).

(** A turn on a machine where everything works. *)
Definition turn_with (ps : list Process) : Turn :=
  mk_turn id ps true true (Some anchor_lines) (Some failopen_lines) (world_mod 9 0) true.
Definition up_turn : Turn := turn_with [init_proc; daemon_proc].
Definition down_turn : Turn := turn_with [init_proc].
Definition polled_turn : Turn := turn_with [init_proc; status_proc].

(** The module a daemon left behind in enforcement. *)
Definition machine : Net := mk_net anchor_lines m_on.

Lemma watchdog_patient_witness :
  (watch_turn $"open" down_turn (watch_run $"open" machine [up_turn; down_turn; down_turn])).2 = [ResetKernel; LoadOpen true]
  /\ exists ts t1 t2, [up_turn; down_turn; down_turn] = ts ++ [t1; t2] /\ daemon_seen t1 = false /\ daemon_seen t2 = false.
Proof.
  assert (E : (watch_turn $"open" down_turn (watch_run $"open" machine [up_turn; down_turn; down_turn])).2 = [ResetKernel; LoadOpen true])
    by (vm_compute; reflexivity).
  split; [exact E|]. refine (proj1 (watchdog_patient $"open" machine [up_turn; down_turn; down_turn] down_turn _)). rewrite E. discriminate.
Defined.

Lemma watchdog_failsafe_witness :
  let net := (watch_run $"open" machine ([] ++ up_turn :: [down_turn; down_turn] ++ [down_turn])).2 in
  rules net = failopen_lines /\ grep $"divert" (rules net) = false /\ lets_all_through (kmodule net).
Proof.
  assert (Hup : daemon_seen up_turn = true) by (vm_compute; reflexivity).
  assert (Hdown : daemon_seen down_turn = false) by (vm_compute; reflexivity).
  assert (Hg : Forall (fun u => daemon_seen u = false) ([down_turn; down_turn] ++ [down_turn])) by exact (Forall_replicate _ 3 down_turn Hdown).
  assert (Ho : forall r, t_failopen down_turn = Some r -> grep $"divert" (show_rules r) = false).
  { intros r E. injection E as <-. vm_compute. reflexivity. }
  destruct (watchdog_failsafe $"open" machine [] up_turn [down_turn; down_turn] down_turn Hup Hg eq_refl eq_refl eq_refl Ho) as (Hs & _ & Hm).
  split; [vm_compute; reflexivity|]. split; [exact (proj1 Hs)|].
  apply Hm; [intros v E; injection E as <-; split; [exact (world_mod_answers 9 0)|reflexivity]|constructor].
Defined.

(** [pgrep -x pfsnitch] also finds a command line invocation: with no daemon running - by the
    daemon's own test, which looks at the arguments - a frontend that asks for the status is
    taken for one.  A dead daemon is then not noticed while somebody polls, and the machine
    that failed open is put back on divert rules nobody serves. *)
Example poll_taken_for_daemon :
  daemon_seen polled_turn = true
  /\ daemon_running 1 (Some (map (fun p => (pr_pid p, pr_argv p)) (t_procs polled_turn))) = false
  /\ rules (watch_run $"open" machine (up_turn :: concat (replicate 10 [down_turn; down_turn; polled_turn]))).2 = anchor_lines
  /\ rules (watch_run $"open" machine [up_turn; down_turn; down_turn; down_turn]).2 = failopen_lines
  /\ rules (watch_run $"open" machine [up_turn; down_turn; down_turn; down_turn; polled_turn; polled_turn; polled_turn]).2 = anchor_lines.
Proof. repeat split; vm_compute; reflexivity. Qed.
