(* ===== verification/Prompts.v ===== *)
(** The prompts (libexec/pfsnitch-prompt-common, pfsnitch-prompt-file, pfsnitch-prompt-eww;
    bin/pfsnitch-answer): any number of prompts and of answering frontends over the three
    files they share, one file operation at a time.

    A prompt's nonce is drawn when it starts; that nobody draws it twice is [fresh_nonce].
    Testing the answer file and reading it is one step.  [su], eww, [chmod] and the windows
    are not modelled. *)
From S2P Require Import Prelude Unicode RustStr IpAddr Policy Daemon Cli.

(** ** Text, as sh handles it *)

(** [${line%% *}] and [${line#* }] *)
Definition before_space (s : str) : str := (break_on (is_char 32) s).1.
Definition after_space (s : str) : str := default s (break_on (is_char 32) s).2.

(** [$(...)]: line feeds at the end are dropped. *)
Fixpoint skip_lf (s : str) : str := match s with [] => [] | c :: s' => if c =? 10 then skip_lf s' else s end.
Definition captured (s : str) : str := rev (skip_lf (rev s)).

(** [${n:-d}] *)
Definition param (d : str) (o : option str) : str := match o with Some (c :: s) => c :: s | _ => d end.

(** [jesc] *)
Definition jesc_char (c : char) : str := if c =? 92 then [92; 92] else if c =? 34 then [92; 34] else [c].
Definition jesc (s : str) : str := concat (map jesc_char s).

(** The arguments of a prompt. *)
Record Request : Type := mk_request {
  rq_exe : str; rq_pid : str; rq_cmd : str; rq_dst : str; rq_dport : str; rq_host : str; rq_idstate : str; rq_scope : str
}.
Definition request_of (argv : list str) : Request :=
  mk_request (param $"?" (argv !! 0%nat)) (param $"?" (argv !! 1%nat)) (param $"?" (argv !! 2%nat)) (param $"?" (argv !! 3%nat))
    (param $"?" (argv !! 4%nat)) (param $"-" (argv !! 5%nat)) (param $"ok" (argv !! 6%nat)) (param $"unknown" (argv !! 7%nat)).

(** What [pf_init] publishes. *)
Definition json_member (name : str) (value : str) : str := [34] ++ name ++ [34; 58; 34] ++ captured (jesc value) ++ [34].
Definition pending_json (nonce : str) (q : Request) : str :=
  [123] ++ json_member $"nonce" nonce ++ [44] ++ json_member $"idstate" (rq_idstate q) ++ [44] ++ json_member $"scope" (rq_scope q)
  ++ [44] ++ json_member $"exe" (rq_exe q) ++ [44] ++ json_member $"pid" (rq_pid q) ++ [44] ++ json_member $"command" (rq_cmd q)
  ++ [44] ++ json_member $"dst" (rq_dst q) ++ [44] ++ json_member $"dport" (rq_dport q) ++ [44] ++ json_member $"hostname" (rq_host q)
  ++ [125; 10].

(** ** State *)

Record Files : Type := mk_files { answer_file : option str; nonce_file : option str; pending_file : option str }.

(** Where a prompt is: [pf_init] in three steps, polling, taking an answer that is its own,
    cleaning up in two, and done with what it printed. *)
Inductive prompt_at : Type :=
| Clearing | Minting | Publishing
| Polling (i : nat)
| Taking (i : nat) (word : str)
| Cleaning (word : str) | Forgetting (word : str) | Printed (word : str).

Record PromptProc : Type := mk_proc { NONCE : str; request : Request; now_at : prompt_at }.

(** [pfsnitch-answer VERDICT] *)
Inductive click_at : Type := Clicked | Read (nonce : str) | Written (nonce : str) | Refused.
Record Click : Type := mk_click { verdict_word : str; click_now : click_at }.

Definition VERDICTS : list str := [$"allow-conn"; $"allow-app"; $"block-conn"; $"block"; $"block-app"].
Definition LIMIT : nat := 120.

Record Prompts : Type := mk_prompts { files : Files; procs : gmap nat PromptProc; clicks : gmap nat Click }.

(** ** Steps *)

Definition move (at_ : prompt_at) (p : PromptProc) : PromptProc := mk_proc (NONCE p) (request p) at_.

(** What the answer file says to this prompt: [None] unless it carries its nonce. *)
Definition answer_for (nonce : str) (f : Files) : option str :=
  match answer_file f with
  | Some (c :: s) =>
      let line := captured (c :: s) in
      if str_eqb (before_space line) nonce then Some (after_space line) else None
  | _ => None
  end.

(** The end of a poll that found nothing. *)
Definition again (i : nat) : prompt_at := if (S i <? LIMIT)%nat then Polling (S i) else Cleaning $"timeout".

Definition prompt_turn (p : PromptProc) (f : Files) : option (PromptProc * Files) :=
  match now_at p with
  | Clearing => Some (move Minting p, mk_files None (nonce_file f) (pending_file f))
  | Minting => Some (move Publishing p, mk_files (answer_file f) (Some (NONCE p)) (pending_file f))
  | Publishing => Some (move (Polling 0) p, mk_files (answer_file f) (nonce_file f) (Some (pending_json (NONCE p) (request p))))
  | Polling i => match answer_for (NONCE p) f with
                 | Some word => Some (move (Taking i word) p, f)
                 | None => Some (move (again i) p, f)
                 end
  | Taking i word =>
      Some (move (if bool_decide (word ∈ VERDICTS) then Cleaning word else again i) p, mk_files None (nonce_file f) (pending_file f))
  | Cleaning word => Some (move (Forgetting word) p, mk_files (answer_file f) (nonce_file f) None)
  | Forgetting word => Some (move (Printed word) p, mk_files (answer_file f) None (pending_file f))
  | Printed _ => None
  end.

Definition click_turn (c : Click) (f : Files) : option (Click * Files) :=
  match click_now c with
  | Clicked =>
      if bool_decide (verdict_word c ∈ VERDICTS)
      then Some (mk_click (verdict_word c) (Read (param $"none" (captured <$> nonce_file f))), f)
      else Some (mk_click (verdict_word c) Refused, f)
  | Read n => Some (mk_click (verdict_word c) (Written n), mk_files (Some (n ++ [32] ++ verdict_word c ++ [10])) (nonce_file f) (pending_file f))
  | Written _ | Refused => None
  end.

(** What happens next: a prompt is raised, takes a step; a frontend answers, in two. *)
Inductive action : Type :=
| Raise (k : nat) (nonce : str) (argv : list str)
| Prompt_ (k : nat)
| Press (c : nat) (word : str)
| Answer_ (c : nat).

Definition prompts_step (s : Prompts) (a : action) : option Prompts :=
  match a with
  | Raise k nonce argv =>
      match procs s !! k with
      | Some _ => None
      | None => Some (mk_prompts (files s) (<[k := mk_proc nonce (request_of argv) Clearing]> (procs s)) (clicks s))
      end
  | Prompt_ k =>
      p ← procs s !! k; '(p', f) ← prompt_turn p (files s);
      Some (mk_prompts f (<[k := p']> (procs s)) (clicks s))
  | Press c word =>
      match clicks s !! c with
      | Some _ => None
      | None => Some (mk_prompts (files s) (procs s) (<[c := mk_click word Clicked]> (clicks s)))
      end
  | Answer_ c =>
      x ← clicks s !! c; '(x', f) ← click_turn x (files s);
      Some (mk_prompts f (procs s) (<[c := x']> (clicks s)))
  end.

(** Sixteen hexadecimal digits, never drawn before. *)
Definition nonce_text (n : str) : Prop :=
  n <> [] /\ Forall (fun c => c <> 32 /\ c <> 10) n /\ n <> $"none".
Definition action_ok (s : Prompts) (a : action) : Prop :=
  match a with
  | Raise _ nonce _ => nonce_text nonce /\ forall k p, procs s !! k = Some p -> NONCE p <> nonce
  | _ => True
  end.

Inductive prompts_run : Prompts -> Prompts -> Prop :=
| run_nil s : prompts_run s s
| run_snoc s s1 a s2 : prompts_run s s1 -> action_ok s1 a -> prompts_step s1 a = Some s2 -> prompts_run s s2.

(** Nobody there, and no answer on file; what else earlier prompts left does not matter. *)
Definition none_yet (s : Prompts) : Prop :=
  procs s = ∅ /\ clicks s = ∅ /\ answer_file (files s) = None /\ nonce_file (files s) = None.

Fixpoint run_actions (s : Prompts) (acts : list action) : option Prompts :=
  match acts with [] => Some s | a :: acts' => s' ← prompts_step s a; run_actions s' acts' end.

(** ** Words *)

Lemma skip_lf_snoc s c : c <> 10 -> skip_lf (rev (s ++ [c])) = rev (s ++ [c]).
Proof. intros Hc. rewrite rev_app_distr. cbn. by rewrite (proj2 (Z.eqb_neq _ _) Hc). Qed.

Lemma captured_lf s : captured (s ++ [10]) = captured s.
Proof. unfold captured. by rewrite rev_app_distr. Qed.

Lemma captured_id s c : c <> 10 -> captured (s ++ [c]) = s ++ [c].
Proof. intros Hc. unfold captured. by rewrite skip_lf_snoc, rev_involutive. Qed.

Lemma nonce_captured n : nonce_text n -> captured n = n.
Proof.
  intros (Hne & Hn & _). destruct n as [|c s] using rev_ind; [done|]. apply captured_id.
  apply Forall_app in Hn as [_ Hc]. apply Forall_cons in Hc as [[_ Hc] _]. done.
Qed.

Lemma break_space n rest : Forall (fun c => c <> 32 /\ c <> 10) n -> break_on (is_char 32) (n ++ [32] ++ rest) = (n, Some rest).
Proof.
  induction 1 as [|c n [Hc _] _ IH]; [done|]. cbn [app break_on]. unfold is_char at 1. rewrite (proj2 (Z.eqb_neq _ _) Hc).
  cbn [app] in IH. by rewrite IH.
Qed.

(** No verdict ends in a line feed. *)
Lemma verdict_captured w pre : w ∈ VERDICTS -> captured (pre ++ [32] ++ w ++ [10]) = pre ++ [32] ++ w.
Proof.
  intros Hw. rewrite !app_assoc, captured_lf. assert (exists s c, w = s ++ [c] /\ c <> 10) as (s & c & -> & Hc).
  { assert (forall v, v ∈ VERDICTS -> v <> [] /\ last v <> Some 10) as Hall.
    { intros v Hv. repeat (apply elem_of_cons in Hv as [->|Hv]; [split; vm_compute; discriminate|]). by apply not_elem_of_nil in Hv. }
    destruct (Hall w Hw) as [Hne Hl]. destruct w as [|c s _] using rev_ind; [done|]. exists s, c. split; [done|].
    rewrite last_snoc in Hl. congruence. }
  rewrite app_assoc. by apply captured_id.
Qed.

(** What a click writes is read back by the prompt whose nonce it found, and by no other. *)
Lemma answer_written n w nf pf nonce :
  Forall (fun c => c <> 32 /\ c <> 10) n -> n <> [] -> w ∈ VERDICTS ->
  answer_for nonce (mk_files (Some (n ++ [32] ++ w ++ [10])) nf pf) = if bool_decide (n = nonce) then Some w else None.
Proof.
  intros Hn Hne Hw. unfold answer_for. cbn [answer_file]. destruct (n ++ [32] ++ w ++ [10]) as [|c s] eqn:E; [by destruct n|].
  rewrite <- E, verdict_captured by done. unfold before_space, after_space. rewrite break_space by done. cbn [fst snd default].
  unfold str_eqb. by case_bool_decide.
Qed.

(** ** What stays *)

Lemma turn_same p f p' f' : prompt_turn p f = Some (p', f') -> NONCE p' = NONCE p.
Proof. unfold prompt_turn. repeat case_match; by intros [= <- <-]. Qed.

(** A click keeps its word, and the nonce it read. *)
Definition later (x x' : Click) : Prop :=
  verdict_word x' = verdict_word x /\
  match click_now x with
  | Clicked => True
  | Read n => click_now x' = Read n \/ click_now x' = Written n
  | Written n => click_now x' = Written n
  | Refused => click_now x' = Refused
  end.

#[export] Instance later_preorder : PreOrder later.
Proof.
  split; [intros x; split; [done|]; case_match; auto|]. intros x y z [E1 H1] [E2 H2]. split; [congruence|].
  destruct (click_now x); [done| |by rewrite H1 in H2..]. destruct H1 as [H1|H1]; rewrite H1 in H2; auto.
Qed.

Lemma click_later x f x' f' : click_turn x f = Some (x', f') -> later x x'.
Proof. unfold click_turn, later. destruct (click_now x); [case_bool_decide| | |]; intros [= <- <-]; cbn; auto. Qed.

Definition grown (s s' : Prompts) : Prop :=
  (forall k p, procs s !! k = Some p -> exists p', procs s' !! k = Some p' /\ NONCE p' = NONCE p)
  /\ (forall c x, clicks s !! c = Some x -> exists x', clicks s' !! c = Some x' /\ later x x').

Lemma step_grown s a s' : prompts_step s a = Some s' -> grown s s'.
Proof.
  assert (Hp : forall k p, procs s !! k = Some p -> exists p', procs s !! k = Some p' /\ NONCE p' = NONCE p) by eauto.
  assert (Hc : forall c x, clicks s !! c = Some x -> exists x', clicks s !! c = Some x' /\ later x x') by (intros ? x ?; exists x; by split).
  destruct a as [k n argv|k|c w|c]; cbn.
  - destruct (procs s !! k) eqn:E; [done|]. intros [= <-]. split; [|done]. intros k' p Hk. cbn. exists p. split; [|done].
    rewrite lookup_insert_ne; [done|]. intros <-. congruence.
  - destruct (procs s !! k) as [p|] eqn:E; [|done]. cbn. destruct (prompt_turn p (files s)) as [[p' f]|] eqn:Et; [|done]. intros [= <-].
    split; [|done]. intros k' q Hk. cbn. destruct (decide (k' = k)) as [->|Hne]; [|rewrite lookup_insert_ne by done; by apply Hp].
    rewrite lookup_insert_eq. exists p'. split; [done|]. rewrite E in Hk. injection Hk as <-. by eapply turn_same.
  - destruct (clicks s !! c) eqn:E; [done|]. intros [= <-]. split; [done|]. intros c' x Hk. cbn. exists x. split; [|done].
    rewrite lookup_insert_ne; [done|]. intros <-. congruence.
  - destruct (clicks s !! c) as [x|] eqn:E; [|done]. cbn. destruct (click_turn x (files s)) as [[x' f]|] eqn:Et; [|done]. intros [= <-].
    split; [done|]. intros c' y Hk. cbn. destruct (decide (c' = c)) as [->|Hne]; [|rewrite lookup_insert_ne by done; by apply Hc].
    rewrite lookup_insert_eq. exists x'. split; [done|]. rewrite E in Hk. injection Hk as <-. by eapply click_later.
Qed.

Lemma run_grown s s' : prompts_run s s' -> grown s s'.
Proof.
  induction 1 as [s|s s1 a s2 _ [IHp IHc] _ Hs].
  - split; [eauto|]. intros c x Hx. exists x. by split.
  - destruct (step_grown s1 a s2 Hs) as [Hp Hc]. split.
    + intros k p Hk. destruct (IHp k p Hk) as (p1 & H1 & E1). destruct (Hp k p1 H1) as (p2 & H2 & E2). exists p2. split; [done|congruence].
    + intros c x Hk. destruct (IHc c x Hk) as (x1 & H1 & E1). destruct (Hc c x1 H1) as (x2 & H2 & E2). exists x2. split; [done|]. by etransitivity.
Qed.

(** ** The invariant *)

(** Some prompt's nonce; a word clicked and written under a nonce. *)
Definition drawn (s : Prompts) (n : str) : Prop := exists k p, procs s !! k = Some p /\ NONCE p = n.
Definition pressed (s : Prompts) (n w : str) : Prop :=
  exists c x, clicks s !! c = Some x /\ click_now x = Written n /\ verdict_word x = w.

(** The word a prompt carries was pressed for it. *)
Definition carried (s : Prompts) (n : str) (at_ : prompt_at) : Prop :=
  match at_ with
  | Taking _ w => pressed s n w
  | Cleaning w | Forgetting w | Printed w => w = $"timeout" \/ (w ∈ VERDICTS /\ pressed s n w)
  | _ => True
  end.

Record prompts_ok (s : Prompts) : Prop := mk_prompts_ok {
  po_text : forall k p, procs s !! k = Some p -> nonce_text (NONCE p);
  po_inj : forall k p k' p', procs s !! k = Some p -> procs s !! k' = Some p' -> NONCE p = NONCE p' -> k = k';
  po_nonce : forall n, nonce_file (files s) = Some n -> drawn s n;
  po_clicks : forall c x n, clicks s !! c = Some x -> click_now x = Read n \/ click_now x = Written n ->
                verdict_word x ∈ VERDICTS /\ (n = $"none" \/ drawn s n);
  po_answer : forall t, answer_file (files s) = Some t -> exists n w, pressed s n w /\ t = n ++ [32] ++ w ++ [10];
  po_words : forall k p, procs s !! k = Some p -> carried s (NONCE p) (now_at p)
}.

Lemma grown_drawn s s' n : grown s s' -> drawn s n -> drawn s' n.
Proof. intros [Hp _] (k & p & Hk & <-). destruct (Hp k p Hk) as (p' & ? & ?). by exists k, p'. Qed.

Lemma grown_pressed s s' n w : grown s s' -> pressed s n w -> pressed s' n w.
Proof.
  intros [_ Hc] (c & x & Hk & Hn & <-). destruct (Hc c x Hk) as (x' & Hx' & Hw & Hl). rewrite Hn in Hl. by exists c, x'.
Qed.

Lemma pressed_text s n w : prompts_ok s -> pressed s n w -> w ∈ VERDICTS /\ Forall (fun c => c <> 32 /\ c <> 10) n /\ n <> [].
Proof.
  intros Hs (c & x & Hx & Hn & <-). destruct (po_clicks s Hs c x n Hx (or_intror Hn)) as [Hw Hn']. split; [done|].
  destruct Hn' as [->|(k & p & Hk & <-)]; [by repeat constructor|]. by destruct (po_text s Hs k p Hk) as (? & ? & _).
Qed.

(** What a prompt takes was pressed for it. *)
Lemma answer_pressed s n w : prompts_ok s -> answer_for n (files s) = Some w -> pressed s n w.
Proof.
  intros Hs Ha. destruct (answer_file (files s)) as [t|] eqn:E; [|by unfold answer_for in Ha; rewrite E in Ha].
  destruct (po_answer s Hs t E) as (n' & w' & Hp & ->). destruct (pressed_text s n' w' Hs Hp) as (Hw & Hn & Hne).
  destruct (files s) as [af nf pf]. cbn [answer_file] in E. subst af. rewrite (answer_written n' w' nf pf n Hn Hne Hw) in Ha.
  case_bool_decide as En; [|done]. injection Ha as <-. by subst.
Qed.

Lemma start_ok s : none_yet s -> prompts_ok s.
Proof.
  intros (Hp & Hc & Ha & Hn). constructor.
  - intros k p. by rewrite Hp, lookup_empty.
  - intros k p k' p'. by rewrite Hp, lookup_empty.
  - intros n. by rewrite Hn.
  - intros c x n. by rewrite Hc, lookup_empty.
  - intros t. by rewrite Ha.
  - intros k p. by rewrite Hp, lookup_empty.
Qed.

Lemma words_grown s s' n at_ : grown s s' -> carried s n at_ -> carried s' n at_.
Proof. intros Hg. pose proof (fun w => grown_pressed s s' n w Hg). destruct at_; cbn; auto; intros [?|[? ?]]; auto. Qed.

(** A prompt's turn: what it does to the files, and where it goes. *)
Lemma turn_cases p f p' f' :
  prompt_turn p f = Some (p', f') ->
  (nonce_file f' = nonce_file f \/ nonce_file f' = Some (NONCE p) \/ nonce_file f' = None)
  /\ (answer_file f' = answer_file f \/ answer_file f' = None)
  /\ match now_at p' with
     | Taking _ w => answer_for (NONCE p) f = Some w
     | Cleaning w => w = $"timeout" \/ (w ∈ VERDICTS /\ exists i, now_at p = Taking i w)
     | Forgetting w => now_at p = Cleaning w
     | Printed w => now_at p = Forgetting w
     | _ => True
     end.
Proof.
  unfold prompt_turn. destruct (now_at p) as [| | |i|i w|w|w|w] eqn:E; try done; intros Ht; try (injection Ht as <- <-; cbn; by auto); revert Ht.
  - destruct (answer_for (NONCE p) f) as [w|] eqn:Ea; intros [= <- <-]; (split; [by auto|]); (split; [by auto|]); cbn; [done|]. unfold again. destruct (_ <? _)%nat; [done|by left].
  - intros [= <- <-]. cbn. split; [auto|]. split; [auto|]. case_bool_decide; [right; by eauto|]. unfold again. destruct (_ <? _)%nat; [done|by left].
Qed.

(** The common start of the four steps. *)
Ltac step_keeps s s' Hs Hstep :=
  intros Hs Ha Hstep; pose proof (step_grown s _ s' Hstep) as Hg; pose proof (fun n => grown_drawn s s' n Hg) as Hdr;
  pose proof (fun n w => grown_pressed s s' n w Hg) as Hpr; cbn [prompts_step] in Hstep.

Lemma raise_keeps s k nonce argv s' : prompts_ok s -> action_ok s (Raise k nonce argv) -> prompts_step s (Raise k nonce argv) = Some s' -> prompts_ok s'.
Proof.
  step_keeps s s' Hs Hstep.
  destruct Ha as [Htx Hfr]. destruct (procs s !! k) eqn:E; [done|]. injection Hstep as <-. constructor; cbn [procs files clicks].
  - intros k' p [[<- <-]|[_ Hk]]%lookup_insert_Some; [done|by eapply po_text].
  - intros k1 p1 k2 p2 [[<- <-]|[_ H1]]%lookup_insert_Some [[<- <-]|[_ H2]]%lookup_insert_Some En; cbn in En; try done;
      [by destruct (Hfr k2 p2 H2)|by destruct (Hfr k1 p1 H1)|by eapply po_inj].
  - intros n Hn. by apply Hdr, (po_nonce s Hs).
  - intros c x n Hx Hn. destruct (po_clicks s Hs c x n Hx Hn) as [? [?|?]]; auto.
  - intros t Ht. destruct (po_answer s Hs t Ht) as (n & w & ? & ->). exists n, w. auto.
  - intros k' p [[<- <-]|[_ Hk]]%lookup_insert_Some; [done|]. apply (words_grown s _ _ _ Hg). by eapply po_words.
Qed.

Lemma turn_keeps s k s' : prompts_ok s -> action_ok s (Prompt_ k) -> prompts_step s (Prompt_ k) = Some s' -> prompts_ok s'.
Proof.
  step_keeps s s' Hs Hstep.
  destruct (procs s !! k) as [p|] eqn:E; [|done]. cbn in Hstep. destruct (prompt_turn p (files s)) as [[p' f]|] eqn:Et; [|done].
  injection Hstep as <-. pose proof (turn_same p _ p' f Et) as Hsame. destruct (turn_cases p _ p' f Et) as (Hnf & Haf & Hat).
  constructor; cbn [procs files clicks].
  - intros k' q [[<- <-]|[_ Hk]]%lookup_insert_Some; [rewrite Hsame|]; by eapply po_text.
  - intros k1 p1 k2 p2 [[<- <-]|[_ H1]]%lookup_insert_Some [[<- <-]|[_ H2]]%lookup_insert_Some En; rewrite ?Hsame in En; try done;
      by eapply po_inj.
  - intros n Hn. apply Hdr. destruct Hnf as [Hnf|[Hnf|Hnf]]; rewrite Hnf in Hn; [by apply (po_nonce s Hs)| |done].
    injection Hn as <-. by exists k, p.
  - intros c x n Hx Hn. destruct (po_clicks s Hs c x n Hx Hn) as [? [?|?]]; auto.
  - intros t Ht. destruct Haf as [Haf|Haf]; rewrite Haf in Ht; [|done]. destruct (po_answer s Hs t Ht) as (n & w & ? & ->). exists n, w. auto.
  - intros k' q [[<- <-]|[_ Hk]]%lookup_insert_Some; [|apply (words_grown s _ _ _ Hg); by eapply po_words].
    rewrite Hsame. pose proof (po_words s Hs k p E) as Hw. unfold carried in Hw |- *.
    destruct (now_at p') as [| | | |i w|w|w|w]; try done; [| |rewrite Hat in Hw..].
    + apply Hpr. by apply answer_pressed.
    + destruct Hat as [->|[Hin (i & Hi)]]; [by left|right]. rewrite Hi in Hw. auto.
    + destruct Hw as [->|[? ?]]; auto.
    + destruct Hw as [->|[? ?]]; auto.
Qed.

Lemma press_keeps s c w s' : prompts_ok s -> action_ok s (Press c w) -> prompts_step s (Press c w) = Some s' -> prompts_ok s'.
Proof.
  step_keeps s s' Hs Hstep.
  destruct (clicks s !! c) eqn:E; [done|]. injection Hstep as <-. constructor; cbn [procs files clicks].
  - apply (po_text s Hs).
  - apply (po_inj s Hs).
  - intros n Hn. by apply Hdr, (po_nonce s Hs).
  - intros c' x n [[<- <-]|[_ Hx]]%lookup_insert_Some Hn; [by destruct Hn|]. destruct (po_clicks s Hs c' x n Hx Hn) as [? [?|?]]; auto.
  - intros t Ht. destruct (po_answer s Hs t Ht) as (n & w' & ? & ->). exists n, w'. auto.
  - intros k' p Hk. apply (words_grown s _ _ _ Hg). by eapply po_words.
Qed.

Lemma answer_keeps s c s' : prompts_ok s -> action_ok s (Answer_ c) -> prompts_step s (Answer_ c) = Some s' -> prompts_ok s'.
Proof.
  step_keeps s s' Hs Hstep.
  destruct (clicks s !! c) as [x|] eqn:E; [|done]. cbn in Hstep. destruct (click_turn x (files s)) as [[x' f]|] eqn:Et; [|done].
  injection Hstep as <-. unfold click_turn in Et. assert (Hn : nonce_file f = nonce_file (files s))
    by (destruct (click_now x); [case_bool_decide| | |]; by simplify_eq).
  constructor; cbn [procs files clicks].
  - apply (po_text s Hs).
  - apply (po_inj s Hs).
  - intros n Hn'. rewrite Hn in Hn'. by apply Hdr, (po_nonce s Hs).
  - intros c' y n [[<- <-]|[_ Hy]]%lookup_insert_Some Hr; [|destruct (po_clicks s Hs c' y n Hy Hr) as [? [?|?]]; auto].
    destruct (click_now x) as [|m|m|] eqn:Ex; [case_bool_decide as Hv| |done|done]; injection Et as <- <-; cbn in Hr |- *.
    + split; [done|]. destruct Hr as [Hr|Hr]; [|done]. injection Hr as <-. unfold param. destruct (nonce_file (files s)) as [t|] eqn:Ef; [|by left].
      destruct (po_nonce s Hs t Ef) as (k & p & Hk & <-). pose proof (po_text s Hs k p Hk) as Htx. cbn. rewrite (nonce_captured _ Htx).
      destruct (NONCE p) as [|a l] eqn:En; [by destruct Htx|]. right. rewrite <- En. apply Hdr. by exists k, p.
    + by destruct Hr.
    + destruct Hr as [Hr|Hr]; [done|]. injection Hr as <-. destruct (po_clicks s Hs c x m E (or_introl Ex)) as [? [?|?]]; auto.
  - intros t Ht. destruct (click_now x) as [|m|m|] eqn:Ex; [case_bool_decide as Hv| |done|done]; injection Et as <- <-;
      [destruct (po_answer s Hs t Ht) as (n & w & ? & ->); exists n, w; by auto..|].
    cbn in Ht. injection Ht as <-. exists m, (verdict_word x). split; [|done]. exists c. eexists. cbn [clicks]. by rewrite lookup_insert_eq.
  - intros k' p Hk. apply (words_grown s _ _ _ Hg). by eapply po_words.
Qed.

Lemma prompts_step_ok s a s' : prompts_ok s -> action_ok s a -> prompts_step s a = Some s' -> prompts_ok s'.
Proof. destruct a; [apply raise_keeps|apply turn_keeps|apply press_keeps|apply answer_keeps]. Qed.

Lemma prompts_run_ok s s' : prompts_ok s -> prompts_run s s' -> prompts_ok s'.
Proof. intros Hs. induction 1 as [|s s1 a s2 _ IH Ha Hst]; [done|]. by eapply prompts_step_ok, Hst; [apply IH|]. Qed.

(** C20. A prompt prints nothing but what a frontend wrote for its nonce.  However prompts and
    answering frontends interleave over the files they share, the word a prompt prints, unless
    it is [timeout], is one of the five verdicts, pressed in a frontend that read this
    prompt's nonce - which is nobody else's, so no other prompt can print it for the same
    reason - and read it after this prompt was raised.  So an answer that already had its
    nonce then, written or not, is never taken for an answer to this prompt.  A press whose
    frontend had read no nonce yet is not tied to what was on the screen: it answers the
    prompt on file when the nonce is read ([press_meant_for_another]). *)
Theorem consent_traced s0 s s' k p w :
  none_yet s0 -> prompts_run s0 s -> procs s !! k = None ->
  prompts_run s s' -> procs s' !! k = Some p -> now_at p = Printed w -> w <> $"timeout" ->
  w ∈ VERDICTS
  /\ (exists c x, clicks s' !! c = Some x /\ click_now x = Written (NONCE p) /\ verdict_word x = w
                  /\ forall x0, clicks s !! c = Some x0 -> click_now x0 = Clicked)
  /\ forall k' p', procs s' !! k' = Some p' -> NONCE p' = NONCE p -> k' = k.
Proof.
  intros H0 Hs Hnone Hs' Hk Hat Hw. pose proof (prompts_run_ok s0 s (start_ok s0 H0) Hs) as Hok. pose proof (prompts_run_ok s s' Hok Hs') as Hok'.
  pose proof (po_words s' Hok' k p Hk) as Hp. rewrite Hat in Hp. cbn in Hp. destruct Hp as [?|[Hv (c & x & Hx & Hn & Hword)]]; [done|].
  split; [done|]. split; [|intros k' p' Hk' En; by eapply po_inj].
  exists c, x. split; [done|]. split; [done|]. split; [done|]. intros x0 Hx0.
  destruct (run_grown s s' Hs') as [Hgp Hgc]. destruct (Hgc c x0 Hx0) as (x' & Hx' & _ & Hl). rewrite Hx in Hx'. injection Hx' as <-.
  assert (Hbad : click_now x0 = Read (NONCE p) \/ click_now x0 = Written (NONCE p) -> False).
  { intros Hr. destruct (po_clicks s Hok c x0 _ Hx0 Hr) as [_ [Hbad|(k0 & p0 & Hk0 & En)]].
    - pose proof (po_text s' Hok' k p Hk) as (_ & _ & Ht). done.
    - destruct (Hgp k0 p0 Hk0) as (p1 & Hk1 & E1). assert (k0 = k) as -> by (eapply (po_inj s' Hok'); [exact Hk1|exact Hk|congruence]). congruence. }
  destruct (click_now x0) as [|m|m|] eqn:E0; [done| | |congruence].
  - exfalso. apply Hbad. left. destruct Hl as [Hl|Hl]; rewrite Hn in Hl; congruence.
  - exfalso. apply Hbad. right. rewrite Hn in Hl. congruence.
Qed.

(** ** A prompt ends, with a word the daemon knows *)

(** A prompt alone, at every turn with whatever the files hold by then. *)
Fixpoint prompt_run (fs : list Files) (p : PromptProc) : PromptProc :=
  match fs with
  | [] => p
  | f :: fs' => match prompt_turn p f with Some (p', _) => prompt_run fs' p' | None => p end
  end.

Definition turns_left (at_ : prompt_at) : nat :=
  match at_ with
  | Clearing => 2 * LIMIT + 7 | Minting => 2 * LIMIT + 6 | Publishing => 2 * LIMIT + 5
  | Polling i => 2 * (LIMIT - i) + 4 | Taking i _ => 2 * (LIMIT - i) + 3
  | Cleaning _ => 2 | Forgetting _ => 1 | Printed _ => 0
  end.

Definition printed_ok (w : str) : Prop := w = $"timeout" \/ w ∈ VERDICTS.
Definition words_ok (at_ : prompt_at) : Prop :=
  match at_ with Cleaning w | Forgetting w | Printed w => printed_ok w | _ => True end.

Lemma turn_progress p f :
  words_ok (now_at p) ->
  match prompt_turn p f with
  | Some (p', _) => (turns_left (now_at p') < turns_left (now_at p))%nat /\ words_ok (now_at p')
  | None => exists w, now_at p = Printed w
  end.
Proof.
  intros Hw. assert (Hag : forall i, (turns_left (again i) < 2 * (LIMIT - i) + 3)%nat /\ words_ok (again i)).
  { intros i. unfold again. destruct (Nat.ltb_spec (S i) LIMIT) as [Hl|Hl]; cbn [turns_left words_ok]; split; try done; [lia|lia|by left]. }
  unfold prompt_turn. destruct (now_at p) as [| | |i|i w|w|w|w]; cbn [now_at move] in *; try (split; [unfold turns_left; lia|done]).
  - destruct (answer_for _ _) as [w|]; cbn [now_at move]; [split; [unfold turns_left; lia|done]|]. destruct (Hag i) as [H ?].
    split; [cbn [turns_left]; lia|done].
  - case_bool_decide; [split; [unfold turns_left; lia|by right]|]. destruct (Hag i) as [H1 ?]. split; [cbn [turns_left]; lia|done].
  - by exists w.
Qed.

Lemma prompt_run_ends fs p :
  words_ok (now_at p) -> (turns_left (now_at p) <= length fs)%nat -> exists w, now_at (prompt_run fs p) = Printed w /\ printed_ok w.
Proof.
  revert p. induction fs as [|f fs IH]; intros p Hw Hl; cbn [prompt_run length] in *.
  - destruct (now_at p) as [| | |i|i w|w|w|w]; unfold turns_left in Hl; try lia. by exists w.
  - pose proof (turn_progress p f Hw) as Hp. destruct (prompt_turn p f) as [[p' ?]|]; [apply IH; [apply Hp|]; lia|].
    destruct Hp as [w E]. exists w. rewrite E in Hw. done.
Qed.

(** The daemon's reading of the printed line. *)
Lemma word_read w :
  printed_ok w ->
  exists ans, parse_answer (utf8_lossy (utf8 (w ++ [10]))) = Some ans
    /\ approves ans = bool_decide (w = $"allow-conn" \/ w = $"allow-app") /\ (ans = Timeout <-> w = $"timeout").
Proof.
  assert (Hall : Forall (fun w => exists ans, parse_answer (utf8_lossy (utf8 (w ++ [10]))) = Some ans
            /\ approves ans = bool_decide (w = $"allow-conn" \/ w = $"allow-app")
            /\ bool_decide (ans = Timeout) = bool_decide (w = $"timeout")) ($"timeout" :: VERDICTS)).
  { repeat (apply Forall_cons; split; [eexists; split; [vm_compute; reflexivity|split; vm_compute; reflexivity]|]). by apply Forall_nil. }
  intros Hw. rewrite Forall_forall in Hall. destruct (Hall w) as (ans & H1 & H2 & H3).
  { destruct Hw as [->|Hw]; [by left|by right]. }
  exists ans. split; [done|]. split; [done|]. revert H3. repeat case_bool_decide; try done; intros _; tauto.
Qed.

(** C21. A prompt always answers.  Whatever the shared files hold at each of its turns - other
    prompts, stale answers, files that are gone - it has printed its word after at most 247
    turns; the word is [timeout] or one of the five verdicts, the daemon understands it, and
    takes it for an approval exactly if it is one of the two that allow. *)
Theorem prompt_contract nonce argv fs :
  (247 <= length fs)%nat ->
  exists w ans, now_at (prompt_run fs (mk_proc nonce (request_of argv) Clearing)) = Printed w
    /\ (w = $"timeout" \/ w ∈ VERDICTS)
    /\ prompt_answer (Some (utf8 (w ++ [10]))) = ans
    /\ approves ans = bool_decide (w = $"allow-conn" \/ w = $"allow-app")
    /\ (ans = Timeout <-> w = $"timeout").
Proof.
  intros Hl. destruct (prompt_run_ends fs (mk_proc nonce (request_of argv) Clearing)) as (w & Hp & Hw); [done|exact Hl|].
  destruct (word_read w Hw) as (ans & Hp' & Ha & Ht). exists w, ans. split; [done|]. split; [done|]. split; [|done].
  unfold prompt_answer. by rewrite Hp'.
Qed.

(** ** An answer arrives *)





(** ** What frontends read, and what the eww backend runs *)

Lemma jesc_char_read c s : 32 <= c -> json_string (jesc_char c ++ s) = ('(t, tl) ← json_string s; Some (c :: t, tl)).
Proof.
  intros Hc. unfold jesc_char. destruct (Z.eqb_spec c 92) as [->|H1]; [reflexivity|]. destruct (Z.eqb_spec c 34) as [->|H2]; [reflexivity|].
  cbn [app json_string]. by rewrite (proj2 (Z.eqb_neq _ _) H1), (proj2 (Z.eqb_neq _ _) H2), (proj2 (Z.ltb_ge _ _) Hc).
Qed.

(** A value without control characters reads back from the published JSON. *)
Lemma jesc_reads s rest :
  Forall (fun c => 32 <= c) s -> json_string (captured (jesc s) ++ 34 :: rest) = Some (s, rest).
Proof.
  intros Hs. assert (E : captured (jesc s) = jesc s).
  { destruct s as [|c s _] using rev_ind; [done|]. apply Forall_app in Hs as [_ [Hc _]%Forall_cons]. unfold jesc. rewrite map_app, concat_app.
    cbn [map concat]. rewrite app_nil_r. unfold jesc_char. destruct (c =? 92); [|destruct (c =? 34)].
    - change [92; 92] with ([92] ++ [92]). rewrite app_assoc. by apply captured_id.
    - change [92; 34] with ([92] ++ [34]). rewrite app_assoc. by apply captured_id.
    - apply captured_id. lia. }
  rewrite E. clear E. induction Hs as [|c s Hc _ IH]; [done|]. unfold jesc in *. cbn [map concat].
  rewrite <- app_assoc, jesc_char_read by done. by rewrite IH.
Qed.

(** [pf_scope_warning] *)
Definition scope_warning (q : Request) : str :=
  if str_eqb (rq_scope q) $"none" then
    $"UNATTRIBUTED: approving this allows " ++ rq_dst q ++ $" port " ++ rq_dport q ++ $" for EVERY application"
  else if str_eqb (rq_scope q) $"port" then
    $"WEAK MATCH: identified by local port only - " ++ rq_cmd q ++ $" may not be the sender"
  else [].

(** The command the eww backend hands to [su -c]. *)
Definition assign (name value : str) : str := [32] ++ name ++ [61; 39] ++ value ++ [39].
Definition eww_update (q : Request) : str :=
  $"eww update" ++ assign $"lf_exe" (rq_exe q) ++ assign $"lf_pid" (rq_pid q) ++ assign $"lf_cmd" (rq_cmd q)
  ++ assign $"lf_dst" (rq_dst q) ++ assign $"lf_dport" (rq_dport q) ++ assign $"lf_host" (rq_host q)
  ++ assign $"lf_idstate" (rq_idstate q) ++ assign $"lf_scope" (rq_scope q) ++ assign $"lf_scopewarn" (scope_warning q).

(** What sh finds outside single quotes, in text that uses no other quotes. *)
Fixpoint unquoted (quoted : bool) (s : str) : str :=
  match s with
  | [] => []
  | c :: s' => if c =? 39 then unquoted (negb quoted) s' else if quoted then unquoted quoted s' else c :: unquoted quoted s'
  end.

(** ** Runs *)

Definition nonce_a : str := $"00000000000000aa".
Definition nonce_b : str := $"00000000000000bb".
Definition argv_for (exe host : str) : list str := [exe; $"300"; $"prog"; $"5.6.7.8"; $"443"; host; $"ok"; $"exact"].
Definition at_rest : Prompts := mk_prompts (mk_files None None None) ∅ ∅.

(** As many turns of a prompt. *)
Definition turns (k n : nat) : list action := replicate n (Prompt_ k).

Lemma nonce_text_dec n : forallb (fun c => negb (c =? 32) && negb (c =? 10)) n && negb (bool_decide (n = [])) && negb (bool_decide (n = $"none")) = true -> nonce_text n.
Proof.
  intros H. bool_to_prop. split; [done|]. split; [|done]. apply Forall_forall. rewrite forallb_forall in H. intros c Hc.
  apply list_elem_of_In, H in Hc. bool_to_prop. done.
Qed.

(** Actions one after another, each as [action_ok] wants it. *)
Fixpoint actions_ok (s : Prompts) (acts : list action) : Prop :=
  match acts with
  | [] => True
  | a :: acts' => action_ok s a /\ match prompts_step s a with Some s' => actions_ok s' acts' | None => False end
  end.

Lemma actions_run s0 s acts s' : prompts_run s0 s -> actions_ok s acts -> run_actions s acts = Some s' -> prompts_run s0 s'.
Proof.
  revert s. induction acts as [|a acts IH]; intros s Hs Hok Hr; cbn in *; [by injection Hr as <-|].
  destruct Hok as [Ha Hok]. destruct (prompts_step s a) as [s1|] eqn:E; [|done]. by apply (IH s1); [eapply run_snoc|..].
Qed.

(** An earlier prompt ran out, an answer to it came too late and lies in the file. *)
Definition stale_acts : list action :=
  Raise 0 nonce_a (argv_for $"/bin/a" $"a.example") :: turns 0 3 ++ [Press 0 $"allow-app"; Answer_ 0] ++ turns 0 122 ++ [Answer_ 0].
Definition s_stale : Prompts := default at_rest (run_actions at_rest stale_acts).
Definition fresh_acts : list action :=
  Raise 1 nonce_b (argv_for $"/bin/b" $"b.example") :: turns 1 3 ++ [Press 1 $"block-conn"; Answer_ 1; Answer_ 1] ++ turns 1 4.
Definition s_fresh : Prompts := default at_rest (run_actions s_stale fresh_acts).

Lemma stale_run : prompts_run at_rest s_stale.
Proof.
  eapply (actions_run at_rest at_rest stale_acts); [constructor| |vm_compute; reflexivity]. split; [|vm_compute; tauto].
  split; [apply nonce_text_dec; vm_compute; reflexivity|]. intros k p Hk. cbn in Hk. by rewrite lookup_empty in Hk.
Qed.

Lemma fresh_run : prompts_run s_stale s_fresh.
Proof.
  eapply (actions_run s_stale s_stale fresh_acts); [constructor| |vm_compute; reflexivity]. split; [|vm_compute; tauto].
  split; [apply nonce_text_dec; vm_compute; reflexivity|]. intros k p Hk.
  assert (Hp : map_to_list (NONCE <$> procs s_stale) = [(0%nat, nonce_a)]) by (vm_compute; reflexivity).
  assert (Hin : (k, NONCE p) ∈ map_to_list (NONCE <$> procs s_stale)) by (apply elem_of_map_to_list; by rewrite lookup_fmap, Hk).
  rewrite Hp in Hin. apply list_elem_of_singleton in Hin. injection Hin as _ ->. discriminate.
Qed.

Lemma consent_traced_witness :
  answer_file (files s_stale) = Some (nonce_a ++ $" allow-app" ++ [10])
  /\ exists c x, clicks s_fresh !! c = Some x /\ click_now x = Written nonce_b /\ verdict_word x = $"block-conn".
Proof.
  split; [vm_compute; reflexivity|]. set (p := mk_proc nonce_b (request_of (argv_for $"/bin/b" $"b.example")) (Printed $"block-conn")).
  assert (H0 : none_yet at_rest) by (split_and!; reflexivity).
  assert (Hn : procs s_stale !! 1%nat = None) by (vm_compute; reflexivity).
  assert (Hk : procs s_fresh !! 1%nat = Some p) by (vm_compute; reflexivity).
  destruct (consent_traced at_rest s_stale s_fresh 1 p $"block-conn" H0 stale_run Hn fresh_run Hk eq_refl ltac:(discriminate))
    as (_ & (c & x & Hx & Hw & Hv & _) & _).
  exists c, x. split; [exact Hx|]. split; [exact Hw|exact Hv].
Defined.

(** Alone with an answer that is not its own, a prompt times out. *)
Definition stale_files : Files := mk_files (Some ($"none allow-app" ++ [10])) None None.
Lemma prompt_contract_witness :
  prompt_answer (Some (utf8 ($"timeout" ++ [10]))) = Timeout
  /\ exists w, now_at (prompt_run (replicate 247 stale_files) (mk_proc nonce_a (request_of []) Clearing)) = Printed w.
Proof.
  split; [vm_compute; reflexivity|]. assert (Hl : (247 <= length (replicate 247 stale_files))%nat) by (rewrite length_replicate; lia).
  destruct (prompt_contract nonce_a [] (replicate 247 stale_files) Hl) as (w & _ & Hw & _). exists w. exact Hw.
Defined.


(** The nonce a frontend sends is the one on file when the button is pressed, not the one of
    the request that was on show: here the frontend shows the request of /bin/a, the prompt of
    /bin/b has just put its nonce on file, and the "allow" meant for /bin/a approves /bin/b. *)
Example press_meant_for_another :
  let shown := Raise 0 nonce_a (argv_for $"/bin/a" $"a.example") :: turns 0 3 in
  let acts := shown ++ Raise 1 nonce_b (argv_for $"/bin/b" $"b.example") :: turns 1 2 ++ [Press 0 $"allow-app"] in
  match run_actions at_rest acts with
  | Some s => pending_file (files s) = Some (pending_json nonce_a (request_of (argv_for $"/bin/a" $"a.example")))
      /\ match run_actions s ([Answer_ 0; Answer_ 0] ++ turns 1 5) with
         | Some s' => now_at <$> procs s' !! 1%nat = Some (Printed $"allow-app") /\ now_at <$> procs s' !! 0%nat = Some (Polling 0)
         | None => False
         end
  | None => False
  end.
Proof. vm_compute. repeat split; reflexivity. Qed.

(** Cleaning up after itself, a prompt that ran out removes the nonce and the request of one
    raised since: the answer to that one is written for nobody, and it times out as well. *)
Example cleanup_of_another :
  let acts := Raise 0 nonce_a (argv_for $"/bin/a" $"a.example") :: turns 0 3 ++ Raise 1 nonce_b (argv_for $"/bin/b" $"b.example") :: turns 1 3
              ++ turns 0 122 ++ [Press 0 $"allow-app"; Answer_ 0; Answer_ 0] in
  match run_actions at_rest acts with
  | Some s => pending_file (files s) = None /\ answer_file (files s) = Some ($"none allow-app" ++ [10])
      /\ option_map (fun s' => now_at <$> procs s' !! 1%nat) (run_actions s (turns 1 122)) = Some (Some (Printed $"timeout"))
  | None => False
  end.
Proof. vm_compute. repeat split; reflexivity. Qed.

(** A host name is a DNS label, any bytes: with a quote in it, the eww backend hands sh a
    command of the name's own. *)
Example host_runs_command :
  let calm := request_of (argv_for $"/bin/a" $"a.example") in
  let evil := request_of (argv_for $"/bin/a" ($"a" ++ [39] ++ $";reboot;" ++ [39])) in
  unquoted false (eww_update calm) = $"eww update lf_exe= lf_pid= lf_cmd= lf_dst= lf_dport= lf_host= lf_idstate= lf_scope= lf_scopewarn="
  /\ unquoted false (eww_update evil)
     = $"eww update lf_exe= lf_pid= lf_cmd= lf_dst= lf_dport= lf_host=;reboot; lf_idstate= lf_scope= lf_scopewarn=".
Proof. split; vm_compute; reflexivity. Qed.

(** The published request is not JSON when a name has a control character. *)
Example control_breaks_json : json_string (captured (jesc ($"a" ++ [1] ++ $".example")) ++ [34]) = None.
Proof. vm_compute. reflexivity. Qed.
