(* ===== verification/PromptBackends.v ===== *)
(** The programs the daemon may run for a prompt besides the polling one of Prompts.v: the
    dispatcher that picks a backend (libexec/pfsnitch-prompt), the terminal
    (pfsnitch-prompt-tty) and the one that asks nobody (pfsnitch-prompt-deny).

    What who(1), pgrep(1) and test(1) answer, and what is typed, is an argument; the
    terminal's prompt shares its files with the others, as in Prompts.v. *)
From S2P Require Import Prelude Unicode RustStr IpAddr Policy Procinfo Abi KernAttr Seen Daemon KernModule ModuleDaemon ModuleScenario Cli Watchdog Prompts.

(** ** The dispatcher *)

Definition LIBEXEC : str := $"/usr/local/libexec".

(** What it finds: the variable, whether a Hyprland runs, what who(1) lists, [test -x]. *)
Record Session : Type := mk_session {
  PFSNITCH_PROMPT_BACKEND : option str; hyprland : bool; who : list str; executable : str -> bool
}.

Definition backend (s : Session) : str :=
  let b := param $"auto" (PFSNITCH_PROMPT_BACKEND s) in
  if str_eqb b $"auto" then if hyprland s then $"eww" else if grep_any (who s) then $"tty" else $"file" else b.

Inductive dispatched : Type := Exec (path : str) | Says (word : str).

Definition dispatch (s : Session) : dispatched :=
  let target := LIBEXEC ++ $"/pfsnitch-prompt-" ++ backend s in
  if executable s target then Exec target else Says $"timeout".

(** pfsnitch-prompt-deny *)
Definition deny_says : str := $"timeout".

(** ** What is shown *)

(** [pf_scope_warning], and the line of the request, [pf_describe] *)
Definition pf_scope_warning (q : Request) : str :=
  if str_eqb (rq_scope q) $"none" then
    $"UNATTRIBUTED: approving this allows " ++ rq_dst q ++ $" port " ++ rq_dport q ++ $" for EVERY application"
  else if str_eqb (rq_scope q) $"port" then $"WEAK MATCH: identified by local port only - " ++ rq_cmd q ++ $" may not be the sender"
  else [].
Definition pf_describe (q : Request) : str :=
  rq_cmd q ++ $" (pid " ++ rq_pid q ++ $") -> "
  ++ (if str_eqb (rq_host q) $"-" || bool_decide (rq_host q = []) then rq_dst q else rq_host q ++ $" [" ++ rq_dst q ++ $"]")
  ++ $" port " ++ rq_dport q.

Definition tty_screen (q : Request) : str :=
  let warn := captured (pf_scope_warning q) in
  [10] ++ $"  pfsnitch: outbound connection request" ++ [10]
  ++ $"    " ++ captured (pf_describe q) ++ [10]
  ++ $"    binary: " ++ rq_exe q ++ [10]
  ++ (if bool_decide (warn = []) then [] else $"    !! " ++ warn ++ [10])
  ++ $"    [c] allow connection  [a] allow app  [b] block connection  [B] block app  (60s -> timeout)" ++ [10]
  ++ $"  choice: ".

(** ** The terminal *)

Definition is_blank (c : char) : bool := (c =? 32) || (c =? 9).
Fixpoint skip_blanks (s : str) : str := match s with [] => [] | c :: s' => if is_blank c then skip_blanks s' else s end.

(** awk's [$2] *)
Definition second_field (line : str) : str :=
  let rest := default [] (break_on is_blank (skip_blanks line)).2 in (break_on is_blank (skip_blanks rest)).1.

(** The first terminal somebody is logged in on, else the console; [usable]: [test -c] and
    [test -w]. *)
Definition tty_of (who : list str) (usable : str -> bool) : option str :=
  let first := match who with [] => [] | l :: _ => $"/dev/" ++ second_field l end in
  let tty := if negb (bool_decide (first = [])) && usable first then first else $"/dev/console" in
  if usable tty then Some tty else None.

(** [read -r REPLY] takes the blanks off both ends; [None]: nothing in 60 seconds. *)
Definition read_reply (line : str) : str := rev (skip_blanks (rev (skip_blanks line))).

Definition tty_case (reply : str) : str :=
  if bool_decide (reply ∈ [$"c"; $"C"; $"allow-conn"]) then $"allow-conn"
  else if bool_decide (reply ∈ [$"a"; $"A"; $"allow-app"]) then $"allow-app"
  else if bool_decide (reply ∈ [$"b"; $"block"]) then $"block-conn"
  else if bool_decide (reply ∈ [$"B"; $"block-app"]) then $"block-app"
  else $"timeout".
Definition tty_answer (typed : option str) : str :=
  match typed with Some line => tty_case (read_reply line) | None => $"timeout" end.

(** Its steps over the shared files: those of Prompts.v, reading the terminal in one step
    where the others poll the answer file. *)
Definition tty_turn (typed : option str) (p : PromptProc) (f : Files) : option (PromptProc * Files) :=
  match now_at p with
  | Polling _ => Some (move (Cleaning (tty_answer typed)) p, f)
  | _ => prompt_turn p f
  end.

(** The files as the process finds them at each of its turns. *)
Definition tty_run (typed : option str) (fs : list Files) (p : PromptProc) : PromptProc :=
  foldl (fun p f => match tty_turn typed p f with Some (p', _) => p' | None => p end) p fs.

(** The program as a whole: the terminal, then the prompt, then the word. *)
Definition prompt_tty (who : list str) (usable : str -> bool) (typed : str -> option str) (nonce : str) (argv : list str)
    (fs : list Files) : option str :=
  match tty_of who usable with
  | None => Some $"timeout"
  | Some tty => match now_at (tty_run (typed tty) fs (mk_proc nonce (request_of argv) Clearing)) with Printed w => Some w | _ => None end
  end.

(** ** What they promise *)

Lemma tty_case_word reply : tty_case reply = $"timeout" \/ tty_case reply ∈ VERDICTS.
Proof. unfold tty_case, VERDICTS. repeat case_bool_decide; [right; set_solver..|by left]. Qed.

Lemma tty_answer_word typed : tty_answer typed = $"timeout" \/ tty_answer typed ∈ VERDICTS.
Proof. destruct typed; [apply tty_case_word|by left]. Qed.

Lemma tty_allows typed :
  tty_answer typed = $"allow-conn" \/ tty_answer typed = $"allow-app" <->
  exists line, typed = Some line /\ read_reply line ∈ [$"c"; $"C"; $"allow-conn"; $"a"; $"A"; $"allow-app"].
Proof.
  destruct typed as [line|]; cbn [tty_answer]; [|split; [by intros [?|?]|by intros (? & ? & _)]].
  unfold tty_case. split.
  - intros Hw. exists line. split; [done|]. revert Hw. repeat case_bool_decide; intros [Hw|Hw]; try (vm_compute in Hw; discriminate Hw); set_solver.
  - intros (? & [= <-] & Hr). repeat case_bool_decide; [by left|by right|exfalso; set_solver..].
Qed.

(** *** Which backend *)

(** The variable names no backend: unset, empty or auto. *)
Definition left_open (s : Session) : Prop :=
  match PFSNITCH_PROMPT_BACKEND s with None => True | Some v => v = [] \/ v = $"auto" end.

(** The choice as the script's head describes it: what was asked for, else the most specific
    that fits. *)
Inductive chooses (s : Session) : str -> Prop :=
| asked_for v : PFSNITCH_PROMPT_BACKEND s = Some v -> v <> [] -> v <> $"auto" -> chooses s v
| draws : left_open s -> hyprland s = true -> chooses s $"eww"
| logged_in l : left_open s -> hyprland s = false -> l ∈ who s -> l <> [] -> chooses s $"tty"
| nobody_here : left_open s -> hyprland s = false -> Forall (fun l => l = []) (who s) -> chooses s $"file".

#[export] Instance left_open_dec s : Decision (left_open s).
Proof. unfold left_open. destruct (PFSNITCH_PROMPT_BACKEND s); apply _. Defined.

Lemma grep_any_spec ls : if grep_any ls then exists l, l ∈ ls /\ l <> [] else Forall (fun l : str => l = []) ls.
Proof.
  unfold grep_any. induction ls as [|l ls IH]; cbn [existsb]; [constructor|].
  case_bool_decide as E; cbn [negb orb]; [|exists l; split; [by left|done]].
  destruct (existsb _ ls); [destruct IH as (x & ? & ?); exists x; split; [by right|done]|by constructor].
Qed.

Lemma auto_backend s : left_open s -> backend s = if hyprland s then $"eww" else if grep_any (who s) then $"tty" else $"file".
Proof. unfold left_open, backend. destruct (PFSNITCH_PROMPT_BACKEND s) as [v|]; [|done]. by intros [-> | ->]. Qed.

Lemma asked_backend s v : PFSNITCH_PROMPT_BACKEND s = Some v -> v <> [] -> v <> $"auto" -> backend s = v.
Proof.
  intros E Hv Ha. unfold backend. rewrite E. destruct v as [|c v]; [done|]. cbn [param].
  destruct (str_eqb (c :: v) $"auto") eqn:Eq; [|done]. apply str_eqb_eq in Eq. by rewrite Eq in Ha.
Qed.

Lemma chooses_backend s b : chooses s b <-> b = backend s.
Proof.
  pose proof (grep_any_spec (who s)) as Hw. split.
  - intros [v E Hv Ha|Ho Hh|l Ho Hh Hl Hn|Ho Hh Hf].
    + by rewrite (asked_backend s v).
    + by rewrite auto_backend, Hh.
    + rewrite auto_backend, Hh by done. destruct (grep_any (who s)); [done|]. rewrite Forall_forall in Hw. by apply Hw in Hl.
    + rewrite auto_backend, Hh by done. destruct (grep_any (who s)); [|done]. destruct Hw as (l & Hl & Hn). rewrite Forall_forall in Hf. by apply Hf in Hl.
  - intros ->. destruct (decide (left_open s)) as [Ho|Ho].
    + rewrite (auto_backend s Ho). destruct (hyprland s) eqn:Eh; [by apply draws|]. destruct (grep_any (who s)).
      * destruct Hw as (l & Hl & Hn). by apply (logged_in s l).
      * by apply nobody_here.
    + unfold left_open in Ho. destruct (PFSNITCH_PROMPT_BACKEND s) as [v|] eqn:E; [|done].
      rewrite (asked_backend s v) by (try done; intros ->; apply Ho; auto). apply asked_for; [done|intros ->; apply Ho; auto..].
Qed.

Lemma dispatch_spec s :
  (backend s = $"deny" -> PFSNITCH_PROMPT_BACKEND s = Some $"deny")
  /\ (forall p, dispatch s = Exec p <-> p = LIBEXEC ++ $"/pfsnitch-prompt-" ++ backend s /\ executable s p = true)
  /\ (forall w, dispatch s = Says w <-> w = $"timeout" /\ executable s (LIBEXEC ++ $"/pfsnitch-prompt-" ++ backend s) = false).
Proof.
  split; [|unfold dispatch; set (p0 := LIBEXEC ++ _); destruct (executable s p0) eqn:E].
  - intros Hb. assert (Hc : chooses s $"deny") by (by apply chooses_backend). remember $"deny" as b eqn:Ed. destruct Hc; subst; try discriminate Ed; done.
  - split; [intros p|intros w]; split; [intros [= <-]; done|by intros (-> & _)|done|by intros (_ & ?)].
  - split; [intros p|intros w]; split; [done|intros (-> & Hp); by rewrite Hp in E|by intros [= <-]|by intros (-> & _)].
Qed.

(** C22. The prompt's backends do as the dispatcher's head says, and allow nothing by
    themselves.  There is always exactly one backend chosen: the one the variable names; if
    it names none, eww when a Hyprland runs, else tty when somebody is logged in, else file;
    so the one that denies is chosen only by name.  The dispatcher runs [p] exactly if [p] is
    /usr/local/libexec/pfsnitch-prompt-BACKEND for the chosen backend and is executable, and
    says [timeout] exactly if that program is not executable; the program that denies says
    [timeout].  On a terminal, whatever else happens to the shared files, the prompt has
    printed a word the daemon understands after six turns; the daemon takes it for an approval
    exactly if a terminal was found and the line read from it is one of the six that allow. *)
Theorem backends_contract s usable typed nonce argv fs :
  (6 <= length fs)%nat ->
  (exists b, (forall b', chooses s b' <-> b' = b)
     /\ (b = $"deny" -> PFSNITCH_PROMPT_BACKEND s = Some $"deny")
     /\ (forall p, dispatch s = Exec p <-> p = LIBEXEC ++ $"/pfsnitch-prompt-" ++ b /\ executable s p = true)
     /\ (forall w, dispatch s = Says w <-> w = $"timeout" /\ executable s (LIBEXEC ++ $"/pfsnitch-prompt-" ++ b) = false))
  /\ prompt_answer (Some (utf8 (deny_says ++ [10]))) = Timeout
  /\ exists w, prompt_tty (who s) usable typed nonce argv fs = Some w
     /\ parse_answer (utf8_lossy (utf8 (w ++ [10]))) = Some (prompt_answer (Some (utf8 (w ++ [10]))))
     /\ (approves (prompt_answer (Some (utf8 (w ++ [10])))) = true <->
         exists tty line, tty_of (who s) usable = Some tty /\ typed tty = Some line
           /\ read_reply line ∈ [$"c"; $"C"; $"allow-conn"; $"a"; $"A"; $"allow-app"]).
Proof.
  intros Hl. split; [exists (backend s); split; [apply chooses_backend|apply dispatch_spec]|]. split; [by vm_compute|].
  assert (Hword : forall w, w = $"timeout" \/ w ∈ VERDICTS ->
    parse_answer (utf8_lossy (utf8 (w ++ [10]))) = Some (prompt_answer (Some (utf8 (w ++ [10]))))
    /\ (approves (prompt_answer (Some (utf8 (w ++ [10])))) = true <-> w = $"allow-conn" \/ w = $"allow-app")).
  { intros w Hw. destruct (word_read w Hw) as (ans & E & Ha & _). unfold prompt_answer. rewrite E. split; [done|]. cbn [default]. unfold id.
    rewrite Ha. by rewrite bool_decide_eq_true. }
  unfold prompt_tty. destruct (tty_of (who s) usable) as [tty|].
  - exists (tty_answer (typed tty)). split.
    + do 6 (destruct fs as [|? fs]; [cbn in Hl; lia|]). unfold tty_run. cbn [foldl]. unfold tty_turn. cbn [now_at prompt_turn move].
      generalize fs as gs. clear. intros gs. match goal with |- context [foldl _ ?p gs] => assert (E : now_at p = Printed (tty_answer (typed tty))) by reflexivity; revert E; generalize p end.
      induction gs as [|g gs IH]; intros p E; cbn; [by rewrite E|]. apply IH. unfold tty_turn, prompt_turn. by rewrite E.
    + destruct (Hword _ (tty_answer_word (typed tty))) as [Hp Ha]. split; [done|]. rewrite Ha, tty_allows.
      split; [intros (line & ? & ?); by exists tty, line|intros (? & line & [= <-] & ? & ?); by exists line].
  - exists $"timeout". split; [done|]. destruct (Hword $"timeout" (or_introl eq_refl)) as [Hp Ha]. split; [done|]. rewrite Ha.
    split; [intros [E|E]; vm_compute in E; discriminate E|by intros (? & ? & ? & _)].
Qed.

Definition no_files : Files := mk_files None None None.
Definition on_tty : Session := mk_session None false [$"root     ttyv0        Jul  1 10:00"] (fun _ => true).
Definition metrics_request : list str := [$"/opt/bin/app"; $"4711"; $"app"; $"203.0.113.7"; $"443"; $"cdn.example.org"; $"ok"; $"exact"].

(** Somebody is logged in on ttyv0 and types a; what is left of the answer file is not looked at. *)
Lemma backends_contract_witness :
  (6 <= length (replicate 6 no_files))%nat
  /\ dispatch on_tty = Exec $"/usr/local/libexec/pfsnitch-prompt-tty"
  /\ approves (prompt_answer (Some (utf8 (tty_answer (Some $" a ") ++ [10])))) = true.
Proof.
  assert (Hl : (6 <= length (replicate 6 no_files))%nat) by (cbn; lia). split; [exact Hl|]. split; [reflexivity|].
  destruct (backends_contract on_tty (fun _ => true) (fun _ => Some $" a ") (show_dec 7) metrics_request _ Hl) as (_ & _ & w & Hw & _ & Ha).
  assert (Ht : prompt_tty (who on_tty) (fun _ => true) (fun _ => Some $" a ") (show_dec 7) metrics_request (replicate 6 no_files)
               = Some (tty_answer (Some $" a "))) by (vm_compute; reflexivity).
  rewrite Ht in Hw. injection Hw as <-. apply (proj2 Ha). exists $"/dev/ttyv0", $" a ".
  split; [vm_compute; reflexivity|]. split; [reflexivity|]. vm_compute. apply list_elem_of_In. do 3 right. left. reflexivity.
Defined.

(** The host name is shown as it came from DNS: a line feed in it makes a line of its own, and
    an escape sequence reaches the terminal. *)
Lemma host_forges_line :
  let q := request_of [$"/tmp/dropper"; $"666"; $"dropper"; $"203.0.113.7"; $"443"; $"a" ++ [10] ++ $"    binary: /usr/bin/ssh" ++ [10; 27; 91; 56; 109]; $"ok"; $"exact"] in
  existsb (str_eqb $"    binary: /usr/bin/ssh") (lines (tty_screen q)) = true /\ existsb (fun c => c =? 27) (tty_screen q) = true.
Proof. by vm_compute. Qed.
