(* ===== verification/Service.v ===== *)
(** The service (rc.d/pfsnitch) and the way out of it (bin/pfsnitch-panic): scripts that run
    one command after another and look at what each says.

    A script is a function of the history of the commands run so far, latest first, and of
    what the machine answers, which may depend on all of it: the class [Machine].  rc.subr is
    the documented order of its steps.  Messages and log lines are not modelled. *)
From S2P Require Import Prelude Unicode RustStr IpAddr Policy Procinfo Abi KernAttr Seen Daemon KernModule ModuleDaemon ModuleScenario Cli Watchdog Prompts.

(** ** Commands *)

Inductive cmd : Type :=
| PfInfo | PfEnable | PfDisable                       (* pfctl -s info, -e, -d *)
| FlushAnchor | LoadFailopen | LoadDivert | LoadUdp   (* pfctl -a pfsnitch -F rules, -f FILE; -a pfsnitch/udpdivert -f FILE *)
| KldStat | KldLoad | SetFailmode (v : Z)             (* ipdivert; security.mac.pfsnitch.failmode *)
| Sockstat | PgrepDaemon | PgrepSupervisor | CatPid | TestWatchdogPid
| RunDaemon | RunWatchdog
| KillWatchdog | PkillWatchdog                        (* kill PID; pkill -f pfsnitch-watchdog *)
| KillSupervisor (pids : str) | PkillSupervisor       (* kill PIDS; pkill -f "daemon: pfsnitch" *)
| PkillDaemon | KillDaemon                            (* pkill -x pfsnitch; pkill -9 -x *)
| RmPids | RmWatchdogPid | RmAnswers | KernelReset | Sleep
| TestRc | IpfwEnabled | IpfwOff | IpfwFlush | IpfwAllow | UnloadIpfw.

(** Exit status, and standard output where the script reads it. *)
Record answer : Type := mk_answer { ok : bool; output : str }.
Definition event : Type := cmd * answer.

Class Machine : Type := says : list event -> cmd -> answer.

Definition sh (A : Type) : Type := list event -> A * list event.
#[export] Instance sh_ret : MRet sh := fun _ x h => (x, h).
#[export] Instance sh_bind : MBind sh := fun _ _ k m h => let '(x, h') := m h in k x h'.

Section service.
Context `{Machine}.

Definition run (c : cmd) : sh answer := fun h => let a := says h c in (a, (c, a) :: h).
Definition done_ : sh bool := mret true.
(** [c || true], [c >/dev/null 2>&1] in the middle of a script *)
Definition try_ (c : cmd) : sh unit := _ ← run c; mret tt.

(** The settings of rc.conf a script looks at. *)
Record Conf : Type := mk_conf { failmode : str; watchdog : str; divert_port : str }.
Context (conf : Conf).

(** ** What the scripts read out of an answer *)

(** [head -1 | grep -q Disabled] *)
Definition pf_disabled (a : answer) : bool := match lines (output a) with l :: _ => has_word $"Disabled" l | [] => false end.

(** awk's fields *)
Definition awk_blank (c : char) : bool := (c =? 32) || (c =? 9).
Fixpoint awk_fields_from (cur : str) (s : str) : list str :=
  match s with
  | [] => if bool_decide (cur = []) then [] else [rev cur]
  | c :: s' => if awk_blank c then (if bool_decide (cur = []) then [] else [rev cur]) ++ awk_fields_from [] s' else awk_fields_from (c :: cur) s'
  end.
Definition awk_fields (s : str) : list str := awk_fields_from [] s.

(** [pfsnitch_divert_squatters]: is anything printed? *)
Definition squatter (l : str) : bool :=
  match awk_fields l with
  | _ :: _ :: _ :: _ :: f5 :: f6 :: _ => str_eqb f5 $"div4" && ends_with ($":" ++ divert_port conf) f6
  | _ => false
  end.
Definition squatters (a : answer) : bool := existsb squatter (lines (output a)).

(** The pidfile's text is empty or has something that is no digit in it. *)
Definition not_a_pid (s : str) : bool := bool_decide (s = []) || existsb (fun c => negb ((48 <=? c) && (c <=? 57))) s.

(** ** rc.d/pfsnitch *)

Definition pfsnitch_failsafe : sh unit :=
  if str_eqb (failmode conf) $"closed" then try_ FlushAnchor
  else a ← run LoadFailopen; if ok a then mret tt else try_ FlushAnchor.

Definition pfsnitch_prestart : sh bool :=
  info ← run PfInfo;
  _ ← (if pf_disabled info then try_ PfEnable else mret tt);
  stat ← run KldStat;
  loaded ← (if ok stat then mret true else a ← run KldLoad; mret (ok a));
  if negb loaded then mret false
  else
    a ← run Sockstat;
    if squatters a then mret false else f ← run FlushAnchor; mret (ok f).

(** [while [ $n -lt 50 ]] *)
Fixpoint await_daemon (n : nat) : sh unit :=
  match n with
  | O => mret tt
  | S n' => a ← run PgrepDaemon; if ok a then mret tt else _ ← try_ Sleep; await_daemon n'
  end.

Definition pfsnitch_poststart : sh bool :=
  _ ← await_daemon 50;
  a ← run PgrepDaemon;
  if negb (ok a) then _ ← pfsnitch_failsafe; mret false
  else
    l ← run LoadDivert;
    if negb (ok l) then _ ← try_ PkillDaemon; _ ← pfsnitch_failsafe; mret false
    else
      _ ← try_ LoadUdp;
      _ ← try_ (SetFailmode (if str_eqb (failmode conf) $"closed" then 1 else 0));
      _ ← (if str_eqb (watchdog conf) $"YES" then try_ RunWatchdog else mret tt);
      done_.

(** [while [ $n -lt 25 ]] *)
Fixpoint await_exit (n : nat) : sh unit :=
  match n with
  | O => mret tt
  | S n' => a ← run PgrepDaemon; if negb (ok a) then mret tt else _ ← try_ Sleep; await_exit n'
  end.

Definition pfsnitch_stop : sh bool :=
  _ ← try_ FlushAnchor;
  p ← run TestWatchdogPid;
  _ ← (if ok p then _ ← try_ KillWatchdog; try_ RmWatchdogPid else mret tt);
  _ ← try_ PkillWatchdog;
  c ← run CatPid;
  sup ← (if not_a_pid (captured (output c)) then a ← run PgrepSupervisor; mret (captured (output a)) else mret (captured (output c)));
  _ ← (if bool_decide (sup = []) then mret tt else try_ (KillSupervisor sup));
  _ ← try_ PkillDaemon;
  _ ← await_exit 25;
  a ← run PgrepDaemon;
  _ ← (if ok a then try_ KillDaemon else mret tt);
  _ ← try_ RmPids;
  done_.

Definition pfsnitch_reload : sh bool :=
  a ← run PgrepDaemon;
  if negb (ok a) then mret false
  else l ← run LoadDivert; if negb (ok l) then mret false else _ ← try_ LoadUdp; done_.

Definition pfsnitch_load_anchor : sh bool :=
  a ← run PgrepDaemon;
  if ok a then l ← run LoadDivert; if negb (ok l) then mret false else _ ← try_ LoadUdp; done_
  else _ ← pfsnitch_failsafe; mret false.

Definition pfsnitch_poststop : sh bool :=
  _ ← try_ FlushAnchor; _ ← try_ KernelReset; a ← run RmAnswers; mret (ok a).

(** [run_rc_command]: the daemon is started unless the pidfile says one runs; a step that
    fails ends it. *)
Definition service_start (running : bool) : sh bool :=
  if running then mret false
  else
    pre ← pfsnitch_prestart;
    if negb pre then mret false
    else d ← run RunDaemon; if negb (ok d) then mret false else pfsnitch_poststart.

Definition service_stop : sh bool := r ← pfsnitch_stop; if r : bool then pfsnitch_poststop else mret false.

(** ** bin/pfsnitch-panic *)

Definition panic : sh unit :=
  rc ← run TestRc;
  _ ← (if ok rc then _ ← service_stop; mret tt else mret tt);
  _ ← try_ PkillWatchdog;
  d ← run PgrepDaemon;
  _ ← (if ok d then _ ← try_ PkillDaemon; _ ← try_ Sleep; try_ KillDaemon else mret tt);
  _ ← try_ PkillSupervisor;
  _ ← try_ FlushAnchor;
  _ ← try_ PfDisable;
  i ← run IpfwEnabled;
  _ ← (if ok i then _ ← try_ IpfwOff; _ ← try_ IpfwFlush; try_ IpfwAllow else mret tt);
  _ ← try_ UnloadIpfw;
  _ ← try_ PfInfo; try_ PgrepDaemon.

Inductive entry : Type := Start (running : bool) | Stop | Reload | Anchor | Panic.
Definition script (e : entry) : sh bool :=
  match e with
  | Start running => service_start running
  | Stop => service_stop
  | Reload => pfsnitch_reload
  | Anchor => pfsnitch_load_anchor
  | Panic => _ ← panic; done_
  end.
End service.

(** ** What a history shows *)

Definition diverting (c : cmd) : bool := match c with LoadDivert | LoadUdp => true | _ => false end.

(** Was the daemon there when a script last looked, and has it started and killed nothing
    since? *)
Fixpoint daemon_found (h : list event) : bool :=
  match h with
  | [] => false
  | (PgrepDaemon, a) :: _ => ok a
  | ((RunDaemon | PkillDaemon | KillDaemon | KillSupervisor _ | PkillSupervisor), _) :: _ => false
  | _ :: h' => daemon_found h'
  end.

(** Rules that divert go in only with a daemon found. *)
Fixpoint orderly_history (h : list event) : bool :=
  match h with [] => true | (c, _) :: h' => orderly_history h' && (negb (diverting c) || daemon_found h') end.

(** What the scripts have made of the anchor; a load that fails leaves what was there, pf
    takes rules in transactions. *)
Inductive anchor_rules : Type := AsFound | Empty | Unfiltered | Diverting.
#[export] Instance anchor_rules_eq_dec : EqDecision anchor_rules.
Proof. solve_decision. Defined.
Fixpoint anchor_after (h : list event) : anchor_rules :=
  match h with
  | [] => AsFound
  | (c, a) :: h' =>
      if ok a then match c with FlushAnchor => Empty | LoadFailopen => Unfiltered | LoadDivert => Diverting | _ => anchor_after h' end
      else anchor_after h'
  end.

(** Is pf on, as far as the scripts switched it ([None]: they have not)? *)
Fixpoint pf_after (h : list event) : option bool :=
  match h with
  | [] => None
  | (c, a) :: h' => if ok a then match c with PfEnable => Some true | PfDisable => Some false | _ => pf_after h' end else pf_after h'
  end.

Definition has_run (c : cmd -> bool) (h : list event) : bool := existsb (fun e => c e.1) h.

(** Commands that put something in place. *)
Definition installs (c : cmd) : bool :=
  diverting c || match c with PfEnable | LoadFailopen | RunDaemon | RunWatchdog => true | _ => false end.

(** ** Reasoning over scripts *)

Section scripts.
Context `{Machine}.

Definition wp {A} (m : sh A) (Q : A -> list event -> Prop) (h : list event) : Prop := Q (m h).1 (m h).2.

Lemma wp_ret {A} (x : A) Q h : Q x h -> wp (mret x) Q h.
Proof. done. Qed.

Lemma wp_bind {A B} (m : sh A) (k : A -> sh B) Q h : wp m (fun x => wp (k x) Q) h -> wp (m ≫= k) Q h.
Proof. unfold wp, mbind, sh_bind. by destruct (m h). Qed.

Lemma wp_mono {A} (m : sh A) (P Q : A -> list event -> Prop) h : wp m P h -> (forall x h', P x h' -> Q x h') -> wp m Q h.
Proof. intros HP HQ. by apply HQ. Qed.

(** Whatever the machine answers. *)
Lemma wp_run c Q h : (forall a, Q a ((c, a) :: h)) -> wp (run c) Q h.
Proof. intros HQ. apply HQ. Qed.

Lemma wp_try c Q h : (forall a, Q tt ((c, a) :: h)) -> wp (try_ c) Q h.
Proof. intros HQ. apply HQ. Qed.

(** The loops look for the daemon and sleep. *)
Definition waiting (e : event) : Prop := e.1 = PgrepDaemon \/ e.1 = Sleep.

Lemma waited evs a a' : Forall waiting evs -> Forall waiting (evs ++ [(Sleep, a'); (PgrepDaemon, a)]).
Proof. intros He. apply Forall_app. split; [done|]. constructor; [by right|]. constructor; [by left|constructor]. Qed.

Lemma wp_await_daemon n : forall Q h,
  (forall evs, Forall waiting evs -> (length evs <= 2 * n)%nat -> Q tt (evs ++ h)) -> wp (await_daemon n) Q h.
Proof.
  induction n as [|n IH]; intros Q h HQ; cbn [await_daemon]; [by apply wp_ret, (HQ [])|].
  apply wp_bind, wp_run. intros a. destruct (ok a).
  - apply wp_ret, (HQ [(PgrepDaemon, a)]); [constructor; [by left|constructor]|cbn; lia].
  - apply wp_bind, wp_try. intros a'. apply IH. intros evs He Hl. replace (evs ++ _ :: _ :: h) with ((evs ++ [(Sleep, a'); (PgrepDaemon, a)]) ++ h) by (by rewrite <- app_assoc).
    apply HQ; [by apply waited|rewrite length_app; cbn; lia].
Qed.

Lemma wp_await_exit n : forall Q h,
  (forall evs, Forall waiting evs -> (length evs <= 2 * n)%nat -> Q tt (evs ++ h)) -> wp (await_exit n) Q h.
Proof.
  induction n as [|n IH]; intros Q h HQ; cbn [await_exit]; [by apply wp_ret, (HQ [])|].
  apply wp_bind, wp_run. intros a. destruct (ok a); cbn [negb].
  - apply wp_bind, wp_try. intros a'. apply IH. intros evs He Hl. replace (evs ++ _ :: _ :: h) with ((evs ++ [(Sleep, a'); (PgrepDaemon, a)]) ++ h) by (by rewrite <- app_assoc).
    apply HQ; [by apply waited|rewrite length_app; cbn; lia].
  - apply wp_ret, (HQ [(PgrepDaemon, a)]); [constructor; [by left|constructor]|cbn; lia].
Qed.
End scripts.

(** Waiting changes nothing. *)
Lemma waiting_orderly evs h : Forall waiting evs -> orderly_history (evs ++ h) = orderly_history h.
Proof. induction 1 as [|[c a] evs [E|E] _ IH]; cbn in *; [done|subst c; by rewrite IH, andb_true_r..]. Qed.

Lemma waiting_anchor evs h : Forall waiting evs -> anchor_after (evs ++ h) = anchor_after h.
Proof. induction 1 as [|[c a] evs [E|E] _ IH]; cbn in *; [done|subst c; by destruct (ok a)..]. Qed.

Lemma waiting_pf evs h : Forall waiting evs -> pf_after (evs ++ h) = pf_after h.
Proof. induction 1 as [|[c a] evs [E|E] _ IH]; cbn in *; [done|subst c; by destruct (ok a)..]. Qed.

Lemma waiting_run f evs h : f PgrepDaemon = false -> f Sleep = false -> Forall waiting evs -> has_run f (evs ++ h) = has_run f h.
Proof. intros H1 H2. unfold has_run. induction 1 as [|[c a] evs [E|E] _ IH]; cbn in *; [done|subst c; by rewrite ?H1, ?H2, IH..]. Qed.

Lemma waiting_length evs (h : list event) n : (length evs <= n)%nat -> (length (evs ++ h) <= n + length h)%nat.
Proof. rewrite length_app. lia. Qed.

(** One command after another, through every branch. *)
Ltac walk :=
  repeat match goal with
  | |- wp (mbind _ _) _ _ => apply wp_bind
  | |- wp (run _) _ _ => apply wp_run; intros ?
  | |- wp (try_ _) _ _ => apply wp_try; intros ?
  | |- wp (mret _) _ _ => apply wp_ret
  | |- wp (await_exit _) _ _ => let evs := fresh "evs" in apply wp_await_exit; intros evs ? ?
  | |- wp (if negb ?b then _ else _) _ _ => destruct b eqn:?; cbn [negb]
  | |- wp (if ?b then _ else _) _ _ => destruct b eqn:?
  end.

(** What the history says, with the answers the branch has seen. *)
Ltac look :=
  repeat progress (
    cbn [orderly_history diverting daemon_found anchor_after pf_after fst snd negb andb orb];
    rewrite ?waiting_orderly, ?waiting_anchor, ?waiting_pf by assumption;
    repeat match goal with E : ok _ = _ |- _ => rewrite E end).

(** What is left to depend on an answer. *)
Ltac split_all := repeat match goal with |- context [if ok ?a then _ else _] => destruct (ok a) eqn:? end.

Section outcomes.
Context `{Machine} (conf : Conf).

(** The last thing done is the configured failsafe. *)
Definition failed_safely (h : list event) : Prop :=
  match h with
  | (LoadFailopen, a) :: _ => failmode conf <> $"closed" /\ ok a = true
  | (FlushAnchor, _) :: h' =>
      failmode conf = $"closed" \/ match h' with (LoadFailopen, a) :: _ => ok a = false | _ => False end
  | _ => False
  end.

Lemma wp_failsafe Q h :
  (forall h' evs, h' = evs ++ h -> failed_safely h' -> Forall (fun e : event => e.1 = FlushAnchor \/ e.1 = LoadFailopen) evs -> (length evs <= 2)%nat -> Q tt h') ->
  wp (pfsnitch_failsafe conf) Q h.
Proof.
  intros HQ. unfold pfsnitch_failsafe. destruct (str_eqb (failmode conf) $"closed") eqn:Ec.
  - apply str_eqb_eq in Ec. apply wp_try. intros a. apply (HQ _ [(FlushAnchor, a)]); [done|by left|constructor; [by left|constructor]|cbn; lia].
  - assert (Hne : failmode conf <> $"closed") by (intros E; rewrite E in Ec; vm_compute in Ec; discriminate Ec).
    apply wp_bind, wp_run. intros a. destruct (ok a) eqn:E; [apply wp_ret|apply wp_try; intros b].
    + apply (HQ _ [(LoadFailopen, a)]); [done|done|constructor; [by right|constructor]|cbn; lia].
    + apply (HQ _ [(FlushAnchor, b); (LoadFailopen, a)]); [done|by right|constructor; [by left|constructor; [by right|constructor]]|cbn; lia].
Qed.

(** The failsafe diverts nothing. *)
Lemma failsafe_history evs h :
  Forall (fun e : event => e.1 = FlushAnchor \/ e.1 = LoadFailopen) evs ->
  orderly_history (evs ++ h) = orderly_history h /\ (anchor_after h <> Diverting -> anchor_after (evs ++ h) <> Diverting).
Proof.
  induction 1 as [|[c a] evs [E|E] _ (IH1 & IH2)]; cbn [app] in *; [done|cbn in E; subst c..]; cbn;
    rewrite IH1, !andb_true_r; (split; [done|]); intros Hd; destruct (ok a); try done; by apply IH2.
Qed.

(** *** The stages of a start *)

(** Commands that leave the anchor and the processes alone. *)
Definition prepares (c : cmd) : bool := match c with PfInfo | PfEnable | KldStat | KldLoad => true | _ => false end.

(** [prestart] went through: nobody held the port, and the anchor was flushed after that. *)
Definition prestarted (h : list event) : Prop :=
  exists f q pre, h = (FlushAnchor, f) :: (Sockstat, q) :: pre /\ ok f = true /\ squatters conf q = false
    /\ forallb (fun e : event => prepares e.1) pre = true.

(** daemon(8) was run after that, and the script has only waited since. *)
Definition launched (h : list event) : Prop :=
  exists waits d h0, h = waits ++ (RunDaemon, d) :: h0 /\ Forall waiting waits /\ ok d = true /\ prestarted h0.

(** Refused before the anchor was changed or a daemon run: one runs, ipdivert does not load,
    somebody holds the port, or the flush failed. *)
Definition refused (running : bool) (h : list event) : Prop :=
  match h with
  | [] => running = true
  | (KldLoad, a) :: h' => ok a = false /\ forallb (fun e : event => prepares e.1) h' = true
  | (Sockstat, q) :: h' => squatters conf q = true /\ forallb (fun e : event => prepares e.1) h' = true
  | (FlushAnchor, f) :: (Sockstat, q) :: h' => ok f = false /\ squatters conf q = false /\ forallb (fun e : event => prepares e.1) h' = true
  | _ => False
  end.

(** The daemon was not found at the last look; or it was, but the rules did not load, and it
    was killed. *)
Definition given_up (h : list event) : Prop :=
  match h with
  | (PgrepDaemon, p) :: h' => ok p = false /\ launched h'
  | (PkillDaemon, _) :: (LoadDivert, l) :: (PgrepDaemon, p) :: h' => ok l = false /\ ok p = true /\ launched h'
  | _ => False
  end.

(** The daemon was found at the last look, then the rules loaded, those for UDP were tried,
    the module was told the fail mode, and the watchdog started if rc.conf has it. *)
Definition up_and_diverting (h : list event) : Prop :=
  exists u v w l p h', h = map (pair RunWatchdog) w ++ (SetFailmode v, u.2) :: (LoadUdp, u.1) :: (LoadDivert, l) :: (PgrepDaemon, p) :: h'
    /\ v = (if str_eqb (failmode conf) $"closed" then 1 else 0) /\ length w = (if str_eqb (watchdog conf) $"YES" then 1 else 0)%nat
    /\ ok l = true /\ ok p = true /\ launched h'.

Lemma prepares_quiet h :
  forallb (fun e : event => prepares e.1) h = true -> orderly_history h = true /\ anchor_after h = AsFound.
Proof.
  induction h as [|[c a] h IH]; [done|]. cbn [forallb fst]. intros [Hc (IH1 & IH2)%IH]%andb_true_iff.
  cbn. rewrite IH1, IH2. destruct c; try discriminate Hc; by destruct (ok a).
Qed.

Lemma prestarted_quiet h : prestarted h -> orderly_history h = true /\ anchor_after h = Empty.
Proof. intros (f & q & pre & -> & Hf & _ & (Ho & _)%prepares_quiet). cbn. by rewrite Hf, Ho. Qed.

Lemma launched_quiet h : launched h -> orderly_history h = true /\ anchor_after h = Empty.
Proof.
  intros (waits & d & h0 & -> & Hw & Hd & (Ho & Ha)%prestarted_quiet). rewrite waiting_orderly, waiting_anchor by done.
  cbn. by rewrite Hd, Ho, Ha.
Qed.

Lemma prestart_spec :
  wp (pfsnitch_prestart conf) (fun b h => (length h <= 6)%nat /\ if b then prestarted h else refused false h) [].
Proof.
  unfold pfsnitch_prestart. walk; try discriminate; (split; [cbn; lia|]); try done.
  all: match goal with |- context [ok ?f] => destruct (ok f) eqn:Ef end; [by eexists _, _, _|done].
Qed.

Lemma poststart_spec d h :
  ok d = true -> prestarted h ->
  wp (pfsnitch_poststart conf)
    (fun b h' => (length h' <= 108 + length h)%nat
       /\ if b then up_and_diverting h' else exists fs h1, h' = fs ++ h1 /\ given_up h1 /\ failed_safely h'
            /\ Forall (fun e : event => e.1 = FlushAnchor \/ e.1 = LoadFailopen) fs) ((RunDaemon, d) :: h).
Proof.
  intros Hd Hp. unfold pfsnitch_poststart, done_. apply wp_bind, wp_await_daemon. intros evs He Hl. apply wp_bind, wp_run. intros p.
  assert (Hlaunched : launched (evs ++ (RunDaemon, d) :: h)) by (by exists evs, d, h).
  assert (Hlen : (length (evs ++ (RunDaemon, d) :: h) <= 101 + length h)%nat) by (rewrite length_app; cbn; lia).
  assert (Hfail : forall h1, given_up h1 -> (length h1 <= 104 + length h)%nat ->
    wp (_ ← pfsnitch_failsafe conf; mret false)
      (fun b h' => (length h' <= 108 + length h)%nat
         /\ if (b : bool) then up_and_diverting h' else exists fs h1, h' = fs ++ h1 /\ given_up h1 /\ failed_safely h'
              /\ Forall (fun e : event => e.1 = FlushAnchor \/ e.1 = LoadFailopen) fs) h1).
  { intros h1 Hg Hl1. apply wp_bind, wp_failsafe. intros h' fs -> Hf Hfs Hn. apply wp_ret. split; [rewrite length_app; lia|by exists fs, h1]. }
  destruct (ok p) eqn:Ep; cbn [negb]; [|apply Hfail; [done|cbn [length]; lia]].
  apply wp_bind, wp_run. intros l. destruct (ok l) eqn:El; cbn [negb].
  - apply wp_bind, wp_try. intros u. apply wp_bind, wp_try. intros v. apply wp_bind.
    destruct (str_eqb (watchdog conf) $"YES") eqn:Ew; [apply wp_try; intros w|apply wp_ret]; apply wp_ret; (split; [cbn [length]; lia|]);
      [eexists (u, v), _, [w], l, p, _|eexists (u, v), _, [], l, p, _]; (split; [reflexivity|]); (split; [reflexivity|]); by rewrite Ew.
  - apply wp_bind, wp_try. intros k. apply Hfail; [done|cbn [length]; lia].
Qed.

(** What a start that returned [b] has done. *)
Definition started (running b : bool) (h : list event) : Prop :=
  (length h <= 114)%nat
  /\ if b then up_and_diverting h
     else refused running h
          \/ (exists d h', h = (RunDaemon, d) :: h' /\ ok d = false /\ prestarted h')
          \/ (exists fs h1, h = fs ++ h1 /\ given_up h1 /\ failed_safely h
                 /\ Forall (fun e : event => e.1 = FlushAnchor \/ e.1 = LoadFailopen) fs).

Lemma start_wp running : wp (service_start conf running) (started running) [].
Proof.
  unfold service_start. destruct running; [apply wp_ret; split; [cbn; lia|by left]|].
  apply wp_bind. eapply wp_mono; [apply prestart_spec|]. intros b h (Hl & Hb). destruct b; cbn [negb].
  - apply wp_bind, wp_run. intros d. destruct (ok d) eqn:Ed; cbn [negb].
    + eapply wp_mono; [by apply poststart_spec|]. intros b h' (Hl' & Hb'). split; [lia|]. destruct b; [done|by right; right].
    + apply wp_ret. split; [cbn [length]; lia|]. right; left. by exists d, h.
  - apply wp_ret. split; [lia|by left].
Qed.

(** What it comes to for the anchor. *)
Lemma given_up_quiet h : given_up h -> orderly_history h = true /\ anchor_after h = Empty.
Proof.
  destruct h as [|[[] a] h]; try done; cbn [given_up].
  - intros (Hp & (Ho & Ha)%launched_quiet). cbn. by rewrite Hp, Ho, Ha.
  - destruct h as [|[[] l] [|[[] p] h]]; try done. intros (Hl & Hp & (Ho & Ha)%launched_quiet). cbn. rewrite Hl, Hp, Ho, Ha. by destruct (ok a).
Qed.

Lemma refused_quiet running h : refused running h -> orderly_history h = true /\ anchor_after h = AsFound.
Proof.
  destruct h as [|[[] a] h]; try done; cbn [refused].
  - destruct h as [|[[] q] h]; try done. intros (Hf & _ & (Ho & Ha)%prepares_quiet). cbn. rewrite Hf, Ho, Ha. by destruct (ok q).
  - intros (Hk & (Ho & Ha)%prepares_quiet). cbn. by rewrite Hk, Ho, Ha.
  - intros (_ & (Ho & Ha)%prepares_quiet). cbn. rewrite Ho, Ha. by destruct (ok a).
Qed.

Lemma started_anchor running b h :
  started running b h ->
  orderly_history h = true /\ if b then anchor_after h = Diverting else refused running h /\ anchor_after h = AsFound \/ anchor_after h <> Diverting.
Proof.
  intros (_ & Hb). destruct b; [|destruct Hb as [Hr|[(d & h' & -> & Hd & (Ho & Ha)%prestarted_quiet)|(fs & h1 & -> & (Ho & Ha)%given_up_quiet & _ & Hfs)]]].
  - destruct Hb as (u & v & w & l & p & h' & -> & _ & _ & Hl & Hp & (Ho & _)%launched_quiet). induction w as [|x w IH]; cbn.
    + rewrite Hl, Hp, Ho. split; [done|]. by destruct (ok u.2), (ok u.1).
    + destruct IH as [-> IH]. split; [done|]. by destruct (ok x).
  - destruct (refused_quiet _ _ Hr) as [Ho Ha]. split; [done|by left].
  - cbn. rewrite Ho, Hd, Ha. split; [done|by right].
  - destruct (failsafe_history fs h1 Hfs) as [-> Hn]. split; [done|]. right. apply Hn. by rewrite Ha.
Qed.

(** ** Stopping *)

(** A command that puts nothing in place and leaves pf's switch alone. *)
Definition takes_down (e : event) : bool := negb (installs e.1) && match e.1 with PfDisable => false | _ => true end.

Lemma taken_down evs h :
  forallb takes_down evs = true ->
  orderly_history (evs ++ h) = orderly_history h /\ (anchor_after h <> Diverting -> anchor_after (evs ++ h) <> Diverting)
  /\ has_run installs (evs ++ h) = has_run installs h /\ pf_after (evs ++ h) = pf_after h.
Proof.
  induction evs as [|[c a] evs IH]; intros Ht; [done|]. cbn [forallb app] in *. apply andb_true_iff in Ht as [Hc (IH1 & IH2 & IH3 & IH4)%IH].
  unfold has_run in *. cbn [existsb orderly_history anchor_after pf_after fst]. rewrite IH1, IH3, IH4.
  destruct c; try discriminate Hc; cbn [diverting installs orb negb]; rewrite andb_true_r;
    (split; [done|]; split; [|split; [done|by destruct (ok a)]]); intros Hd; destruct (ok a); try done; by apply IH2.
Qed.

Lemma waiting_down evs : Forall waiting evs -> forallb takes_down evs = true.
Proof. induction 1 as [|[c a] evs [E|E] _ IH]; cbn in *; [done|by subst c..]. Qed.

(** The history is longer by commands that take down. *)
Definition down (h h' : list event) : Prop := exists evs, h' = evs ++ h /\ forallb takes_down evs = true.

Lemma down_refl h : down h h.
Proof. by exists []. Qed.

Lemma down_cons e h h' : takes_down e = true -> down h h' -> down h (e :: h').
Proof. intros He (evs & -> & Hd). exists (e :: evs). split; [done|]. cbn. by rewrite He. Qed.

(** The watchdog: by its pidfile if there is one, then by name. *)
Definition watchdog_killed (h : list event) : Prop :=
  match h with
  | [(PkillWatchdog, _); (RmWatchdogPid, _); (KillWatchdog, _); (TestWatchdogPid, t)] => ok t = true
  | [(PkillWatchdog, _); (TestWatchdogPid, t)] => ok t = false
  | _ => False
  end.

(** The supervisor: the pid of the pidfile, or what pgrep prints if there is none in it; left
    out only when neither gives one. *)
Definition supervisor_killed (h : list event) : Prop :=
  match h with
  | [(KillSupervisor pids, _); (CatPid, c)] => pids = captured (output c) /\ not_a_pid pids = false
  | [(KillSupervisor pids, _); (PgrepSupervisor, g); (CatPid, c)] => not_a_pid (captured (output c)) = true /\ pids = captured (output g) /\ pids <> []
  | [(PgrepSupervisor, g); (CatPid, c)] => not_a_pid (captured (output c)) = true /\ captured (output g) = []
  | _ => False
  end.

(** The daemon, after it was asked to go: gone at the last look, or killed. *)
Definition daemon_gone_or_killed (h : list event) : Prop :=
  match h with
  | [(RmPids, _); (PgrepDaemon, p)] => ok p = false
  | [(RmPids, _); (KillDaemon, _); (PgrepDaemon, p)] => ok p = true
  | _ => False
  end.

(** All of a stop: the rules out, the watchdog, the supervisor, the daemon; it is given 25
    looks to go. *)
Definition all_stopped (h : list event) : Prop :=
  exists last waits k supervisor dog f,
    h = last ++ waits ++ (PkillDaemon, k) :: supervisor ++ dog ++ [(FlushAnchor, f)]
    /\ watchdog_killed dog /\ supervisor_killed supervisor /\ Forall waiting waits /\ (length waits <= 50)%nat /\ daemon_gone_or_killed last.

Lemma wp_stop_watchdog {A} (k : sh A) Q h :
  (forall dog, watchdog_killed dog -> (length dog <= 4)%nat -> forallb takes_down dog = true -> wp k Q (dog ++ h)) ->
  wp (p ← run TestWatchdogPid; _ ← (if ok p then _ ← try_ KillWatchdog; try_ RmWatchdogPid else mret tt); _ ← try_ PkillWatchdog; k) Q h.
Proof.
  intros HQ. apply wp_bind, wp_run. intros t. apply wp_bind. destruct (ok t) eqn:Et; walk.
  - apply (HQ [(PkillWatchdog, _); (RmWatchdogPid, _); (KillWatchdog, _); (TestWatchdogPid, t)]); [exact Et|cbn; lia|done].
  - apply (HQ [(PkillWatchdog, _); (TestWatchdogPid, t)]); [exact Et|cbn; lia|done].
Qed.

Lemma wp_stop_supervisor {A} (k : sh A) Q h :
  (forall sup, supervisor_killed sup -> (length sup <= 3)%nat -> forallb takes_down sup = true -> wp k Q (sup ++ h)) ->
  wp (c ← run CatPid;
      sup ← (if not_a_pid (captured (output c)) then a ← run PgrepSupervisor; mret (captured (output a)) else mret (captured (output c)));
      _ ← (if bool_decide (sup = []) then mret tt else try_ (KillSupervisor sup)); k) Q h.
Proof.
  intros HQ. apply wp_bind, wp_run. intros c. apply wp_bind. destruct (not_a_pid _) eqn:En.
  - apply wp_bind, wp_run. intros g. apply wp_ret, wp_bind. case_bool_decide as Eg; [apply wp_ret|apply wp_try; intros r].
    + apply (HQ [(PgrepSupervisor, g); (CatPid, c)]); [done|cbn; lia|done].
    + apply (HQ [(KillSupervisor _, r); (PgrepSupervisor, g); (CatPid, c)]); [done|cbn; lia|done].
  - apply wp_ret, wp_bind. case_bool_decide as Eg; [rewrite Eg in En; discriminate En|apply wp_try; intros r].
    apply (HQ [(KillSupervisor _, r); (CatPid, c)]); [done|cbn; lia|done].
Qed.

Lemma wp_stop_daemon {A} (k : sh A) Q h :
  (forall last waits, Forall waiting waits -> (length waits <= 50)%nat -> daemon_gone_or_killed last -> (length last <= 3)%nat ->
     forallb takes_down last = true -> wp k Q (last ++ waits ++ h)) ->
  wp (_ ← await_exit 25; a ← run PgrepDaemon; _ ← (if ok a then try_ KillDaemon else mret tt); _ ← try_ RmPids; k) Q h.
Proof.
  intros HQ. apply wp_bind, wp_await_exit. intros waits Hw Hl. apply wp_bind, wp_run. intros p. apply wp_bind. destruct (ok p) eqn:Ep; walk.
  - apply (HQ [(RmPids, _); (KillDaemon, _); (PgrepDaemon, p)]); [done|lia|exact Ep|cbn; lia|done].
  - apply (HQ [(RmPids, _); (PgrepDaemon, p)]); [done|lia|exact Ep|cbn; lia|done].
Qed.

Lemma down_app evs h h' : forallb takes_down evs = true -> down h h' -> down h (evs ++ h').
Proof. intros He (fs & -> & Hd). exists (evs ++ fs). split; [by rewrite app_assoc|]. by rewrite forallb_app, He. Qed.

Lemma stop_spec h :
  wp pfsnitch_stop
    (fun b h' => b = true /\ down h h' /\ (length h' <= 62 + length h)%nat /\ (h = [] -> all_stopped h')) h.
Proof.
  unfold pfsnitch_stop, done_. apply wp_bind, wp_try. intros f. apply wp_stop_watchdog. intros dog Hdog Ld Dd.
  apply wp_stop_supervisor. intros sup Hsup Ls Ds. apply wp_bind, wp_try. intros k. apply wp_stop_daemon.
  intros last waits Hw Lw Hlast Ll Dl. apply wp_ret. split; [done|]. split; [|split].
  - apply down_app; [done|]. apply down_app; [by apply waiting_down|]. apply down_cons; [done|]. apply down_app; [done|]. apply down_app; [done|].
    apply down_cons; [done|apply down_refl].
  - rewrite !length_app. cbn [length]. rewrite !length_app. cbn [length]. lia.
  - intros ->. by exists last, waits, k, sup, dog, f.
Qed.

Lemma service_stop_spec h :
  wp service_stop
    (fun _ h' => down h h' /\ (length h' <= 65 + length h)%nat
       /\ exists h0 a b c, h' = (RmAnswers, a) :: (KernelReset, b) :: (FlushAnchor, c) :: h0 /\ (h = [] -> all_stopped h0)) h.
Proof.
  unfold service_stop. apply wp_bind. eapply wp_mono; [apply stop_spec|]. intros r h0 (-> & Hd & Hl & Hk).
  unfold pfsnitch_poststop. walk. split; [|split; [cbn [length] in *; lia|by eexists h0, _, _, _]].
  repeat (apply down_cons; [done|]). exact Hd.
Qed.

(** From the first command of the panic on: nothing is put in place, pf is switched off and
    stays so. *)
Lemma panic_spec :
  wp panic
    (fun _ h => exists (h1 : list event) a (h2 : list event), h = h1 ++ (PfDisable, a) :: h2 /\ forallb takes_down h1 = true /\ forallb takes_down h2 = true
       /\ (length h <= 81)%nat
       /\ has_run (fun c => match c with PkillWatchdog => true | _ => false end) h2 = true
       /\ has_run (fun c => match c with PkillSupervisor => true | _ => false end) h2 = true
       /\ exists b h3, h2 = (FlushAnchor, b) :: h3) [].
Proof.
  unfold panic. apply wp_bind, wp_run. intros rc.
  assert (Htail : forall h, forallb takes_down h = true -> (length h <= 66)%nat ->
    wp (_ ← try_ PkillWatchdog; d ← run PgrepDaemon; _ ← (if ok d then _ ← try_ PkillDaemon; _ ← try_ Sleep; try_ KillDaemon else mret tt);
        _ ← try_ PkillSupervisor; _ ← try_ FlushAnchor; _ ← try_ PfDisable; i ← run IpfwEnabled;
        _ ← (if ok i then _ ← try_ IpfwOff; _ ← try_ IpfwFlush; try_ IpfwAllow else mret tt);
        _ ← try_ UnloadIpfw; _ ← try_ PfInfo; try_ PgrepDaemon)
      (fun _ h' => exists (h1 : list event) a (h2 : list event), h' = h1 ++ (PfDisable, a) :: h2 /\ forallb takes_down h1 = true /\ forallb takes_down h2 = true
         /\ (length h' <= 81)%nat
         /\ has_run (fun c => match c with PkillWatchdog => true | _ => false end) h2 = true
         /\ has_run (fun c => match c with PkillSupervisor => true | _ => false end) h2 = true
         /\ exists b h3, h2 = (FlushAnchor, b) :: h3) h).
  { intros h Hh Hl. walk;
      match goal with |- exists _ _ _, ?g = _ /\ _ =>
        let rec before l := match l with (PfDisable, _) :: _ => constr:(@nil event) | ?x :: ?l' => let r := before l' in constr:(x :: r) end in
        let r := before g in exists r
      end;
      eexists _, _; (split; [reflexivity|]); (split; [reflexivity|]); (split; [exact Hh|]); (split; [cbn [length]; lia|]);
      (split; [reflexivity|]); (split; [reflexivity|]); by eexists _, _. }
  apply wp_bind. destruct (ok rc).
  - apply wp_bind. eapply wp_mono; [apply service_stop_spec|]. intros r h ((evs & -> & Hd) & Hl & _).
    apply wp_ret, Htail; [|exact Hl]. by rewrite forallb_app, Hd.
  - apply wp_ret, Htail; [done|cbn; lia].
Qed.
End outcomes.

(** C24. What [service pfsnitch start] comes to, whatever the machine answers and however long
    the daemon takes; it runs at most 114 commands.  If it succeeds, it did this, in this
    order: saw nobody on the port, flushed the anchor, ran daemon(8), waited until it found
    the daemon, loaded the divert rules, tried those for UDP, told the module the configured
    fail mode, and started the watchdog if rc.conf has it; the anchor diverts.  If it fails,
    one of three things.  It was refused - one runs already, ipdivert does not load, somebody
    holds the port, the flush fails - before a daemon was run, and the rules in the anchor
    are those it found, whatever they are.  Or daemon(8) itself failed, right after the
    flush, and nothing follows: the anchor is empty.  Or the daemon was run but not found
    at the last look, or found and killed because the divert rules did not load, and then
    the configured failsafe is the last thing done: flushed if closed, the fail-open rules if
    open, flushed if those do not load; the anchor does not divert. *)
Theorem start_outcome `{Machine} conf running :
  match service_start conf running [] with
  | (b, h) =>
      (length h <= 114)%nat
      /\ if b then up_and_diverting conf h /\ anchor_after h = Diverting
         else (refused conf running h /\ anchor_after h = AsFound)
              \/ (exists d h', h = (RunDaemon, d) :: h' /\ ok d = false /\ prestarted conf h' /\ anchor_after h = Empty)
              \/ (exists fs h1, h = fs ++ h1 /\ Forall (fun e : event => e.1 = FlushAnchor \/ e.1 = LoadFailopen) fs
                    /\ given_up conf h1 /\ failed_safely conf h /\ anchor_after h <> Diverting)
  end.
Proof.
  pose proof (start_wp conf running) as Hw. unfold wp in Hw. destruct (service_start conf running []) as [b h]. cbn [fst snd] in Hw.
  destruct Hw as [Hl Hb]. split; [done|]. destruct b.
  - split; [done|]. by apply (started_anchor conf running true h).
  - destruct Hb as [Hr|[(d & h' & -> & Hd & Hp)|(fs & h1 & -> & Hg & Hf & Hfs)]].
    + left. split; [done|]. by apply (refused_quiet conf running).
    + right; left. exists d, h'. split_and!; try done. cbn. rewrite Hd. by apply (prestarted_quiet conf).
    + right; right. exists fs, h1. split_and!; try done. apply failsafe_history; [done|]. by rewrite (proj2 (given_up_quiet conf h1 Hg)).
Qed.

(** C23. The scripts in the right order, whatever the machine answers.  No script of the
    service, nor the panic, loads rules that divert unless its last look at the processes
    found the daemon, and it has started and killed nothing since; none goes on for more than
    114 commands.  [reload] and [anchor] that fail leave the anchor as it was or end in the
    failsafe.  [stop] puts nothing in place and does this, in this order: takes the rules out;
    kills the watchdog, by its pidfile if that is there and then by name; kills the supervisor,
    by the number in its pidfile or else by what pgrep prints, unless neither names one; asks
    the daemon to go, waits for at most 25 looks, and kills it if it is still there; and in
    the end flushes the anchor again, resets the module and removes the answers. *)
Theorem service_orderly `{Machine} conf e :
  match script conf e [] with
  | (b, h) =>
      orderly_history h = true /\ (length h <= 114)%nat
      /\ match e with
         | Start _ => True
         | Reload => if b then anchor_after h = Diverting else anchor_after h = AsFound
         | Anchor => if b then anchor_after h = Diverting else anchor_after h = AsFound \/ failed_safely conf h
         | Stop => has_run installs h = false
             /\ exists h0 c1 c2 c3, h = (RmAnswers, c1) :: (KernelReset, c2) :: (FlushAnchor, c3) :: h0 /\ all_stopped h0
         | Panic => has_run installs h = false
         end
  end.
Proof.
  destruct e; cbn [script].
  - pose proof (start_wp conf running) as Hs. unfold wp in Hs. destruct (service_start conf running []) as [b h].
    destruct (started_anchor conf running b h Hs) as [Ho _]. destruct Hs as (Hl & _). by split_and!.
  - pose proof (service_stop_spec []) as Hs. unfold wp in Hs. destruct (service_stop []) as [b h]. cbn [fst snd] in Hs.
    destruct Hs as ((evs & -> & Hd) & Hl & h0 & c1 & c2 & c3 & E & Hk). destruct (taken_down evs [] Hd) as (Ho & _ & Hi & _).
    rewrite Ho, Hi. split; [done|]. split; [cbn [length] in Hl; lia|]. split; [done|]. exists h0, c1, c2, c3. split; [exact E|by apply Hk].
  - set (Q := fun (b : bool) h => orderly_history h = true /\ (length h <= 114)%nat /\ if b then anchor_after h = Diverting else anchor_after h = AsFound).
    enough (Hw : wp pfsnitch_reload Q []) by (unfold wp in Hw; by destruct (pfsnitch_reload [])).
    unfold pfsnitch_reload, done_, Q. walk; look; split_all; (split_and!; [done|cbn; lia|done]).
  - set (Q := fun (b : bool) h => orderly_history h = true /\ (length h <= 114)%nat /\ if b then anchor_after h = Diverting else anchor_after h = AsFound \/ failed_safely conf h).
    enough (Hw : wp (pfsnitch_load_anchor conf) Q []) by (unfold wp in Hw; by destruct (pfsnitch_load_anchor conf [])).
    unfold pfsnitch_load_anchor, done_, Q. walk; try (look; split_all; (split_and!; [done|cbn; lia|first [done|by left]])).
    apply wp_failsafe. intros h' evs -> Hf Hfs Hn. apply wp_ret. destruct (failsafe_history evs [(PgrepDaemon, a)] Hfs) as (Ho & _).
    split; [etrans; [exact Ho|done]|]. split; [rewrite length_app; cbn; lia|by right].
  - set (Q := fun (b : bool) h => orderly_history h = true /\ (length h <= 114)%nat /\ has_run installs h = false).
    enough (Hw : wp (_ ← panic; done_) Q []) by (unfold wp in Hw; by destruct ((_ ← panic; done_) [])).
    apply wp_bind. eapply wp_mono; [apply panic_spec|]. intros _ h (h1 & a & h2 & -> & H1 & H2 & Hl & _). apply wp_ret. unfold Q.
    destruct (taken_down h1 ((PfDisable, a) :: h2) H1) as (-> & _ & -> & _). destruct (taken_down h2 [] H2) as (Ho & _ & Hi & _).
    rewrite app_nil_r in Ho, Hi. split; [look; by rewrite Ho|]. split; [lia|]. unfold has_run in *. cbn. by rewrite Hi.
Qed.

(** C25. The panic gets the network back.  Whatever the machine answers, it puts nothing in
    place; it has killed the watchdog and the supervisor and flushed the anchor before it
    disables pf; and if pfctl does disable it, pf is off when the script ends. *)
Theorem way_out `{Machine} :
  exists (h1 : list event) a (h2 : list event), (panic []).2 = h1 ++ (PfDisable, a) :: h2
    /\ has_run installs (panic []).2 = false
    /\ has_run (fun c => match c with PkillWatchdog => true | _ => false end) h2 = true
    /\ has_run (fun c => match c with PkillSupervisor => true | _ => false end) h2 = true
    /\ (exists b h3, h2 = (FlushAnchor, b) :: h3)
    /\ pf_after (panic []).2 = if ok a then Some false else None.
Proof.
  pose proof panic_spec as Hs. unfold wp in Hs. destruct Hs as (h1 & a & h2 & -> & H1 & H2 & Hl & Hw & Hsv & Hf).
  exists h1, a, h2. split; [done|]. destruct (taken_down h1 ((PfDisable, a) :: h2) H1) as (_ & _ & -> & ->).
  destruct (taken_down h2 [] H2) as (_ & _ & Hi & Hp). rewrite app_nil_r in Hi, Hp. unfold has_run in *. cbn. rewrite Hi, Hp. split_and!; done.
Qed.

(** ** What one would not expect *)

(** pf is on, nobody holds the port, and everything works but these. *)
Definition all_but (broken : cmd -> bool) : Machine := fun _ c => mk_answer (negb (broken c)) [].
Definition open_conf : Conf := mk_conf $"open" $"YES" $"8668".

(** When the rules do not load, [poststart] kills the daemon "to avoid a half state" but not its
    supervisor, daemon(8) with -r, which starts it again. *)
Lemma supervisor_left :
  let h := (@service_start (all_but (fun c => match c with LoadDivert => true | _ => false end)) open_conf false []).2 in
  has_run (fun c => match c with PkillDaemon => true | _ => false end) h = true
  /\ has_run (fun c => match c with KillSupervisor _ | PkillSupervisor => true | _ => false end) h = false.
Proof. by vm_compute. Qed.

(** When daemon(8) itself does not start, rc.subr ends there: the anchor [prestart] flushed stays
    empty, whatever the fail mode, and no watchdog is there to notice. *)
Lemma no_failsafe_without_poststart :
  match @service_start (all_but (fun c => match c with RunDaemon => true | _ => false end)) open_conf false [] with
  | (b, h) => b = false /\ anchor_after h = Empty
      /\ has_run (fun c => match c with LoadFailopen | RunWatchdog => true | _ => false end) h = false
  end.
Proof. by vm_compute. Qed.

(** On a machine where all goes well: what the theorems say is not empty. *)
Lemma service_runs :
  let m := all_but (fun _ => false) in
  (@service_start m open_conf false []).1 = true /\ (@script m open_conf Stop []).1 = true /\ (@script m open_conf Reload []).1 = true
  /\ pf_after (@panic m []).2 = Some false.
Proof. by vm_compute. Qed.
