(* ===== verification/UnitTests.v ===== *)
(** The repository's own unit tests, replayed on the model: each test function of the Rust
    sources is a boolean with the assertions in their order, and the kernel evaluates it.
    They anchor the definitions to the behaviour the authors pinned down. *)
From S2P Require Import Prelude Unicode RustStr IpAddr Target Policy PolicyFile PolicyRecord Packet Reset Procinfo Abi KernAttr Daemon.

(** [assert_eq!], and the conjunction of the assertions of a test. *)
Definition assert_eq {A} `{EqDecision A} (a b : A) : bool := bool_decide (a = b).
Definition assert_ne {A} `{EqDecision A} (a b : A) : bool := negb (bool_decide (a = b)).
Definition all_of (l : list bool) : bool := forallb (fun b => b) l.

(** [str::contains] *)
Fixpoint contains (sub s : str) : bool :=
  starts_with sub s || match s with [] => false | _ :: s => contains sub s end.

(** A text file from its lines. *)
Definition text (ls : list str) : str := unlines ls.

(** ** policy.rs, mod tests *)

#[local] Existing Instance io_fine.

Definition test_path : str := $"/tmp/pfsnitch-test.conf".
Definition load_from (body : str) : Policy * Fs :=
  let fs : Fs := {[test_path := body]} in (load fs test_path, fs).
Definition decides (pol : Policy) (exe : option str) (dst : str) (host : option str) (p : Z) (v : Verdict) : bool :=
  match parse_ip dst with
  | Some a => bool_decide (decide_verdict pol exe a host p = v)
  | None => false
  end.

Definition APP : str := $"/usr/local/bin/someapp".
Definition OTHER : str := $"/usr/local/bin/otherapp".
Definition dst9 : str := $"203.0.113.9".
Definition moved7 : str := $"198.51.100.7".
Definition metrics_host : str := $"metrics.example.com".
Definition api : str := $"api.example.com".

(** [k v app], one line of a policy. *)
Definition from_line (k v app : str) : str := k ++ [32] ++ v ++ [32] ++ app.

Definition deny_dest_is_a_listed_kind : bool := is_kind $"deny-dest".

Definition deny_dest_blocks_every_application : bool :=
  let pol := (load_from (text [$"default allow"; $"deny-dest 203.0.113.9"])).1 in
  all_of [decides pol (Some APP) dst9 None 443 Deny; decides pol (Some OTHER) dst9 None 443 Deny;
          decides pol None dst9 None 443 Deny; decides pol (Some APP) moved7 None 443 Allow].

Definition deny_dest_outranks_a_per_app_allow : bool :=
  let pol := (load_from (text [$"default ask"; $"allow-app /usr/local/bin/someapp"; $"deny-dest 203.0.113.9"])).1 in
  decides pol (Some APP) dst9 None 443 Deny.

Definition deny_dest_honours_its_port_scope : bool :=
  let pol := (load_from (text [$"default allow"; $"deny-dest 203.0.113.9:443"])).1 in
  all_of [decides pol (Some APP) dst9 None 443 Deny; decides pol (Some APP) dst9 None 80 Allow].

Definition address (s : str) : IpAddr := default (V4 0) (parse_ip s).

Definition blocking_an_unattributed_connection_actually_writes_a_rule : bool :=
  let '(pol, fs) := load_from (text [$"default ask"]) in
  let '(pol, fs) := record pol fs test_path Block None (address dst9) None 443 Approved in
  all_of [decides pol None dst9 None 443 Deny; decides pol (Some APP) dst9 None 443 Deny;
          contains $"deny-dest 203.0.113.9:443" (default [] (read_to_string fs test_path))].

Definition blocking_an_unattributed_connection_prefers_the_hostname : bool :=
  let '(pol, fs) := load_from (text [$"default ask"]) in
  let '(pol, fs) := record pol fs test_path Block None (address dst9) (Some metrics_host) 443 Approved in
  all_of [contains $"deny-host metrics.example.com:443" (default [] (read_to_string fs test_path));
          decides pol None moved7 (Some metrics_host) 443 Deny].

Definition an_app_wide_answer_without_a_binary_writes_nothing : bool :=
  let '(pol, fs) := load_from (text [$"default ask"]) in
  let '(pol, fs) := record pol fs test_path AllowApp None (address dst9) None 443 Approved in
  let '(pol, fs) := record pol fs test_path BlockApp None (address dst9) None 443 Approved in
  all_of [assert_eq (read_to_string fs test_path) (Some (text [$"default ask"])); decides pol None dst9 None 443 Ask].

Definition blocking_one_destination_leaves_the_app_otherwise_working : bool :=
  let pol := (load_from (text [$"default allow"; from_line $"deny-host-from" metrics_host APP])).1 in
  all_of [decides pol (Some APP) dst9 (Some metrics_host) 443 Deny; decides pol (Some APP) dst9 (Some api) 443 Allow;
          decides pol (Some OTHER) dst9 (Some metrics_host) 443 Allow].

Definition a_scoped_deny_outranks_a_broader_allow : bool :=
  let pol := (load_from (text [$"default ask"; $"allow-host metrics.example.com";
                               from_line $"deny-host-from" metrics_host APP])).1 in
  all_of [decides pol (Some APP) dst9 (Some metrics_host) 443 Deny;
          decides pol (Some OTHER) dst9 (Some metrics_host) 443 Allow].

Definition scoped_deny_also_outranks_allow_app_for_that_destination : bool :=
  let pol := (load_from (text [$"default ask"; $"allow-app /usr/local/bin/someapp";
                               from_line $"deny-host-from" metrics_host APP])).1 in
  all_of [decides pol (Some APP) dst9 (Some metrics_host) 443 Deny;
          decides pol (Some APP) dst9 (Some $"cdn.example.com") 443 Allow].

Definition scoped_deny_by_bare_address_when_no_hostname_was_seen : bool :=
  let pol := (load_from (text [$"default allow"; from_line $"deny-dest-from" dst9 APP])).1 in
  all_of [decides pol (Some APP) dst9 None 443 Deny; decides pol (Some APP) $"203.0.113.10" None 443 Allow;
          decides pol (Some OTHER) dst9 None 443 Allow].

Definition wildcards_work_in_scoped_rules_too : bool :=
  let pol := (load_from (text [$"default allow"; from_line $"deny-host-from" $"*.telemetry.example.com" APP])).1 in
  all_of [decides pol (Some APP) dst9 (Some $"eu.telemetry.example.com") 443 Deny;
          decides pol (Some APP) dst9 (Some $"telemetry.example.com") 443 Deny;
          decides pol (Some APP) dst9 (Some $"example.com") 443 Allow].

Definition an_executable_path_containing_spaces_still_parses : bool :=
  let pol := (load_from (text [$"default allow"; from_line $"deny-host-from" metrics_host $"/opt/My App/bin/app"])).1 in
  decides pol (Some $"/opt/My App/bin/app") dst9 (Some metrics_host) 443 Deny.

Definition a_port_scoped_rule_does_not_open_other_ports : bool :=
  let pol := (load_from (text [$"default ask"; from_line $"allow-host-from" $"example.com:443" APP])).1 in
  all_of [decides pol (Some APP) dst9 (Some $"example.com") 443 Allow;
          decides pol (Some APP) dst9 (Some $"example.com") 22 Ask;
          decides pol (Some APP) dst9 (Some $"example.com") 80 Ask].

Definition a_rule_without_a_port_still_means_any_port : bool :=
  let pol := (load_from (text [$"default ask"; from_line $"allow-host-from" $"example.com" APP])).1 in
  forallb (fun p => decides pol (Some APP) dst9 (Some $"example.com") p Allow) [22; 80; 443; 8080].

Definition a_port_scoped_deny_only_blocks_that_port : bool :=
  let pol := (load_from (text [$"default allow"; from_line $"deny-host-from" $"example.com:443" APP])).1 in
  all_of [decides pol (Some APP) dst9 (Some $"example.com") 443 Deny;
          decides pol (Some APP) dst9 (Some $"example.com") 80 Allow].

Definition ipv6_literal_with_a_port_is_parsed_and_matched : bool :=
  let pol := (load_from (text [$"default ask"; from_line $"allow-dest-from" $"[2606:4700:4700::1111]:853" APP])).1 in
  all_of [decides pol (Some APP) $"2606:4700:4700::1111" None 853 Allow;
          decides pol (Some APP) $"2606:4700:4700::1111" None 443 Ask].

Definition approving_a_host_for_one_app_does_not_open_it_for_others : bool :=
  let pol := (load_from (text [$"default ask"; from_line $"allow-host-from" api APP])).1 in
  all_of [decides pol (Some APP) dst9 (Some api) 443 Allow; decides pol (Some OTHER) dst9 (Some api) 443 Ask].

Definition a_scoped_deny_still_beats_a_scoped_allow_for_another_app : bool :=
  let pol := (load_from (text [$"default ask"; from_line $"allow-host-from" api APP;
                               from_line $"deny-host-from" api OTHER])).1 in
  all_of [decides pol (Some APP) dst9 (Some api) 443 Allow; decides pol (Some OTHER) dst9 (Some api) 443 Deny].

Definition a_scoped_deny_beats_a_scoped_allow_for_the_same_app : bool :=
  let pol := (load_from (text [$"default ask"; from_line $"allow-host-from" api APP;
                               from_line $"deny-host-from" api APP])).1 in
  decides pol (Some APP) dst9 (Some api) 443 Deny.

Definition a_global_allow_host_still_covers_every_binary : bool :=
  let pol := (load_from (text [$"default ask"; $"allow-host dns.example.com"])).1 in
  forallb (fun e => decides pol e dst9 (Some $"dns.example.com") 443 Allow) [Some APP; Some OTHER; None].

Definition a_scoped_allow_cannot_match_an_unattributed_connection : bool :=
  let pol := (load_from (text [$"default ask"; from_line $"allow-host-from" api APP])).1 in
  decides pol None dst9 (Some api) 443 Ask.

Example policy_tests_pass :
  all_of [deny_dest_is_a_listed_kind; deny_dest_blocks_every_application; deny_dest_outranks_a_per_app_allow;
    deny_dest_honours_its_port_scope; blocking_an_unattributed_connection_actually_writes_a_rule;
    blocking_an_unattributed_connection_prefers_the_hostname; an_app_wide_answer_without_a_binary_writes_nothing;
    blocking_one_destination_leaves_the_app_otherwise_working; a_scoped_deny_outranks_a_broader_allow;
    scoped_deny_also_outranks_allow_app_for_that_destination;
    scoped_deny_by_bare_address_when_no_hostname_was_seen; wildcards_work_in_scoped_rules_too;
    an_executable_path_containing_spaces_still_parses; a_port_scoped_rule_does_not_open_other_ports;
    a_rule_without_a_port_still_means_any_port; a_port_scoped_deny_only_blocks_that_port;
    ipv6_literal_with_a_port_is_parsed_and_matched; approving_a_host_for_one_app_does_not_open_it_for_others;
    a_scoped_deny_still_beats_a_scoped_allow_for_another_app; a_scoped_deny_beats_a_scoped_allow_for_the_same_app;
    a_global_allow_host_still_covers_every_binary; a_scoped_allow_cannot_match_an_unattributed_connection] = true.
Proof. vm_compute. reflexivity. Qed.

(** ** policy.rs, mod target_tests *)

Definition plain_hostname_means_any_port : bool := assert_eq (split_target $"example.com") ($"example.com", None).
Definition hostname_with_port : bool := assert_eq (split_target $"example.com:443") ($"example.com", Some 443).
Definition bare_ipv6_is_not_mistaken_for_a_port : bool :=
  assert_eq (split_target $"2606:4700:4700::1111") ($"2606:4700:4700::1111", None).
Definition bracketed_ipv6_with_port : bool :=
  assert_eq (split_target $"[2606:4700:4700::1111]:853") ($"2606:4700:4700::1111", Some 853).
Definition bracketed_ipv6_without_port : bool :=
  assert_eq (split_target $"[2606:4700:4700::1111]") ($"2606:4700:4700::1111", None).
Definition ipv4_with_and_without_port : bool :=
  all_of [assert_eq (split_target $"1.1.1.1") ($"1.1.1.1", None);
          assert_eq (split_target $"1.1.1.1:53") ($"1.1.1.1", Some 53)].
Definition a_port_that_is_not_a_number_stays_part_of_the_name : bool :=
  assert_eq (split_target $"example.com:https") ($"example.com:https", None).
Definition round_trips : bool :=
  forallb (fun s => let '(h, p) := split_target s in assert_eq (join_target h p) s)
    [$"example.com"; $"example.com:443"; $"1.1.1.1:53"; $"[2606:4700::1111]:853"].

Example target_tests_pass :
  all_of [plain_hostname_means_any_port; hostname_with_port; bare_ipv6_is_not_mistaken_for_a_port;
    bracketed_ipv6_with_port; bracketed_ipv6_without_port; ipv4_with_and_without_port;
    a_port_that_is_not_a_number_stays_part_of_the_name; round_trips] = true.
Proof. vm_compute. reflexivity. Qed.

(** ** divert.rs, mod tests *)

(** An IPv6 packet with the given next header and payload; a TCP header with given flags. *)
Definition v6 (nh : Z) (rest : list Z) : list Z :=
  [96; 0; 0; 0] ++ to_be16 (Z.of_nat (length rest)) ++ [nh; 64]
  ++ [32; 1; 13; 184; 0; 0; 0; 0; 0; 0; 0; 0; 0; 0; 0; 1]
  ++ [32; 1; 72; 96; 0; 0; 0; 0; 0; 0; 0; 0; 0; 0; 136; 136] ++ rest.
Definition tcp (sport dport flags : Z) : list Z :=
  to_be16 sport ++ to_be16 dport ++ replicate 8 0 ++ [80; flags] ++ replicate 6 0.
Definition v4_to (d : list Z) (flags : Z) : list Z :=
  [69; 0; 0; 40; 0; 0; 0; 0; 64; 6; 0; 0] ++ [10; 0; 0; 2] ++ d ++ tcp 41000 443 flags.

(** [parse(..).expect(..)] followed by assertions; [.is_none()]. *)
Definition expect {A} (r : res A) (k : A -> bool) : bool := match r with Ok a => k a | _ => false end.
Definition is_none {A} (r : res A) : bool := match r with Nope => true | _ => false end.

Definition v6_syn_is_parsed_and_recognised_as_a_connection_attempt : bool :=
  expect (parse (v6 6 (tcp 41000 443 2))) (fun f =>
    all_of [f_proto f =? 6; f_dport f =? 443; f_sport f =? 41000;
            assert_eq (Some (f_dst f)) (parse_ip $"2001:4860::8888"); syn_only f]).
Definition v6_synack_is_not_a_connection_attempt : bool :=
  expect (parse (v6 6 (tcp 443 41000 18))) (fun f => negb (syn_only f)).
Definition v6_extension_headers_are_walked_to_reach_the_real_protocol : bool :=
  expect (parse (v6 0 ([6; 0; 0; 0; 0; 0; 0; 0] ++ tcp 41000 443 2))) (fun f =>
    all_of [f_proto f =? 6; f_dport f =? 443; syn_only f]).
Definition v6_non_first_fragment_is_refused_rather_than_misparsed : bool :=
  is_none (parse (v6 44 ([6; 0; 0; 8; 0; 0; 0; 1] ++ tcp 41000 443 2))).
Definition v6_udp_payload_offset_lands_after_the_udp_header : bool :=
  let pkt := v6 17 ([0; 53; 0; 53; 0; 8; 0; 0] ++ utf8 $"DNSBODY") in
  all_of [expect (payload_offset pkt) (fun o => (o =? 48)%nat); assert_eq (drop 48 pkt) (utf8 $"DNSBODY")].
Definition v4_still_parses_unchanged : bool :=
  expect (parse (v4_to [8; 8; 8; 8] 2)) (fun f =>
    all_of [assert_eq (Some (f_dst f)) (parse_ip $"8.8.8.8"); f_dport f =? 443; syn_only f]).

Definition sums_to_zero (parts : list (list Z)) : bool := csum parts =? 0.

Definition v4_rst_has_valid_ip_and_tcp_checksums : bool :=
  expect (tcp_rst (v4_to [93; 184; 216; 34] 2)) (fun r =>
    all_of [(length r =? 40)%nat; sums_to_zero [take 20 r];
            sums_to_zero [[93; 184; 216; 34; 10; 0; 0; 2; 0; 6; 0; 20]; drop 20 r]]).
Definition v4_rst_is_addressed_back_to_the_sender : bool :=
  expect (tcp_rst (v4_to [93; 184; 216; 34] 2)) (fun r =>
    all_of [assert_eq (take 4 (drop 12 r)) [93; 184; 216; 34]; assert_eq (take 4 (drop 16 r)) [10; 0; 0; 2];
            be_join 8 (take 2 (drop 20 r)) =? 443; be_join 8 (take 2 (drop 22 r)) =? 41000;
            Z.land (byte_at r 33) 4 =? 4; be_join 8 (take 4 (drop 28 r)) =? 1]).
Definition v6_rst_has_a_valid_tcp_checksum : bool :=
  expect (tcp_rst (v6 6 (tcp 41000 443 2))) (fun r =>
    let pseudo := take 16 (drop 8 r) ++ take 16 (drop 24 r) ++ to_be32 20 ++ [0; 0; 0; 6] in
    all_of [(length r =? 60)%nat; sums_to_zero [pseudo; drop 40 r]; Z.land (byte_at r 53) 4 =? 4]).
Definition an_rst_is_never_answered_with_another_rst : bool := is_none (tcp_rst (v4_to [93; 184; 216; 34] 4)).
Definition udp_gets_no_reset : bool := is_none (tcp_rst (v6 17 ([0; 53; 0; 53; 0; 8; 0; 0] ++ utf8 $"x"))).
Definition truncated_and_garbage_packets_are_rejected_not_panicked_on : bool :=
  all_of [is_none (parse []); is_none (parse [96]); is_none (parse (replicate 39 96));
          is_none (parse (replicate 60 0)); is_none (parse (v6 0 []))].

Example divert_tests_pass :
  all_of [v6_syn_is_parsed_and_recognised_as_a_connection_attempt; v6_synack_is_not_a_connection_attempt;
    v6_extension_headers_are_walked_to_reach_the_real_protocol;
    v6_non_first_fragment_is_refused_rather_than_misparsed; v6_udp_payload_offset_lands_after_the_udp_header;
    v4_still_parses_unchanged; v4_rst_has_valid_ip_and_tcp_checksums; v4_rst_is_addressed_back_to_the_sender;
    v6_rst_has_a_valid_tcp_checksum; an_rst_is_never_answered_with_another_rst; udp_gets_no_reset;
    truncated_and_garbage_packets_are_rejected_not_panicked_on] = true.
Proof. vm_compute. reflexivity. Qed.

(** ** kernattr.rs, mod tests *)

Definition abi_layout_matches_the_c_header : bool :=
  all_of [size_z attr_fields =? 1108; attr_query_cmd =? 3293857281].           (* 0xC454_4601 *)
Definition verdict_abi_layout_matches_the_c_header : bool :=
  all_of [size_z verdict_fields =? 1052; verdict_push_cmd =? 2216445442;       (* 0x841C_4602 *)
          verdict_flush_cmd =? 536888835].                                     (* 0x2000_4603 *)
Definition upcall_abi_layout_matches_the_c_header : bool :=
  all_of [size_z event_fields =? 1064; size_z resolve_fields =? 16;
          resolve_cmd =? 2148550148; upcall_set_cmd =? 2147763717].            (* 0x8010_4604, 0x8004_4605 *)

Example kernattr_tests_pass :
  all_of [abi_layout_matches_the_c_header; verdict_abi_layout_matches_the_c_header;
          upcall_abi_layout_matches_the_c_header] = true.
Proof. vm_compute. reflexivity. Qed.

(** ** procinfo.rs, mod tests *)

Definition own (p : Z) (name : str) : Owner := mk_owner p name ($"/usr/sbin/" ++ name).
Definition v4 (a b c d : Z) : IpAddr := v4_of [a; b; c; d].
Definition UDP : Z := 17.
Definition TCP : Z := 6.
(** An address, a port and the owner of a socket bound to them. *)
Abbreviation LocalRow := (IpAddr * Z * Owner)%type.
Definition udp_flow (s : IpAddr) (sp : Z) (d : IpAddr) (dp : Z) : Tuple := mk_tuple UDP s sp d dp.
Definition unconnected (l : list LocalRow) : Tables :=
  foldl (fun t '(ip, p, o) => insert_unconnected UDP ip p o t) no_tables l.
Definition found (t : Tables) (f : Tuple) (outbound : bool) (name : str) (c : Confidence) : bool :=
  match get t f outbound with
  | Some a => str_eqb (command (owner a)) name && str_eqb (confidence_str (confidence a)) (confidence_str c)
  | None => false
  end.
Definition missing (t : Tables) (f : Tuple) (outbound : bool) : bool := bool_decide (owner <$> get t f outbound = None).

Definition exact_tuple_wins : bool :=
  let f := mk_tuple TCP (v4 10 0 0 2) 54614 (v4 1 1 1 1) 443 in
  let t := insert_exact f (own 100 $"firefox") no_tables in
  all_of [found t f true $"firefox" Exact; bool_decide (pid ∘ owner <$> get t f true = Some 100)].
Definition unconnected_socket_matches_on_local_address : bool :=
  found (unconnected [(v4 10 0 0 2, 123%Z, own 200 $"ntpd")]) (udp_flow (v4 10 0 0 2) 123 (v4 198 71 50 75) 123) true
    $"ntpd" Local.
Definition wildcard_bind_falls_back_to_port : bool :=
  found (unconnected [(v4 0 0 0 0, 123%Z, own 200 $"ntpd")]) (udp_flow (v4 10 0 0 2) 123 (v4 198 71 50 75) 123) true
    $"ntpd" Port.
Definition same_pid_many_sockets_is_not_contested : bool :=
  let o := own 200 $"ntpd" in
  let t := unconnected [(v4 0 0 0 0, 123%Z, o); (v4 127 0 0 1, 123%Z, o); (v4 10 0 0 2, 123%Z, o)] in
  bool_decide (command ∘ owner <$> get t (udp_flow (v4 10 0 0 2) 123 (v4 1 2 3 4) 123) true = Some $"ntpd").
Definition contested_port_is_refused : bool :=
  missing (unconnected [(v4 0 0 0 0, 5353%Z, own 300 $"avahi"); (v4 0 0 0 0, 5353%Z, own 301 $"mdnsd")])
    (udp_flow (v4 10 0 0 2) 5353 (v4 224 0 0 251) 5353) true.
Definition contested_local_address_is_refused : bool :=
  missing (unconnected [(v4 10 0 0 2, 9999%Z, own 400 $"one"); (v4 10 0 0 2, 9999%Z, own 401 $"two")])
    (udp_flow (v4 10 0 0 2) 9999 (v4 8 8 8 8) 53) true.
Definition inbound_packet_never_uses_weak_tiers : bool :=
  let t := unconnected [(v4 0 0 0 0, 53%Z, own 500 $"unbound")] in
  let reply := udp_flow (v4 8 8 8 8) 53 (v4 10 0 0 2) 54321 in
  all_of [missing t reply false; negb (missing t reply true)].
Definition exact_match_still_works_inbound : bool :=
  let f := mk_tuple TCP (v4 1 1 1 1) 443 (v4 10 0 0 2) 54614 in
  found (insert_exact f (own 100 $"firefox") no_tables) f false $"firefox" Exact.
Definition stronger_tier_wins : bool :=
  let f := udp_flow (v4 10 0 0 2) 123 (v4 198 71 50 75) 123 in
  let t := insert_unconnected UDP (v4 10 0 0 2) 123 (own 200 $"ntpd")
             (insert_exact f (own 100 $"the-real-sender") no_tables) in
  found t f true $"the-real-sender" Exact.
Definition protocol_is_part_of_the_key : bool :=
  missing (unconnected [(v4 10 0 0 2, 123%Z, own 200 $"ntpd")]) (mk_tuple TCP (v4 10 0 0 2) 123 (v4 1 2 3 4) 80) true.
Definition confidence_strings_are_stable : bool :=
  assert_eq (map confidence_str [Kernel; Exact; Local; Port]) [$"kernel"; $"exact"; $"local"; $"port"].
Definition entries_skips_contested_keys : bool :=
  (length (entries (unconnected [(v4 0 0 0 0, 5353%Z, own 300 $"avahi"); (v4 0 0 0 0, 5353%Z, own 301 $"mdnsd")])) =? 0)%nat.
Definition entries_does_not_double_count_one_socket : bool :=
  assert_eq (map (fun e => confidence_str (pe_confidence e)) (entries (unconnected [(v4 10 0 0 2, 123%Z, own 200 $"ntpd")])))
    [$"local"].

Example procinfo_tests_pass :
  all_of [exact_tuple_wins; unconnected_socket_matches_on_local_address; wildcard_bind_falls_back_to_port;
    same_pid_many_sockets_is_not_contested; contested_port_is_refused; contested_local_address_is_refused;
    inbound_packet_never_uses_weak_tiers; exact_match_still_works_inbound; stronger_tier_wins;
    protocol_is_part_of_the_key; confidence_strings_are_stable; entries_skips_contested_keys;
    entries_does_not_double_count_one_socket] = true.
Proof. vm_compute. reflexivity. Qed.

(** ** main.rs, mod ask_key_tests *)

Definition one_name_on_many_addresses_is_one_question : bool :=
  assert_eq (ask_key (Some $"example.org") (v4 104 20 26 136)) (ask_key (Some $"example.org") (v4 172 66 157 237)).
Definition different_names_stay_separate : bool :=
  assert_ne (ask_key (Some $"example.org") (v4 1 2 3 4)) (ask_key (Some $"example.com") (v4 1 2 3 4)).
Definition without_a_name_the_address_is_the_key : bool :=
  all_of [assert_eq (ask_key None (v4 1 2 3 4)) $"1.2.3.4";
          assert_ne (ask_key None (v4 1 2 3 4)) (ask_key None (v4 1 2 3 5))].
Definition placeholder_hostnames_are_not_names : bool :=
  all_of [assert_eq (ask_key (Some $"-") (v4 1 2 3 4)) $"1.2.3.4"; assert_eq (ask_key (Some []) (v4 1 2 3 4)) $"1.2.3.4";
          assert_ne (ask_key (Some $"-") (v4 1 2 3 4)) (ask_key (Some $"-") (v4 5 6 7 8))].
Definition names_are_matched_case_insensitively : bool :=
  assert_eq (ask_key (Some $"Example.ORG") (v4 1 2 3 4)) (ask_key (Some $"example.org") (v4 9 9 9 9)).
Definition address_family_does_not_split_a_name : bool :=
  assert_eq (ask_key (Some $"example.org") (address $"2606:2800:220:1::248")) (ask_key (Some $"example.org") (v4 1 2 3 4)).

Example ask_key_tests_pass :
  all_of [one_name_on_many_addresses_is_one_question; different_names_stay_separate;
    without_a_name_the_address_is_the_key; placeholder_hostnames_are_not_names;
    names_are_matched_case_insensitively; address_family_does_not_split_a_name] = true.
Proof. vm_compute. reflexivity. Qed.
